(* ===== verification/_CoqProject ===== *)
-Q . S2P
Prelude.v
Rounding.v
Float64.v
RclcppAction.v
RttServices.v
RosNode.v
RttActionServer.v
SimpleActionServer.v
ActionSystem.v
ActionOutcomes.v
RosImport.v
RttTypes.v
Primitives.v
TimeConversions.v
RclcppTypekit.v
TypekitMembers.v
Params.v
ParamSessions.v
Services.v
ServiceSessions.v
NestedCalls.v
Topics.v
Publisher.v
Subscription.v
TopicPipeline.v
Introspection.v
KdlProperties.v
KdlTransports.v
KdlMembers.v
KdlTypekit.v
Instantiations.v
GeneratedPlugins.v
MessagePackages.v
