(* ===== verification/Prelude.v ===== *)
(** * A verification of rtt_ros2_integration

    The repository connects two robotics frameworks: components of the Orocos
    Real-Time Toolkit (RTT) and ROS 2 ([rclcpp], [rclcpp_action]). This development
    models the C++ logic of its packages as executable definitions and proves what
    makes each of them correct, or where it is not. RTT, rclcpp, KDL, libxml2 and
    the ament index are not part of the repository: what the code uses of them is a
    class of operations, with a class of laws that restate their documentation, and
    a concrete instance on which every theorem with hypotheses is applied once (the
    lemmas named [..._witness]).

    ** The parts, and where they are

    - [Prelude]: outcomes of C++ calls ([Ok], [Throw]), state passing, machine
      integers, automation.
    - [RclcppAction]: the interface of [rclcpp_action] (goal handles and their state
      machine) and its reference instance.
    - [RttServices]: the interfaces of RTT services and components, rclcpp nodes and
      executors, with reference instances.
    - [RosNode] ([rtt_ros2_node]): the node service, its spinner thread (which may be late),
      the lookup of the node of a component, node creation, plugin loading. [getNode] is
      what the other packages call to find their ROS node.
    - [RttActionServer] ([rtt_ros2_actions/rtt_action_server.hpp]): which operation or
      callback answers a request; connection and shutdown.
    - [SimpleActionServer] ([rtt_ros2_actions/simple_action_server.hpp]): the server
      with one active and one pending goal. [slots] is the state under its mutex; a
      function per locked region, which takes the transitions the library makes inside
      it ([interference]); the abstract server [aserver] is the contract.
    - [ActionSystem]: the same class at work, as steps of the executor of rclcpp, the
      owner's thread with its message queue and user hooks, and other threads; a step
      ends with the destruction of the goal handles nobody holds; every step refines a
      transition of an abstract system of goals, slots and queue. [ActionOutcomes]: what
      becomes of goals whose cancellation was accepted, of those the class lets go of,
      and of those a server is shut down on.
    - [RosImport] ([rtt_ros2/src]): [find] and [import] of packages with their plugin
      dependencies.
    - [Rounding]: what the IEEE 754 rounding of the Standard Library's [SpecFloat] does,
      for any format. [Float64]: [double] and [float], and the casts of C++.
    - [RttTypes]: RTT's type repository as an interface, and what a sequence of
      registrations adds to it; the typekits of rclcpp and KDL are its clients.
    - [Primitives] ([rtt_ros2_primitives_typekit]): the primitive types of ROS and the
      conversions between them, in a repository in which several names may refer to the
      type info of one C++ type.
    - [TimeConversions] ([rtt_ros2_rclcpp_typekit], times): conversions, operators and
      stream operators of times and durations.
    - [RclcppTypekit] ([rtt_ros2_rclcpp_typekit], the plugin): registration of types,
      conversions, operators and constants.
    - [TypekitMembers] ([rtt_ros2_rclcpp_typekit], options, QoS, parameters, and
      [rtt_ros2/getter_setter_datasource.hpp]): member access with the memory of the
      objects referred to.
    - [Params] ([rtt_ros2_params], and the parameter conversions of
      [rtt_ros2_rclcpp_typekit]): the parameter service. [ParamSessions]: sequences of
      its requests, and the log that replays them.
    - [Services] ([rtt_ros2_services]): registry, proxies, and the connection of
      operations and ROS services. [ServiceSessions]: sequences of its requests, against
      a table of connections. [NestedCalls]: the executor of the node, the threads of the
      components that own operations, and the calls that wait for their responses.
    - [Topics], [Publisher] and [Subscription] ([rtt_ros2_topics]): topic names, policies
      and stream creation; the publisher with its waitable as a system of three
      threads; the subscription, the bounded queue of the middleware and the thread that
      destroys the subscription. [TopicPipeline] puts a publisher, the middleware and a
      subscription together, with the queue depths the streams are created with.
    - [Introspection] ([rtt_ros2_idl]): access to message members by name.
    - [KdlProperties] ([kdl_typekit], [kdl_msgs]): property bags (in the configuration of
      [CMakeLists.txt], [ROTATION_PROPERTIES_RPY]) and messages of KDL types. [KdlMembers]: their elements and members in scripts. [KdlTransports]: the
      CORBA and message queue transports. [KdlTypekit]: the plugin that registers
      types, constructors, operators and global operations.
    - [Instantiations]: the explicit template instances of the typekits of KDL and of the
      primitives, in their headers and sources.
    - [GeneratedPlugins] ([rtt_ros2_idl], [rtt_ros2_topics], [rtt_ros2_services]): what
      the templates for message packages expand to (typekit, transport and service
      plugin) and the files the generator of typekits writes.
    - [MessagePackages] (build functions of [rtt_ros2_interfaces], [rtt_ros2]): the plugin
      dependencies of generated plugins, and their import at run time; it puts
      [RosImport], [GeneratedPlugins] and [Introspection] together.

    Every definition that models code is preceded by a comment with the file and
    lines it translates.

    ** What the theorems show

    - Actions: in every reachable state of the server there is at most one executing
      goal, no accepted goal is forgotten, and each goal follows its life cycle
      ([ActionSystem.slots_invariant], [goal_life_cycle]); the methods and handlers
      refine the two-slot contract ([methods_refine_two_slots],
      [handlers_refine_two_slots]); cancel requests are answered for any user hook
      ([cancel_of_active_is_answered]); the result of a cancel request depends on a
      race between two threads ([cancel_outcome_depends_on_schedule]). An accepted
      cancel request always takes its goal out of the server ([cancel_request_settles]);
      no goal is lost without a result, but some get it only from the destruction of
      their handle ([unfinished_goals_are_held]), as those do that are in a slot when the
      server is shut down ([shutdown_cancels_goals]). The mutex does not keep the library
      out: a goal it moves to CANCELING inside [finishActive] can end as ABORTED
      ([goal_life_cycle]).
    - Topics: no lost wake-ups ([no_lost_wakeup]), progress of the executor
      ([executor_drains]), finality of [cancel] ([cancel_is_final]), which subscriptions
      lack ([subscription_callback_race]); from the output port of one component to the
      input port of another, samples come in order and at most once, the newest one
      arrives if the middleware is reliable, and all do if they fit the queues
      ([samples_reach_the_input_port]).
    - Services: any session with the service refines a table of connections, which says
      which calls are answered and which are undefined ([sessions_refine_table],
      [caller_dangles_after_disconnect]); precedence and selection
      ([connect_precedence], [server_uses_first_fitting_variant]); a server that breaks
      ([failed_reconnect_breaks_server]); when the callback of a request returns, and
      when it waits for ever: after a nested call, and when the owner of the operation is
      in a call itself ([service_calls_return_or_block]).
    - Times: which doubles convert and to what, with a bound on the rounded
      nanoseconds ([double_to_rmw_time_t_cases]), exactness for whole seconds
      ([whole_seconds_exact]), round trips with their overflow
      ([rmw_time_uint64_roundtrip]), what is left of a time written to a stream
      ([rmw_time_streams]).
    - Typekits: conversions have the types they are registered with
      ([conversions_well_typed], [kdl_constructors_typed]); the automatic conversions of
      the primitives typekit are those that lose nothing ([implicit_iff_lossless]), and
      those of the rclcpp typekit are found in the intended order ([rclcpp_typekit_loads]); registrations are complete and unambiguous
      ([kdl_typekit_loads], [rclcpp_operators_and_constants]).
    - Members of options: reading and writing them ([node_options_members]), the stale
      cache of nested writes ([nested_write_needs_evaluate]), members of copies that
      are destroyed ([part_members_dangle_on_copies]).
    - Import: order, completeness, termination without and non-termination with cycles
      of dependencies.
    - Parameters: the results of a session determine the parameters and properties
      ([session_log_determines_store]); setters and getters, transfer to and from
      properties, round trips of conversions.
    - Plugins of message packages: members of messages, types, transports and service
      factories of several packages fit together, except for bounded arrays
      ([generated_plugins_fit], [service_plugins_register_types]); importing a message package makes its messages
      and those it uses available ([import_makes_messages_usable]); when the generated and the other typekits with
      explicit instances link ([generated_typekit_links],
      [suppressed_instantiations_are_defined]).
    - Introspection and KDL: look-up of members, in bounds ([element_references]);
      round trips of CORBA sequences and archives ([corba_roundtrip],
      [mqueue_roundtrip]), with the inputs on which they fail
      ([corba_update_cases], [compose_sized_bag]); what comes back of property bags:
      rotations through roll, pitch and yaw ([geometry_bag_roundtrip]), segments without
      name and inertia, chains as copies of their first segment
      ([chain_bag_roundtrip_copies_first]).
    - Nodes: which calls of [spin] and [cancel] return, and that the others wait for ever
      ([spinner_lifecycle]); order of the lookup ([getNodeService_order]), uniqueness
      ([create_node_once], [global_plugin_loads_once]).

    ** Bounds

    The loop of [import] takes fuel: [turns] computes an amount that is enough for
    acyclic dependencies, and no amount is enough on a cycle. The loop that inserts
    underscores runs on fuel equal to the length of the name, which
    [camel_case_conversion] shows to be enough. [work] bounds the moves that bring samples
    to the input port. All other recursion is structural.
    Locked regions are atomic steps among the threads that take the mutex; the
    transitions of [rclcpp_action], which does not, fall between them or inside them, at
    any look at a goal or call on it ([window]). Queues of the middleware have the depth
    the policy of the stream asks for, at least one. Memory orders weaker than sequential
    consistency are not modelled. The operations of a node service are called by one
    thread at a time.

    ** What is not modelled

    Logging and documentation strings; the build rules (CMake) around the generators,
    except for the list of generated sources and the exported plugin dependencies; tests; the definition of
    messages, services and actions, which packages outside of the repository contain;
    declarations without code (members and types of classes whose functions are
    modelled, include guards, getters of constant names). The variants of a service
    type beyond the first are parameters: users specialise a template for them. *)

From stdpp Require Export base tactics list list_numbers strings gmap.
From Stdlib Require Export ZArith.
From Stdlib Require Import Lia.

(** ** Outcomes of fallible C++ code

    [Ok a] is a normal return; [Throw e] is an exception that leaves the call.
    A read of an object that does not exist (undefined behaviour in C++) is not
    an exception: the components that can reach it say so with [option]. *)
Inductive outcome (E A : Type) : Type :=
| Ok (a : A)
| Throw (e : E).
Arguments Ok {E A} a.
Arguments Throw {E A} e.

#[export] Instance outcome_ret E : MRet (outcome E) := fun A a => Ok a.
#[export] Instance outcome_bind E : MBind (outcome E) :=
  fun A B k m => match m with Ok a => k a | Throw e => Throw e end.
#[export] Instance outcome_fmap E : FMap (outcome E) :=
  fun A B f m => match m with Ok a => Ok (f a) | Throw e => Throw e end.

Definition is_ok {E A} (m : outcome E A) : bool :=
  match m with Ok _ => true | Throw _ => false end.

#[export] Instance outcome_eq_dec {E A} `{EqDecision E, EqDecision A} : EqDecision (outcome E A).
Proof. solve_decision. Defined.

(** ** State passing

    A stateful C++ member function of result type [A] is a function from the
    state it reads and writes to the pair of its result and the new state. *)
Definition State (S A : Type) : Type := S -> A * S.

#[export] Instance state_ret S : MRet (State S) := fun A a s => (a, s).
#[export] Instance state_bind S : MBind (State S) :=
  fun A B k m s => let '(a, s') := m s in k a s'.

Definition get_state {S} : State S S := fun s => (s, s).
Definition modify {S} (f : S -> S) : State S unit := fun s => (tt, f s).

(** ** Machine integers

    An integer of [w] bits is the [Z] it denotes; a conversion to it reduces
    modulo [2^w]. *)
Definition umod (w x : Z) : Z := x mod 2 ^ w.
Definition smod (w x : Z) : Z := (x + 2 ^ (w - 1)) mod 2 ^ w - 2 ^ (w - 1).

Definition in_u (w x : Z) : Prop := (0 <= x < 2 ^ w)%Z.
Definition in_s (w x : Z) : Prop := (- 2 ^ (w - 1) <= x < 2 ^ (w - 1))%Z.

#[export] Instance in_u_dec w x : Decision (in_u w x).
Proof. unfold in_u. apply _. Defined.
#[export] Instance in_s_dec w x : Decision (in_s w x).
Proof. unfold in_s. apply _. Defined.

Lemma pow2_split (w : Z) : (0 < w)%Z -> (2 ^ w = 2 * 2 ^ (w - 1))%Z.
Proof. intros Hw. rewrite <- Z.pow_succ_r by lia. f_equal. lia. Qed.

Lemma pow2_pos (w : Z) : (0 <= w)%Z -> (0 < 2 ^ w)%Z.
Proof. intros Hw. apply Z.pow_pos_nonneg; lia. Qed.

Lemma umod_in_u w x : (0 <= w)%Z -> in_u w (umod w x).
Proof. intros Hw. apply Z.mod_pos_bound, pow2_pos, Hw. Qed.

Lemma umod_id w x : in_u w x -> umod w x = x.
Proof. intros Hx. apply Z.mod_small, Hx. Qed.

Lemma smod_in_s w x : (0 < w)%Z -> in_s w (smod w x).
Proof.
  intros Hw. unfold in_s, smod.
  pose proof (pow2_split w Hw) as Hs. pose proof (pow2_pos (w - 1)) as Hp.
  pose proof (Z.mod_pos_bound (x + 2 ^ (w - 1)) (2 ^ w)). lia.
Qed.

Lemma smod_id w x : (0 < w)%Z -> in_s w x -> smod w x = x.
Proof.
  unfold in_s, smod. intros Hw Hx. pose proof (pow2_split w Hw) as Hs.
  rewrite Z.mod_small; lia.
Qed.

(** ** Automation *)
Create HintDb cxx.
#[export] Hint Resolve umod_in_u smod_in_s umod_id smod_id : cxx.

(** Break the first [match] or [if] of the goal on its scrutinee. *)
Ltac split_match :=
  match goal with
  | |- context [match ?x with _ => _ end] => destruct x eqn:?
  end.
