(* ===== verification/Rounding.v ===== *)
(** Rounding of binary floating-point numbers, for any format.

    A format has mantissas of [prec] bits and a maximal exponent [emax], as in
    [SpecFloat] of the Standard Library. The lemmas say what its rounding does:
    it moves a value by at most half a unit of the last place, it does nothing to a
    value that fits, and its results are numbers of the format. *)

From Stdlib Require Import Lia SpecFloat.
From S2P Require Import Prelude.
Local Open Scope Z_scope.

(** ** Number of digits *)

Definition digits (m : positive) : Z := Zpos (digits2_pos m).

Lemma digits_bound (m : positive) : 2 ^ (digits m - 1) <= Zpos m < 2 ^ digits m.
Proof.
  unfold digits. induction m as [p IH|p IH|]; cbn [digits2_pos]; [| |cbn; lia].
  all: rewrite Pos2Z.inj_succ, <- Z.add_1_r, Z.add_simpl_r, (pow2_split (_ + 1)) by lia.
  all: rewrite Z.add_simpl_r; rewrite (pow2_split (Zpos _)) in * by lia; lia.
Qed.

Lemma digits_pos (m : positive) : 0 < digits m.
Proof. unfold digits. lia. Qed.

Lemma digits_unique (m : positive) (k : Z) : 2 ^ (k - 1) <= Zpos m < 2 ^ k -> digits m = k.
Proof.
  intros [Hl Hu]. destruct (digits_bound m) as [Dl Du]. pose proof (digits_pos m).
  assert (0 <= k) by (destruct (decide (0 <= k)); [done|rewrite Z.pow_neg_r in Hu by lia; lia]).
  destruct (decide (k < digits m)).
  - pose proof (Z.pow_le_mono_r 2 k (digits m - 1)). lia.
  - destruct (decide (digits m < k)); [|lia].
    pose proof (Z.pow_le_mono_r 2 (digits m) (k - 1)). lia.
Qed.

Lemma digits_le (m : positive) (k : Z) : Zpos m < 2 ^ k -> digits m <= k.
Proof.
  intros H. destruct (digits_bound m) as [Dl _]. pose proof (digits_pos m).
  assert (0 <= k) by (destruct (decide (0 <= k)); [done|rewrite Z.pow_neg_r in H by lia; lia]).
  destruct (decide (k < digits m)); [|lia].
  pose proof (Z.pow_le_mono_r 2 k (digits m - 1)). lia.
Qed.

Lemma digits_shift (m q : positive) (k : Z) :
  0 <= k -> Zpos q = Zpos m * 2 ^ k -> digits q = digits m + k.
Proof.
  intros Hk E. apply digits_unique. pose proof (digits_pos m). rewrite E.
  replace (digits m + k - 1) with (digits m - 1 + k) by lia.
  rewrite !Z.pow_add_r by lia. pose proof (digits_bound m). nia.
Qed.

Lemma digits_div (m q : positive) (k : Z) :
  0 <= k -> Zpos q = Zpos m / 2 ^ k -> digits q = digits m - k.
Proof.
  intros Hk E. apply digits_unique. destruct (digits_bound m) as [Dl Du].
  pose proof (digits_pos m) as Hd. pose proof (Z.pow_pos_nonneg 2 k).
  assert (k < digits m) as Hlt.
  { destruct (decide (k < digits m)) as [|Hge]; [done|].
    pose proof (Z.pow_le_mono_r 2 (digits m) k). rewrite Z.div_small in E by lia. lia. }
  rewrite E. split.
  - apply Z.div_le_lower_bound; [lia|]. rewrite <- Z.pow_add_r by lia.
    replace (k + (digits m - k - 1)) with (digits m - 1) by lia. done.
  - apply Z.div_lt_upper_bound; [lia|]. rewrite <- Z.pow_add_r by lia.
    replace (k + (digits m - k)) with (digits m) by lia. done.
Qed.

(** ** Shifting to the right

    [shifted m n r]: the record [r] holds [m / 2^n], and its two flags say where
    the remainder lies with respect to one half of [2^n]. *)

Definition rem_location (m n : Z) : location :=
  if decide (m mod 2 ^ n = 0) then loc_Exact
  else loc_Inexact (2 * (m mod 2 ^ n) ?= 2 ^ n).

Definition shifted (m n : Z) (r : shr_record) : Prop :=
  shr_m r = m / 2 ^ n /\ loc_of_shr_record r = rem_location m n.

Lemma shifted_0 (m : Z) : shifted m 0 (shr_record_of_loc m loc_Exact).
Proof.
  split; cbn; [by rewrite Z.div_1_r|].
  unfold rem_location. rewrite decide_True; [done|]. apply Z.mod_1_r.
Qed.

(** One more bit: the quotient is halved, the bit that falls out decides. *)
Lemma rem_split (m n : Z) :
  0 <= n -> m mod 2 ^ (n + 1) = 2 ^ n * (m / 2 ^ n mod 2) + m mod 2 ^ n.
Proof.
  intros Hn. rewrite Z.pow_add_r, Z.pow_1_r by lia.
  rewrite Z.rem_mul_r by (pose proof (Z.pow_pos_nonneg 2 n); lia). lia.
Qed.

Lemma location_step (q q' x p : Z) (b s bit : bool) :
  0 <= x < p ->
  loc_of_shr_record (Build_shr_record q b s) =
    (if decide (x = 0) then loc_Exact else loc_Inexact (2 * x ?= p)) ->
  loc_of_shr_record (Build_shr_record q' bit (b || s)) =
    (if decide (p * Z.b2z bit + x = 0) then loc_Exact
     else loc_Inexact (2 * (p * Z.b2z bit + x) ?= p * 2)).
Proof.
  intros Hx Hl.
  assert (b || s = negb (bool_decide (x = 0))) as ->.
  { case_decide as Hd; [rewrite bool_decide_eq_true_2 by done|rewrite bool_decide_eq_false_2 by done];
      by destruct b, s. }
  clear Hl. destruct bit; cbn [Z.b2z]; rewrite ?Z.mul_1_r, ?Z.mul_0_r, ?Z.add_0_l.
  - rewrite decide_False by lia. destruct (decide (x = 0)) as [->|H0].
    + rewrite bool_decide_eq_true_2 by done. cbn. f_equal. symmetry. apply Z.compare_eq_iff. lia.
    + rewrite bool_decide_eq_false_2 by done. cbn. f_equal. symmetry. apply Z.compare_gt_iff. lia.
  - destruct (decide (x = 0)) as [->|H0]; [by rewrite bool_decide_eq_true_2|].
    rewrite bool_decide_eq_false_2 by done. cbn. f_equal. symmetry. apply Z.compare_lt_iff. lia.
Qed.

Lemma shr_1_shifted (m n : Z) (r : shr_record) :
  0 <= m -> 0 <= n -> shifted m n r -> shifted m (n + 1) (shr_1 r).
Proof.
  intros Hm Hn [Hq Hl]. pose proof (Z.pow_pos_nonneg 2 n) as Hp.
  pose proof (Z.mod_pos_bound m (2 ^ n)) as Hb. pose proof (Z.div_pos m (2 ^ n)) as Hd.
  destruct r as [q b s]. cbn [shr_m] in Hq.
  assert (shr_1 (Build_shr_record q b s) = Build_shr_record (q / 2) (Z.odd q) (b || s)) as ->.
  { rewrite <- Z.div2_div. destruct q as [|[q|q|]|q]; [done..|lia]. }
  split; cbn [shr_m]; [rewrite Z.pow_add_r, <- Z.div_div, Hq by lia; done|].
  unfold rem_location in *. rewrite (rem_split m n), <- Hq, Zmod_odd, Z.pow_add_r by lia.
  change (if Z.odd q then 1 else 0) with (Z.b2z (Z.odd q)).
  apply (location_step q); [lia|done].
Qed.

Lemma iter_shifted (m : Z) (p : positive) : 0 <= m ->
  forall n r, 0 <= n -> shifted m n r -> shifted m (n + Zpos p) (SpecFloat.iter_pos shr_1 p r).
Proof.
  intros Hm. induction p as [p IH|p IH|]; intros n r Hn Hs; cbn [SpecFloat.iter_pos].
  - replace (n + Zpos p~1) with (n + 1 + Zpos p + Zpos p) by lia.
    apply IH; [lia|]. apply IH; [lia|]. by apply shr_1_shifted.
  - replace (n + Zpos p~0) with (n + Zpos p + Zpos p) by lia.
    apply IH; [lia|]. by apply IH.
  - by apply shr_1_shifted.
Qed.

(** Rounding moves the quotient by at most one half, and not if it is exact. *)
Lemma round_nearest_even_bound (m n : Z) (r : shr_record) :
  0 <= n -> shifted m n r ->
  let q := round_nearest_even (shr_m r) (loc_of_shr_record r) in
  - 2 ^ n <= 2 * (q * 2 ^ n - m) <= 2 ^ n /\ (m mod 2 ^ n = 0 -> q = m / 2 ^ n) /\
  m / 2 ^ n <= q <= m / 2 ^ n + 1.
Proof.
  intros Hn [-> ->] q. subst q. unfold rem_location.
  pose proof (Z.pow_pos_nonneg 2 n ltac:(lia) Hn) as Hp. set (p := 2 ^ n) in *.
  pose proof (Z.div_mod m p ltac:(lia)) as E. pose proof (Z.mod_pos_bound m p Hp) as B.
  assert (m / p * p = m - m mod p /\ (m / p + 1) * p = m - m mod p + p) as [E1 E2] by lia.
  case_decide as Hz; cbn [round_nearest_even]; [split_and!; [lia|lia|done|lia|lia]|].
  destruct (Z.compare_spec (2 * (m mod p)) p); try destruct (Z.even (m / p)); split_and!; lia.
Qed.

(** ** Shifting to the left *)

Lemma shl_align_up (m : positive) (e e' : Z) :
  e' <= e -> exists m', shl_align m e e' = (m', e') /\ Zpos m' = Zpos m * 2 ^ (e - e').
Proof.
  intros He. unfold shl_align. destruct (e' - e) as [|p|p] eqn:E; [|lia|].
  - assert (e' = e) as -> by lia. rewrite Z.sub_diag, Z.mul_1_r. by eexists.
  - replace (e - e') with (Zpos p) by lia. eexists. split; [done|]. clear.
    induction p as [|p IH] using Pos.peano_ind; [cbn; lia|].
    rewrite Pos.iter_succ, Pos2Z.inj_xO, (Pos2Z.inj_succ p), Z.pow_succ_r by lia. lia.
Qed.

Lemma shl_align_same (m : positive) (e e' : Z) : e <= e' -> shl_align m e e' = (m, e).
Proof.
  intros He. unfold shl_align. destruct (e' - e) as [|p|p] eqn:E; [|done|lia].
  done.
Qed.

(** ** Formats *)

Class Format (prec emax : Z) : Prop := {
  prec_gt_1 : 1 < prec;
  prec_lt_emax : prec < emax }.

(** [double] and [float] *)
#[export] Instance binary64 : Format 53 1024.
Proof. done. Qed.
#[export] Instance binary32 : Format 24 128.
Proof. done. Qed.

Section Format.
Context {prec emax : Z} {F : Format prec emax}.

Let prec_pos : 1 < prec := prec_gt_1.
Let emax_big : prec < emax := prec_lt_emax.

(** How far [shr_fexp] shifts a mantissa of exponent [e]. *)
Definition excess (m : positive) (e : Z) : Z := Z.max 0 (fexp prec emax (digits m + e) - e).

Lemma excess_nonneg (m : positive) (e : Z) : 0 <= excess m e.
Proof. unfold excess. lia. Qed.

Lemma shr_fexp_shifted (m : positive) (e : Z) :
  exists r, shr_fexp prec emax (Zpos m) e loc_Exact = (r, e + excess m e) /\
            shifted (Zpos m) (excess m e) r.
Proof.
  unfold shr_fexp, excess, shr. cbn [Zdigits2]. fold (digits m).
  destruct (fexp prec emax (digits m + e) - e) as [|p|p] eqn:E.
  - exists (shr_record_of_loc (Zpos m) loc_Exact). rewrite Z.max_id, Z.add_0_r.
    split; [done|apply shifted_0].
  - exists (SpecFloat.iter_pos shr_1 p (shr_record_of_loc (Zpos m) loc_Exact)).
    rewrite Z.max_r by lia. split; [done|].
    apply (iter_shifted (Zpos m) p ltac:(lia) 0); [lia|apply shifted_0].
  - exists (shr_record_of_loc (Zpos m) loc_Exact). rewrite Z.max_l, Z.add_0_r by lia.
    split; [done|apply shifted_0].
Qed.

(** ** Rounding a positive number *)

(** The number of mantissa [q <= 2^prec] and exponent [e]. *)
Definition pack (s : bool) (q e : Z) : spec_float :=
  match q with
  | Zpos p =>
      let '(p, e) := if decide (q = 2 ^ prec) then (Z.to_pos (2 ^ (prec - 1)), e + 1) else (p, e) in
      if e <=? emax - prec then S754_finite s p e else S754_infinity s
  | _ => S754_zero s
  end.

Lemma fexp_emin (x : Z) : 3 - emax - prec <= fexp prec emax x.
Proof. unfold fexp, emin. lia. Qed.

Lemma excess_small (m : positive) (e : Z) :
  digits m <= prec -> 3 - emax - prec <= e -> excess m e = 0.
Proof. unfold excess, fexp, emin. lia. Qed.

Lemma excess_emin (m : positive) (e : Z) : 3 - emax - prec <= e + excess m e.
Proof. unfold excess. pose proof (fexp_emin (digits m + e)). lia. Qed.

(** The second look of the rounding at the exponent only matters after a carry. *)
Lemma renormalize (s : bool) (q e : Z) :
  0 <= q <= 2 ^ prec -> 3 - emax - prec <= e ->
  (let '(r, e') := shr_fexp prec emax q e loc_Exact in
   match shr_m r with
   | Z0 => S754_zero s
   | Zpos m => if e' <=? emax - prec then S754_finite s m e' else S754_infinity s
   | _ => S754_nan
   end) = pack s q e.
Proof.
  intros Hq He. pose proof prec_pos. destruct q as [|p|p]; [| |lia].
  - unfold shr_fexp, shr, fexp, emin. cbn [Zdigits2].
    destruct (Z.max _ _ - e) eqn:E; [done|lia|done].
  - destruct (shr_fexp_shifted p e) as (r & -> & [-> _]). unfold pack.
    case_decide as Hcarry.
    + rewrite Hcarry. assert (excess p e = 1) as ->.
      { unfold excess, fexp, emin. rewrite (digits_unique p (prec + 1)); [lia|].
        rewrite Hcarry, Z.add_simpl_r. split; [done|]. apply Z.pow_lt_mono_r; lia. }
      rewrite (pow2_split prec), Z.pow_1_r, Z.mul_comm, Z.div_mul by lia.
      rewrite <- (Z2Pos.id (2 ^ (prec - 1))) at 1; [done|]. apply Z.pow_pos_nonneg; lia.
    + rewrite excess_small, Z.add_0_r, Z.div_1_r by (done || apply digits_le; lia). done.
Qed.

Lemma round_aux_spec (s : bool) (m : positive) (e : Z) :
  exists q, binary_round_aux prec emax s (Zpos m) e loc_Exact = pack s q (e + excess m e) /\
    0 <= q <= 2 ^ prec /\ 2 * (q * 2 ^ excess m e - Zpos m) <= 2 ^ excess m e /\
    (Zpos m mod 2 ^ excess m e = 0 -> q = Zpos m / 2 ^ excess m e) /\
    Zpos m / 2 ^ excess m e <= q <= Zpos m / 2 ^ excess m e + 1 /\
    Zpos m / 2 ^ excess m e < 2 ^ prec.
Proof.
  pose proof prec_pos. unfold binary_round_aux. destruct (shr_fexp_shifted m e) as (r & -> & Hr).
  pose proof (excess_nonneg m e) as Hn. set (n := excess m e) in *.
  destruct (round_nearest_even_bound (Zpos m) n r Hn Hr) as ([_ Hb] & Hx & Hq).
  set (q := round_nearest_even _ _) in *. exists q.
  assert (Zpos m / 2 ^ n < 2 ^ prec) as Hlt.
  { apply Z.div_lt_upper_bound; [lia|]. rewrite <- Z.pow_add_r by lia.
    apply Z.lt_le_trans with (2 ^ digits m); [apply digits_bound|].
    apply Z.pow_le_mono_r; [lia|]. unfold n, excess, fexp. lia. }
  assert (0 <= q <= 2 ^ prec) as Hq'.
  { pose proof (Z.pow_pos_nonneg 2 n). pose proof (Z.div_pos (Zpos m) (2 ^ n)). lia. }
  split_and!; [|lia|lia|done|done|lia|lia|done].
  apply (renormalize s q (e + n)); [done|apply excess_emin].
Qed.

(** A mantissa that only loses zeros is kept exactly. *)
Lemma round_aux_exact (s : bool) (m q : positive) (e : Z) :
  Zpos m = Zpos q * 2 ^ excess m e -> Zpos q < 2 ^ prec -> e + excess m e <= emax - prec ->
  binary_round_aux prec emax s (Zpos m) e loc_Exact = S754_finite s q (e + excess m e).
Proof.
  intros E Hq He. destruct (round_aux_spec s m e) as (q' & -> & _ & _ & Hx & _).
  pose proof (Z.pow_pos_nonneg 2 (excess m e) ltac:(lia) (excess_nonneg m e)).
  assert (q' = Zpos q) as ->.
  { rewrite Hx; rewrite E; [by apply Z.div_mul; lia|by apply Z.mod_mul; lia]. }
  unfold pack. rewrite decide_False by lia. by rewrite (proj2 (Z.leb_le _ _) He).
Qed.

(** ** Exact results *)

(** A number of at most [prec] bits is not rounded: it only gets its canonical form. *)
Lemma round_exact (s : bool) (m : positive) (e : Z) :
  Zpos m < 2 ^ prec -> 3 - emax - prec <= e <= emax - prec ->
  let c := fexp prec emax (digits m + e) in
  exists m', binary_round prec emax s m e = S754_finite s m' c /\ c <= e /\
             Zpos m' = Zpos m * 2 ^ (e - c) /\ Zpos m' < 2 ^ prec.
Proof.
  intros Hm He c. pose proof (digits_le m prec Hm) as Hd. pose proof (fexp_emin (digits m + e)) as Hc.
  assert (c <= e) as Hce by (subst c; unfold fexp, emin; lia).
  destruct (shl_align_up m e c Hce) as (m' & E & Em). exists m'.
  assert (digits m' = digits m + (e - c)) as Hd' by (apply digits_shift; [lia|done]).
  assert (digits m' <= prec) as Hdp by (rewrite Hd'; subst c; unfold fexp in *; lia).
  assert (Zpos m' < 2 ^ prec) as Hm'.
  { apply Z.lt_le_trans with (2 ^ digits m'); [apply digits_bound|].
    by apply Z.pow_le_mono_r; [lia|]. }
  assert (excess m' c = 0) as Hx by (apply excess_small; done).
  unfold binary_round. fold (digits m). fold c. rewrite E. split_and!; [|done..].
  rewrite (round_aux_exact s m' m' c); rewrite ?Hx, ?Z.add_0_r; lia || done.
Qed.

(** ** Results are numbers of the format *)

Lemma finite_valid (s : bool) (m : positive) (e : Z) :
  valid_binary prec emax (S754_finite s m e) = true <->
  fexp prec emax (digits m + e) = e /\ e <= emax - prec.
Proof. cbn. unfold bounded, canonical_mantissa. by rewrite andb_true_iff, Z.eqb_eq, Z.leb_le. Qed.

Lemma valid_mantissa (s : bool) (m : positive) (e : Z) :
  valid_binary prec emax (S754_finite s m e) = true ->
  Zpos m < 2 ^ prec /\ 3 - emax - prec <= e <= emax - prec.
Proof.
  rewrite finite_valid. intros [Hc He]. pose proof prec_pos.
  assert (digits m <= prec) by (unfold fexp in Hc; lia). split.
  - apply Z.lt_le_trans with (2 ^ digits m); [apply digits_bound|by apply Z.pow_le_mono_r].
  - split; [|done]. rewrite <- Hc. apply fexp_emin.
Qed.

Lemma pack_valid (s : bool) (q e : Z) :
  0 <= q <= 2 ^ prec -> 3 - emax - prec <= e -> e = 3 - emax - prec \/ 2 ^ (prec - 1) <= q ->
  valid_binary prec emax (pack s q e) = true.
Proof.
  intros Hq He Hn. pose proof prec_pos. unfold pack.
  destruct q as [|p|p]; [done| |done]. case_decide as Hcarry.
  - destruct (e + 1 <=? emax - prec) eqn:E; [|done]. apply Z.leb_le in E.
    apply finite_valid. split; [|done]. unfold fexp, emin.
    rewrite (digits_unique _ prec); [lia|].
    rewrite Z2Pos.id by (apply Z.pow_pos_nonneg; lia). split; [done|]. apply Z.pow_lt_mono_r; lia.
  - destruct (e <=? emax - prec) eqn:E; [|done]. apply Z.leb_le in E.
    apply finite_valid. split; [|done]. unfold fexp, emin.
    pose proof (digits_le p prec ltac:(lia)). destruct Hn as [->|Hn]; [lia|].
    rewrite (digits_unique p prec) by lia. lia.
Qed.

Lemma round_aux_valid (s : bool) (m : positive) (e : Z) :
  e <= fexp prec emax (digits m + e) ->
  valid_binary prec emax (binary_round_aux prec emax s (Zpos m) e loc_Exact) = true.
Proof.
  intros He. destruct (round_aux_spec s m e) as (q & -> & Hq & _ & _ & Hm & _).
  apply pack_valid; [done|apply excess_emin|]. pose proof prec_pos.
  unfold excess in *. rewrite Z.max_r in * by lia.
  replace (e + (fexp prec emax (digits m + e) - e)) with (fexp prec emax (digits m + e)) by lia.
  destruct (decide (fexp prec emax (digits m + e) = 3 - emax - prec)) as [|Hne]; [by left|right].
  assert (fexp prec emax (digits m + e) = digits m + e - prec) as Ef by (unfold fexp, emin in *; lia).
  rewrite Ef in *. etrans; [|apply Hm].
  apply Z.div_le_lower_bound; [apply Z.pow_pos_nonneg; lia|]. rewrite <- Z.pow_add_r by lia.
  replace (digits m + e - prec - e + (prec - 1)) with (digits m - 1) by lia.
  apply digits_bound.
Qed.

Lemma binary_round_valid (s : bool) (m : positive) (e : Z) :
  valid_binary prec emax (binary_round prec emax s m e) = true.
Proof.
  unfold binary_round. fold (digits m). set (c := fexp prec emax (digits m + e)).
  destruct (decide (c <= e)) as [Hc|Hc].
  - destruct (shl_align_up m e c Hc) as (m' & -> & Em). apply round_aux_valid.
    rewrite (digits_shift m m' (e - c)) by (lia || done).
    replace (digits m + (e - c) + c) with (digits m + e) by lia. done.
  - rewrite shl_align_same by lia. apply round_aux_valid. fold c. lia.
Qed.

Lemma binary_normalize_valid (z e : Z) :
  valid_binary prec emax (binary_normalize prec emax z e false) = true.
Proof. destruct z; [done|apply binary_round_valid..]. Qed.

(** A number written with a longer mantissa and a smaller exponent is recognized. *)
Lemma round_longer (s : bool) (m m' : positive) (e c : Z) :
  valid_binary prec emax (S754_finite s m e) = true -> c <= e -> Zpos m' = Zpos m * 2 ^ (e - c) ->
  binary_round prec emax s m' c = S754_finite s m e.
Proof.
  intros Hv Hc Em. pose proof (valid_mantissa _ _ _ Hv) as [Hm He].
  apply finite_valid in Hv as [Hf _].
  assert (digits m' + c = digits m + e) as Hd by (rewrite (digits_shift m m' (e - c)) by (lia || done); lia).
  assert (excess m' c = e - c) as Hx by (unfold excess; rewrite Hd, Hf; lia).
  unfold binary_round. fold (digits m'). rewrite Hd, Hf, shl_align_same by done.
  rewrite (round_aux_exact s m' m c); rewrite ?Hx, ?Em; [f_equal; lia|done|done|lia].
Qed.
End Format.
Arguments excess prec emax m e : clear implicits.
Arguments pack prec emax s q e : clear implicits.
