(* ===== verification/Float64.v ===== *)
(** Arithmetic of [double] for the conversions of times.

    A [double] is a binary64 number of IEEE 754: the executable model of the
    Standard Library ([SpecFloat]) at precision 53 and maximal exponent 1024,
    rounding to nearest, ties to even. Casts between integers and [double] are
    those of C++: to [double] rounds, from [double] truncates and is undefined
    ([None]) for a number the integer type cannot represent.

    The lemmas say what the time conversions need: which results are exact, and bounds
    on those that are not. *)

From Stdlib Require Import Lia SpecFloat.
From S2P Require Import Prelude.
From S2P Require Export Rounding.
Local Open Scope Z_scope.

(** ** Operations *)

Abbreviation float64 := spec_float.

Definition fadd : float64 -> float64 -> float64 := SFadd 53 1024.
Definition fsub : float64 -> float64 -> float64 := SFsub 53 1024.
Definition fmul : float64 -> float64 -> float64 := SFmul 53 1024.
Definition fdiv : float64 -> float64 -> float64 := SFdiv 53 1024.
Definition valid (d : float64) : bool := valid_binary 53 1024 d.

(** [static_cast<double>(n)] for an integer [n]. *)
Definition of_int (n : Z) : float64 := binary_normalize 53 1024 n 0 false.

(** The value without its fraction; not for infinities and NaN. *)
Definition truncate (d : float64) : option Z :=
  match d with
  | S754_zero _ => Some 0
  | S754_finite s m e =>
      let v := if 0 <=? e then Zpos m * 2 ^ e else Zpos m / 2 ^ (- e) in
      Some (if s then - v else v)
  | S754_infinity _ | S754_nan => None
  end.

(** [static_cast<uint64_t>(d)] and the conversion to [int64_t]. *)
Definition to_uint64 (d : float64) : option Z :=
  z ← truncate d; if decide (in_u 64 z) then Some z else None.
Definition to_int64 (d : float64) : option Z :=
  z ← truncate d; if decide (in_s 64 z) then Some z else None.

(** The literals [1e9] and [1e-9]: the doubles nearest to these numbers. *)
Definition lit_1e9 : float64 := of_int 1000000000.
Definition lit_1e_9 : float64 := fdiv (of_int 1) (of_int 1000000000).

(** A double without a fraction is the conversion of its value. *)
Lemma of_int_integral (m : positive) (e : Z) :
  valid (S754_finite false m e) = true -> 0 <= e ->
  of_int (Zpos m * 2 ^ e) = S754_finite false m e.
Proof.
  intros [Hc He]%andb_prop H0. apply Z.eqb_eq in Hc. apply Z.leb_le in He. fold (digits m) in Hc.
  destruct (Zpos m * 2 ^ e) as [|p|p] eqn:E; [nia| |nia].
  assert (digits p = digits m + e) as Hd by (by apply digits_shift).
  assert (digits m <= 53) by (unfold fexp in Hc; lia).
  assert (excess 53 1024 p 0 = e) as Hx by (unfold excess; rewrite Z.add_0_r, Hd, Hc; lia).
  unfold of_int, binary_normalize, binary_round. fold (digits p).
  rewrite shl_align_same by (rewrite Z.add_0_r, Hd, Hc; lia).
  rewrite (round_aux_exact false p m 0); rewrite ?Hx; [done|by rewrite E| |lia].
  apply Z.lt_le_trans with (2 ^ digits m); [apply digits_bound|by apply Z.pow_le_mono_r].
Qed.

(** The whole part of a double with a fraction is converted exactly. *)
Lemma of_int_floor (m q : positive) (e : Z) :
  valid (S754_finite false m e) = true -> e < 0 -> Zpos q = Zpos m / 2 ^ (- e) ->
  exists m', of_int (Zpos q) = S754_finite false m' e /\ Zpos m' = Zpos q * 2 ^ (- e).
Proof.
  intros [Hc He]%andb_prop H0 Eq. apply Z.eqb_eq in Hc. fold (digits m) in Hc.
  assert (digits q = digits m + e) as Hd by (rewrite (digits_div m q (- e)); [lia..|done]).
  assert (digits m <= 53) by (unfold fexp in Hc; lia).
  assert (Zpos q < 2 ^ 53) as Hq.
  { apply Z.lt_le_trans with (2 ^ digits q); [apply digits_bound|apply Z.pow_le_mono_r; lia]. }
  destruct (round_exact (prec := 53) (emax := 1024) false q 0 Hq ltac:(lia)) as (m' & E & _ & Em & _).
  rewrite Z.add_0_r, Hd, Hc in E, Em. exists m'. split; [exact E|].
  by rewrite Z.sub_0_l in Em.
Qed.

Lemma fsub_same_exponent (m m' : positive) (e : Z) :
  fsub (S754_finite false m e) (S754_finite false m' e) =
    binary_normalize 53 1024 (Zpos m - Zpos m') e false.
Proof.
  unfold fsub. cbn [SFsub cond_Zopp]. by rewrite Z.min_id, !shl_align_same by lia.
Qed.

(** ** The fraction of a double *)

(** [f] is zero, or a positive double below one with its mantissa and exponent. *)
Inductive fraction : float64 -> Prop :=
| fraction_zero s : fraction (S754_zero s)
| fraction_finite r c :
    -1074 <= c < 0 -> Zpos r < 2 ^ (- c) -> Zpos r < 2 ^ 53 -> fraction (S754_finite false r c).

(** Subtracting the truncated value of a double that is not negative is exact. *)
Lemma fraction_sub_floor (m : positive) (e z : Z) :
  let d := S754_finite false m e in
  valid d = true -> truncate d = Some z -> fraction (fsub d (of_int z)).
Proof.
  intros d Hv Hz. pose proof Hv as [Hc He]%andb_prop.
  apply Z.eqb_eq in Hc. apply Z.leb_le in He. fold (digits m) in Hc.
  assert (digits m <= 53 /\ -1074 <= e) as [Hd He'] by (unfold fexp, emin in Hc; lia).
  assert (Zpos m < 2 ^ 53) as Hm.
  { apply Z.lt_le_trans with (2 ^ digits m); [apply digits_bound|by apply Z.pow_le_mono_r]. }
  subst d. cbn in Hz. destruct (0 <=? e) eqn:E; [apply Z.leb_le in E|apply Z.leb_gt in E];
    injection Hz as <-.
  { rewrite of_int_integral, fsub_same_exponent, Z.sub_diag by done. constructor. }
  pose proof (Z.pow_pos_nonneg 2 (- e)) as Hp. set (p := 2 ^ (- e)) in *.
  pose proof (Z.div_mod (Zpos m) p) as Edm. pose proof (Z.mod_pos_bound (Zpos m) p) as B.
  destruct (Zpos m / p) as [|q|q] eqn:Eq; [..|pose proof (Z.div_pos (Zpos m) p); lia].
  { apply fraction_finite; [done| |done]. fold p. lia. }
  destruct (of_int_floor m q e Hv E ltac:(by rewrite <- Eq)) as (m' & -> & Em).
  fold p in Em. rewrite fsub_same_exponent.
  replace (Zpos m - Zpos m') with (Zpos m mod p) by lia.
  destruct (Zpos m mod p) as [|r|r] eqn:Er; [constructor| |lia].
  destruct (round_exact (prec := 53) (emax := 1024) false r e ltac:(lia) ltac:(lia)) as (r' & Ef & Hle & Er' & Hr').
  cbn [binary_normalize]. rewrite Ef. set (c := fexp 53 1024 (digits r + e)) in *.
  apply fraction_finite; [split; [apply (fexp_emin (prec := 53) (emax := 1024))|lia]| |done].
  rewrite Er'. replace (2 ^ (- c)) with (p * 2 ^ (e - c)); [|subst p; rewrite <- Z.pow_add_r by lia; f_equal; lia].
  apply Z.mul_lt_mono_pos_r; [apply Z.pow_pos_nonneg; lia|lia].
Qed.

Lemma lit_1e9_value : lit_1e9 = S754_finite false 8388608000000000 (-23).
Proof. reflexivity. Qed.

(** What is below [B] units before truncation stays below [B] after [pack]. *)
Lemma truncate_pack_lt (q e B : Z) :
  0 <= q <= 2 ^ 53 -> e < -1 -> q < B * 2 ^ (- e) ->
  exists v, truncate (pack 53 1024 false q e) = Some v /\ 0 <= v < B.
Proof.
  intros Hq He HB. pose proof (Z.pow_pos_nonneg 2 (- e)) as Hp.
  assert (forall x k, 0 < x -> k < 0 -> x < B * 2 ^ (- k) ->
            exists v, truncate (S754_finite false (Z.to_pos x) k) = Some v /\ 0 <= v < B) as Hf.
  { intros x k Hx Hk Hlt. cbn. rewrite (proj2 (Z.leb_gt _ _) Hk), Z2Pos.id by done.
    eexists. split; [done|]. split; [apply Z.div_pos; lia|].
    apply Z.div_lt_upper_bound; [apply Z.pow_pos_nonneg|]; lia. }
  unfold pack. destruct q as [|p|p]; [|case_decide as H53|lia].
  - exists 0. cbn. split; [done|]. nia.
  - rewrite (proj2 (Z.leb_le (e + 1) (1024 - 53))) by lia. apply (Hf (2 ^ (53 - 1))); [lia..|].
    rewrite (pow2_split (- e)) in HB by lia. replace (- (e + 1)) with (- e - 1) by lia. lia.
  - rewrite (proj2 (Z.leb_le e (1024 - 53))) by lia. apply (Hf (Zpos p)); lia.
Qed.

(** A fraction times [1e9] truncates to less than [10^9], although the product is rounded. *)
Lemma fraction_1e9 (f : float64) :
  fraction f -> exists v, truncate (fmul f lit_1e9) = Some v /\ 0 <= v < 1000000000.
Proof.
  rewrite lit_1e9_value. intros [s|r c Hc Hr H53].
  { exists 0. split; [done|lia]. }
  cbn [fmul SFmul xorb]. set (P := (r * 8388608000000000)%positive). set (e := c + -23).
  destruct (round_aux_spec (prec := 53) (emax := 1024) false P e) as (q & -> & Hq & Hb & _).
  pose proof (excess_nonneg (prec := 53) (emax := 1024) P e) as Hn0.
  assert (digits P <= 106) as HdP.
  { apply digits_le. subst P. rewrite Pos2Z.inj_mul. change (2 ^ 106) with (2 ^ 53 * 2 ^ 53). nia. }
  assert (digits P + e <= 30) as HdPe.
  { assert (digits P <= 30 - e); [|lia]. apply digits_le. subst P e.
    rewrite Pos2Z.inj_mul. replace (30 - (c + -23)) with (- c + 53) by lia.
    rewrite Z.pow_add_r by lia. change (2 ^ 53) with 9007199254740992 in *. nia. }
  assert (excess 53 1024 P e <= 53) as Hn by (unfold excess, fexp, emin; lia).
  assert (e + excess 53 1024 P e <= -23) as He1 by (unfold excess, fexp, emin; lia).
  set (n := excess 53 1024 P e) in *. apply truncate_pack_lt; [done|lia|].
  assert (1000000000 * 2 ^ (- (e + n)) * 2 ^ n = 8388608000000000 * 2 ^ (- c)) as EG.
  { rewrite <- Z.mul_assoc, <- Z.pow_add_r by lia.
    replace (- (e + n) + n) with (23 + - c) by lia. rewrite Z.pow_add_r by lia. lia. }
  pose proof (Z.pow_le_mono_r 2 n 53 ltac:(lia) Hn) as Hpn.
  pose proof (Z.pow_pos_nonneg 2 n ltac:(lia) Hn0) as Hp.
  set (G := 1000000000 * 2 ^ (- (e + n))) in *.
  assert (Zpos P = Zpos r * 8388608000000000) as EP by (subst P; lia).
  change (2 ^ 53) with 9007199254740992 in *. nia.
Qed.

(** A whole number of up to [2^53 / 5^9] times [1e9] is exact. *)
Lemma whole_1e9 (s : bool) (k : positive) :
  Zpos k <= 4611686018 ->
  truncate (fmul (binary_round 53 1024 s k 0) lit_1e9) =
    Some (if s then - (Zpos k * 1000000000) else Zpos k * 1000000000).
Proof.
  intros Hk. destruct (round_exact (prec := 53) (emax := 1024) s k 0 ltac:(lia) ltac:(lia)) as (m' & -> & Hc0 & Em & Hm').
  rewrite Z.add_0_r in *. pose proof (digits_le k 53 ltac:(lia)) as Hd. pose proof (digits_pos k).
  set (c := fexp 53 1024 (digits k)) in *. rewrite Z.sub_0_l in Em.
  assert (-53 <= c) as Hc by (subst c; unfold fexp, emin; lia).
  rewrite lit_1e9_value. cbn [fmul SFmul]. rewrite xorb_false_r.
  set (P := (m' * 8388608000000000)%positive). set (e := c + -23).
  set (w := (k * 1953125)%positive).
  assert (Zpos P = Zpos w * 2 ^ (- c + 32)) as EP.
  { subst P w. rewrite !Pos2Z.inj_mul, Em, Z.pow_add_r by lia. lia. }
  pose proof (digits_shift w P (- c + 32) ltac:(lia) EP) as HdP.
  pose proof (digits_le w 53 ltac:(subst w; lia)) as Hdw. pose proof (digits_pos w).
  assert (0 <= excess 53 1024 P e <= - c + 32 /\ digits w + (- c + 32) - 53 <= excess 53 1024 P e) as [Hn Hn53]
    by (unfold excess, fexp, emin; rewrite HdP; subst e; lia).
  set (n := excess 53 1024 P e) in *. set (q := Z.to_pos (Zpos w * 2 ^ (- c + 32 - n))).
  assert (Zpos q = Zpos w * 2 ^ (- c + 32 - n)) as Eq.
  { apply Z2Pos.id. apply Z.mul_pos_pos; [lia|apply Z.pow_pos_nonneg; lia]. }
  pose proof (digits_shift w q (- c + 32 - n) ltac:(lia) Eq) as Hdq.
  rewrite (round_aux_exact s P q e); fold n; [| | |lia].
  - assert (forall v, Zpos w * 2 ^ 9 = v -> v = Zpos k * 1000000000) as Ev by (subst w; lia).
    cbn [truncate]. f_equal. destruct (0 <=? e + n) eqn:E.
    + apply Z.leb_le in E. rewrite Eq, <- Z.mul_assoc, <- Z.pow_add_r by lia.
      replace (- c + 32 - n + (e + n)) with 9 by lia. by rewrite (Ev _ eq_refl).
    + apply Z.leb_gt in E. replace (- c + 32 - n) with (9 + - (e + n)) in Eq by lia.
      rewrite Z.pow_add_r, Z.mul_assoc, (Ev _ eq_refl) in Eq by lia.
      rewrite Eq, Z.div_mul; [done|]. apply Z.pow_nonzero; lia.
  - rewrite EP, Eq, <- Z.mul_assoc, <- Z.pow_add_r by lia. do 2 f_equal. lia.
  - apply Z.lt_le_trans with (2 ^ digits q); [apply digits_bound|apply Z.pow_le_mono_r; lia].
Qed.

(** ** Whole numbers *)

Lemma of_int_sign (s : bool) (k : positive) :
  of_int (if s then Zneg k else Zpos k) = binary_round 53 1024 s k 0.
Proof. by destruct s. Qed.

Lemma truncate_of_int (k : positive) :
  Zpos k < 2 ^ 53 -> exists m c, of_int (Zpos k) = S754_finite false m c /\
                                 truncate (of_int (Zpos k)) = Some (Zpos k).
Proof.
  intros Hk. destruct (round_exact (prec := 53) (emax := 1024) false k 0 Hk ltac:(lia)) as (m & E & Hc & Em & _).
  exists m. eexists. split; [exact E|]. rewrite (of_int_sign false k : of_int (Zpos k) = _), E.
  set (c := fexp 53 1024 (digits k + 0)) in *. rewrite Z.sub_0_l in Em. cbn [truncate]. f_equal.
  destruct (0 <=? c) eqn:H0; [apply Z.leb_le in H0|].
  - assert (c = 0) as -> by lia. cbn in *. lia.
  - rewrite Em, Z.div_mul; [done|]. apply Z.pow_nonzero; lia.
Qed.

Lemma to_uint64_Some (d : float64) (z : Z) :
  to_uint64 d = Some z <-> truncate d = Some z /\ in_u 64 z.
Proof.
  unfold to_uint64. destruct (truncate d) as [v|]; cbn; [|naive_solver].
  case_decide; naive_solver.
Qed.

Lemma to_uint64_of_int (n : Z) : 0 <= n < 2 ^ 53 -> to_uint64 (of_int n) = Some n.
Proof.
  intros Hn. apply to_uint64_Some. split; [|unfold in_u; lia].
  destruct n as [|k|k]; [done| |lia]. by destruct (truncate_of_int k ltac:(lia)) as (m & c & _ & ->).
Qed.

(** ** [float], and the conversions between the two formats *)

Definition valid32 (f : spec_float) : bool := valid_binary 24 128 f.

(** [static_cast<float>(d)] rounds, [static_cast<double>(f)] does not change the value. *)
Definition to_float (d : spec_float) : spec_float :=
  match d with S754_finite s m e => binary_round 24 128 s m e | _ => d end.
Definition to_double (f : spec_float) : spec_float :=
  match f with S754_finite s m e => binary_round 53 1024 s m e | _ => f end.
(** [static_cast<float>(n)] for an integer [n]. *)
Definition float_of_int (n : Z) : spec_float := binary_normalize 24 128 n 0 false.

Lemma to_float_valid (d : spec_float) : valid32 (to_float d) = true.
Proof. destruct d; [done..|]. apply binary_round_valid. Qed.
Lemma to_double_valid (f : spec_float) : valid (to_double f) = true.
Proof. destruct f; [done..|]. apply binary_round_valid. Qed.

Lemma to_float_to_double (f : spec_float) : valid32 f = true -> to_float (to_double f) = f.
Proof.
  destruct f as [| | |s m e]; [done..|]. intros Hv. cbn [to_double].
  destruct (valid_mantissa (prec := 24) (emax := 128) s m e Hv) as [Hm He].
  destruct (round_exact (prec := 53) (emax := 1024) s m e ltac:(lia) ltac:(lia))
    as (m' & -> & Hc & Em & _).
  cbn [to_float]. by apply round_longer.
Qed.
