(* ===== verification/RclcppAction.v ===== *)
(** The part of [rclcpp_action] the action servers call, as an interface.

    [rclcpp_action] is not part of the repository, so it is a class: [ActionOps]
    holds the calls the repository makes, [ActionLaws] the documented behaviour
    of the goal state machine (the ROS 2 "Actions" design article and the
    [ServerGoalHandle] documentation):
    - a goal accepted by the server is ACCEPTED; [execute] moves it to
      EXECUTING and throws in any other state;
    - [succeed] and [abort] finish a goal that is EXECUTING or CANCELING,
      [canceled] one that is CANCELING; each throws otherwise;
    - an accepted cancel request moves an ACCEPTED or EXECUTING goal to
      CANCELING ([cancel_goal]) and is refused in any other state;
    - the destructor of a goal handle, which runs when its last owner lets go of
      it, cancels a goal that is not finished ([ServerGoalHandle::try_canceling]):
      the goal ends as CANCELED with a default result; a finished goal is left
      as it is;
    - a call on one goal changes no other goal, and a call that throws changes
      none.
    [Reference] is a concrete instance, on which the witnesses compute. *)

From S2P Require Import Prelude.

(** ** Documented enumerations *)
Inductive GoalResponse := REJECT | ACCEPT_AND_EXECUTE | ACCEPT_AND_DEFER.
Inductive CancelResponse := CANCEL_REJECT | CANCEL_ACCEPT.
Inductive goal_status := ACCEPTED | EXECUTING | CANCELING | SUCCEEDED | CANCELED | ABORTED.

#[export] Instance GoalResponse_eq_dec : EqDecision GoalResponse.
Proof. solve_decision. Defined.
#[export] Instance CancelResponse_eq_dec : EqDecision CancelResponse.
Proof. solve_decision. Defined.
#[export] Instance goal_status_eq_dec : EqDecision goal_status.
Proof. solve_decision. Defined.

(** The states a goal never leaves. *)
Definition terminal (st : goal_status) : bool :=
  match st with SUCCEEDED | CANCELED | ABORTED => true | _ => false end.

(** A known goal that is not finished. *)
Definition unfinished (st : option goal_status) : bool :=
  match st with Some st => negb (terminal st) | None => false end.

Abbreviation rcl_call W := (W -> outcome string unit * W).

Class ActionOps := {
  Goal : Type;
  Feedback : Type;
  Result : Type;
  default_result : Result;
  GoalHandle : Type;
  GoalHandle_eq_dec :: EqDecision GoalHandle;
  World : Type;
  get_goal : GoalHandle -> Goal;
  is_active : World -> GoalHandle -> bool;
  is_executing : World -> GoalHandle -> bool;
  is_canceling : World -> GoalHandle -> bool;
  execute : GoalHandle -> rcl_call World;
  succeed : GoalHandle -> Result -> rcl_call World;
  abort : GoalHandle -> Result -> rcl_call World;
  canceled : GoalHandle -> Result -> rcl_call World;
  publish_feedback : GoalHandle -> Feedback -> World -> World;
  (** made by the library, between the callbacks of the server *)
  accept_goal : GoalHandle -> World -> World;
  cancel_goal : GoalHandle -> rcl_call World;
  (** [~ServerGoalHandle] *)
  destroy_handle : GoalHandle -> World -> World }.

(** What the library knows of a goal: its status and, once it is finished, the
    result it was finished with. *)
Abbreviation goal_view AO := (option (goal_status * option (@Result AO))).

(** [w'] differs from [w] at goal [h] alone, which [w'] shows as [v]. *)
Definition moves {AO : ActionOps} (view : World -> GoalHandle -> goal_view AO)
    (w w' : World) (h : GoalHandle) (v : goal_status * option Result) : Prop :=
  forall h', view w' h' = if decide (h' = h) then Some v else view w h'.

Class ActionLaws (AO : ActionOps) := {
  view : World -> GoalHandle -> goal_view AO;
  status_of (w : World) (h : GoalHandle) : option goal_status := fst <$> view w h;
  is_active_spec w h :
    is_active w h = match status_of w h with Some st => negb (terminal st) | None => false end;
  is_executing_spec w h : is_executing w h = bool_decide (status_of w h = Some EXECUTING);
  is_canceling_spec w h : is_canceling w h = bool_decide (status_of w h = Some CANCELING);
  execute_spec w h :
    if decide (status_of w h = Some ACCEPTED)
    then exists w', execute h w = (Ok tt, w') /\ moves view w w' h (EXECUTING, None)
    else exists e, execute h w = (Throw e, w);
  succeed_spec w h r :
    if decide (status_of w h = Some EXECUTING \/ status_of w h = Some CANCELING)
    then exists w', succeed h r w = (Ok tt, w') /\ moves view w w' h (SUCCEEDED, Some r)
    else exists e, succeed h r w = (Throw e, w);
  abort_spec w h r :
    if decide (status_of w h = Some EXECUTING \/ status_of w h = Some CANCELING)
    then exists w', abort h r w = (Ok tt, w') /\ moves view w w' h (ABORTED, Some r)
    else exists e, abort h r w = (Throw e, w);
  canceled_spec w h r :
    if decide (status_of w h = Some CANCELING)
    then exists w', canceled h r w = (Ok tt, w') /\ moves view w w' h (CANCELED, Some r)
    else exists e, canceled h r w = (Throw e, w);
  publish_feedback_spec w h f h' : view (publish_feedback h f w) h' = view w h';
  accept_goal_spec w h :
    status_of w h = None -> moves view w (accept_goal h w) h (ACCEPTED, None);
  cancel_goal_spec w h :
    if decide (status_of w h = Some ACCEPTED \/ status_of w h = Some EXECUTING)
    then exists w', cancel_goal h w = (Ok tt, w') /\ moves view w w' h (CANCELING, None)
    else exists e, cancel_goal h w = (Throw e, w);
  destroy_handle_spec w h :
    if unfinished (status_of w h)
    then moves view w (destroy_handle h w) h (CANCELED, Some default_result)
    else forall h', view (destroy_handle h w) h' = view w h' }.

(** The transitions to CANCELING the library makes for the cancel requests of
    [hs], one after the other. *)
Definition cancel_goals {AO : ActionOps} (hs : list GoalHandle) (w : World) : World :=
  foldr (fun h w => (cancel_goal h w).2) w hs.

(** The handles of [hs] are destroyed. *)
Definition destroy_handles {AO : ActionOps} (hs : list GoalHandle) (w : World) : World :=
  foldr destroy_handle w hs.

(** The effect of a transition to CANCELING on what is known of its goal. *)
Definition to_canceling {R : Type} (v : option (goal_status * option R))
    : option (goal_status * option R) :=
  match v with
  | Some (ACCEPTED, _) | Some (EXECUTING, _) => Some (CANCELING, None)
  | _ => v
  end.

(** ** Facts about [moves] *)
Section Moves.
Context {AO : ActionOps} {AL : ActionLaws AO}.

Lemma moves_status w w' h st r h' :
  moves view w w' h (st, r) ->
  status_of w' h' = if decide (h' = h) then Some st else status_of w h'.
Proof.
  intros Hm. unfold status_of. rewrite (Hm h'). by case_decide.
Qed.

Lemma moves_view_eq w w' h v : moves view w w' h v -> view w' h = Some v.
Proof. intros Hm. rewrite (Hm h). by case_decide. Qed.

Lemma moves_view_ne w w' h v h' : moves view w w' h v -> h' <> h -> view w' h' = view w h'.
Proof. intros Hm Hne. rewrite (Hm h'). by case_decide. Qed.

Lemma to_canceling_idem {R} (v : option (goal_status * option R)) :
  to_canceling (to_canceling v) = to_canceling v.
Proof. by destruct v as [[[] ?]|]. Qed.

(** Requests are independent: each goal that is named moves if it can. *)
Lemma cancel_goals_view hs w h :
  view (cancel_goals hs w) h = if decide (h ∈ hs) then to_canceling (view w h) else view w h.
Proof.
  induction hs as [|g hs IH].
  - by rewrite decide_False by apply not_elem_of_nil.
  - change (cancel_goals (g :: hs) w) with (cancel_goal g (cancel_goals hs w)).2.
    set (w1 := cancel_goals hs w) in *.
    pose proof (cancel_goal_spec w1 g) as Hc. destruct (decide (h = g)) as [->|Hne].
    + destruct (decide (g ∈ g :: hs)) as [_|Hn]; [|by destruct Hn; left].
      assert (to_canceling (view w1 g) = to_canceling (view w g)) as <-.
      { rewrite IH. by destruct (decide (g ∈ hs)); rewrite ?to_canceling_idem. }
      destruct (decide (status_of w1 g = _ \/ _)) as [Hst|Hst]; unfold status_of in Hst.
      * destruct Hc as (w' & -> & Hm). cbn [snd]. rewrite (moves_view_eq _ _ _ _ Hm).
        destruct (view w1 g) as [[[] ?]|]; cbn in *; naive_solver.
      * destruct Hc as (e & ->). cbn [snd].
        destruct (view w1 g) as [[[] ?]|]; cbn in *; naive_solver.
    + assert (view (cancel_goal g w1).2 h = view w1 h) as ->.
      { destruct (decide (status_of w1 g = _ \/ _)); [destruct Hc as (w' & -> & Hm); by apply (moves_view_ne _ _ _ _ _ Hm)
          |by destruct Hc as (e & ->)]. }
      rewrite IH. destruct (decide (h ∈ hs)) as [Hin|Hin].
      * by rewrite decide_True by (by right).
      * by rewrite decide_False by (by intros [|]%elem_of_cons).
Qed.

Lemma destroy_handle_view w h g :
  view (destroy_handle h w) g =
    if decide (g = h) then if unfinished (status_of w h) then Some (CANCELED, Some default_result)
                           else view w g
    else view w g.
Proof.
  pose proof (destroy_handle_spec w h) as H. destruct (unfinished (status_of w h)).
  - rewrite (H g). by case_decide.
  - rewrite (H g). by case_decide.
Qed.

Lemma destroy_handles_view hs w h :
  view (destroy_handles hs w) h =
    if decide (h ∈ hs) then if unfinished (status_of w h) then Some (CANCELED, Some default_result)
                            else view w h
    else view w h.
Proof.
  induction hs as [|g hs IH].
  - by rewrite decide_False by apply not_elem_of_nil.
  - change (destroy_handles (g :: hs) w) with (destroy_handle g (destroy_handles hs w)).
    set (w1 := destroy_handles hs w) in *. rewrite destroy_handle_view.
    destruct (decide (h = g)) as [->|Hne].
    + destruct (decide (g ∈ g :: hs)) as [_|Hn]; [|by destruct Hn; left].
      unfold status_of at 1. rewrite IH. unfold status_of.
      destruct (decide (g ∈ hs)); [|done]. by destruct (view w g) as [[[] ?]|].
    + rewrite IH. destruct (decide (h ∈ hs)) as [Hin|Hin].
      * by rewrite decide_True by (by right).
      * by rewrite decide_False by (by intros [|]%elem_of_cons).
Qed.

Lemma is_executing_true w h : is_executing w h = true <-> status_of w h = Some EXECUTING.
Proof. rewrite is_executing_spec. apply bool_decide_eq_true. Qed.

Lemma is_canceling_true w h : is_canceling w h = true <-> status_of w h = Some CANCELING.
Proof. rewrite is_canceling_spec. apply bool_decide_eq_true. Qed.

End Moves.

(** ** A concrete instance

    The library's state is the map from the goals it knows to what a client can
    observe of them; goals, handles, results and feedback are numbers. *)
Module Reference.

Definition ref_world : Type := gmap nat (goal_status * option nat).

Definition ref_status (w : ref_world) (h : nat) : option goal_status := fst <$> w !! h.

Definition ref_transition (from : list goal_status) (to : goal_status) (r : option nat)
    (h : nat) : rcl_call ref_world :=
  fun w =>
    match w !! h with
    | Some (st, _) =>
        if bool_decide (st ∈ from) then (Ok tt, <[h := (to, r)]> w)
        else (Throw "invalid goal transition"%string, w)
    | None => (Throw "unknown goal"%string, w)
    end.

#[export] Instance ref_ops : ActionOps := {|
  Goal := nat;
  Feedback := nat;
  Result := nat;
  default_result := 0;
  GoalHandle := nat;
  World := ref_world;
  get_goal := fun h => h;
  is_active := fun w h => match ref_status w h with Some st => negb (terminal st) | None => false end;
  is_executing := fun w h => bool_decide (ref_status w h = Some EXECUTING);
  is_canceling := fun w h => bool_decide (ref_status w h = Some CANCELING);
  execute := fun h => ref_transition [ACCEPTED] EXECUTING None h;
  succeed := fun h r => ref_transition [EXECUTING; CANCELING] SUCCEEDED (Some r) h;
  abort := fun h r => ref_transition [EXECUTING; CANCELING] ABORTED (Some r) h;
  canceled := fun h r => ref_transition [CANCELING] CANCELED (Some r) h;
  publish_feedback := fun h f w => w;
  accept_goal := fun h w => <[h := (ACCEPTED, None)]> w;
  cancel_goal := fun h => ref_transition [ACCEPTED; EXECUTING] CANCELING None h;
  destroy_handle := fun h w =>
    if unfinished (ref_status w h) then <[h := (CANCELED, Some 0)]> w else w |}.

Definition ref_view (w : ref_world) (h : nat) : option (goal_status * option nat) := w !! h.

Lemma ref_insert_moves (w : ref_world) h v :
  @moves ref_ops ref_view w (<[h := v]> w) h v.
Proof.
  intros h'. unfold ref_view. case_decide as Hd.
  - subst. apply (lookup_insert_eq (M := gmap nat)).
  - apply (lookup_insert_ne (M := gmap nat)). congruence.
Qed.

Lemma ref_transition_ok from to r h w st :
  ref_status w h = Some st -> st ∈ from ->
  ref_transition from to r h w = (Ok tt, <[h := (to, r)]> w).
Proof.
  unfold ref_status, ref_transition. intros Hst Hin.
  destruct (w !! h) as [[st' r']|]; simplify_eq/=. by rewrite bool_decide_true.
Qed.

Lemma ref_transition_throw from to r h w :
  (forall st, st ∈ from -> ref_status w h <> Some st) ->
  exists e, ref_transition from to r h w = (Throw e, w).
Proof.
  unfold ref_status, ref_transition. intros Hno.
  destruct (w !! h) as [[st' r']|]; [|by eexists].
  rewrite bool_decide_false; [by eexists|]. intros Hin. by destruct (Hno st').
Qed.

(** The two cases of a law about [ref_transition]: the goal is in one of the
    source states of the transition, or in none of them. *)
Lemma ref_transition_spec from to r h w (P : Prop) `{!Decision P} :
  (P <-> exists st, st ∈ from /\ ref_status w h = Some st) ->
  if decide P
  then exists w', ref_transition from to r h w = (Ok tt, w') /\
                  @moves ref_ops ref_view w w' h (to, r)
  else exists e, ref_transition from to r h w = (Throw e, w).
Proof.
  intros HP. destruct (decide P) as [Hyes|Hno].
  - apply HP in Hyes as (st & Hin & Hst).
    eexists. split; [by eapply ref_transition_ok|apply ref_insert_moves].
  - apply ref_transition_throw. intros st Hin Hst. apply Hno, HP. by exists st.
Qed.

#[export] Instance ref_laws : ActionLaws ref_ops.
Proof.
  refine {| view := ref_view : @World ref_ops -> @GoalHandle ref_ops -> _ |};
    try (intros w h; reflexivity).
  all: try (intros; apply ref_transition_spec; set_solver).
  - intros w h _. apply ref_insert_moves.
  - intros w h. cbn. change (fst <$> ref_view w h) with (ref_status w h).
    destruct (unfinished (ref_status w h)); [apply ref_insert_moves|done].
Defined.

End Reference.
