(* ===== verification/RttServices.v ===== *)
(** The part of Orocos RTT and of the [rclcpp] node API the repository calls, as
    interfaces. Neither is part of the repository: each [Ops] class holds the
    calls the code makes, the [Laws] class the documented behaviour the theorems
    use. [Reference] is a concrete instance, on which the witnesses compute. *)

From S2P Require Import Prelude.

(** ** ROS nodes ([rclcpp::Node], [rclcpp::NodeOptions]) *)
Class RclcppOps := {
  RclNode : Type;
  NodeOptions : Type;
  (** [rclcpp::NodeOptions()] and its setter *)
  NodeOptions_new : NodeOptions;
  set_allow_undeclared_parameters : bool -> NodeOptions -> NodeOptions;
  (** [std::make_shared<rclcpp::Node>(name, namespace, options)] *)
  RclNode_new : string -> string -> NodeOptions -> outcome string RclNode;
  (** [node->declare_parameter<int>(name, default)]: the value the parameter has *)
  declare_parameter_int : RclNode -> string -> Z -> outcome string Z }.

(** [rclcpp::init] of the process-wide context, with the arguments and options
    the code passes; it throws if the context is initialised already. *)
Class RosContextOps := {
  RosContext : Type;
  rclcpp_init : RosContext -> outcome string RosContext }.

Class RosContextLaws (CO : RosContextOps) := {
  rclcpp_init_once c c' : rclcpp_init c = Ok c' -> exists e, rclcpp_init c' = Throw e }.

(** ** RTT services

    A [TaskContext] and the process-wide [GlobalService] each own a tree of
    services; [getService] reads one edge of it. The class
    [rtt_ros2_node::Node] of the repository derives from [RTT::Service]:
    [as_Node] is the dynamic cast to it, which gives access to its [node_]
    member, and [make_shared_Node] allocates an object of that class. *)
Class RTTOps (RC : RclcppOps) := {
  TaskContext : Type;
  ServicePtr : Type;
  ServicePtr_eq_dec :: EqDecision ServicePtr;
  RTTWorld : Type;
  tc_getName : TaskContext -> string;
  tc_provides : TaskContext -> ServicePtr;
  GlobalService : ServicePtr;
  svc_name : ServicePtr -> string;
  getService : RTTWorld -> ServicePtr -> string -> option ServicePtr;
  hasService : RTTWorld -> ServicePtr -> string -> bool;
  getProviderNames : RTTWorld -> ServicePtr -> list string;
  (** [svc->provides(name)]: the sub-service of that name, created if absent *)
  provides : ServicePtr -> string -> State RTTWorld ServicePtr;
  addService : ServicePtr -> ServicePtr -> State RTTWorld bool;
  as_Node : ServicePtr -> option RclNode;
  make_shared_Node : string -> RclNode -> State RTTWorld ServicePtr;
  (** any other class derived from [RTT::Service], by its service name *)
  make_shared_Service : string -> State RTTWorld ServicePtr;
  (** [svc->addOperation(name, ...)] and whether [svc] offers an operation *)
  addOperation : ServicePtr -> string -> RTTWorld -> RTTWorld;
  hasOperation : RTTWorld -> ServicePtr -> string -> bool }.

(** [w'] has the service [p] at [(s, n)] and everything else of [w]. *)
Definition service_added {RC} {RO : RTTOps RC} (w w' : RTTWorld) (s : ServicePtr)
    (n : string) (p : ServicePtr) : Prop :=
  getService w' s n = Some p /\
  (forall s' n', (s' <> s \/ n' <> n) -> getService w' s' n' = getService w s' n') /\
  (forall s' o, hasOperation w' s' o = hasOperation w s' o).

(** [p] is an object of name [name] that nothing refers to in [w] yet. *)
Definition service_fresh {RC} {RO : RTTOps RC} (w : RTTWorld) (name : string)
    (p : ServicePtr) : Prop :=
  svc_name p = name /\
  (forall n, getService w p n = None) /\ (forall o, hasOperation w p o = false).

Class RTTLaws {RC} (RO : RTTOps RC) := {
  hasService_spec w s n : hasService w s n = bool_decide (is_Some (getService w s n));
  getProviderNames_spec w s n : n ∈ getProviderNames w s -> is_Some (getService w s n);
  provides_found w s n p : getService w s n = Some p -> provides s n w = (p, w);
  provides_new w s n :
    getService w s n = None ->
    exists p w', provides s n w = (p, w') /\ service_added w w' s n p;
  addService_new w s p :
    getService w s (svc_name p) = None ->
    exists w', addService s p w = (true, w') /\ service_added w w' s (svc_name p) p;
  addService_exists w s p q :
    getService w s (svc_name p) = Some q -> addService s p w = (false, w);
  make_shared_Node_spec name nd w :
    exists p w', make_shared_Node name nd w = (p, w') /\
      as_Node p = Some nd /\ service_fresh w name p /\
      (forall s n, getService w' s n = getService w s n) /\
      (forall s o, hasOperation w' s o = hasOperation w s o);
  make_shared_Service_spec name w :
    exists p w', make_shared_Service name w = (p, w') /\
      as_Node p = None /\ service_fresh w name p /\
      (forall s n, getService w' s n = getService w s n) /\
      (forall s o, hasOperation w' s o = hasOperation w s o);
  addOperation_ops w s n s' o :
    hasOperation (addOperation s n w) s' o =
      bool_decide (s' = s /\ o = n) || hasOperation w s' o;
  addOperation_services w s n s' n' :
    getService (addOperation s n w) s' n' = getService w s' n' }.

(** ** Executors ([rclcpp::executors::MultiThreadedExecutor])

    [executor_new node n] is the construction with [n] threads followed by
    [add_node]; [executor_spin] is a thread entering [executor->spin()], and
    [is_spinning] says that such a call is in progress; [executor_cancel] is
    [executor->cancel()], documented to make the [spin()] that is running, if
    there is one, return. *)
Class ExecutorOps (RC : RclcppOps) := {
  Executor : Type;
  Executor_eq_dec :: EqDecision Executor;
  ExecWorld : Type;
  is_spinning : ExecWorld -> Executor -> bool;
  number_of_threads : ExecWorld -> Executor -> Z;
  executor_new : RclNode -> Z -> State ExecWorld Executor;
  executor_spin : Executor -> ExecWorld -> ExecWorld;
  executor_cancel : Executor -> ExecWorld -> ExecWorld }.

Class ExecutorLaws {RC} (EO : ExecutorOps RC) := {
  executor_new_spec nd n w :
    exists e w', executor_new nd n w = (e, w') /\ is_spinning w e = false /\
      forall e', is_spinning w' e' = is_spinning w e';
  executor_spin_spec w e e' :
    is_spinning (executor_spin e w) e' = bool_decide (e' = e) || is_spinning w e';
  executor_cancel_spec w e e' :
    is_spinning (executor_cancel e w) e' = negb (bool_decide (e' = e)) && is_spinning w e' }.

(** ** A concrete instance

    A service pointer carries what its object never changes: its number, its
    name and, for a node service, the node. Number 0 is the global service,
    component [i] provides number [i + 1]; the world holds the edges of the tree
    and the operations; a new object takes the least number above those in use. *)
Module RttReference.

Inductive ref_service := RefService (id : nat) (name : string) (node : option nat).

#[export] Instance ref_service_eq_dec : EqDecision ref_service.
Proof. solve_decision. Defined.

Definition ref_id (s : ref_service) : nat := match s with RefService i _ _ => i end.
Definition ref_edge : Type := (ref_service * string) * ref_service.
Record ref_rtt := RefRtt { ref_edges : list ref_edge; ref_opers : list (ref_service * string) }.

Fixpoint ref_lookup (es : list ref_edge) (s : ref_service) (n : string) : option ref_service :=
  match es with
  | [] => None
  | ((s', n'), p) :: es =>
      if bool_decide (s' = s /\ n' = n) then Some p else ref_lookup es s n
  end.

Definition ref_fresh (w : ref_rtt) : nat :=
  S (max_list (((fun e : ref_edge => ref_id e.1.1) <$> ref_edges w) ++
               ((fun o : ref_service * string => ref_id o.1) <$> ref_opers w))).

#[export] Instance ref_rclcpp : RclcppOps := {|
  RclNode := nat;
  NodeOptions := bool;
  NodeOptions_new := false;
  set_allow_undeclared_parameters := fun b _ => b;
  RclNode_new := fun name _ _ => Ok (String.length name);
  declare_parameter_int := fun _ _ d => Ok d |}.

#[export] Instance ref_context : RosContextOps := {|
  RosContext := bool;
  rclcpp_init := fun c => if c then Throw "context is already initialized" else Ok true |}.

#[export] Instance ref_context_laws : RosContextLaws ref_context.
Proof. split. cbn. intros [] c'; [done|]. intros [= <-]. by eexists. Qed.

#[export] Instance ref_rtt_ops : RTTOps ref_rclcpp := {|
  TaskContext := nat;
  ServicePtr := ref_service;
  RTTWorld := ref_rtt;
  tc_getName := fun i => "component"%string;
  tc_provides := fun i => RefService (S i) "component" None;
  GlobalService := RefService 0 "global" None;
  svc_name := fun '(RefService _ n _) => n;
  getService := fun w s n => ref_lookup (ref_edges w) s n;
  hasService := fun w s n => bool_decide (is_Some (ref_lookup (ref_edges w) s n));
  getProviderNames := fun w s =>
    (fun e : ref_edge => e.1.2) <$> filter (fun e : ref_edge => e.1.1 = s) (ref_edges w);
  provides := fun s n w =>
    match ref_lookup (ref_edges w) s n with
    | Some p => (p, w)
    | None => let p := RefService (ref_fresh w) n None in
              (p, RefRtt (((s, n), p) :: ref_edges w) (ref_opers w))
    end;
  addService := fun s p w =>
    let '(RefService _ n _) := p in
    match ref_lookup (ref_edges w) s n with
    | Some _ => (false, w)
    | None => (true, RefRtt (((s, n), p) :: ref_edges w) (ref_opers w))
    end;
  as_Node := fun '(RefService _ _ nd) => nd;
  make_shared_Node := fun name nd w => (RefService (ref_fresh w) name (Some nd), w);
  make_shared_Service := fun name w => (RefService (ref_fresh w) name None, w);
  addOperation := fun s n w => RefRtt (ref_edges w) ((s, n) :: ref_opers w);
  hasOperation := fun w s n => bool_decide ((s, n) ∈ ref_opers w) |}.

Lemma ref_added w s n p :
  @service_added ref_rclcpp ref_rtt_ops w
    (RefRtt (((s, n), p) :: ref_edges w) (ref_opers w)) s n p.
Proof.
  unfold service_added. cbn. split_and!; [by rewrite bool_decide_true| |done].
  intros s' n' Hne. rewrite bool_decide_false; [done|]. intros [??]. destruct Hne; congruence.
Qed.

Lemma ref_lookup_elem es s n p : ref_lookup es s n = Some p -> ((s, n), p) ∈ es.
Proof.
  induction es as [|[[s' n'] q] es IH]; cbn; [done|].
  case_bool_decide as Hd; [|set_solver]. destruct Hd as [-> ->]. intros [= ->]. set_solver.
Qed.

Lemma ref_fresh_bound w i :
  i ∈ ((fun e : ref_edge => ref_id e.1.1) <$> ref_edges w) ++
      ((fun o : ref_service * string => ref_id o.1) <$> ref_opers w) ->
  i <> ref_fresh w.
Proof. intros Hi%max_list_elem_of_le. unfold ref_fresh. lia. Qed.

Lemma ref_service_fresh w name nd :
  @service_fresh ref_rclcpp ref_rtt_ops w name (RefService (ref_fresh w) name nd).
Proof.
  unfold service_fresh. cbn. split_and!; [done|intros n|intros o].
  - destruct (ref_lookup _ _ _) as [q|] eqn:Hq; [|done].
    apply ref_lookup_elem, (list_elem_of_fmap_2 (fun e : ref_edge => ref_id e.1.1)) in Hq.
    by destruct (ref_fresh_bound w (ref_fresh w)); [apply elem_of_app; left|].
  - apply bool_decide_eq_false. intros Ho.
    apply (list_elem_of_fmap_2 (fun o : ref_service * string => ref_id o.1)) in Ho.
    by destruct (ref_fresh_bound w (ref_fresh w)); [apply elem_of_app; right|].
Qed.

#[export] Instance ref_rtt_laws : RTTLaws ref_rtt_ops.
Proof.
  split; cbn.
  - done.
  - intros [es k] s n. cbn. intros ([[s1 n1] p] & -> & Hin)%list_elem_of_fmap.
    apply list_elem_of_filter in Hin as [Heq Hin]. cbn in *. subst s1.
    induction es as [|[[s2 n2] q] es IH]; [by apply not_elem_of_nil in Hin|].
    cbn. case_bool_decide; [by eexists|].
    apply elem_of_cons in Hin as [[= -> -> ->]|Hin]; [naive_solver|auto].
  - intros w s n p Hp. by rewrite Hp.
  - intros w s n Hn. rewrite Hn. do 2 eexists. split; [done|]. apply ref_added.
  - intros w s [i n nd] Hn. cbn in Hn. rewrite Hn. eexists. split; [done|]. apply ref_added.
  - intros w s [i n nd] q Hq. cbn in Hq. by rewrite Hq.
  - intros name nd w. do 2 eexists. split; [done|].
    split_and!; [done|apply ref_service_fresh|done|done].
  - intros name w. do 2 eexists. split; [done|].
    split_and!; [done|apply ref_service_fresh|done|done].
  - intros w s n s' o. rewrite <- bool_decide_or. apply bool_decide_ext.
    rewrite elem_of_cons. naive_solver.
  - done.
Qed.

(** Executors are numbered from 0 in the order of their creation; the world
    holds how many there are and which of them are spinning. *)
#[export] Instance ref_executors : ExecutorOps ref_rclcpp := {|
  Executor := nat;
  ExecWorld := nat * list nat;
  is_spinning := fun w e => bool_decide (e ∈ w.2);
  number_of_threads := fun w e => 1%Z;
  executor_new := fun _ _ w => let e := S (max_list (w.1 :: w.2)) in (e, (e, w.2));
  executor_spin := fun e w => (w.1, e :: w.2);
  executor_cancel := fun e w => (w.1, filter (fun e' => e' <> e) w.2) |}.

#[export] Instance ref_executor_laws : ExecutorLaws ref_executors.
Proof.
  split; cbn.
  - intros nd n [k es]. do 2 eexists. split_and!; [done| |done].
    apply bool_decide_eq_false. cbn. intros He%max_list_elem_of_le. lia.
  - intros [k es] e e'. rewrite <- bool_decide_or. apply bool_decide_ext.
    cbn. rewrite elem_of_cons. naive_solver.
  - intros [k es] e e'. rewrite <- bool_decide_not, <- bool_decide_and.
    apply bool_decide_ext. cbn. by rewrite list_elem_of_filter.
Qed.

End RttReference.
