(* ===== verification/RosNode.v ===== *)
(** Package [rtt_ros2_node]: the RTT service that owns a ROS node.

    [src/rtt_ros2_node/src/rtt_ros2_node.cpp] is the class [Node] (a [rclcpp]
    node, its executor and the thread that spins it) and the lookup functions
    [getNodeService] and [getNode] every other package uses;
    [src/rtt_ros2_node/src/rtt_ros2_node_service.cpp] holds the operations that
    create the process-wide node and the plugin's entry point. *)

From S2P Require Import Prelude RttServices.
From stdpp Require Import pretty.

(** ** The spinner: [Node::spin], [Node::cancel], [Node::~Node] *)
Section Spinner.
Context {RC : RclcppOps} {EO : ExecutorOps RC}.

(** A [std::thread] whose function is [executor->spin()]. The constructor of
    [std::thread] returns before the function has begun: the thread is then
    [Starting], and [Entered] once it has called [spin()]. *)
Inductive std_thread :=
  | NotJoinable
  | Starting (executor : Executor)
  | Entered (executor : Executor).

(* [rtt_ros2_node/include/orocos/rtt_ros2_node/rtt_ros2_node.hpp:33-63] Node *)
Record Node := MkNode {
  node_ : RclNode;
  executor_ : option Executor;
  thread_ : std_thread }.

(** The thread reaches [executor->spin()]. *)
Definition thread_enters (t : std_thread) (w : ExecWorld) : std_thread * ExecWorld :=
  match t with
  | Starting e => (Entered e, executor_spin e w)
  | _ => (t, w)
  end.

(** [std::thread::join] waits for the thread to reach [executor->spin()] and
    for that call to return; [None] is a call that never returns. The caller
    [cancel] has taken the only pointer to the executor a peer could cancel
    through, so nothing ends a spinning that goes on when it waits. *)
Definition thread_join (t : std_thread) (w : ExecWorld) : option ExecWorld :=
  match thread_enters t w with
  | (Entered e, w) => if is_spinning w e then None else Some w
  | (_, w) => Some w
  end.

Definition joinable (t : std_thread) : bool :=
  match t with NotJoinable => false | _ => true end.

(* [rtt_ros2_node/src/rtt_ros2_node.cpp:124-137] Node::cancel *)
Definition Node_cancel (this : Node) (w : ExecWorld) : option (Node * ExecWorld) :=
  let executor := executor_ this in
  let this := MkNode (node_ this) None (thread_ this) in
  let w := match executor with
           | Some e => executor_cancel e w
           | None => w
           end in
  if joinable (thread_ this) then
    w ← thread_join (thread_ this) w;
    Some (MkNode (node_ this) (executor_ this) NotJoinable, w)
  else Some (this, w).

(* [rtt_ros2_node/src/rtt_ros2_node.cpp:104-122] Node::spin *)
Definition Node_spin (number_of_threads : Z) (this : Node) (w : ExecWorld)
    : option (Node * ExecWorld) :=
  '(this, w) ← Node_cancel this w;
  let '(executor, w) := executor_new (node_ this) number_of_threads w in
  let this := MkNode (node_ this) (executor_ this) (Starting executor) in
  Some (MkNode (node_ this) (Some executor) (thread_ this), w).

(* [rtt_ros2_node/src/rtt_ros2_node.cpp:99-102] Node::~Node *)
Definition Node_dtor (this : Node) (w : ExecWorld) : option ExecWorld :=
  '(_, w) ← Node_cancel this w; Some w.

(** What happens to a node service: the operations an RTT script or peer can
    call, and the thread reaching [executor->spin()]. *)
Inductive spinner_event := CallSpin (number_of_threads : Z) | CallCancel | ThreadEnters.

Definition run_spinner_event (c : spinner_event) (this : Node) (w : ExecWorld)
    : option (Node * ExecWorld) :=
  match c with
  | CallSpin n => Node_spin n this w
  | CallCancel => Node_cancel this w
  | ThreadEnters =>
      let '(t, w) := thread_enters (thread_ this) w in
      Some (MkNode (node_ this) (executor_ this) t, w)
  end.

Fixpoint run_spinner_events (cs : list spinner_event) (this : Node) (w : ExecWorld)
    : option (Node * ExecWorld) :=
  match cs with
  | [] => Some (this, w)
  | c :: cs => '(this, w) ← run_spinner_event c this w; run_spinner_events cs this w
  end.

Definition is_starting (this : Node) : bool :=
  match thread_ this with Starting _ => true | _ => false end.

(** Every call comes when no thread is still on its way to [executor->spin()];
    [starting] says whether one is at the beginning. *)
Fixpoint calls_in_time (starting : bool) (cs : list spinner_event) : bool :=
  match cs with
  | [] => true
  | CallSpin _ :: cs => negb starting && calls_in_time true cs
  | CallCancel :: cs => negb starting && calls_in_time false cs
  | ThreadEnters :: cs => calls_in_time false cs
  end.

(** The thread is joinable exactly while an executor is stored, and that
    executor is the one the thread spins; among the executors [other] does not
    account for, it is the only one that can spin, and it spins once the thread
    has entered [spin()]. *)
Definition Node_wf (other : Executor -> bool) (this : Node) (w : ExecWorld) : Prop :=
  match thread_ this with
  | NotJoinable => executor_ this = None /\ forall e, is_spinning w e = other e
  | Starting x => executor_ this = Some x /\ other x = false /\
      forall e, is_spinning w e = other e
  | Entered x => executor_ this = Some x /\ other x = false /\
      forall e, is_spinning w e = bool_decide (e = x) || other e
  end.
End Spinner.
Arguments Node_wf {RC EO} other this w : simpl never.

(** ** Looking up the node of a component *)
Section Lookup.
Context {RC : RclcppOps} {RO : RTTOps RC}.

(** [boost::dynamic_pointer_cast<Node>]: null unless the object is a [Node]. *)
Definition node_cast (p : option ServicePtr) : option ServicePtr :=
  p ← p; _ ← as_Node p; Some p.

(* [rtt_ros2_node/src/rtt_ros2_node.cpp:150-156] getProviderNames *)
Fixpoint find_node_by_type (w : RTTWorld) (svc : ServicePtr) (names : list string)
    : option ServicePtr :=
  match names with
  | [] => None
  | name :: names =>
      match node_cast (getService w svc name) with
      | Some node => Some node
      | None => find_node_by_type w svc names
      end
  end.

(* [rtt_ros2_node/src/rtt_ros2_node.cpp:139-169] getNodeService *)
Definition getNodeService (w : RTTWorld) (tc : option TaskContext) : option ServicePtr :=
  let in_component :=
    tc ← tc;
    match node_cast (getService w (tc_provides tc) "Node") with
    | Some node => Some node
    | None =>
        find_node_by_type w (tc_provides tc) (getProviderNames w (tc_provides tc))
    end in
  match in_component with
  | Some node => Some node
  | None =>
      match getService w GlobalService "ros" with
      | Some ros => node_cast (getService w ros "rosnode")
      | None => None
      end
  end.

(* [rtt_ros2_node/src/rtt_ros2_node.cpp:171-178] getNode *)
Definition getNode (w : RTTWorld) (tc : option TaskContext) : option RclNode :=
  match getNodeService w tc with
  | None => None
  | Some node => as_Node node
  end.
End Lookup.

(** ** Creating nodes: the constructor, the global operations, the plugin *)
Section Creation.
Context {RC : RclcppOps} {RO : RTTOps RC} {EO : ExecutorOps RC} {CO : RosContextOps}.

(** What creating a node can end in: an exception of [rclcpp], or a call that
    waits for a thread that never ends. *)
Inductive node_error := NodeException (what : string) | NeverReturns.

Abbreviation NodeWorld := (RTTWorld * ExecWorld)%type.

(* [rtt_ros2_node/src/rtt_ros2_node.cpp:34-42] default_node_name_from_owner *)
Definition default_node_name_from_owner (now : Z) (owner : option TaskContext) : string :=
  match owner with
  | Some owner => tc_getName owner
  | None => "rtt_" +:+ pretty now
  end.

(* [rtt_ros2_node/src/rtt_ros2_node.cpp:46-50] getDefaultNodeOptions *)
Definition getDefaultNodeOptions : NodeOptions :=
  set_allow_undeclared_parameters true NodeOptions_new.

(** The delegated-to constructor; [now] is the reading of the system clock. *)
(* [rtt_ros2_node/src/rtt_ros2_node.cpp:74-97] Node::Node *)
Definition Node_ctor (now : Z) (node_name namespace : string) (options : NodeOptions)
    (owner : option TaskContext)
    : State NodeWorld (outcome node_error (ServicePtr * Node)) :=
  fun '(w, ew) =>
    let name := if bool_decide (node_name = "") then default_node_name_from_owner now owner
                else node_name in
    match RclNode_new name namespace options with
    | Throw e => (Throw (NodeException e), (w, ew))
    | Ok node =>
        let '(this, w) := make_shared_Node "rosnode" node w in
        let w := addOperation this "spin" w in
        let w := addOperation this "cancel" w in
        match declare_parameter_int node "spinner_threads" 1 with
        | Throw e => (Throw (NodeException e), (w, ew))
        | Ok number_of_threads =>
            let obj := MkNode node None NotJoinable in
            if (0 <=? number_of_threads)%Z then
              match Node_spin (umod 32 number_of_threads) obj ew with
              | Some (obj, ew) => (Ok (this, obj), (w, ew))
              | None => (Throw NeverReturns, (w, ew))
              end
            else (Ok (this, obj), (w, ew))
        end
    end.

(* [rtt_ros2_node/src/rtt_ros2_node.cpp:52-57] Node::Node *)
Definition Node_ctor_owner (now : Z) (owner : option TaskContext) :=
  Node_ctor now (default_node_name_from_owner now owner) "" getDefaultNodeOptions owner.

(* [rtt_ros2_node/src/rtt_ros2_node.cpp:59-64] Node::Node *)
Definition Node_ctor_options (now : Z) (options : NodeOptions) (owner : option TaskContext) :=
  Node_ctor now (default_node_name_from_owner now owner) "" options owner.

(* [rtt_ros2_node/src/rtt_ros2_node.cpp:66-72] Node::Node *)
Definition Node_ctor_name (now : Z) (node_name : string) (options : NodeOptions)
    (owner : option TaskContext) :=
  Node_ctor now node_name "" options owner.

(* [rtt_ros2_node/src/rtt_ros2_node_service.cpp:31-49] create_named_node_with_options *)
Definition create_named_node_with_options (now : Z) (node_name namespace : string)
    (options : NodeOptions) : State NodeWorld (outcome node_error bool) :=
  fun '(w, ew) =>
    let '(ros, w) := provides GlobalService "ros" w in
    if hasService w ros "rosnode" then (Ok false, (w, ew))
    else
      match Node_ctor now node_name namespace options None (w, ew) with
      | (Throw e, s) => (Throw e, s)
      | (Ok (node, _), (w, ew)) =>
          let '(_, w) := addService ros node w in (Ok true, (w, ew))
      end.

(* [rtt_ros2_node/src/rtt_ros2_node_service.cpp:51-56] create_named_node_with_namespace *)
Definition create_named_node_with_namespace (now : Z) (node_name namespace : string) :=
  create_named_node_with_options now node_name namespace getDefaultNodeOptions.

(* [rtt_ros2_node/src/rtt_ros2_node_service.cpp:58-62] create_named_node *)
Definition create_named_node (now : Z) (node_name : string) :=
  create_named_node_with_options now node_name "" getDefaultNodeOptions.

(* [rtt_ros2_node/src/rtt_ros2_node_service.cpp:64-67] create_node *)
Definition create_node (now : Z) :=
  create_named_node_with_options now "" "" getDefaultNodeOptions.

(** [rclcpp::init] throws out of the loader if the process has initialised ROS
    already; the service [ros] exists by then, the operations do not. *)
(* [rtt_ros2_node/src/rtt_ros2_node_service.cpp:69-104] loadGlobalROSService *)
Definition node_loadGlobalROSService
    : State (RTTWorld * RosContext) (outcome node_error unit) :=
  fun '(w, ctx) =>
    let '(ros, w) := provides GlobalService "ros" w in
    match rclcpp_init ctx with
    | Throw e => (Throw (NodeException e), (w, ctx))
    | Ok ctx =>
        let w := addOperation ros "create_node" w in
        let w := addOperation ros "create_named_node" w in
        let w := addOperation ros "create_named_node_with_namespace" w in
        let w := addOperation ros "create_named_node_with_options" w in
        (Ok tt, (w, ctx))
    end.

(* [rtt_ros2_node/src/rtt_ros2_node_service.cpp:106-120] loadROSServiceIntoTaskContext *)
Definition node_loadROSServiceIntoTaskContext (now : Z) (tc : TaskContext)
    : State NodeWorld (outcome node_error bool) :=
  fun '(w, ew) =>
    if hasService w (tc_provides tc) "rosnode" then (Ok false, (w, ew))
    else
      match Node_ctor_owner now (Some tc) (w, ew) with
      | (Throw e, s) => (Throw e, s)
      | (Ok (node, _), (w, ew)) =>
          let '(_, w) := addService (tc_provides tc) node w in (Ok true, (w, ew))
      end.

(* [rtt_ros2_node/src/rtt_ros2_node_service.cpp:123-131] loadRTTPlugin *)
Definition node_loadRTTPlugin (now : Z) (tc : option TaskContext)
    : State (NodeWorld * RosContext) (outcome node_error bool) :=
  fun '((w, ew), ctx) =>
    match tc with
    | None =>
        let '(r, (w, ctx)) := node_loadGlobalROSService (w, ctx) in
        (match r with Ok _ => Ok true | Throw e => Throw e end, ((w, ew), ctx))
    | Some tc =>
        let '(r, s) := node_loadROSServiceIntoTaskContext now tc (w, ew) in (r, (s, ctx))
    end.
End Creation.

(** ** Which calls to the spinner return, and what they leave *)
Section SpinnerProofs.
Context {RC : RclcppOps} {EO : ExecutorOps RC} {EL : ExecutorLaws EO}.

Lemma Node_cancel_in_time other this w :
  Node_wf other this w -> is_starting this = false ->
  exists w', Node_cancel this w = Some (MkNode (node_ this) None NotJoinable, w') /\
    forall e, is_spinning w' e = other e.
Proof.
  destruct this as [nd ex [|x|x]]; unfold Node_wf, Node_cancel; cbn; [|done|].
  - intros [-> Hs] _. by eexists.
  - intros (-> & Ho & Hs) _. rewrite executor_cancel_spec, bool_decide_true by done. cbn.
    eexists. split; [done|]. intros e. rewrite executor_cancel_spec, Hs.
    by destruct (decide (e = x)) as [->|Hne]; repeat case_bool_decide.
Qed.

(** A cancellation that comes before the thread has entered [spin()] is lost,
    and the join that follows it never returns. *)
Lemma Node_cancel_too_early other this w :
  Node_wf other this w -> is_starting this = true -> Node_cancel this w = None.
Proof.
  destruct this as [nd ex [|x|x]]; unfold Node_wf, Node_cancel, thread_join; cbn; [done| |done].
  intros (-> & _) _. by rewrite executor_spin_spec, bool_decide_true.
Qed.

Lemma Node_cancel_spec other this w :
  Node_wf other this w ->
  if is_starting this then Node_cancel this w = None
  else exists w', Node_cancel this w = Some (MkNode (node_ this) None NotJoinable, w') /\
         forall e, is_spinning w' e = other e.
Proof.
  intros Hwf. destruct (is_starting this) eqn:Hst;
    eauto using Node_cancel_in_time, Node_cancel_too_early.
Qed.

Lemma Node_wf_idle nd w : Node_wf (is_spinning w) (MkNode nd None NotJoinable) w.
Proof. by split. Qed.

Lemma run_spinner_event_wf other c this w :
  Node_wf other this w ->
  match run_spinner_event c this w with
  | Some (this', w') => Node_wf other this' w' /\ node_ this' = node_ this /\
      forall cs, calls_in_time (is_starting this) (c :: cs) = calls_in_time (is_starting this') cs
  | None => forall cs, calls_in_time (is_starting this) (c :: cs) = false
  end.
Proof.
  intros Hwf. pose proof (Node_cancel_spec _ _ _ Hwf) as Hc.
  destruct c as [n| |]; cbn [run_spinner_event calls_in_time].
  - unfold Node_spin. destruct (is_starting this); [by rewrite Hc|].
    destruct Hc as (w1 & -> & Hs). cbn.
    destruct (executor_new_spec (node_ this) n w1) as (e & w2 & -> & Hf & Hp).
    split_and!; [|done|done]. split_and!; cbn; [done|by rewrite <- Hs|].
    intros e'. by rewrite Hp, Hs.
  - destruct (is_starting this); [by rewrite Hc|]. by destruct Hc as (w1 & -> & Hs).
  - destruct this as [nd ex [|x|x]]; cbn; [done| |done].
    destruct Hwf as (Hx & Ho & Hs). split_and!; [|done|done].
    split_and!; cbn; [done|done|]. intros e. by rewrite executor_spin_spec, Hs.
Qed.

(** C40 -- Whatever sequence of [spin] and [cancel] operations peers invoke on a
    node service, and wherever in it the thread started last reaches
    [executor->spin()]: every call returns exactly if none of them comes while a
    thread started by an earlier one is still on its way there (a cancellation
    at that moment is lost, and joining the thread blocks for ever). As long as
    the calls return, at most the one executor the node stores is spinning on
    its behalf, and destroying the node then returns, under the same condition,
    and leaves only the executors of others spinning. *)
Theorem spinner_lifecycle (cs : list spinner_event) (other : Executor -> bool) (this : Node)
    (w : ExecWorld) :
  Node_wf other this w ->
  match run_spinner_events cs this w with
  | Some (this', w') =>
      calls_in_time (is_starting this) cs = true /\
      Node_wf other this' w' /\ node_ this' = node_ this /\
      match Node_dtor this' w' with
      | Some w'' => is_starting this' = false /\ forall e, is_spinning w'' e = other e
      | None => is_starting this' = true
      end
  | None => calls_in_time (is_starting this) cs = false
  end.
Proof.
  revert this w. induction cs as [|c cs IH]; intros this w Hwf; cbn [run_spinner_events].
  - split_and!; [done..|]. pose proof (Node_cancel_spec _ _ _ Hwf) as Hc.
    unfold Node_dtor. destruct (is_starting this); [by rewrite Hc|].
    by destruct Hc as (w' & -> & Hs).
  - pose proof (run_spinner_event_wf other c this w Hwf) as He.
    destruct (run_spinner_event c this w) as [[this1 w1]|]; cbn [mbind option_bind]; [|apply He].
    destruct He as (Hwf1 & Hn & Ht). specialize (IH this1 w1 Hwf1). rewrite Ht.
    destruct (run_spinner_events cs this1 w1) as [[this2 w2]|]; [|done].
    by rewrite <- Hn.
Qed.
End SpinnerProofs.

(** ** The lookup order *)
Section LookupProofs.
Context {RC : RclcppOps} {RO : RTTOps RC} {RL : RTTLaws RO}.

Lemma node_cast_Some p q :
  node_cast p = Some q <-> p = Some q /\ is_Some (as_Node q).
Proof.
  unfold node_cast. destruct p as [p|]; cbn; [|by split; [|intros [[=] _]]].
  destruct (as_Node p) eqn:Hn; cbn; split.
  - intros [= <-]. split; [done|by eexists].
  - by intros [-> _].
  - done.
  - intros [[= ->] [? Hq]]. congruence.
Qed.

Lemma find_node_by_type_Some w svc names p :
  find_node_by_type w svc names = Some p ->
  exists n, n ∈ names /\ node_cast (getService w svc n) = Some p.
Proof.
  induction names as [|n names IH]; cbn; [done|].
  destruct (node_cast _) as [q|] eqn:Hq; [intros [= ->]; set_solver|].
  intros (m & Hm & Hp)%IH. set_solver.
Qed.

Lemma find_node_by_type_None w svc names :
  find_node_by_type w svc names = None ->
  forall n, n ∈ names -> node_cast (getService w svc n) = None.
Proof.
  induction names as [|n names IH]; cbn; [set_solver|].
  destruct (node_cast _) as [q|] eqn:Hq; [done|].
  intros Hf m [->|Hm]%elem_of_cons; auto.
Qed.

(** The lookup prefers the component over the process: a node found for a
    component is one of the component's own services or, only if none of the
    services the component lists is a node, the node found for no component;
    and nothing is found only if neither has one. The result is always an
    object of class [Node], so [getNode] yields its [rclcpp] node. *)
Theorem getNodeService_order (w : RTTWorld) (tc : TaskContext) :
  let own n := node_cast (getService w (tc_provides tc) n) in
  match getNodeService w (Some tc) with
  | Some p => is_Some (as_Node p) /\ getNode w (Some tc) = as_Node p /\
      ((exists n, own n = Some p) \/
       ((forall n, n ∈ getProviderNames w (tc_provides tc) -> own n = None) /\
        getNodeService w None = Some p))
  | None => getNode w (Some tc) = None /\ getNodeService w None = None /\
      (forall n, n ∈ getProviderNames w (tc_provides tc) -> own n = None)
  end.
Proof.
  cbv zeta. unfold getNode.
  assert (Hsome : forall p, getNodeService w None = Some p -> is_Some (as_Node p)).
  { intros p. unfold getNodeService. cbn.
    destruct (getService w GlobalService "ros"); [|done]. by intros [_ ?]%node_cast_Some. }
  destruct (getNodeService w (Some tc)) as [p|] eqn:Hr; unfold getNodeService in Hr; cbn in Hr;
    destruct (node_cast (getService w (tc_provides tc) "Node")) as [q|] eqn:Hn; simplify_eq.
  - apply node_cast_Some in Hn as Hp. naive_solver.
  - destruct (find_node_by_type _ _ _) as [q|] eqn:Hf; simplify_eq.
    + apply find_node_by_type_Some in Hf as (n & _ & Hp).
      apply node_cast_Some in Hp as Hq. naive_solver.
    + pose proof (find_node_by_type_None _ _ _ Hf). naive_solver.
  - destruct (find_node_by_type _ _ _) as [q|] eqn:Hf; simplify_eq.
    pose proof (find_node_by_type_None _ _ _ Hf). naive_solver.
Qed.
End LookupProofs.

(** ** The process-wide node is created once *)
Section CreationProofs.
Context {RC : RclcppOps} {RO : RTTOps RC} {EO : ExecutorOps RC} {RL : RTTLaws RO}.

Lemma Node_ctor_Ok now name ns opt owner w ew p obj w' ew' :
  Node_ctor now name ns opt owner (w, ew) = (Ok (p, obj), (w', ew')) ->
  RclNode_new (if bool_decide (name = "") then default_node_name_from_owner now owner else name)
    ns opt = Ok (node_ obj) /\
  as_Node p = Some (node_ obj) /\ svc_name p = "rosnode" /\
  (forall s n, getService w' s n = getService w s n).
Proof.
  unfold Node_ctor. destruct (RclNode_new _ _ _) as [nd|]; [|done].
  destruct (make_shared_Node_spec "rosnode" nd w) as (q & w1 & -> & Hq & (Hname & _) & Hget & _).
  destruct (declare_parameter_int nd "spinner_threads" 1) as [k|]; [|done].
  assert (Hadd : forall s n, getService
    (addOperation q "cancel" (addOperation q "spin" w1)) s n = getService w s n).
  { intros s n. by rewrite !addOperation_services. }
  destruct (0 <=? k)%Z; [|intros [= <- <- <- <-]; naive_solver].
  destruct (Node_spin _ _ ew) as [[obj1 ew1]|] eqn:Hspin; [|done].
  intros [= <- <- <- <-].
  assert (node_ obj1 = nd) as ->; [|naive_solver].
  revert Hspin. unfold Node_spin, Node_cancel. cbn.
  destruct (executor_new nd _ ew). by intros [= <- _].
Qed.

Lemma provides_get s n w p w' :
  provides s n w = (p, w') -> getService w' s n = Some p.
Proof.
  intros Hp. destruct (getService w s n) as [q|] eqn:Hq.
  - rewrite (provides_found w s n q Hq) in Hp. by simplify_eq.
  - destruct (provides_new w s n Hq) as (q & w1 & Hp1 & (Hs & _)). congruence.
Qed.

Lemma hasService_false w s n : hasService w s n = false -> getService w s n = None.
Proof.
  rewrite hasService_spec. intros Hn%bool_decide_eq_false. by apply eq_None_not_Some.
Qed.

(** Creating the process-wide node succeeds at most once: after a
    successful call every component without a node of its own is given the new
    node (under the name passed, or the default name if that was empty), and
    every later call, whatever its arguments, returns false and changes nothing. *)
Theorem create_node_once (now : Z) (name ns : string) (opt : NodeOptions) (w w' : RTTWorld)
    (ew ew' : ExecWorld) :
  create_named_node_with_options now name ns opt (w, ew) = (Ok true, (w', ew')) ->
  (exists nd,
     RclNode_new (if bool_decide (name = "") then default_node_name_from_owner now None else name)
       ns opt = Ok nd /\ getNode w' None = Some nd) /\
  (forall now2 name2 ns2 opt2,
     create_named_node_with_options now2 name2 ns2 opt2 (w', ew') = (Ok false, (w', ew'))).
Proof.
  unfold create_named_node_with_options.
  destruct (provides GlobalService "ros" w) as [ros w1] eqn:Hros.
  apply provides_get in Hros.
  destruct (hasService w1 ros "rosnode") eqn:Hhas; [done|].
  destruct (Node_ctor _ _ _ _ _ _) as [[[p obj]|] [w2 ew2]] eqn:Hctor; [|done].
  apply Node_ctor_Ok in Hctor as (Hnew & Hcast & Hname & Hget).
  apply hasService_false in Hhas. rewrite <- (Hget ros "rosnode"), <- Hname in Hhas.
  destruct (addService_new w2 ros p Hhas) as (w3 & -> & Hp & Hother & _).
  intros [= <- <-]. rewrite Hname in *.
  assert (Hros3 : getService w3 GlobalService "ros" = Some ros).
  { rewrite Hother, Hget; [done|by right]. }
  split.
  - exists (node_ obj). split; [done|]. unfold getNode, getNodeService. cbn.
    rewrite Hros3, Hp. unfold node_cast. cbn. rewrite Hcast. cbn. by rewrite Hcast.
  - intros now2 name2 ns2 opt2. rewrite (provides_found _ _ _ _ Hros3).
    by rewrite hasService_spec, Hp, bool_decide_true.
Qed.

(** Loading the plugin for no component offers the four operations under the
    global service [ros] and initialises ROS; a second load throws, and what it
    leaves behind is what the first one did. *)
Theorem global_plugin_loads_once {CO : RosContextOps} {CL : RosContextLaws CO} (now : Z)
    (w w' : RTTWorld) (ew ew' : ExecWorld) (ctx ctx' : RosContext) (r : bool) :
  node_loadRTTPlugin now None ((w, ew), ctx) = (Ok r, ((w', ew'), ctx')) ->
  r = true /\ ew' = ew /\
  (exists ros, getService w' GlobalService "ros" = Some ros /\
     forall o, o ∈ ["create_node"; "create_named_node"; "create_named_node_with_namespace";
                    "create_named_node_with_options"]%string -> hasOperation w' ros o = true) /\
  (exists e, node_loadRTTPlugin now None ((w', ew'), ctx') =
     (Throw (NodeException e), ((w', ew'), ctx'))).
Proof.
  unfold node_loadRTTPlugin, node_loadGlobalROSService.
  destruct (provides GlobalService "ros" w) as [ros w1] eqn:Hros.
  apply provides_get in Hros.
  destruct (rclcpp_init ctx) as [c|] eqn:Hi; [|done]. intros [= <- <- <- <-].
  assert (Hget : getService (addOperation ros "create_named_node_with_options"
    (addOperation ros "create_named_node_with_namespace" (addOperation ros "create_named_node"
    (addOperation ros "create_node" w1)))) GlobalService "ros" = Some ros).
  { by rewrite !addOperation_services. }
  split_and!; [done|done| |].
  - exists ros. split; [done|]. intros o Ho. rewrite !addOperation_ops, !orb_true_iff,
      !bool_decide_eq_true. set_solver.
  - rewrite (provides_found _ _ _ _ Hget).
    destruct (rclcpp_init_once _ _ Hi) as [e ->]. by eexists.
Qed.
End CreationProofs.

(** ** The theorems at concrete inputs *)
Section Witnesses.
Import RttReference.

Lemma spinner_lifecycle_witness :
  let run cs := run_spinner_events cs (MkNode (RC := ref_rclcpp) 7 None NotJoinable) (0, [100]) in
  run [CallSpin 2; ThreadEnters; CallSpin 0; ThreadEnters; CallCancel; CallSpin 4; ThreadEnters]
    = Some (MkNode 7 (Some 103) (Entered 103), (103, [103; 100])) /\
  run [CallSpin 2; CallCancel; ThreadEnters] = None.
Proof.
  cbv zeta.
  pose proof (fun cs => spinner_lifecycle cs (is_spinning (ExecutorOps := ref_executors) (0, [100]))
              (MkNode (RC := ref_rclcpp) 7 None NotJoinable) (0, [100]) (Node_wf_idle _ _)) as Hl.
  split; [vm_compute; reflexivity|].
  specialize (Hl [CallSpin 2; CallCancel; ThreadEnters]).
  destruct (run_spinner_events [CallSpin 2; CallCancel; ThreadEnters] _ _) as [[this' w']|];
    [|reflexivity].
  destruct Hl as [Hin _]. vm_compute in Hin. discriminate Hin.
Defined.

Lemma getNodeService_order_witness :
  let w := RefRtt [((RefService 3 "component" None, "mine"%string), RefService 9 "mine" (Some 42))] [] in
  getNode (RO := ref_rtt_ops) w (Some 2) = Some 42.
Proof.
  pose proof (getNodeService_order (RO := ref_rtt_ops)
    (RefRtt [((RefService 3 "component" None, "mine"%string), RefService 9 "mine" (Some 42))] [])
    2) as Ho.
  vm_compute in Ho. destruct Ho as (_ & Hget & _). exact Hget.
Defined.

Lemma create_node_once_witness :
  exists w' ew', create_node (RO := ref_rtt_ops) (EO := ref_executors) 5
                   (RefRtt [] [], (0, [])) = (Ok true, (w', ew')) /\
    getNode (RO := ref_rtt_ops) w' None = Some 5.
Proof.
  do 2 eexists. split; [reflexivity|].
  destruct (create_node_once (RO := ref_rtt_ops) (EO := ref_executors) 5 "" ""
              (getDefaultNodeOptions (RC := ref_rclcpp)) (RefRtt [] []) _ (0, []) _ eq_refl)
    as [(nd & Hnew & Hget) _].
  vm_compute in Hnew. injection Hnew as <-. exact Hget.
Defined.

Lemma global_plugin_loads_once_witness :
  let load s := node_loadRTTPlugin (RO := ref_rtt_ops) (EO := ref_executors)
                  (CO := ref_context) 5 None s in
  exists s e, load ((RefRtt [] [], (0, [])), false) = (Ok true, s) /\
    load s = (Throw (NodeException e), s).
Proof.
  cbv zeta. do 2 eexists. split; [reflexivity|].
  destruct (global_plugin_loads_once (RO := ref_rtt_ops) (EO := ref_executors)
    (CO := ref_context) 5 (RefRtt [] []) _ (0, []) _ false _ true eq_refl)
    as (_ & _ & _ & e & He).
  vm_compute in He. injection He as <-. vm_compute. reflexivity.
Defined.
End Witnesses.
