(* ===== verification/RttActionServer.v ===== *)
(** Package [rtt_ros2_actions], class [RTTActionServer]
    ([src/rtt_ros2_actions/include/orocos/rtt_ros2_actions/rtt_action_server.hpp]):
    the thin wrapper around [rclcpp_action::Server] that lets RTT operations or
    plain callbacks handle the requests of a client.

    Handlers act on a state of type [S], the program state of the component that
    registers them. An RTT [OperationCaller] is the handler it calls, [None]
    while it is not [ready()]; which operations have a compatible signature is
    RTT's business and is a parameter of the registration functions. *)

From S2P Require Import Prelude RclcppAction RttServices RosNode.

Section RTTActionServer.
Context {AO : ActionOps} {RC : RclcppOps} {RO : RTTOps RC}.
Context {S GoalUUID Server : Type}.

Definition GoalHandler : Type := GoalUUID -> Goal -> State S GoalResponse.
Definition CancelHandler : Type := GoalHandle -> State S CancelResponse.
Definition AcceptedHandler : Type := GoalHandle -> State S unit.

(* [rtt_ros2_actions/include/orocos/rtt_ros2_actions/rtt_action_server.hpp:288-298] server_ *)
Record RTTActionServer := MkRTTActionServer {
  name_ : string;
  rnode_ : option RclNode;
  server_ : option Server;
  goal_operation_ : option GoalHandler;
  cancel_operation_ : option CancelHandler;
  accepted_operation_ : option AcceptedHandler;
  goal_callback_ : option GoalHandler;
  cancel_callback_ : option CancelHandler;
  accepted_callback_ : option AcceptedHandler }.

(* [rtt_ros2_actions/include/orocos/rtt_ros2_actions/rtt_action_server.hpp:93-95] RTTActionServer *)
Definition RTTActionServer_ctor (name : string) : RTTActionServer :=
  MkRTTActionServer name None None None None None None None None.

(* [rtt_ros2_actions/include/orocos/rtt_ros2_actions/rtt_action_server.hpp:103-106] getName *)
Definition getName (this : RTTActionServer) : string := name_ this.

Definition set_handlers (this : RTTActionServer) (go : option GoalHandler)
    (co : option CancelHandler) (ao : option AcceptedHandler) : RTTActionServer :=
  MkRTTActionServer (name_ this) (rnode_ this) (server_ this) go co ao
    (goal_callback_ this) (cancel_callback_ this) (accepted_callback_ this).
Definition set_callbacks (this : RTTActionServer) (gc : option GoalHandler)
    (cc : option CancelHandler) (ac : option AcceptedHandler) : RTTActionServer :=
  MkRTTActionServer (name_ this) (rnode_ this) (server_ this)
    (goal_operation_ this) (cancel_operation_ this) (accepted_operation_ this) gc cc ac.
Definition set_server (this : RTTActionServer) (nd : option RclNode) (sv : option Server)
    : RTTActionServer :=
  MkRTTActionServer (name_ this) nd sv
    (goal_operation_ this) (cancel_operation_ this) (accepted_operation_ this)
    (goal_callback_ this) (cancel_callback_ this) (accepted_callback_ this).

(** ** Registration

    [OperationCaller<Signature>(operation)], a parameter: the handler an
    operation gives, [None] if its signature is not compatible. A null operation
    pointer is [None]. *)
Section Registration.
Context {Operation : Type}.
Variable goal_caller : Operation -> option GoalHandler.
Variable cancel_caller : Operation -> option CancelHandler.
Variable accepted_caller : Operation -> option AcceptedHandler.

(* [rtt_ros2_actions/include/orocos/rtt_ros2_actions/rtt_action_server.hpp:114-124] registerGoalOperation *)
Definition registerGoalOperation (operation : option Operation) (this : RTTActionServer)
    : bool * RTTActionServer :=
  match operation with
  | None => (false, this)
  | Some operation =>
      let this := set_handlers this (goal_caller operation) (cancel_operation_ this)
                    (accepted_operation_ this) in
      match goal_operation_ this with
      | None => (false, this)
      | Some _ => (true, this)
      end
  end.

(* [rtt_ros2_actions/include/orocos/rtt_ros2_actions/rtt_action_server.hpp:132-142] registerCancelOperation *)
Definition registerCancelOperation (operation : option Operation) (this : RTTActionServer)
    : bool * RTTActionServer :=
  match operation with
  | None => (false, this)
  | Some operation =>
      let this := set_handlers this (goal_operation_ this) (cancel_caller operation)
                    (accepted_operation_ this) in
      match cancel_operation_ this with
      | None => (false, this)
      | Some _ => (true, this)
      end
  end.

(* [rtt_ros2_actions/include/orocos/rtt_ros2_actions/rtt_action_server.hpp:150-160] registerAcceptedOperation *)
Definition registerAcceptedOperation (operation : option Operation) (this : RTTActionServer)
    : bool * RTTActionServer :=
  match operation with
  | None => (false, this)
  | Some operation =>
      let this := set_handlers this (goal_operation_ this) (cancel_operation_ this)
                    (accepted_caller operation) in
      match accepted_operation_ this with
      | None => (false, this)
      | Some _ => (true, this)
      end
  end.
End Registration.

(* [rtt_ros2_actions/include/orocos/rtt_ros2_actions/rtt_action_server.hpp:163-166] registerGoalCallback *)
Definition registerGoalCallback (callback : option GoalHandler) (this : RTTActionServer) :=
  set_callbacks this callback (cancel_callback_ this) (accepted_callback_ this).

(* [rtt_ros2_actions/include/orocos/rtt_ros2_actions/rtt_action_server.hpp:169-172] registerCancelCallback *)
Definition registerCancelCallback (callback : option CancelHandler) (this : RTTActionServer) :=
  set_callbacks this (goal_callback_ this) callback (accepted_callback_ this).

(* [rtt_ros2_actions/include/orocos/rtt_ros2_actions/rtt_action_server.hpp:175-178] registerAcceptedCallback *)
Definition registerAcceptedCallback (callback : option AcceptedHandler) (this : RTTActionServer) :=
  set_callbacks this (goal_callback_ this) (cancel_callback_ this) callback.

(** ** Connection

    [create_server] is [rclcpp_action::create_server] on a node and an action
    name, with the handlers of this object bound. *)
Section Connection.
Variable create_server : RclNode -> string -> outcome string Server.

(* [rtt_ros2_actions/include/orocos/rtt_ros2_actions/rtt_action_server.hpp:189-219] connect *)
Definition connect (w : RTTWorld) (owner : option TaskContext) (action_name : string)
    (this : RTTActionServer) : bool * RTTActionServer :=
  let this := set_server this (getNode w owner) (server_ this) in
  match rnode_ this with
  | None => (false, this)
  | Some node =>
      match create_server node (if bool_decide (action_name = "") then name_ this
                                else action_name) with
      | Throw e => (false, set_server this None None)
      | Ok server => (true, set_server this (Some node) (Some server))
      end
  end.
End Connection.

(* [rtt_ros2_actions/include/orocos/rtt_ros2_actions/rtt_action_server.hpp:222-225] connected *)
Definition connected (this : RTTActionServer) : bool := bool_decide (is_Some (server_ this)).

(* [rtt_ros2_actions/include/orocos/rtt_ros2_actions/rtt_action_server.hpp:228-232] shutdown *)
Definition shutdown (this : RTTActionServer) : RTTActionServer := set_server this None None.

(** ** Dispatch of the requests of a client *)

(* [rtt_ros2_actions/include/orocos/rtt_ros2_actions/rtt_action_server.hpp:247-262] handleGoal *)
Definition handleGoal (this : RTTActionServer) (uuid : GoalUUID) (goal : Goal)
    : State S GoalResponse :=
  match goal_callback_ this with
  | Some callback => callback uuid goal
  | None =>
      match goal_operation_ this with
      | Some operation => operation uuid goal
      | None =>
          match accepted_callback_ this, accepted_operation_ this with
          | None, None => mret REJECT
          | _, _ => mret ACCEPT_AND_EXECUTE
          end
      end
  end.

(* [rtt_ros2_actions/include/orocos/rtt_ros2_actions/rtt_action_server.hpp:264-274] handleCancel *)
Definition handleCancel (this : RTTActionServer) (goal_handle : GoalHandle)
    : State S CancelResponse :=
  match cancel_callback_ this with
  | Some callback => callback goal_handle
  | None =>
      match cancel_operation_ this with
      | Some operation => operation goal_handle
      | None => mret CANCEL_REJECT
      end
  end.

(* [rtt_ros2_actions/include/orocos/rtt_ros2_actions/rtt_action_server.hpp:276-286] handleAccepted *)
Definition handleAccepted (this : RTTActionServer) (goal_handle : GoalHandle) : State S unit :=
  match accepted_callback_ this with
  | Some callback => callback goal_handle
  | None =>
      match accepted_operation_ this with
      | Some operation => operation goal_handle
      | None => mret tt
      end
  end.

(* [rtt_ros2_actions/include/orocos/rtt_ros2_actions/rtt_action_server.hpp:97-100] RTTActionServer *)
Definition RTTActionServer_dtor (this : RTTActionServer) : RTTActionServer := shutdown this.

(* [rtt_ros2_actions/include/orocos/rtt_ros2_actions/rtt_action_server.hpp:235-238] action_server *)
Definition action_server (this : RTTActionServer) : option Server := server_ this.

(* [rtt_ros2_actions/include/orocos/rtt_ros2_actions/rtt_action_server.hpp:241-244] node *)
Definition node (this : RTTActionServer) : option RclNode := rnode_ this.
End RTTActionServer.

Arguments RTTActionServer {AO RC} S GoalUUID Server.
Arguments GoalHandler {AO} S GoalUUID.
Arguments CancelHandler {AO} S.
Arguments AcceptedHandler {AO} S.

(** ** Which handler answers a request *)
Section Handlers.
Context {AO : ActionOps} {RC : RclcppOps} {RO : RTTOps RC}.
Context {S GoalUUID Server Operation : Type}.
Variable goal_caller : Operation -> option (GoalHandler S GoalUUID).
Variable cancel_caller : Operation -> option (CancelHandler S).
Variable accepted_caller : Operation -> option (AcceptedHandler S).

(** A call of one of the registration functions. *)
Inductive registration :=
| RegGoalOperation (op : option Operation)
| RegCancelOperation (op : option Operation)
| RegAcceptedOperation (op : option Operation)
| RegGoalCallback (cb : option (GoalHandler S GoalUUID))
| RegCancelCallback (cb : option (CancelHandler S))
| RegAcceptedCallback (cb : option (AcceptedHandler S)).

Definition register (r : registration) (this : RTTActionServer S GoalUUID Server)
    : RTTActionServer S GoalUUID Server :=
  match r with
  | RegGoalOperation op => (registerGoalOperation goal_caller op this).2
  | RegCancelOperation op => (registerCancelOperation cancel_caller op this).2
  | RegAcceptedOperation op => (registerAcceptedOperation accepted_caller op this).2
  | RegGoalCallback cb => registerGoalCallback cb this
  | RegCancelCallback cb => registerCancelCallback cb this
  | RegAcceptedCallback cb => registerAcceptedCallback cb this
  end.

Definition registered (name : string) (rs : list registration) : RTTActionServer S GoalUUID Server :=
  fold_left (fun this r => register r this) rs (RTTActionServer_ctor name).

(** What the last registration of a kind in [rs] gives, [None] if there is none. *)
Definition latest {X} (kind : registration -> option (option X)) (rs : list registration) : option X :=
  mjoin (head (omap kind (reverse rs))).

Definition goal_op r := match r with RegGoalOperation (Some op) => Some (goal_caller op) | _ => None end.
Definition cancel_op r := match r with RegCancelOperation (Some op) => Some (cancel_caller op) | _ => None end.
Definition accepted_op r := match r with RegAcceptedOperation (Some op) => Some (accepted_caller op) | _ => None end.
Definition goal_cb r := match r with RegGoalCallback cb => Some cb | _ => None end.
Definition cancel_cb r := match r with RegCancelCallback cb => Some cb | _ => None end.
Definition accepted_cb r := match r with RegAcceptedCallback cb => Some cb | _ => None end.

Lemma latest_snoc {X} (kind : registration -> option (option X)) rs r :
  latest kind (rs ++ [r]) = match kind r with Some x => x | None => latest kind rs end.
Proof. unfold latest. rewrite reverse_snoc. simpl. by destruct (kind r). Qed.

(** The six handler fields are what was registered last. *)
Lemma registered_fields name rs :
  let this := registered name rs in
  goal_operation_ this = latest goal_op rs /\
  cancel_operation_ this = latest cancel_op rs /\
  accepted_operation_ this = latest accepted_op rs /\
  goal_callback_ this = latest goal_cb rs /\
  cancel_callback_ this = latest cancel_cb rs /\
  accepted_callback_ this = latest accepted_cb rs.
Proof.
  induction rs as [|r rs IH] using rev_ind; [done|]. unfold registered in *.
  rewrite fold_left_app, !latest_snoc. simpl.
  set (this := fold_left _ rs _) in *. destruct IH as (H1 & H2 & H3 & H4 & H5 & H6).
  destruct r as [[op|]|[op|]|[op|]|cb|cb|cb]; simpl;
    unfold registerGoalOperation, registerCancelOperation, registerAcceptedOperation; simpl;
    try destruct (goal_caller op) eqn:?; try destruct (cancel_caller op) eqn:?;
    try destruct (accepted_caller op) eqn:?; simpl; done.
Qed.

(** C10 -- Whatever sequence of operations and callbacks was registered on an action server, each kind of request is answered by the callback registered last for it, else by the operation registered last (a failed registration of an operation with another signature removes the earlier one), else by the default: goals are accepted for execution exactly if somebody handles accepted goals, cancel requests are rejected, accepted goals are left alone. *)
Theorem requests_answered_by_latest name rs uuid goal gh s :
  let this := registered name rs in
  handleGoal this uuid goal s =
    match latest goal_cb rs, latest goal_op rs with
    | Some h, _ => h uuid goal s
    | None, Some h => h uuid goal s
    | None, None =>
        (match latest accepted_cb rs, latest accepted_op rs with
         | None, None => REJECT
         | _, _ => ACCEPT_AND_EXECUTE
         end, s)
    end /\
  handleCancel this gh s =
    match latest cancel_cb rs, latest cancel_op rs with
    | Some h, _ => h gh s
    | None, Some h => h gh s
    | None, None => (CANCEL_REJECT, s)
    end /\
  handleAccepted this gh s =
    match latest accepted_cb rs, latest accepted_op rs with
    | Some h, _ => h gh s
    | None, Some h => h gh s
    | None, None => (tt, s)
    end.
Proof.
  intros this. destruct (registered_fields name rs) as (H1 & H2 & H3 & H4 & H5 & H6).
  unfold handleGoal, handleCancel, handleAccepted. subst this.
  rewrite H1, H2, H3, H4, H5, H6.
  destruct (latest goal_cb rs), (latest goal_op rs), (latest cancel_cb rs), (latest cancel_op rs),
    (latest accepted_cb rs), (latest accepted_op rs); done.
Qed.

(** Registering an operation reports success exactly if the operation exists and its signature fits; a missing operation changes nothing, one that does not fit still replaces the operation registered before it. *)
Theorem registration_reports (op : option Operation) (this : RTTActionServer S GoalUUID Server) :
  (registerGoalOperation goal_caller op this).1 = bool_decide (is_Some (op ≫= goal_caller)) /\
  (registerCancelOperation cancel_caller op this).1 = bool_decide (is_Some (op ≫= cancel_caller)) /\
  (registerAcceptedOperation accepted_caller op this).1 = bool_decide (is_Some (op ≫= accepted_caller)) /\
  match op with
  | None => (registerGoalOperation goal_caller op this).2 = this
  | Some o => (registerGoalOperation goal_caller op this).2 =
                set_handlers this (goal_caller o) (cancel_operation_ this) (accepted_operation_ this)
  end.
Proof.
  destruct op as [o|]; [|done].
  unfold registerGoalOperation, registerCancelOperation, registerAcceptedOperation. simpl.
  by destruct (goal_caller o), (cancel_caller o), (accepted_caller o).
Qed.
End Handlers.

Section Lifecycle.
Context {AO : ActionOps} {RC : RclcppOps} {RO : RTTOps RC}.
Context {S GoalUUID Server : Type}.
Variable create_server : RclNode -> string -> outcome string Server.

(** Connecting an action server needs a ROS node of the owner: without one the call fails and a server from an earlier connection stays; with one, the server is created under the given action name, or under the name of the object if that is empty, and a failure of rclcpp leaves the object disconnected. The handlers are untouched, the call reports true exactly if it created a server, and shutdown always leaves the object disconnected. *)
Theorem connect_lifecycle w owner action_name (this : RTTActionServer S GoalUUID Server) :
  let '(b, this') := connect create_server w owner action_name this in
  (goal_callback_ this' = goal_callback_ this /\ cancel_callback_ this' = cancel_callback_ this /\
   accepted_callback_ this' = accepted_callback_ this /\
   goal_operation_ this' = goal_operation_ this /\ cancel_operation_ this' = cancel_operation_ this /\
   accepted_operation_ this' = accepted_operation_ this) /\
  connected (shutdown this') = false /\
  match getNode w owner with
  | None => b = false /\ connected this' = connected this
  | Some nd =>
      b = connected this' /\
      match create_server nd (if bool_decide (action_name = "") then getName this else action_name) with
      | Ok sv => action_server this' = Some sv /\ node this' = Some nd
      | Throw _ => action_server this' = None /\ node this' = None
      end
  end.
Proof.
  unfold connect, connected, action_server, node, getName. simpl.
  destruct (getNode w owner) as [nd|]; simpl; [|done].
  by destruct (create_server nd _).
Qed.
End Lifecycle.
