(* ===== verification/SimpleActionServer.v ===== *)
(** Package [rtt_ros2_actions], class [SimpleActionServer]
    ([src/rtt_ros2_actions/include/orocos/rtt_ros2_actions/simple_action_server.hpp]):
    the ROS 1 compatible server with one active and one pending goal.

    The object is split in two. [slots] is what the methods read and write under
    [mutex_]: the two goal slots and the two hooks, together with the two things
    outside the object the methods act on, the message queue of the owner's
    execution engine ([engine], which [OperationCaller::send] of an [OwnThread]
    operation appends to; the owner is assumed to have an active engine, as the
    class comment requires) and the goals of [rclcpp_action] ([rcl]).
    [SimpleActionServer] is the rest: the wrapped server, the owner and the
    action name.

    A locked region of the source is one function here. [mutex_] does not keep
    the library out: it moves a goal to CANCELING in its own thread, after the
    cancel callback has returned. Each function that changes a goal therefore
    takes an [interference], the transitions the library makes inside the region
    ([window]: before which of its looks at a goal or calls on it); [quiet] is a
    library that makes none. User hooks are programs
    ([hook_prog]): trees of calls to the public methods, each continued by the
    value it returns. The [msg] arguments of the source are logged only and have
    no counterpart. *)

From S2P Require Import Prelude RclcppAction RttServices RosNode RttActionServer.

Section SimpleActionServer.
Context {AO : ActionOps} {RC : RclcppOps} {RO : RTTOps RC}.
Context {GoalUUID Server : Type}.

(** ** Data *)

(** The public methods a hook or another thread of the program may call, apart
    from the two that install a hook. *)
Inductive api_call :=
| CallIsActive
| CallIsPreempting
| CallIsPending
| CallGetActiveGoal
| CallGetPendingGoal
| CallAcceptPending (result : Result)
| CallRejectPending (result : Result)
| CallPublishFeedback (feedback : Feedback)
| CallAbortActive (result : Result)
| CallCancelActive (result : Result)
| CallSucceedActive (result : Result).

Inductive api_ret :=
| RetBool (b : bool)
| RetGoal (g : option Goal).

(** The code of a user hook. *)
#[warnings="-register-all"]
Inductive hook_prog :=
| HookReturn
| HookCall (c : api_call) (k : api_ret -> hook_prog)
| HookSetGoalHook (hook : option (Goal -> hook_prog)) (k : hook_prog)
| HookSetCancelHook (hook : option hook_prog) (k : hook_prog).

(* [rtt_ros2_actions/include/orocos/rtt_ros2_actions/simple_action_server.hpp:78-79] GoalHook *)
Definition GoalHook : Type := Goal -> hook_prog.
Definition CancelHook : Type := hook_prog.

(** A message of the owner's execution engine: a sent [OwnThread] operation. *)
Inductive message :=
| MsgAccepted (gh : GoalHandle)
| MsgCancelHandler (gh : GoalHandle).

(* [rtt_ros2_actions/include/orocos/rtt_ros2_actions/simple_action_server.hpp:545-551] goal_pending_ *)
Record slots := MkSlots {
  goal_active_ : option GoalHandle;
  goal_pending_ : option GoalHandle;
  new_goal_hook_ : option GoalHook;
  cancel_goal_hook_ : option CancelHook;
  engine : list message;
  rcl : World }.

Definition set_active (v : option GoalHandle) (s : slots) : slots :=
  MkSlots v (goal_pending_ s) (new_goal_hook_ s) (cancel_goal_hook_ s) (engine s) (rcl s).
Definition set_pending (v : option GoalHandle) (s : slots) : slots :=
  MkSlots (goal_active_ s) v (new_goal_hook_ s) (cancel_goal_hook_ s) (engine s) (rcl s).
Definition set_hooks (g : option GoalHook) (c : option CancelHook) (s : slots) : slots :=
  MkSlots (goal_active_ s) (goal_pending_ s) g c (engine s) (rcl s).
Definition set_engine (q : list message) (s : slots) : slots :=
  MkSlots (goal_active_ s) (goal_pending_ s) (new_goal_hook_ s) (cancel_goal_hook_ s) q (rcl s).
Definition set_rcl (w : World) (s : slots) : slots :=
  MkSlots (goal_active_ s) (goal_pending_ s) (new_goal_hook_ s) (cancel_goal_hook_ s) (engine s) w.

(** [OperationCaller::send] of an [OwnThread] operation of the owner. *)
Definition send (m : message) : State slots unit :=
  modify (fun s => set_engine (engine s ++ [m]) s).

(** A call on a goal handle. *)
Definition on_rcl (c : rcl_call World) : State slots (outcome string unit) :=
  fun s => let '(r, w) := c (rcl s) in (r, set_rcl w s).

(** Handles are reference counted. [reset()] of one destroys the goal handle if
    nobody else ([held]) has it. *)
Definition drop_handle (held : list GoalHandle) (gh : option GoalHandle) (s : slots) : slots :=
  match gh with
  | Some gh => if decide (gh ∈ held) then s else set_rcl (destroy_handle gh (rcl s)) s
  | None => s
  end.

Definition message_handle (m : message) : GoalHandle :=
  match m with MsgAccepted gh | MsgCancelHandler gh => gh end.

(** ** The library inside a locked region

    The points of a locked region at which a transition of the library makes a
    difference. A region passes each at most once. Reads of the state of one
    handle that follow each other are one read here ([is_running_snapshot],
    [pendingGoalHandle_snapshot]). *)
Inductive window :=
| BeforeFinishActive
| BeforeIsCanceling
| BeforeIsExecuting
| BeforeExecute
| BeforeEnd.

Definition interference : Type := window -> list GoalHandle.
Definition quiet : interference := fun _ => [].
Definition interfere (lib : interference) (p : window) (s : slots) : slots :=
  set_rcl (cancel_goals (lib p) (rcl s)) s.

(** ** Observers *)

(** [gh->is_executing() || gh->is_canceling()] *)
Definition is_running (w : World) (gh : GoalHandle) : bool :=
  is_executing w gh || is_canceling w gh.

(* [rtt_ros2_actions/include/orocos/rtt_ros2_actions/simple_action_server.hpp:220-224] isActive *)
Definition isActive (s : slots) : bool :=
  match goal_active_ s with Some gh => is_executing (rcl s) gh | None => false end.

(* [rtt_ros2_actions/include/orocos/rtt_ros2_actions/simple_action_server.hpp:227-231] isPreempting *)
Definition isPreempting (s : slots) : bool :=
  match goal_active_ s with Some gh => is_canceling (rcl s) gh | None => false end.

(* [rtt_ros2_actions/include/orocos/rtt_ros2_actions/simple_action_server.hpp:234-237] isPreemting *)
Definition isPreemting (s : slots) : bool := isPreempting s.

(* [rtt_ros2_actions/include/orocos/rtt_ros2_actions/simple_action_server.hpp:397-405] pendingGoalHandle *)
Definition pendingGoalHandle (s : slots) : option GoalHandle :=
  match goal_pending_ s with
  | Some gh =>
      if is_active (rcl s) gh && negb (is_executing (rcl s) gh) && negb (is_canceling (rcl s) gh)
      then Some gh
      else None
  | None => None
  end.

(* [rtt_ros2_actions/include/orocos/rtt_ros2_actions/simple_action_server.hpp:240-244] isPending *)
Definition isPending (s : slots) : bool := bool_decide (is_Some (pendingGoalHandle s)).

(* [rtt_ros2_actions/include/orocos/rtt_ros2_actions/simple_action_server.hpp:247-254] getActiveGoal *)
Definition getActiveGoal (s : slots) : option Goal :=
  match goal_active_ s with
  | Some gh => if is_running (rcl s) gh then Some (get_goal gh) else None
  | None => None
  end.

(* [rtt_ros2_actions/include/orocos/rtt_ros2_actions/simple_action_server.hpp:257-262] getPendingGoal *)
Definition getPendingGoal (s : slots) : option Goal :=
  match pendingGoalHandle s with
  | Some pending => Some (get_goal pending)
  | None => None
  end.

(** ** Finishing goals *)

(* [rtt_ros2_actions/include/orocos/rtt_ros2_actions/simple_action_server.hpp:420-448] finishActive *)
Definition finishActive (lib : interference) (result : Result) (prefer_canceled : bool)
    : State slots bool :=
  fun s =>
    match goal_active_ s with
    | None => (false, s)
    | Some gh =>
        if negb (is_running (rcl s) gh) then (false, set_active None s)
        else
          let s := interfere lib BeforeIsCanceling s in
          let call := if is_canceling (rcl s) gh then canceled gh result else abort gh result in
          let '(r, s) := on_rcl call (interfere lib BeforeEnd s) in
          match r with
          | Throw e => (false, set_active None s)
          | Ok _ => (true, set_active None s)
          end
    end.

(* [rtt_ros2_actions/include/orocos/rtt_ros2_actions/simple_action_server.hpp:451-466] terminateGoal *)
Definition terminateGoal (lib : interference) (gh : GoalHandle) (result : Result)
    : State slots unit :=
  fun s =>
    let s := interfere lib BeforeIsCanceling s in
    if is_canceling (rcl s) gh then
      let '(_, s) := on_rcl (canceled gh result) (interfere lib BeforeEnd s) in (tt, s)
    else
      let s := interfere lib BeforeIsExecuting s in
      let '(r, s) := if negb (is_executing (rcl s) gh)
                     then on_rcl (execute gh) (interfere lib BeforeExecute s)
                     else (Ok tt, s) in
      match r with
      | Throw e => (tt, s)
      | Ok _ => let '(_, s) := on_rcl (abort gh result) (interfere lib BeforeEnd s) in (tt, s)
      end.

(** ** Public methods *)

(* [rtt_ros2_actions/include/orocos/rtt_ros2_actions/simple_action_server.hpp:274-293] acceptPending *)
Definition acceptPending (lib : interference) (result : Result) : State slots bool :=
  fun s =>
    match pendingGoalHandle s with
    | None => (false, s)
    | Some pending =>
        let '(_, s) := finishActive lib result false (interfere lib BeforeFinishActive s) in
        let '(r, s) := on_rcl (execute pending) (interfere lib BeforeExecute s) in
        match r with
        | Throw e => (false, set_pending None s)
        | Ok _ => (true, set_pending None (set_active (Some pending) s))
        end
    end.

(* [rtt_ros2_actions/include/orocos/rtt_ros2_actions/simple_action_server.hpp:306-317] rejectPending *)
Definition rejectPending (lib : interference) (result : Result) : State slots bool :=
  fun s =>
    match pendingGoalHandle s with
    | None => (false, s)
    | Some pending =>
        let '(_, s) := terminateGoal lib pending result s in (true, set_pending None s)
    end.

(* [rtt_ros2_actions/include/orocos/rtt_ros2_actions/simple_action_server.hpp:320-328] publishFeedback *)
Definition publishFeedback (lib : interference) (feedback : Feedback) : State slots bool :=
  fun s =>
    match goal_active_ s with
    | None => (false, s)
    | Some gh =>
        if negb (is_running (rcl s) gh) then (false, s)
        else
          let s := interfere lib BeforeEnd s in
          (true, set_rcl (publish_feedback gh feedback (rcl s)) s)
    end.

(* [rtt_ros2_actions/include/orocos/rtt_ros2_actions/simple_action_server.hpp:331-336] abortActive *)
Definition abortActive (lib : interference) (result : Result) : State slots bool :=
  finishActive lib result false.

(* [rtt_ros2_actions/include/orocos/rtt_ros2_actions/simple_action_server.hpp:345-350] cancelActive *)
Definition cancelActive (lib : interference) (result : Result) : State slots bool :=
  finishActive lib result true.

(* [rtt_ros2_actions/include/orocos/rtt_ros2_actions/simple_action_server.hpp:353-369] succeedActive *)
Definition succeedActive (lib : interference) (result : Result) : State slots bool :=
  fun s =>
    match goal_active_ s with
    | None => (false, s)
    | Some gh =>
        if negb (is_running (rcl s) gh) then (false, s)
        else
          let '(r, s) := on_rcl (succeed gh result) (interfere lib BeforeEnd s) in
          match r with
          | Throw e => (false, s)
          | Ok _ => (true, set_active None s)
          end
    end.

(* [rtt_ros2_actions/include/orocos/rtt_ros2_actions/simple_action_server.hpp:377-381] setGoalHook *)
Definition setGoalHook (hook : option GoalHook) : State slots unit :=
  modify (fun s => set_hooks hook (cancel_goal_hook_ s) s).

(* [rtt_ros2_actions/include/orocos/rtt_ros2_actions/simple_action_server.hpp:389-393] setCancelHook *)
Definition setCancelHook (hook : option CancelHook) : State slots unit :=
  modify (fun s => set_hooks (new_goal_hook_ s) hook s).

(** A public method, called by name. *)
Definition run_api (lib : interference) (c : api_call) : State slots api_ret :=
  match c with
  | CallIsActive => fun s => (RetBool (isActive s), s)
  | CallIsPreempting => fun s => (RetBool (isPreempting s), s)
  | CallIsPending => fun s => (RetBool (isPending s), s)
  | CallGetActiveGoal => fun s => (RetGoal (getActiveGoal s), s)
  | CallGetPendingGoal => fun s => (RetGoal (getPendingGoal s), s)
  | CallAcceptPending r => b ← acceptPending lib r; mret (RetBool b)
  | CallRejectPending r => b ← rejectPending lib r; mret (RetBool b)
  | CallPublishFeedback f => b ← publishFeedback lib f; mret (RetBool b)
  | CallAbortActive r => b ← abortActive lib r; mret (RetBool b)
  | CallCancelActive r => b ← cancelActive lib r; mret (RetBool b)
  | CallSucceedActive r => b ← succeedActive lib r; mret (RetBool b)
  end.

(** A hook run to its end, with no other thread of the program in between. *)
Fixpoint run_hook (lib : interference) (p : hook_prog) : State slots unit :=
  match p with
  | HookReturn => mret tt
  | HookCall c k => r ← run_api lib c; run_hook lib (k r)
  | HookSetGoalHook h k => setGoalHook h;; run_hook lib k
  | HookSetCancelHook h k => setCancelHook h;; run_hook lib k
  end.

(** [if (hook) { hook(); }] *)
Definition call_hook (lib : interference) (hook : option hook_prog) : State slots unit :=
  match hook with Some hook => run_hook lib hook | None => mret tt end.

(** ** Callbacks of [rclcpp_action] and operations of the owner *)

(* [rtt_ros2_actions/include/orocos/rtt_ros2_actions/simple_action_server.hpp:469-472] goalCallback *)
Definition goalCallback (uuid : GoalUUID) (goal : Goal) : State slots GoalResponse :=
  mret ACCEPT_AND_DEFER.

(* [rtt_ros2_actions/include/orocos/rtt_ros2_actions/simple_action_server.hpp:475-485] cancelCallback *)
Definition cancelCallback (gh : GoalHandle) : State slots CancelResponse :=
  fun s =>
    if bool_decide (Some gh = goal_active_ s) || bool_decide (Some gh = goal_pending_ s)
    then let '(_, s) := send (MsgCancelHandler gh) s in (CANCEL_ACCEPT, s)
    else (CANCEL_REJECT, s).

(** The locked region of [acceptedCallback]; its value is the hook that is
    called after it, applied to the goal. *)
(* [rtt_ros2_actions/include/orocos/rtt_ros2_actions/simple_action_server.hpp:490-501] hook *)
Definition acceptedCallback_locked (lib : interference) (gh : GoalHandle)
    : State slots (option hook_prog) :=
  fun s =>
    let s := match pendingGoalHandle s with
             | Some replaced => (terminateGoal lib replaced default_result s).2
             | None => s
             end in
    let s := set_pending (Some gh) s in
    (match new_goal_hook_ s with Some hook => Some (hook (get_goal gh)) | None => None end, s).

(* [rtt_ros2_actions/include/orocos/rtt_ros2_actions/simple_action_server.hpp:488-505] acceptedCallback *)
Definition acceptedCallback (lib : interference) (gh : GoalHandle) : State slots unit :=
  hook ← acceptedCallback_locked lib gh;
  call_hook lib hook.

(** The first locked region of [cancelHandler]: [None] if it returns there, the
    hook to call otherwise. *)
(* [rtt_ros2_actions/include/orocos/rtt_ros2_actions/simple_action_server.hpp:510-525] hook *)
Definition cancelHandler_locked (lib : interference) (gh : GoalHandle)
    : State slots (option (option CancelHook)) :=
  fun s =>
    if bool_decide (Some gh = goal_active_ s) then (Some (cancel_goal_hook_ s), s)
    else if bool_decide (Some gh = goal_pending_ s) then
      let '(_, s) := terminateGoal lib gh default_result s in (None, set_pending None s)
    else (None, s).

(** The second locked region of [cancelHandler], after the hook. *)
(* [rtt_ros2_actions/include/orocos/rtt_ros2_actions/simple_action_server.hpp:529-533] finishActive *)
Definition cancelHandler_finish (lib : interference) (gh : GoalHandle) : State slots unit :=
  fun s =>
    if bool_decide (Some gh = goal_active_ s)
    then let '(_, s) := finishActive lib default_result true s in (tt, s)
    else (tt, s).

(* [rtt_ros2_actions/include/orocos/rtt_ros2_actions/simple_action_server.hpp:508-534] cancelHandler *)
Definition cancelHandler (lib : interference) (gh : GoalHandle) : State slots unit :=
  go_on ← cancelHandler_locked lib gh;
  match go_on with
  | None => mret tt
  | Some hook =>
      call_hook lib hook;;
      cancelHandler_finish lib gh
  end.

(** ** The object around the slots *)

(* [rtt_ros2_actions/include/orocos/rtt_ros2_actions/simple_action_server.hpp:536-539] action_server_ *)
Record SimpleActionServer := MkSimpleActionServer {
  action_server_ : RTTActionServer slots GoalUUID Server;
  owner_ : TaskContext;
  action_name_ : string }.

(** The operations the constructor adds to the sub-service, by name. *)
Inductive handler_operation := OpGoalCallback | OpCancelCallback | OpAcceptedCallback | OpCancelHandler.

Definition handler_operation_of (name : string) : option handler_operation :=
  if bool_decide (name = "goalCallback") then Some OpGoalCallback
  else if bool_decide (name = "cancelCallback") then Some OpCancelCallback
  else if bool_decide (name = "acceptedCallback") then Some OpAcceptedCallback
  else if bool_decide (name = "cancelHandler") then Some OpCancelHandler
  else None.

(** An [OperationCaller] of one of these operations: the [ClientThread] ones run
    at the call, [acceptedCallback] is [send] to the owner (as [handleAccepted]
    does). *)
Definition sas_goal_caller (op : handler_operation) : option (GoalHandler slots GoalUUID) :=
  match op with OpGoalCallback => Some goalCallback | _ => None end.
Definition sas_cancel_caller (op : handler_operation) : option (CancelHandler slots) :=
  match op with OpCancelCallback => Some cancelCallback | _ => None end.
Definition sas_accepted_caller (op : handler_operation) : option (AcceptedHandler slots) :=
  match op with
  | OpAcceptedCallback => Some (fun gh => send (MsgAccepted gh))
  | OpCancelHandler => Some (fun gh => send (MsgCancelHandler gh))
  | _ => None
  end.

(** [owner_service] is the service pointer ([None]: null) and [getOwner] the
    component that owns a service. *)
(* [rtt_ros2_actions/include/orocos/rtt_ros2_actions/simple_action_server.hpp:97-160] SimpleActionServer *)
Definition SimpleActionServer_ctor (getOwner : ServicePtr -> option TaskContext)
    (owner_service : option ServicePtr) (name : string)
    : State RTTWorld (outcome string SimpleActionServer) :=
  fun w =>
    match owner_service with
    | None => (Throw "SimpleActionServer: owner service pointer must be valid"%string, w)
    | Some owner_service =>
        match getOwner owner_service with
        | None => (Throw "SimpleActionServer: owner service must belong to a TaskContext"%string, w)
        | Some owner =>
            let '(service, w) := make_shared_Service name w in
            let '(_, w) := addService owner_service service w in
            let w := addOperation service "goalCallback" w in
            let w := addOperation service "cancelCallback" w in
            let w := addOperation service "acceptedCallback" w in
            let w := addOperation service "cancelHandler" w in
            let server := RTTActionServer_ctor name in
            let '(_, server) := registerGoalOperation sas_goal_caller
                                  (handler_operation_of "goalCallback") server in
            let '(_, server) := registerCancelOperation sas_cancel_caller
                                  (handler_operation_of "cancelCallback") server in
            let '(_, server) := registerAcceptedOperation sas_accepted_caller
                                  (handler_operation_of "acceptedCallback") server in
            (Ok (MkSimpleActionServer server owner ""), w)
        end
    end.

(* [rtt_ros2_actions/include/orocos/rtt_ros2_actions/simple_action_server.hpp:168-171] getName *)
Definition sas_getName (this : SimpleActionServer) : string := getName (action_server_ this).

(* [rtt_ros2_actions/include/orocos/rtt_ros2_actions/simple_action_server.hpp:174-177] ready *)
Definition ready (this : SimpleActionServer) : bool := connected (action_server_ this).

(* [rtt_ros2_actions/include/orocos/rtt_ros2_actions/simple_action_server.hpp:187-190] setActionName *)
Definition setActionName (action_name : string) (this : SimpleActionServer) : SimpleActionServer :=
  MkSimpleActionServer (action_server_ this) (owner_ this) action_name.

(* [rtt_ros2_actions/include/orocos/rtt_ros2_actions/simple_action_server.hpp:198-208] start *)
Definition start (create_server : RclNode -> string -> outcome string Server) (w : RTTWorld)
    (this : SimpleActionServer) : bool * SimpleActionServer :=
  if connected (action_server_ this) then (true, this)
  else
    let '(b, server) := connect create_server w (Some (owner_ this)) (action_name_ this)
                          (action_server_ this) in
    (b, MkSimpleActionServer server (owner_ this) (action_name_ this)).

(** The slots let go of their goals before the server of [rclcpp_action] goes.
    [elsewhere] are the goals other threads hold: the handler the owner runs, the
    library in the middle of a cancel request. *)
(* [rtt_ros2_actions/include/orocos/rtt_ros2_actions/simple_action_server.hpp:211-217] shutdown *)
Definition sas_shutdown (elsewhere : list GoalHandle) (this : SimpleActionServer) (s : slots)
    : SimpleActionServer * slots :=
  let held := (message_handle <$> engine s) ++ elsewhere in
  let s := drop_handle (option_list (goal_pending_ s) ++ held) (goal_active_ s) (set_active None s) in
  let s := drop_handle held (goal_pending_ s) (set_pending None s) in
  (MkSimpleActionServer (shutdown (action_server_ this)) (owner_ this) (action_name_ this), s).

(* [rtt_ros2_actions/include/orocos/rtt_ros2_actions/simple_action_server.hpp:162-165] SimpleActionServer *)
Definition SimpleActionServer_dtor (elsewhere : list GoalHandle) (this : SimpleActionServer)
    (s : slots) : slots :=
  (sas_shutdown elsewhere this s).2.

End SimpleActionServer.

Arguments SimpleActionServer {AO RC RO} GoalUUID Server.
Arguments slots {AO}.
Arguments hook_prog {AO}.
Arguments message {AO}.
Arguments interference AO : clear implicits.

(** ** The abstract server

    What the class promises, without handles, exceptions or locks: two slots and
    what a client can observe of each goal. *)
Section Specification.
Context {AO : ActionOps}.

Record aserver := MkAserver {
  act : option GoalHandle;
  pend : option GoalHandle;
  goals : GoalHandle -> goal_view AO }.

Definition upd (h : GoalHandle) (v : goal_status * option Result)
    (g : GoalHandle -> goal_view AO) : GoalHandle -> goal_view AO :=
  fun h' => if decide (h' = h) then Some v else g h'.

Definition ast (a : aserver) (h : GoalHandle) : option goal_status := fst <$> goals a h.

(** The library moves the goals [hs] to CANCELING, where it can. *)
Definition spec_lib (hs : list GoalHandle) (a : aserver) : aserver :=
  MkAserver (act a) (pend a)
    (fun h => if decide (h ∈ hs) then to_canceling (goals a h) else goals a h).

Definition spec_end (st : goal_status) (h : GoalHandle) (r : Result) (a : aserver) : aserver :=
  MkAserver (act a) (pend a) (upd h (st, Some r) (goals a)).

(** A goal is finished with [r]: CANCELED if the client's request has reached it
    when the server looks, ABORTED otherwise. A deferred goal has to be executed
    for that; if the library moves it to CANCELING before, it is left alone. *)
Definition spec_terminate (lib : interference AO) (h : GoalHandle) (r : Result) (a : aserver)
    : aserver :=
  let a := spec_lib (lib BeforeIsCanceling) a in
  match ast a h with
  | Some CANCELING => spec_end CANCELED h r (spec_lib (lib BeforeEnd) a)
  | _ =>
      let a := spec_lib (lib BeforeIsExecuting) a in
      match ast a h with
      | Some EXECUTING => spec_end ABORTED h r (spec_lib (lib BeforeEnd) a)
      | _ =>
          let a := spec_lib (lib BeforeExecute) a in
          match ast a h with
          | Some ACCEPTED => spec_end ABORTED h r (spec_lib (lib BeforeEnd) a)
          | _ => a
          end
      end
  end.

Definition spec_drop_active (a : aserver) : aserver := MkAserver None (pend a) (goals a).
Definition spec_drop_pending (a : aserver) : aserver := MkAserver (act a) None (goals a).

Definition spec_running (a : aserver) : option GoalHandle :=
  match act a with
  | Some h => match ast a h with Some EXECUTING | Some CANCELING => Some h | _ => None end
  | None => None
  end.

Definition spec_deferred (a : aserver) : option GoalHandle :=
  match pend a with
  | Some h => match ast a h with Some ACCEPTED => Some h | _ => None end
  | None => None
  end.

(** The active goal is finished: CANCELED or ABORTED, as the server sees it. *)
Definition spec_finish (lib : interference AO) (r : Result) (a : aserver) : bool * aserver :=
  match spec_running a with
  | Some h =>
      let a := spec_lib (lib BeforeIsCanceling) a in
      let st := match ast a h with Some CANCELING => CANCELED | _ => ABORTED end in
      (true, spec_drop_active (spec_end st h r (spec_lib (lib BeforeEnd) a)))
  | None => (false, spec_drop_active a)
  end.

(** The pending goal becomes the active one, unless the library moves it to
    CANCELING while the previous one is finished: both slots are empty then. *)
Definition spec_accept (lib : interference AO) (r : Result) (a : aserver) : bool * aserver :=
  match spec_deferred a with
  | Some p =>
      let a := (spec_finish lib r (spec_lib (lib BeforeFinishActive) a)).2 in
      let a := spec_lib (lib BeforeExecute) a in
      match ast a p with
      | Some ACCEPTED => (true, MkAserver (Some p) None (upd p (EXECUTING, None) (goals a)))
      | _ => (false, spec_drop_pending a)
      end
  | None => (false, a)
  end.

Definition spec_reject (lib : interference AO) (r : Result) (a : aserver) : bool * aserver :=
  match spec_deferred a with
  | Some p => (true, spec_drop_pending (spec_terminate lib p r a))
  | None => (false, a)
  end.

Definition spec_publish (lib : interference AO) (a : aserver) : bool * aserver :=
  match spec_running a with
  | Some _ => (true, spec_lib (lib BeforeEnd) a)
  | None => (false, a)
  end.

Definition spec_succeed (lib : interference AO) (r : Result) (a : aserver) : bool * aserver :=
  match spec_running a with
  | Some h => (true, spec_drop_active (spec_end SUCCEEDED h r (spec_lib (lib BeforeEnd) a)))
  | None => (false, a)
  end.

Definition spec_api (lib : interference AO) (c : api_call) (a : aserver) : api_ret * aserver :=
  match c with
  | CallIsActive =>
      (RetBool (match act a with Some h => bool_decide (ast a h = Some EXECUTING) | None => false end), a)
  | CallIsPreempting =>
      (RetBool (match act a with Some h => bool_decide (ast a h = Some CANCELING) | None => false end), a)
  | CallIsPending => (RetBool (bool_decide (is_Some (spec_deferred a))), a)
  | CallGetActiveGoal => (RetGoal (get_goal <$> spec_running a), a)
  | CallGetPendingGoal => (RetGoal (get_goal <$> spec_deferred a), a)
  | CallAcceptPending r => let '(b, a) := spec_accept lib r a in (RetBool b, a)
  | CallRejectPending r => let '(b, a) := spec_reject lib r a in (RetBool b, a)
  | CallPublishFeedback f => let '(b, a) := spec_publish lib a in (RetBool b, a)
  | CallAbortActive r | CallCancelActive r => let '(b, a) := spec_finish lib r a in (RetBool b, a)
  | CallSucceedActive r => let '(b, a) := spec_succeed lib r a in (RetBool b, a)
  end.

(** A new goal takes the pending slot; a deferred goal in it is finished. *)
Definition spec_accepted (lib : interference AO) (h : GoalHandle) (a : aserver) : aserver :=
  let a' := match spec_deferred a with
            | Some p => spec_terminate lib p default_result a
            | None => a
            end in
  MkAserver (act a') (Some h) (goals a').

(** A cancel request reaches the owner: [true] if the active goal is concerned. *)
Definition spec_cancel (lib : interference AO) (h : GoalHandle) (a : aserver) : bool * aserver :=
  if bool_decide (Some h = act a) then (true, a)
  else if bool_decide (Some h = pend a)
       then (false, spec_drop_pending (spec_terminate lib h default_result a))
  else (false, a).

Definition spec_cancel_finish (lib : interference AO) (h : GoalHandle) (a : aserver) : aserver :=
  if bool_decide (Some h = act a) then (spec_finish lib default_result a).2 else a.
End Specification.
Arguments aserver {AO}.

(** ** Refinement: the methods implement the abstract server *)
Section Refinement.
Context {AO : ActionOps} {AL : ActionLaws AO}.

(** [s] shows what [a] says. *)
Record shows (s : slots) (a : aserver) : Prop := {
  shows_active : goal_active_ s = act a;
  shows_pending : goal_pending_ s = pend a;
  shows_goals : forall h, view (rcl s) h = goals a h }.

Definition abs_of (s : slots) : aserver :=
  MkAserver (goal_active_ s) (goal_pending_ s) (view (rcl s)).

(** Servers that cannot be told apart: the goals as a function of the handle. *)
#[export] Instance aserver_equiv : Equiv aserver := fun a a' =>
  act a = act a' /\ pend a = pend a' /\ forall h, goals a h = goals a' h.
#[export] Instance aserver_equivalence : Equivalence (≡@{aserver}).
Proof.
  split.
  - by intros a.
  - intros a a' (H1 & H2 & H3). split_and!; [done..|]. intros h. by rewrite H3.
  - intros a1 a2 a3 (H1 & H2 & H3) (H1' & H2' & H3'). split_and!; [congruence..|].
    intros h. by rewrite H3.
Qed.

Lemma shows_equiv s a : shows s a <-> abs_of s ≡ a.
Proof. split; [intros []; by split_and!|intros (? & ? & ?); by split]. Qed.

Lemma shows_abs_of s : shows s (abs_of s).
Proof. by split. Qed.

(** The parts of the state no method but the hook setters and [send] writes. *)
Definition same_frame (s s' : slots) : Prop :=
  engine s' = engine s /\ new_goal_hook_ s' = new_goal_hook_ s /\
  cancel_goal_hook_ s' = cancel_goal_hook_ s.

Lemma same_frame_refl s : same_frame s s.
Proof. done. Qed.

Lemma same_frame_trans s1 s2 s3 : same_frame s1 s2 -> same_frame s2 s3 -> same_frame s1 s3.
Proof. intros (? & ? & ?) (? & ? & ?). split_and!; congruence. Qed.

Lemma shows_status s a h : shows s a -> status_of (rcl s) h = ast a h.
Proof. intros H. unfold status_of, ast. by rewrite (shows_goals _ _ H). Qed.

Lemma is_running_spec w h :
  is_running w h = match status_of w h with Some EXECUTING | Some CANCELING => true | _ => false end.
Proof.
  unfold is_running. rewrite is_executing_spec, is_canceling_spec.
  by destruct (status_of w h) as [[]|].
Qed.

Lemma shows_running s a :
  shows s a ->
  match goal_active_ s with
  | Some h => if is_running (rcl s) h then Some h else None
  | None => None
  end = spec_running a.
Proof.
  intros H. unfold spec_running. rewrite (shows_active _ _ H).
  destruct (act a) as [h|]; [|done].
  rewrite is_running_spec, (shows_status _ _ _ H). by destruct (ast a h) as [[]|].
Qed.

Lemma shows_deferred s a : shows s a -> pendingGoalHandle s = spec_deferred a.
Proof.
  intros H. unfold pendingGoalHandle, spec_deferred. rewrite (shows_pending _ _ H).
  destruct (pend a) as [h|]; [|done].
  rewrite is_active_spec, is_executing_spec, is_canceling_spec, (shows_status _ _ _ H).
  by destruct (ast a h) as [[]|].
Qed.

(** A successful transition of one goal is an update of the abstract goals. *)
Lemma shows_moves s a w h v :
  shows s a -> moves view (rcl s) w h v ->
  shows (set_rcl w s) (MkAserver (act a) (pend a) (upd h v (goals a))).
Proof.
  intros [Ha Hp Hg] Hm. split; [done..|]. intros h'. simpl. unfold upd.
  rewrite (Hm h'), Hg. done.
Qed.

Lemma set_rcl_id s : set_rcl (rcl s) s = s.
Proof. by destruct s. Qed.

(** The calls on a handle, by the status of the goal. *)
Lemma on_rcl_ok (c : rcl_call World) s a h v (P : Prop) `{!Decision P} :
  shows s a -> P ->
  (if decide P then exists w', c (rcl s) = (Ok tt, w') /\ moves view (rcl s) w' h v
   else exists e, c (rcl s) = (Throw e, rcl s)) ->
  exists s', on_rcl c s = (Ok tt, s') /\ same_frame s s' /\
             shows s' (MkAserver (act a) (pend a) (upd h v (goals a))).
Proof.
  intros Hs HP Hc. destruct (decide P) as [_|Hn]; [|done].
  destruct Hc as (w' & Hw & Hm). eexists. unfold on_rcl. rewrite Hw.
  repeat split; try done; by apply shows_moves.
Qed.

Lemma on_rcl_throw (c : rcl_call World) s h v (P : Prop) `{!Decision P} :
  ~ P ->
  (if decide P then exists w', c (rcl s) = (Ok tt, w') /\ moves view (rcl s) w' h v
   else exists e, c (rcl s) = (Throw e, rcl s)) ->
  exists e, on_rcl c s = (Throw e, s).
Proof.
  intros HP Hc. destruct (decide P) as [Hn|_]; [done|].
  destruct Hc as (e & Hw). exists e. unfold on_rcl. rewrite Hw. by rewrite set_rcl_id.
Qed.

Lemma shows_set_active s a v :
  shows s a -> shows (set_active v s) (MkAserver v (pend a) (goals a)).
Proof. intros []. by split. Qed.
Lemma shows_set_pending s a v :
  shows s a -> shows (set_pending v s) (MkAserver (act a) v (goals a)).
Proof. intros []. by split. Qed.

Lemma ast_upd_eq x y h v g : ast (MkAserver x y (upd h v g)) h = Some v.1.
Proof. unfold ast, upd. simpl. by case_decide. Qed.

Lemma ast_upd_ne x y h v g h' : h' <> h -> ast (MkAserver x y (upd h v g)) h' = fst <$> g h'.
Proof. intros. unfold ast, upd. simpl. by case_decide. Qed.

(** The library's transitions. *)
Lemma ast_spec_lib hs a h :
  ast (spec_lib hs a) h =
    if decide (h ∈ hs)
    then match ast a h with Some ACCEPTED | Some EXECUTING => Some CANCELING | st => st end
    else ast a h.
Proof.
  unfold ast, spec_lib. cbn [goals]. destruct (decide (h ∈ hs)); [|done].
  by destruct (goals a h) as [[[] ?]|].
Qed.

Lemma ast_spec_end st h r a h' :
  ast (spec_end st h r a) h' = if decide (h' = h) then Some st else ast a h'.
Proof. unfold ast, spec_end, upd. cbn [goals]. by case_decide. Qed.

Lemma spec_lib_canceling hs a h :
  ast a h = Some CANCELING -> ast (spec_lib hs a) h = Some CANCELING.
Proof. intros Hst. rewrite ast_spec_lib, Hst. by case_decide. Qed.

Lemma spec_lib_running hs a h :
  ast a h = Some EXECUTING \/ ast a h = Some CANCELING ->
  ast (spec_lib hs a) h = Some EXECUTING \/ ast (spec_lib hs a) h = Some CANCELING.
Proof. rewrite ast_spec_lib. intros [-> | ->]; case_decide; auto. Qed.

Lemma shows_interfere lib p s a :
  shows s a -> shows (interfere lib p s) (spec_lib (lib p) a).
Proof.
  intros Hs. split; [apply Hs..|]. intros h. cbn. rewrite cancel_goals_view.
  by rewrite (shows_goals _ _ Hs).
Qed.

(** Reading a state bit by bit is as good as reading it at once: the library only
    makes goals leave the states that are asked for first. *)
Lemma is_running_snapshot hs w gh :
  is_executing w gh || is_canceling (cancel_goals hs w) gh =
    is_running (if is_executing w gh then w else cancel_goals hs w) gh.
Proof.
  unfold is_running. destruct (is_executing w gh) eqn:E; [by rewrite E|]. simpl.
  replace (is_executing (cancel_goals hs w) gh) with false; [done|]. symmetry.
  rewrite is_executing_spec in *. apply bool_decide_eq_false in E. apply bool_decide_eq_false.
  unfold status_of in *. rewrite cancel_goals_view. case_decide; [|done].
  by destruct (view w gh) as [[[] ?]|].
Qed.

Lemma pendingGoalHandle_snapshot hs hs' w gh :
  let w1 := cancel_goals hs w in
  let w2 := cancel_goals hs' w1 in
  (is_active w gh && negb (is_executing w1 gh)) && negb (is_canceling w2 gh) =
    (is_active w2 gh && negb (is_executing w2 gh)) && negb (is_canceling w2 gh).
Proof.
  intros w1 w2. subst w1 w2. rewrite !is_active_spec, !is_executing_spec, !is_canceling_spec.
  unfold status_of. rewrite !cancel_goals_view.
  destruct (decide (gh ∈ hs)), (decide (gh ∈ hs')); by destruct (view w gh) as [[[] ?]|].
Qed.

(** Finishing a goal. *)
Lemma canceled_shows h r s a :
  shows s a -> ast a h = Some CANCELING ->
  exists s', on_rcl (canceled h r) s = (Ok tt, s') /\ same_frame s s' /\
             shows s' (spec_end CANCELED h r a).
Proof.
  intros Hs Hst. rewrite <- (shows_status _ _ h Hs) in Hst.
  by apply (on_rcl_ok _ _ _ _ _ _ Hs Hst (canceled_spec _ _ _)).
Qed.

Lemma abort_shows h r s a :
  shows s a -> ast a h = Some EXECUTING \/ ast a h = Some CANCELING ->
  exists s', on_rcl (abort h r) s = (Ok tt, s') /\ same_frame s s' /\
             shows s' (spec_end ABORTED h r a).
Proof.
  intros Hs Hst. rewrite <- (shows_status _ _ h Hs) in Hst.
  by apply (on_rcl_ok _ _ _ _ _ _ Hs Hst (abort_spec _ _ _)).
Qed.

Lemma succeed_shows h r s a :
  shows s a -> ast a h = Some EXECUTING \/ ast a h = Some CANCELING ->
  exists s', on_rcl (succeed h r) s = (Ok tt, s') /\ same_frame s s' /\
             shows s' (spec_end SUCCEEDED h r a).
Proof.
  intros Hs Hst. rewrite <- (shows_status _ _ h Hs) in Hst.
  by apply (on_rcl_ok _ _ _ _ _ _ Hs Hst (succeed_spec _ _ _)).
Qed.

Lemma finishActive_refines lib r b s a :
  shows s a ->
  exists s', finishActive lib r b s = ((spec_finish lib r a).1, s') /\ same_frame s s' /\
             shows s' (spec_finish lib r a).2.
Proof.
  intros Hs. pose proof (shows_running _ _ Hs) as Hrun. unfold finishActive, spec_finish.
  destruct (goal_active_ s) as [h|] eqn:Ha.
  2: { rewrite <- Hrun. eexists. split; [done|]. split; [done|].
       split; simpl; [done|apply (shows_pending _ _ Hs)|apply (shows_goals _ _ Hs)]. }
  destruct (is_running (rcl s) h) eqn:Hr; rewrite <- Hrun; cbn [negb fst snd].
  2: { eexists. split; [done|]. split; [done|]. by apply (shows_set_active _ _ None). }
  assert (ast a h = Some EXECUTING \/ ast a h = Some CANCELING) as Hor.
  { rewrite is_running_spec, (shows_status _ _ _ Hs) in Hr. destruct (ast a h) as [[]|]; try done; auto. }
  pose proof (shows_interfere lib BeforeIsCanceling _ _ Hs) as Hs1.
  pose proof (shows_interfere lib BeforeEnd _ _ Hs1) as Hs2.
  apply (spec_lib_running (lib BeforeIsCanceling)) in Hor.
  rewrite is_canceling_spec, (shows_status _ _ h Hs1).
  destruct (decide (ast (spec_lib (lib BeforeIsCanceling) a) h = Some CANCELING)) as [Hc|Hc].
  - rewrite bool_decide_true, Hc by done.
    destruct (canceled_shows h r _ _ Hs2) as (s' & -> & Hf & Hs'); [by apply spec_lib_canceling|].
    eexists. split; [done|]. split; [exact Hf|]. by apply (shows_set_active _ _ None).
  - rewrite bool_decide_false by done. destruct Hor as [He|?]; [|done]. rewrite He.
    destruct (abort_shows h r _ _ Hs2) as (s' & -> & Hf & Hs'); [apply spec_lib_running; by left|].
    eexists. split; [done|]. split; [exact Hf|]. by apply (shows_set_active _ _ None).
Qed.

(** The end of [terminateGoal], on a goal that executes (or is being canceled by now). *)
Lemma abort_refines lib h r s a :
  shows s a -> ast a h = Some EXECUTING ->
  exists s', on_rcl (abort h r) (interfere lib BeforeEnd s) = (Ok tt, s') /\ same_frame s s' /\
             shows s' (spec_end ABORTED h r (spec_lib (lib BeforeEnd) a)).
Proof.
  intros Hs He. pose proof (shows_interfere lib BeforeEnd _ _ Hs) as Hs2.
  destruct (abort_shows h r _ _ Hs2) as (s' & -> & Hf & Hs'); [apply spec_lib_running; by left|].
  by eexists.
Qed.

Lemma terminateGoal_refines lib h r s a :
  shows s a ->
  exists s', terminateGoal lib h r s = (tt, s') /\ same_frame s s' /\
             shows s' (spec_terminate lib h r a).
Proof.
  intros Hs. unfold terminateGoal, spec_terminate.
  pose proof (shows_interfere lib BeforeIsCanceling _ _ Hs) as Hs1.
  set (s1 := interfere lib BeforeIsCanceling s) in *.
  set (a1 := spec_lib (lib BeforeIsCanceling) a) in *.
  assert (same_frame s s1) as Hf1 by done.
  rewrite is_canceling_spec, (shows_status _ _ h Hs1).
  destruct (decide (ast a1 h = Some CANCELING)) as [Hc|Hc].
  { rewrite bool_decide_true, Hc by done.
    pose proof (shows_interfere lib BeforeEnd _ _ Hs1) as Hs2.
    destruct (canceled_shows h r _ _ Hs2) as (s' & -> & Hf & Hs'); [by apply spec_lib_canceling|].
    by eexists. }
  rewrite bool_decide_false by done.
  pose proof (shows_interfere lib BeforeIsExecuting _ _ Hs1) as Hs2.
  set (s2 := interfere lib BeforeIsExecuting s1) in *.
  set (a2 := spec_lib (lib BeforeIsExecuting) a1) in *.
  assert (same_frame s s2) as Hf2 by done.
  rewrite is_executing_spec, (shows_status _ _ h Hs2).
  destruct (decide (ast a2 h = Some EXECUTING)) as [He|He].
  { rewrite bool_decide_true, He by done. cbn [negb].
    destruct (abort_refines lib h r s2 a2 Hs2 He) as (s' & -> & Hf & Hs').
    exists s'. destruct (ast a1 h) as [[]|]; try done; by split_and!. }
  rewrite bool_decide_false by done. cbn [negb].
  pose proof (shows_interfere lib BeforeExecute _ _ Hs2) as Hs3.
  set (s3 := interfere lib BeforeExecute s2) in *.
  set (a3 := spec_lib (lib BeforeExecute) a2) in *.
  assert (same_frame s s3) as Hf3 by done.
  assert (exists s', (let '(r0, s4) := on_rcl (execute h) s3 in
      match r0 with
      | Ok _ => let '(_, s5) := on_rcl (abort h r) (interfere lib BeforeEnd s4) in (tt, s5)
      | Throw _ => (tt, s4)
      end) = (tt, s') /\ same_frame s s' /\
      shows s' (match ast a3 h with
                | Some ACCEPTED => spec_end ABORTED h r (spec_lib (lib BeforeEnd) a3)
                | _ => a3 end)) as Hend.
  { destruct (decide (ast a3 h = Some ACCEPTED)) as [Hac|Hac].
    - edestruct (on_rcl_ok (execute h) s3 a3 h (EXECUTING, None)) as (s4 & -> & Hf4 & Hs4);
        [done| |apply execute_spec|]; [by rewrite (shows_status _ _ h Hs3)|].
      destruct (abort_refines lib h r s4 _ Hs4) as (s5 & -> & Hf5 & Hs5).
      { by rewrite ast_upd_eq. }
      exists s5. split; [done|]. split; [do 2 (eapply same_frame_trans; [eassumption|]); done|].
      rewrite Hac. destruct Hs5 as [H1 H2 H3]. split; [done..|]. intros g. rewrite H3.
      cbn. unfold upd. by case_decide.
    - edestruct (on_rcl_throw (execute h) s3 h) as (e & ->); [|apply execute_spec|];
        [by rewrite (shows_status _ _ h Hs3)|]. exists s3. split; [done|]. split; [done|].
      by destruct (ast a3 h) as [[]|]. }
  destruct Hend as (s' & -> & Hf' & Hs'). exists s'. split; [done|]. split; [done|].
  destruct (ast a1 h) as [[]|]; try done; destruct (ast a2 h) as [[]|]; done.
Qed.

Lemma acceptPending_refines lib r s a :
  shows s a ->
  exists s', acceptPending lib r s = ((spec_accept lib r a).1, s') /\ same_frame s s' /\
             shows s' (spec_accept lib r a).2.
Proof.
  intros Hs. unfold acceptPending, spec_accept. rewrite (shows_deferred _ _ Hs).
  destruct (spec_deferred a) as [p|] eqn:Ep; [|eauto using same_frame_refl].
  pose proof (shows_interfere lib BeforeFinishActive _ _ Hs) as Hs0.
  destruct (finishActive_refines lib r false _ _ Hs0) as (s1 & -> & Hf1 & Hs1).
  pose proof (shows_interfere lib BeforeExecute _ _ Hs1) as Hs2.
  pose proof (shows_status _ _ p Hs2) as Hp.
  set (a2 := spec_lib (lib BeforeExecute) _) in *.
  destruct (decide (ast a2 p = Some ACCEPTED)) as [Hac|Hac].
  - rewrite Hac in *.
    destruct (on_rcl_ok (execute p) _ _ p (EXECUTING, None) _ Hs2 Hp (execute_spec _ _))
      as (s3 & -> & Hf3 & Hs3).
    eexists. split; [done|]. split; [exact (same_frame_trans _ _ _ Hf1 Hf3)|].
    exact (shows_set_pending _ _ None (shows_set_active _ _ (Some p) Hs3)).
  - edestruct (on_rcl_throw (execute p) (interfere lib BeforeExecute s1) p) as (e & ->);
      [|apply execute_spec|]; [congruence|].
    eexists. split; [by destruct (ast a2 p) as [[]|]|]. split; [exact Hf1|].
    assert (shows (set_pending None (interfere lib BeforeExecute s1)) (spec_drop_pending a2)) as H
      by (exact (shows_set_pending _ _ None Hs2)).
    by destruct (ast a2 p) as [[]|].
Qed.

Lemma rejectPending_refines lib r s a :
  shows s a ->
  exists s', rejectPending lib r s = ((spec_reject lib r a).1, s') /\ same_frame s s' /\
             shows s' (spec_reject lib r a).2.
Proof.
  intros Hs. unfold rejectPending, spec_reject. rewrite (shows_deferred _ _ Hs).
  destruct (spec_deferred a) as [p|] eqn:Ep; [|eauto using same_frame_refl].
  destruct (terminateGoal_refines lib p r s a Hs) as (s1 & -> & Hf1 & Hs1).
  eexists. split; [done|]. split; [exact Hf1|]. by apply (shows_set_pending _ _ None).
Qed.

Lemma publishFeedback_refines lib f s a :
  shows s a ->
  exists s', publishFeedback lib f s = ((spec_publish lib a).1, s') /\ same_frame s s' /\
             shows s' (spec_publish lib a).2.
Proof.
  intros Hs. pose proof (shows_running _ _ Hs) as Hrun. unfold publishFeedback, spec_publish.
  destruct (goal_active_ s) as [h|] eqn:Ha; [|rewrite <- Hrun; eauto using same_frame_refl].
  destruct (is_running (rcl s) h); rewrite <- Hrun; cbn [negb];
    [|eexists; split; [done|]; by split].
  eexists. split; [done|]. split; [done|].
  destruct (shows_interfere lib BeforeEnd _ _ Hs) as [H1 H2 H3]. split; [done..|].
  intros h'. cbn [set_rcl rcl]. rewrite publish_feedback_spec. exact (H3 h').
Qed.

Lemma succeedActive_refines lib r s a :
  shows s a ->
  exists s', succeedActive lib r s = ((spec_succeed lib r a).1, s') /\ same_frame s s' /\
             shows s' (spec_succeed lib r a).2.
Proof.
  intros Hs. pose proof (shows_running _ _ Hs) as Hrun. unfold succeedActive, spec_succeed.
  destruct (goal_active_ s) as [h|] eqn:Ha; [|rewrite <- Hrun; eauto using same_frame_refl].
  destruct (is_running (rcl s) h) eqn:Hr; rewrite <- Hrun; cbn [negb]; [|eauto using same_frame_refl].
  pose proof (shows_interfere lib BeforeEnd _ _ Hs) as Hs2.
  destruct (succeed_shows h r _ _ Hs2) as (s2 & -> & Hf2 & Hs').
  { apply spec_lib_running.
    rewrite is_running_spec, (shows_status _ _ _ Hs) in Hr. destruct (ast a h) as [[]|]; try done; auto. }
  eexists. split; [done|]. split; [exact Hf2|]. exact (shows_set_active _ _ None Hs').
Qed.

Lemma run_api_refines lib c s a :
  shows s a ->
  exists s', run_api lib c s = ((spec_api lib c a).1, s') /\ same_frame s s' /\
             shows s' (spec_api lib c a).2.
Proof.
  intros Hs. pose proof (shows_running _ _ Hs) as Hrun. pose proof (shows_deferred _ _ Hs) as Hdef.
  destruct c; cbn [run_api spec_api].
  - exists s. unfold isActive. rewrite (shows_active _ _ Hs). split; [|done].
    destruct (act a) as [h|]; [|done]. by rewrite is_executing_spec, (shows_status _ _ _ Hs).
  - exists s. unfold isPreempting. rewrite (shows_active _ _ Hs). split; [|done].
    destruct (act a) as [h|]; [|done]. by rewrite is_canceling_spec, (shows_status _ _ _ Hs).
  - exists s. unfold isPending. by rewrite Hdef.
  - exists s. unfold getActiveGoal. split; [|done]. rewrite <- Hrun.
    destruct (goal_active_ s) as [h|]; [|done]. by destruct (is_running (rcl s) h).
  - exists s. unfold getPendingGoal. rewrite Hdef. by destruct (spec_deferred a).
  - destruct (acceptPending_refines lib result s a Hs) as (s' & He & ?).
    exists s'. unfold mbind, state_bind. rewrite He. by destruct (spec_accept lib result a).
  - destruct (rejectPending_refines lib result s a Hs) as (s' & He & ?).
    exists s'. unfold mbind, state_bind. rewrite He. by destruct (spec_reject lib result a).
  - destruct (publishFeedback_refines lib feedback s a Hs) as (s' & He & ?).
    exists s'. unfold mbind, state_bind. rewrite He. by destruct (spec_publish lib a).
  - destruct (finishActive_refines lib result false s a Hs) as (s' & He & ?).
    exists s'. unfold mbind, state_bind, abortActive. rewrite He. by destruct (spec_finish lib result a).
  - destruct (finishActive_refines lib result true s a Hs) as (s' & He & ?).
    exists s'. unfold mbind, state_bind, cancelActive. rewrite He. by destruct (spec_finish lib result a).
  - destruct (succeedActive_refines lib result s a Hs) as (s' & He & ?).
    exists s'. unfold mbind, state_bind. rewrite He. by destruct (spec_succeed lib result a).
Qed.

Lemma acceptedCallback_refines lib h s a :
  shows s a ->
  exists s', acceptedCallback_locked lib h s = ((fun k : Goal -> hook_prog => k (get_goal h)) <$> new_goal_hook_ s, s') /\
             same_frame s s' /\ shows s' (spec_accepted lib h a).
Proof.
  intros Hs. unfold acceptedCallback_locked, spec_accepted. rewrite (shows_deferred _ _ Hs).
  destruct (spec_deferred a) as [p|] eqn:Ep.
  - destruct (terminateGoal_refines lib p default_result s a Hs) as (s1 & -> & Hf1 & Hs1). simpl.
    eexists. split.
    { f_equal. destruct Hf1 as (_ & -> & _). by destruct (new_goal_hook_ s). }
    split; [exact Hf1|]. by apply shows_set_pending.
  - eexists. split; [f_equal; simpl; by destruct (new_goal_hook_ s)|].
    split; [done|]. by apply shows_set_pending.
Qed.

Lemma cancelHandler_locked_refines lib h s a :
  shows s a ->
  exists s', cancelHandler_locked lib h s =
               (if (spec_cancel lib h a).1 then Some (cancel_goal_hook_ s) else None, s') /\
             same_frame s s' /\ shows s' (spec_cancel lib h a).2.
Proof.
  intros Hs. unfold cancelHandler_locked, spec_cancel.
  rewrite (shows_active _ _ Hs), (shows_pending _ _ Hs).
  case_bool_decide; [by eauto using same_frame_refl|].
  case_bool_decide; [|by eauto using same_frame_refl]. cbn [fst snd].
  destruct (terminateGoal_refines lib h default_result s a Hs) as (s1 & -> & Hf1 & Hs1).
  eexists. split; [done|]. split; [exact Hf1|]. by apply (shows_set_pending _ _ None).
Qed.

Lemma cancelHandler_finish_refines lib h s a :
  shows s a ->
  exists s', cancelHandler_finish lib h s = (tt, s') /\ same_frame s s' /\
             shows s' (spec_cancel_finish lib h a).
Proof.
  intros Hs. unfold cancelHandler_finish, spec_cancel_finish. rewrite (shows_active _ _ Hs).
  case_bool_decide; [|by eauto using same_frame_refl].
  destruct (finishActive_refines lib default_result true s a Hs) as (s1 & -> & Hf1 & Hs1). eauto.
Qed.

End Refinement.

(** ** The contract of the class *)
Section Contract.
Context {AO : ActionOps} {AL : ActionLaws AO}.

(** A hook of the abstract server: its calls, in order. *)
Fixpoint spec_hook (lib : interference AO) (p : hook_prog) (a : aserver) : aserver :=
  match p with
  | HookReturn => a
  | HookCall c k => let '(r, a) := spec_api lib c a in spec_hook lib (k r) a
  | HookSetGoalHook _ k | HookSetCancelHook _ k => spec_hook lib k a
  end.

Lemma shows_set_hooks g c s a : shows s a -> shows (set_hooks g c s) a.
Proof. intros []. by split. Qed.

Lemma run_hook_refines lib p : forall s a, shows s a ->
  shows (run_hook lib p s).2 (spec_hook lib p a) /\ engine (run_hook lib p s).2 = engine s.
Proof.
  induction p as [|c k IH|h k IH|h k IH]; intros s a Hs; simpl; [done|..].
  - destruct (run_api_refines lib c s a Hs) as (s' & Hr & (He & _) & Hs').
    unfold mbind, state_bind. rewrite Hr. destruct (spec_api lib c a) as [r a']. simpl in *.
    destruct (IH r s' a' Hs') as [? ->]. done.
  - unfold mbind, state_bind, setGoalHook, modify.
    apply (IH (set_hooks h (cancel_goal_hook_ s) s)). by apply shows_set_hooks.
  - unfold mbind, state_bind, setCancelHook, modify.
    apply (IH (set_hooks (new_goal_hook_ s) h s)). by apply shows_set_hooks.
Qed.


(** C8 -- The handlers of client requests, run to their end with whatever hooks the user installed and whatever transitions to CANCELING the library makes inside the locked regions, do what the abstract server does: an accepted goal displaces a deferred one (which is finished as ABORTED with a default result, unless the library is faster) and then the goal hook runs; a cancel request of the active goal runs the cancel hook and then finishes the goal if the hook did not; of the pending goal it finishes it and empties the slot; of any other goal it does nothing. *)
Theorem handlers_refine_two_slots (lib : interference AO) (h : GoalHandle) (s : slots) :
  shows (acceptedCallback lib h s).2
    (match new_goal_hook_ s with
     | Some k => spec_hook lib (k (get_goal h)) (spec_accepted lib h (abs_of s))
     | None => spec_accepted lib h (abs_of s)
     end) /\
  shows (cancelHandler lib h s).2
    (let '(is_active, a) := spec_cancel lib h (abs_of s) in
     if is_active then
       spec_cancel_finish lib h
         (match cancel_goal_hook_ s with Some p => spec_hook lib p a | None => a end)
     else a).
Proof.
  split.
  - destruct (acceptedCallback_refines lib h s _ (shows_abs_of s)) as (s' & He & _ & Hs').
    unfold acceptedCallback, mbind, state_bind. rewrite He. simpl.
    destruct (new_goal_hook_ s) as [k|]; simpl; [|done]. by apply run_hook_refines.
  - destruct (cancelHandler_locked_refines lib h s _ (shows_abs_of s)) as (s' & He & _ & Hs').
    unfold cancelHandler, mbind, state_bind. rewrite He.
    destruct (spec_cancel lib h (abs_of s)) as [[] a]; simpl in *; [|done].
    destruct (cancel_goal_hook_ s) as [p|]; simpl.
    + destruct (run_hook_refines lib p s' a Hs') as [Hs2 _]. destruct (run_hook lib p s') as [[] s2].
      destruct (cancelHandler_finish_refines lib h s2 _ Hs2) as (s3 & He3 & _ & Hs3).
      simpl. by rewrite He3.
    + by destruct (cancelHandler_finish_refines lib h s' _ Hs') as (s3 & -> & _ & Hs3).
Qed.

(** While a canceled goal is active it stays CANCELING; otherwise it is finished. *)
Definition cancel_done (h : GoalHandle) (a : aserver) : Prop :=
  ast a h = Some CANCELED \/ ast a h = Some SUCCEEDED.
Definition cancel_kept (h : GoalHandle) (a : aserver) : Prop :=
  (act a = Some h /\ ast a h = Some CANCELING) \/ (act a <> Some h /\ cancel_done h a).

Lemma cancel_done_lib h hs a : cancel_done h a -> cancel_done h (spec_lib hs a).
Proof. unfold cancel_done. rewrite ast_spec_lib. by intros [-> | ->]; case_decide; auto. Qed.

Lemma cancel_kept_lib h hs a : cancel_kept h a -> cancel_kept h (spec_lib hs a).
Proof.
  intros [[Ha Hst]|[Ha Hd]]; [left|right].
  - split; [done|]. by apply spec_lib_canceling.
  - split; [done|]. by apply cancel_done_lib.
Qed.

Lemma spec_end_other h g st r a : g <> h -> ast (spec_end st g r a) h = ast a h.
Proof. intros Hne. rewrite ast_spec_end. by case_decide. Qed.

(** Terminating a goal is ending it, perhaps, after transitions of the library. *)
Lemma spec_terminate_ind (P : aserver -> Prop) lib g r a :
  (forall hs a', P a' -> P (spec_lib hs a')) -> (forall st a', P a' -> P (spec_end st g r a')) ->
  P a -> P (spec_terminate lib g r a).
Proof.
  intros Hl He Ha. unfold spec_terminate.
  destruct (ast (spec_lib _ a) g) as [[]|]; auto 10;
    destruct (ast (spec_lib _ (spec_lib _ a)) g) as [[]|]; auto 10;
    destruct (ast (spec_lib _ (spec_lib _ (spec_lib _ a))) g) as [[]|]; auto 10.
Qed.

Lemma spec_terminate_act lib g r a : act (spec_terminate lib g r a) = act a.
Proof. by apply spec_terminate_ind. Qed.

Lemma cancel_kept_end h g st r a : g <> h -> cancel_kept h a -> cancel_kept h (spec_end st g r a).
Proof. intros Hne. unfold cancel_kept, cancel_done. by rewrite (spec_end_other h g st r a Hne). Qed.

Lemma cancel_kept_finish lib h r a :
  cancel_kept h a ->
  act (spec_finish lib r a).2 = None /\ cancel_done h (spec_finish lib r a).2.
Proof.
  intros Hk. unfold spec_finish, spec_running, cancel_done.
  destruct Hk as [[Ha Hst]|[Ha Hst]].
  - rewrite Ha, Hst. cbn [fst snd]. split; [done|]. left.
    rewrite (spec_lib_canceling _ _ _ Hst).
    change (ast (spec_end CANCELED h r (spec_lib (lib BeforeEnd) (spec_lib (lib BeforeIsCanceling) a))) h
            = Some CANCELED). rewrite ast_spec_end. by case_decide.
  - destruct (act a) as [g|] eqn:Eg; [|done].
    assert (g <> h) as Hne by congruence.
    destruct (ast a g) as [[]|]; cbn [fst snd]; (split; [done|]); try exact Hst;
      (match goal with |- ast (spec_drop_active ?b) _ = _ \/ _ => change (cancel_done h b) end);
      unfold cancel_done; rewrite (spec_end_other _ _ _ _ _ Hne);
      by do 2 apply cancel_done_lib.
Qed.

Lemma cancel_kept_deferred h a p : cancel_kept h a -> spec_deferred a = Some p -> p <> h.
Proof.
  unfold spec_deferred. intros Hk. destruct (pend a) as [g|]; [|done].
  destruct (ast a g) as [[]|] eqn:E; try done. intros [= ->] ->.
  destruct Hk as [[_ Hst]|[_ [Hst|Hst]]]; congruence.
Qed.

Lemma cancel_kept_accept lib h r a : cancel_kept h a -> cancel_kept h (spec_accept lib r a).2.
Proof.
  intros Hk. unfold spec_accept. destruct (spec_deferred a) as [p|] eqn:Ep; [|done].
  pose proof (cancel_kept_deferred h a p Hk Ep) as Hne.
  destruct (cancel_kept_finish lib h r _ (cancel_kept_lib h (lib BeforeFinishActive) _ Hk)) as [Ha Hd].
  apply (cancel_done_lib h (lib BeforeExecute)) in Hd.
  set (a2 := spec_lib (lib BeforeExecute) _) in *.
  assert (cancel_kept h (spec_drop_pending a2)) as Hdrop.
  { right. split; [|exact Hd]. cbn. rewrite Ha. done. }
  assert (cancel_kept h (MkAserver (Some p) None (upd p (EXECUTING, None) (goals a2)))) as Hacc.
  { right. split; [cbn; congruence|]. unfold cancel_done. rewrite !ast_upd_ne by done. exact Hd. }
  by destruct (ast a2 p) as [[]|].
Qed.

Lemma cancel_kept_api lib h c a : cancel_kept h a -> cancel_kept h (spec_api lib c a).2.
Proof.
  intros Hk.
  assert (forall r, cancel_kept h (spec_finish lib r a).2) as Hfin.
  { intros r. destruct (cancel_kept_finish lib h r a Hk) as [Ha ?]. right. by rewrite Ha. }
  destruct c; cbn [spec_api]; try done.
  - pose proof (cancel_kept_accept lib h result a Hk). by destruct (spec_accept lib result a).
  - unfold spec_reject. destruct (spec_deferred a) as [p|] eqn:Ep; cbn [snd]; [|done].
    pose proof (cancel_kept_deferred h a p Hk Ep) as Hne.
    change (cancel_kept h (spec_terminate lib p result a)).
    apply spec_terminate_ind; [intros; by apply cancel_kept_lib|intros; by apply cancel_kept_end|done].
  - unfold spec_publish. destruct (spec_running a); [by apply cancel_kept_lib|done].
  - by specialize (Hfin result); destruct (spec_finish lib result a).
  - by specialize (Hfin result); destruct (spec_finish lib result a).
  - unfold spec_succeed. destruct (spec_running a) as [g|] eqn:E; cbn [snd]; [|done].
    assert (act a = Some g) as Hg.
    { unfold spec_running in E. destruct (act a) as [g'|]; [|done].
      destruct (ast a g') as [[]|]; by simplify_eq. }
    right. split; [done|]. change (cancel_done h (spec_end SUCCEEDED g result (spec_lib (lib BeforeEnd) a))).
    unfold cancel_done. rewrite ast_spec_end. case_decide as Hd; [by right|].
    apply cancel_done_lib. destruct Hk as [[? _]|[_ ?]]; [congruence|done].
Qed.

Lemma cancel_kept_hook lib h p : forall a, cancel_kept h a -> cancel_kept h (spec_hook lib p a).
Proof.
  induction p as [|c k IH|g k IH|g k IH]; intros a Hk; simpl; auto.
  pose proof (cancel_kept_api lib h c a Hk). destruct (spec_api lib c a) as [r a']. by apply IH.
Qed.

(** C9 -- A cancel request that reaches the owner while its goal is the active one and the client library has moved it to CANCELING is always answered: when the cancel handler returns, whatever the user's cancel hook did and whatever transitions of other goals the library made in the meantime, the goal is finished as CANCELED (or SUCCEEDED, if the hook chose to), never aborted or left unfinished, and the active slot has been freed of it. *)
Theorem cancel_of_active_is_answered (lib : interference AO) (h : GoalHandle) (s : slots) :
  goal_active_ s = Some h -> status_of (rcl s) h = Some CANCELING ->
  let s' := (cancelHandler lib h s).2 in
  goal_active_ s' <> Some h /\
  (status_of (rcl s') h = Some CANCELED \/ status_of (rcl s') h = Some SUCCEEDED).
Proof.
  intros Ha Hst s'. subst s'.
  assert (cancel_kept h (abs_of s)) as Hk by (by left).
  destruct (cancelHandler_locked_refines lib h s _ (shows_abs_of s)) as (s1 & He & _ & Hs1).
  unfold spec_cancel in He, Hs1. simpl in He, Hs1. rewrite Ha in He, Hs1.
  rewrite bool_decide_true in He, Hs1 by done. simpl in He, Hs1.
  unfold cancelHandler, mbind, state_bind. rewrite He. simpl.
  assert (exists a2, shows (call_hook lib (cancel_goal_hook_ s) s1).2 a2 /\ cancel_kept h a2)
    as (a2 & Hs2 & Hk2).
  { destruct (cancel_goal_hook_ s) as [p|]; [|by eexists].
    destruct (run_hook_refines lib p s1 _ Hs1) as [? _]. eexists. split; [done|]. by apply cancel_kept_hook. }
  destruct (call_hook lib (cancel_goal_hook_ s) s1) as [[] s2]. simpl in Hs2.
  destruct (cancelHandler_finish_refines lib h s2 _ Hs2) as (s3 & -> & _ & Hs3). simpl.
  rewrite (shows_active _ _ Hs3), (shows_status _ _ h Hs3). unfold spec_cancel_finish in *.
  case_bool_decide as Hd.
  - destruct (cancel_kept_finish lib h default_result a2 Hk2) as [-> ?]. done.
  - destruct Hk2 as [[? _]|?]; [congruence|done].
Qed.

End Contract.

(** ** Construction *)
Section Construction.
Context {AO : ActionOps} {AL : ActionLaws AO} {RC : RclcppOps} {RO : RTTOps RC} {RL : RTTLaws RO}.
Context {GoalUUID Server : Type}.
Variable getOwner : ServicePtr -> option TaskContext.

(** Adding the four operations does not touch the tree. *)
Lemma add_ops_services w s ops s' n :
  getService (fold_left (fun w o => addOperation s o w) ops w) s' n = getService w s' n.
Proof.
  revert w. induction ops as [|o ops IH]; intros w; simpl; [done|].
  by rewrite IH, addOperation_services.
Qed.

Lemma add_ops_keep w s ops o :
  hasOperation w s o = true ->
  hasOperation (fold_left (fun w o => addOperation s o w) ops w) s o = true.
Proof.
  revert w. induction ops as [|o' ops IH]; intros w Hw; simpl; [done|]. apply IH.
  rewrite addOperation_ops, Hw. apply orb_true_r.
Qed.

Lemma add_ops_has w s ops o :
  o ∈ ops -> hasOperation (fold_left (fun w o => addOperation s o w) ops w) s o = true.
Proof.
  revert w. induction ops as [|o' ops IH]; intros w Hin; [by apply not_elem_of_nil in Hin|].
  simpl. apply elem_of_cons in Hin as [->|Hin]; [|by apply IH].
  apply add_ops_keep. by rewrite addOperation_ops, bool_decide_true.
Qed.

(** Constructing a simple action server needs a service that belongs to a component, and throws otherwise without touching anything. The server it builds bears the given name, is not yet connected, and dispatches the requests of a client to its own handlers: every goal is deferred, a cancel request goes to cancelCallback, an accepted goal is sent to the owner's thread; a sub-service of the same name offers the four handlers as operations if the name was free. *)
Theorem construction_wires_handlers svc name w :
  match svc ≫= getOwner with
  | None => exists e, SimpleActionServer_ctor (GoalUUID := GoalUUID) (Server := Server)
                        getOwner svc name w = (Throw e, w)
  | Some owner =>
      exists (this : SimpleActionServer GoalUUID Server) w',
        SimpleActionServer_ctor getOwner svc name w = (Ok this, w') /\
        sas_getName this = name /\ owner_ this = owner /\ ready this = false /\
        (forall uuid goal s, handleGoal (action_server_ this) uuid goal s = (ACCEPT_AND_DEFER, s)) /\
        (forall gh s, handleCancel (action_server_ this) gh s = cancelCallback gh s) /\
        (forall gh s, handleAccepted (action_server_ this) gh s =
                        (tt, set_engine (engine s ++ [MsgAccepted gh]) s)) /\
        (forall sv, svc = Some sv -> getService w sv name = None ->
           exists sub, getService w' sv name = Some sub /\
             forall o, o ∈ ["goalCallback"; "cancelCallback"; "acceptedCallback"; "cancelHandler"]%string ->
               hasOperation w' sub o = true)
  end.
Proof.
  unfold SimpleActionServer_ctor. destruct svc as [sv|]; simpl; [|by eexists].
  destruct (getOwner sv) as [owner|]; [|by eexists].
  destruct (make_shared_Service_spec name w) as (sub & w1 & -> & _ & (Hname & _) & Hserv & _).
  destruct (addService sv sub w1) as [b w2] eqn:Hadd.
  do 2 eexists. split; [reflexivity|]. split_and!; try done.
  intros sv' [= <-] Hfree. exists sub.
  assert (getService w2 sv name = Some sub) as Hget.
  { rewrite <- Hserv, <- Hname in Hfree. destruct (addService_new _ _ _ Hfree) as (w3 & Hw3 & Hin & _).
    rewrite Hadd in Hw3. injection Hw3 as _ ->. by rewrite <- Hname. }
  split.
  - by rewrite !addOperation_services.
  - intros o Ho. exact (add_ops_has w2 sub _ o Ho).
Qed.
End Construction.

(** ** Witnesses on the concrete libraries *)
Module Witnesses.
Import Reference RttReference.

(** Goal 7 is active and being canceled, goal 8 is deferred; the cancel hook
    starts the pending goal, finishing the active one with result 5. *)
Definition busy : slots (AO := ref_ops) :=
  MkSlots (Some 7) (Some 8) None (Some (HookCall (CallAcceptPending 5) (fun _ => HookReturn))) []
    ({[7 := (CANCELING, None); 8 := (ACCEPTED, None)]} : ref_world).


Lemma handlers_refine_two_slots_witness :
  goal_pending_ (acceptedCallback (AO := ref_ops) quiet 9 busy).2 = Some 9 /\
  goal_active_ (cancelHandler (AO := ref_ops) quiet 7 busy).2 = Some 8.
Proof.
  destruct (handlers_refine_two_slots (AL := ref_laws) quiet 9 busy) as [Ha _].
  destruct (handlers_refine_two_slots (AL := ref_laws) quiet 7 busy) as [_ Hc].
  split; [exact (shows_pending _ _ Ha)|exact (shows_active _ _ Hc)].
Defined.

Lemma cancel_of_active_is_answered_witness :
  goal_active_ (cancelHandler (AO := ref_ops) quiet 7 busy).2 <> Some 7.
Proof.
  exact (proj1 (cancel_of_active_is_answered (AL := ref_laws) quiet 7 busy eq_refl eq_refl)).
Defined.

Lemma construction_wires_handlers_witness :
  exists (this : SimpleActionServer (AO := ref_ops) nat nat) w',
    SimpleActionServer_ctor (RO := ref_rtt_ops) (fun _ => Some 4)
      (Some (RefService 1 "component" None)) "arm" (RefRtt [] []) = (Ok this, w') /\
    sas_getName this = "arm"%string.
Proof.
  destruct (construction_wires_handlers (AO := ref_ops) (RL := ref_rtt_laws) (GoalUUID := nat)
              (Server := nat) (fun _ => Some 4) (Some (RefService 1 "component" None)) "arm"
              (RefRtt [] [])) as (this & w' & He & Hn & _).
  exists this, w'. exact (conj He Hn).
Defined.
End Witnesses.
