(* ===== verification/ActionSystem.v ===== *)
(** Package [rtt_ros2_actions]: a [SimpleActionServer] at work.

    The threads that meet in the class are the executor of [rclcpp] (requests of
    clients, and the CANCELING transition the library makes after the cancel
    callback has returned), the thread of the owner (the sent operations and the
    user hooks they call) and any other thread that calls a public method. The
    class holds [mutex_] in every method, so their interleavings are sequences
    of locked regions: [sys_region] is one of them, [event] says which. The
    library does not take the mutex: its CANCELING transitions are events of
    their own between regions, and [interference] inside them. A step
    ([sys_step]) ends with the destruction of the goal handles that nobody holds
    any more. Each step refines a transition of an abstract system ([region],
    [released]), of which the invariants are proved. *)

From S2P Require Import Prelude RclcppAction RttServices RttActionServer SimpleActionServer.

Section ActionSystem.
Context {AO : ActionOps} {AL : ActionLaws AO} {GoalUUID : Type}.

(** Where the thread of the owner is: between two messages, in the goal hook that
    [acceptedCallback gh] calls, or in the cancel hook that [cancelHandler gh] calls. *)
Inductive owner_pc :=
| Idle
| InGoalHook (p : hook_prog) (gh : GoalHandle)
| InCancelHook (p : hook_prog) (gh : GoalHandle).

(** [canceling] are the goals whose cancel request the class has accepted and
    the library is still at work on: it has them moved to CANCELING before it lets
    go of them. *)
Record system := MkSystem {
  srv : slots;
  owner : owner_pc;
  canceling : list GoalHandle }.

Inductive event :=
| EvGoal (uuid : GoalUUID) (gh : GoalHandle)
| EvCancelRequest (gh : GoalHandle)
| EvCancelTransition (gh : GoalHandle)
| EvDequeue (lib : interference AO)
| EvHook (lib : interference AO)
| EvApi (lib : interference AO) (c : api_call)
| EvSetGoalHook (h : option GoalHook)
| EvSetCancelHook (h : option CancelHook).

(** The library moves only goals to CANCELING whose cancel request was accepted. *)
Definition windows : list window :=
  [BeforeFinishActive; BeforeIsCanceling; BeforeIsExecuting; BeforeExecute; BeforeEnd].
Definition lib_in (lib : interference AO) (cl : list GoalHandle) : Prop :=
  Forall (fun p => Forall (fun h => h ∈ cl) (lib p)) windows.

(** ** The locked regions *)

(** A goal request: the library asks [goalCallback], creates the goal and
    calls [acceptedCallback], which is sent to the owner. *)
Definition do_goal (uuid : GoalUUID) (gh : GoalHandle) (s : system) : option system :=
  let '(r, v) := goalCallback uuid (get_goal gh) (srv s) in
  match status_of (rcl v) gh, r with
  | None, ACCEPT_AND_DEFER =>
      Some (MkSystem (send (MsgAccepted gh) (set_rcl (accept_goal gh (rcl v)) v)).2
              (owner s) (canceling s))
  | _, _ => None
  end.

Definition do_cancel_request (gh : GoalHandle) (s : system) : option system :=
  match cancelCallback gh (srv s) with
  | (CANCEL_ACCEPT, v) => Some (MkSystem v (owner s) (gh :: canceling s))
  | (CANCEL_REJECT, v) => Some (MkSystem v (owner s) (canceling s))
  end.

(** The library comes to the end of a cancel request. *)
Definition do_cancel_transition (gh : GoalHandle) (s : system) : option system :=
  if decide (gh ∈ canceling s) then
    Some (MkSystem (set_rcl (cancel_goals [gh] (rcl (srv s))) (srv s)) (owner s)
            (filter (fun h => h <> gh) (canceling s)))
  else None.

(** The owner takes the next message of its engine. *)
Definition do_dequeue (lib : interference AO) (s : system) : option system :=
  match owner s, engine (srv s) with
  | Idle, m :: q =>
      let v := set_engine q (srv s) in
      match m with
      | MsgAccepted gh =>
          let '(hook, v) := acceptedCallback_locked lib gh v in
          Some (MkSystem v (match hook with Some p => InGoalHook p gh | None => Idle end)
                  (canceling s))
      | MsgCancelHandler gh =>
          let '(hook, v) := cancelHandler_locked lib gh v in
          Some (MkSystem v (match hook with
                            | Some (Some p) => InCancelHook p gh
                            | Some None => InCancelHook HookReturn gh
                            | None => Idle
                            end) (canceling s))
      end
  | _, _ => None
  end.

(** The next step of a hook that is running. *)
Definition hook_step (lib : interference AO) (p : hook_prog) (v : slots)
    : option (hook_prog * slots) :=
  match p with
  | HookReturn => None
  | HookCall c k => let '(r, v) := run_api lib c v in Some (k r, v)
  | HookSetGoalHook h k => let '(_, v) := setGoalHook h v in Some (k, v)
  | HookSetCancelHook h k => let '(_, v) := setCancelHook h v in Some (k, v)
  end.

Definition do_hook (lib : interference AO) (s : system) : option system :=
  match owner s with
  | Idle => None
  | InGoalHook p gh =>
      match hook_step lib p (srv s) with
      | Some (p, v) => Some (MkSystem v (InGoalHook p gh) (canceling s))
      | None => Some (MkSystem (srv s) Idle (canceling s))
      end
  | InCancelHook p gh =>
      match hook_step lib p (srv s) with
      | Some (p, v) => Some (MkSystem v (InCancelHook p gh) (canceling s))
      | None => Some (MkSystem (cancelHandler_finish lib gh (srv s)).2 Idle (canceling s))
      end
  end.

Definition sys_region (e : event) (s : system) : option system :=
  match e with
  | EvGoal uuid gh => do_goal uuid gh s
  | EvCancelRequest gh => do_cancel_request gh s
  | EvCancelTransition gh => do_cancel_transition gh s
  | EvDequeue lib => if decide (lib_in lib (canceling s)) then do_dequeue lib s else None
  | EvHook lib => if decide (lib_in lib (canceling s)) then do_hook lib s else None
  | EvApi lib c =>
      if decide (lib_in lib (canceling s))
      then Some (MkSystem (run_api lib c (srv s)).2 (owner s) (canceling s)) else None
  | EvSetGoalHook h => Some (MkSystem (setGoalHook h (srv s)).2 (owner s) (canceling s))
  | EvSetCancelHook h => Some (MkSystem (setCancelHook h (srv s)).2 (owner s) (canceling s))
  end.

(** ** The owners of a goal handle

    The slots, the messages of the owner's queue, the handler the owner runs and
    the library in the middle of a cancel request. The library itself keeps weak
    references only. *)
Definition owner_handle (o : owner_pc) : list GoalHandle :=
  match o with Idle => [] | InGoalHook _ gh | InCancelHook _ gh => [gh] end.

Definition elsewhere (s : system) : list GoalHandle := owner_handle (owner s) ++ canceling s.

Definition held (s : system) : list GoalHandle :=
  option_list (goal_active_ (srv s)) ++ option_list (goal_pending_ (srv s)) ++
  (message_handle <$> engine (srv s)) ++ elsewhere s.

(** From [s] to [s']: the handles whose last owner has let go are destroyed. *)
Definition release (s s' : system) : system :=
  MkSystem (set_rcl (destroy_handles (filter (fun h => h ∉ held s') (held s)) (rcl (srv s')))
              (srv s'))
    (owner s') (canceling s').

Definition sys_step (e : event) (s : system) : option system :=
  release s <$> sys_region e s.

Fixpoint run_events (es : list event) (s : system) : option system :=
  match es with
  | [] => Some s
  | e :: es => s' ← sys_step e s; run_events es s'
  end.

(** The server after its construction: empty slots, an idle owner, a library
    that knows no goal. *)
Definition initial (s : system) : Prop :=
  goal_active_ (srv s) = None /\ goal_pending_ (srv s) = None /\ engine (srv s) = [] /\
  (forall h, status_of (rcl (srv s)) h = None) /\ owner s = Idle /\ canceling s = [].

Inductive reachable : system -> Prop :=
| reachable_init s : initial s -> reachable s
| reachable_step e s s' : reachable s -> sys_step e s = Some s' -> reachable s'.

Lemma reachable_run es s s' : reachable s -> run_events es s = Some s' -> reachable s'.
Proof.
  revert s. induction es as [|e es IH]; simpl; intros s Hr.
  - by intros [= ->].
  - destruct (sys_step e s) as [s1|] eqn:E; simpl; [|done]. apply IH. by eapply reachable_step.
Qed.

(** ** The invariant *)

(** The goals whose [acceptedCallback] waits in the engine. *)
Definition queued (q : list message) : list GoalHandle :=
  omap (fun m => match m with MsgAccepted h => Some h | MsgCancelHandler _ => None end) q.

Record inv (a : aserver) (q : list message) (cl : list GoalHandle) : Prop := {
  inv_distinct h : act a = Some h -> pend a <> Some h;
  inv_active h : act a = Some h -> ast a h = Some EXECUTING \/ ast a h = Some CANCELING;
  inv_pending h : pend a = Some h -> ast a h = Some ACCEPTED \/ ast a h = Some CANCELING;
  inv_executing h : ast a h = Some EXECUTING -> act a = Some h;
  inv_accepted h : ast a h = Some ACCEPTED -> pend a = Some h \/ h ∈ queued q;
  inv_queued h : h ∈ queued q -> ast a h = Some ACCEPTED /\ pend a <> Some h /\ h ∉ cl;
  inv_nodup : NoDup (queued q);
  inv_canceling h : h ∈ cl -> is_Some (ast a h) }.

Lemma ast_upd x y h v g h' :
  ast (MkAserver x y (upd h v g)) h' = if decide (h' = h) then Some v.1 else fst <$> g h'.
Proof. unfold ast, upd. simpl. by case_decide. Qed.

(** The invariant does not depend on how the goals are represented. *)
#[global] Instance inv_proper : Proper ((≡) ==> (=) ==> (=) ==> iff) inv.
Proof.
  assert (forall a a' q cl, a ≡ a' -> inv a q cl -> inv a' q cl) as H.
  { intros a a' q cl (H1 & H2 & H3) [].
    assert (forall h, ast a' h = ast a h) as Hs by (intros h; unfold ast; by rewrite H3).
    split; intros; rewrite ?Hs in *; rewrite <- ?H1, <- ?H2 in *; eauto. }
  intros a a' Ha q q' <- cl cl' <-. split; apply H; [done|by symmetry].
Qed.

(** An update that ends a goal in one of the slots, which is emptied. *)
Lemma inv_end_active a q cl h st r :
  inv a q cl -> act a = Some h -> terminal st = true ->
  inv (MkAserver None (pend a) (upd h (st, r) (goals a))) q cl.
Proof.
  intros I Ha Ht. pose proof (inv_distinct _ _ _ I h Ha) as Hd.
  pose proof (inv_active _ _ _ I h Ha) as Hst.
  assert (h ∉ queued q) as Hq.
  { intros Hin. apply (inv_queued _ _ _ I) in Hin as (? & _). intuition congruence. }
  split; simpl; try done.
  - intros g Hg. rewrite ast_upd. case_decide; [by subst|]. by apply (inv_pending _ _ _ I).
  - intros g. rewrite ast_upd. case_decide; [intros [= ->]; by subst|].
    intros Hg. apply (inv_executing _ _ _ I) in Hg. congruence.
  - intros g. rewrite ast_upd. case_decide; [intros [= ->]; by subst|]. apply (inv_accepted _ _ _ I).
  - intros g Hg. rewrite ast_upd. case_decide; [by subst|]. by apply (inv_queued _ _ _ I).
  - apply (inv_nodup _ _ _ I).
  - intros g Hg. rewrite ast_upd. case_decide; [by eexists|]. by apply (inv_canceling _ _ _ I).
Qed.

Lemma inv_end_pending a q cl h st r :
  inv a q cl -> pend a = Some h -> terminal st = true ->
  inv (MkAserver (act a) None (upd h (st, r) (goals a))) q cl.
Proof.
  intros I Hp Ht.
  assert (act a <> Some h) as Hd by (intros E; by apply (inv_distinct _ _ _ I h E)).
  assert (h ∉ queued q) as Hq.
  { intros Hin. apply (inv_queued _ _ _ I) in Hin as (_ & ? & _). done. }
  split; simpl; try done.
  - intros g Hg. rewrite ast_upd. case_decide; [by subst|]. by apply (inv_active _ _ _ I).
  - intros g. rewrite ast_upd. case_decide; [intros [= ->]; by subst|]. apply (inv_executing _ _ _ I).
  - intros g. rewrite ast_upd. case_decide; [intros [= ->]; by subst|].
    intros Hg. apply (inv_accepted _ _ _ I) in Hg as [|]; [congruence|by right].
  - intros g Hg. rewrite ast_upd. case_decide; [by subst|].
    destruct (inv_queued _ _ _ I g Hg) as (? & ? & ?). done.
  - apply (inv_nodup _ _ _ I).
  - intros g Hg. rewrite ast_upd. case_decide; [by eexists|]. by apply (inv_canceling _ _ _ I).
Qed.

(** The pending slot lets go of a goal that is being canceled. *)
Lemma inv_drop_pending a q cl :
  inv a q cl -> (forall h, pend a = Some h -> ast a h <> Some ACCEPTED) ->
  inv (spec_drop_pending a) q cl.
Proof.
  intros I Hp. split; simpl; try done.
  - apply (inv_active _ _ _ I).
  - apply (inv_executing _ _ _ I).
  - intros h Hst. destruct (inv_accepted _ _ _ I h Hst) as [Hh|?]; [|by right].
    by destruct (Hp h Hh).
  - intros h Hq. destruct (inv_queued _ _ _ I h Hq) as (? & _ & ?). done.
  - apply (inv_nodup _ _ _ I).
  - apply (inv_canceling _ _ _ I).
Qed.

(** Promotion of a deferred pending goal to the empty active slot. *)
Lemma inv_promote a q cl p :
  inv a q cl -> act a = None -> pend a = Some p -> ast a p = Some ACCEPTED ->
  inv (MkAserver (Some p) None (upd p (EXECUTING, None) (goals a))) q cl.
Proof.
  intros I Ha Hp Hst.
  assert (p ∉ queued q) as Hq.
  { intros Hin. apply (inv_queued _ _ _ I) in Hin as (_ & ? & _). done. }
  split; simpl; try done.
  - intros g [= ->]. rewrite ast_upd. rewrite decide_True by done. by left.
  - intros g. rewrite ast_upd. case_decide; [by subst|].
    intros Hg. apply (inv_executing _ _ _ I) in Hg. congruence.
  - intros g. rewrite ast_upd. case_decide; [done|].
    intros Hg. apply (inv_accepted _ _ _ I) in Hg as [|]; [congruence|by right].
  - intros g Hg. rewrite ast_upd. case_decide; [by subst|].
    destruct (inv_queued _ _ _ I g Hg) as (? & ? & ?). done.
  - apply (inv_nodup _ _ _ I).
  - intros g Hg. rewrite ast_upd. case_decide; [by eexists|]. by apply (inv_canceling _ _ _ I).
Qed.

(** Under the invariant the slots hold goals that can be finished. *)
Lemma inv_running a q cl : inv a q cl -> spec_running a = act a.
Proof.
  intros I. unfold spec_running. destruct (act a) as [h|] eqn:Ha; [|done].
  by destruct (inv_active _ _ _ I h Ha) as [-> | ->].
Qed.

Lemma spec_deferred_Some a p : spec_deferred a = Some p <-> pend a = Some p /\ ast a p = Some ACCEPTED.
Proof.
  unfold spec_deferred. destruct (pend a) as [h|]; [|naive_solver].
  destruct (ast a h) as [[]|] eqn:E; split; intros H; try done; try (destruct H; congruence).
  injection H as ->. done.
Qed.

(** ** Transitions of the library

    [a'] is [a] after the library has moved some of the goals [cl] to CANCELING. *)
Record lib_moved (cl : list GoalHandle) (a a' : aserver) : Prop := {
  moved_act : act a' = act a;
  moved_pend : pend a' = pend a;
  moved_goals h : goals a' h = goals a h \/ h ∈ cl /\ goals a' h = to_canceling (goals a h) }.

Lemma lib_moved_refl cl a : lib_moved cl a a.
Proof. split; auto. Qed.

Lemma lib_moved_trans cl a1 a2 a3 : lib_moved cl a1 a2 -> lib_moved cl a2 a3 -> lib_moved cl a1 a3.
Proof.
  intros [A1 P1 G1] [A2 P2 G2]. split; [congruence..|]. intros h.
  destruct (G1 h) as [E1|[? E1]], (G2 h) as [E2|[? E2]]; rewrite E2, E1, ?to_canceling_idem; auto.
Qed.

Lemma spec_lib_moved hs cl a : (forall h, h ∈ hs -> h ∈ cl) -> lib_moved cl a (spec_lib hs a).
Proof. intros Hin. split; [done..|]. intros h. cbn. case_decide; auto. Qed.

Lemma lib_window lib cl p h : lib_in lib cl -> h ∈ lib p -> h ∈ cl.
Proof.
  unfold lib_in. rewrite Forall_forall. intros H. specialize (H p). rewrite Forall_forall in H.
  apply H. unfold windows. destruct p; set_solver.
Qed.

Lemma lib_moved_window lib cl p a : lib_in lib cl -> lib_moved cl a (spec_lib (lib p) a).
Proof. intros Hl. apply spec_lib_moved. intros h. by apply lib_window. Qed.

Lemma moved_status cl a a' h :
  lib_moved cl a a' ->
  ast a' h = ast a h \/
  h ∈ cl /\ ast a' h = Some CANCELING /\ (ast a h = Some ACCEPTED \/ ast a h = Some EXECUTING).
Proof.
  intros M. unfold ast. destruct (moved_goals _ _ _ M h) as [->|[Hin ->]]; [by left|].
  destruct (goals a h) as [[[] ?]|]; auto.
Qed.

Lemma inv_lib a a' q cl : inv a q cl -> lib_moved cl a a' -> inv a' q cl.
Proof.
  intros I M. destruct (id M) as [Ha Hp _].
  assert (forall h, h ∈ queued q -> ast a' h = ast a h) as Hq.
  { intros h Hq. destruct (moved_status _ _ _ h M) as [|[? _]]; [done|].
    by destruct (inv_queued _ _ _ I h Hq) as (_ & _ & ?). }
  split; try intros h; rewrite ?Ha, ?Hp.
  - apply (inv_distinct _ _ _ I).
  - intros Hh. destruct (moved_status _ _ _ h M) as [->|(_ & -> & _)]; [by apply (inv_active _ _ _ I)|auto].
  - intros Hh. destruct (moved_status _ _ _ h M) as [->|(_ & -> & _)]; [by apply (inv_pending _ _ _ I)|auto].
  - destruct (moved_status _ _ _ h M) as [->|(_ & -> & _)]; [apply (inv_executing _ _ _ I)|done].
  - destruct (moved_status _ _ _ h M) as [->|(_ & -> & _)]; [apply (inv_accepted _ _ _ I)|done].
  - intros Hh. rewrite (Hq h Hh). by apply (inv_queued _ _ _ I).
  - apply (inv_nodup _ _ _ I).
  - intros Hh. destruct (moved_status _ _ _ h M) as [->|(_ & -> & _)]; [by apply (inv_canceling _ _ _ I)|done].
Qed.

(** How a goal ends: CANCELED if it is CANCELING by then, ABORTED if it was not
    when the server began. *)
Definition ends (a a' : aserver) (h : GoalHandle) (st : goal_status) : Prop :=
  st = CANCELED /\ ast a' h = Some CANCELING \/
  st = ABORTED /\ (ast a h = Some ACCEPTED \/ ast a h = Some EXECUTING).

Lemma ends_terminal a a' h st : ends a a' h st -> terminal st = true.
Proof. by intros [[-> _]|[-> _]]. Qed.

(** An ACCEPTED or EXECUTING goal was that before the library moved others. *)
Lemma moved_back cl a a' h st :
  lib_moved cl a a' -> ast a' h = Some st -> st <> CANCELING -> ast a h = Some st.
Proof. intros M Hst Hn. destruct (moved_status _ _ _ h M) as [|(_ & ? & _)]; congruence. Qed.

Lemma spec_terminate_cases lib cl h r a :
  lib_in lib cl ->
  exists a', lib_moved cl a a' /\
    (spec_terminate lib h r a = a' /\ ast a' h <> Some ACCEPTED /\ ast a' h <> Some EXECUTING /\
       ast a h <> Some CANCELING \/
     exists st, spec_terminate lib h r a = spec_end st h r a' /\ ends a a' h st).
Proof.
  intros Hl. unfold spec_terminate.
  pose proof (lib_moved_window lib cl BeforeIsCanceling a Hl) as M1.
  set (a1 := spec_lib (lib BeforeIsCanceling) a) in *.
  destruct (decide (ast a1 h = Some CANCELING)) as [Hc|Hc].
  { exists (spec_lib (lib BeforeEnd) a1). rewrite Hc. split.
    - eapply lib_moved_trans; [exact M1|by apply lib_moved_window].
    - right. eexists. split; [done|]. left. split; [done|]. by apply spec_lib_canceling. }
  assert (ast a h <> Some CANCELING) as Hc0.
  { intros E. by apply Hc, spec_lib_canceling. }
  pose proof (lib_moved_trans _ _ _ _ M1 (lib_moved_window lib cl BeforeIsExecuting a1 Hl)) as M2.
  set (a2 := spec_lib (lib BeforeIsExecuting) a1) in *.
  pose proof (lib_moved_trans _ _ _ _ M2 (lib_moved_window lib cl BeforeEnd a2 Hl)) as M2'.
  destruct (decide (ast a2 h = Some EXECUTING)) as [He|He].
  { exists (spec_lib (lib BeforeEnd) a2). rewrite He. split; [exact M2'|]. right. exists ABORTED.
    split; [by destruct (ast a1 h) as [[]|]|]. right. split; [done|]. right.
    by apply (moved_back _ _ _ h _ M2 He). }
  pose proof (lib_moved_trans _ _ _ _ M2 (lib_moved_window lib cl BeforeExecute a2 Hl)) as M3.
  pose proof (lib_moved_window lib cl BeforeExecute a2 Hl) as M23.
  set (a3 := spec_lib (lib BeforeExecute) a2) in *.
  pose proof (lib_moved_trans _ _ _ _ M3 (lib_moved_window lib cl BeforeEnd a3 Hl)) as M3'.
  destruct (decide (ast a3 h = Some ACCEPTED)) as [Ha|Ha].
  { exists (spec_lib (lib BeforeEnd) a3). rewrite Ha. split; [exact M3'|]. right. exists ABORTED.
    split; [by destruct (ast a1 h) as [[]|], (ast a2 h) as [[]|]|]. right. split; [done|]. left.
    by apply (moved_back _ _ _ h _ M3 Ha). }
  exists a3. split; [exact M3|]. left. split_and!; [|done| |done].
  - by destruct (ast a1 h) as [[]|], (ast a2 h) as [[]|], (ast a3 h) as [[]|].
  - intros E. by apply He, (moved_back _ _ _ h _ M23 E).
Qed.

Lemma spec_finish_cases lib cl r a :
  lib_in lib cl ->
  (spec_running a = None /\ (spec_finish lib r a).2 = spec_drop_active a) \/
  exists a' h st, lib_moved cl a a' /\ spec_running a = Some h /\
    (spec_finish lib r a).2 = spec_drop_active (spec_end st h r a') /\ ends a a' h st.
Proof.
  intros Hl. unfold spec_finish. destruct (spec_running a) as [h|] eqn:Hr; [right|by left].
  pose proof (lib_moved_window lib cl BeforeIsCanceling a Hl) as M1.
  set (a1 := spec_lib (lib BeforeIsCanceling) a) in *.
  pose proof (lib_moved_trans _ _ _ _ M1 (lib_moved_window lib cl BeforeEnd a1 Hl)) as M2.
  do 3 eexists. split; [exact M2|]. split; [done|]. split; [done|].
  assert (ast a h = Some EXECUTING \/ ast a h = Some CANCELING) as Hor.
  { unfold spec_running in Hr. destruct (act a) as [g|]; [|done].
    destruct (ast a g) as [[]|] eqn:E; simplify_eq; auto. }
  apply (spec_lib_running (lib BeforeIsCanceling)) in Hor as Hor1. fold a1 in Hor1.
  destruct (decide (ast a1 h = Some CANCELING)) as [Hc|Hc].
  - rewrite Hc. left. split; [done|]. by apply spec_lib_canceling.
  - destruct Hor1 as [He|?]; [|done]. rewrite He. right. split; [done|]. right.
    by apply (moved_back _ _ _ h _ M1 He).
Qed.

(** ** What the operations do to the invariant *)

Lemma spec_finish_slots lib a r :
  act (spec_finish lib r a).2 = None /\ pend (spec_finish lib r a).2 = pend a.
Proof. unfold spec_finish. by destruct (spec_running a). Qed.

Lemma inv_finish lib a q cl r : lib_in lib cl -> inv a q cl -> inv (spec_finish lib r a).2 q cl.
Proof.
  intros Hl I. destruct (spec_finish_cases lib cl r a Hl) as [[Hr ->]|(a' & h & st & M & Hr & -> & He)].
  - rewrite (inv_running _ _ _ I) in Hr. destruct a; simpl in *; subst. done.
  - rewrite (inv_running _ _ _ I) in Hr. rewrite <- (moved_act _ _ _ M) in Hr.
    apply (inv_end_active a'); [by apply (inv_lib a)|done|by eapply ends_terminal].
Qed.

(** The pending goal is terminated and its slot emptied. *)
Lemma inv_terminate_pending lib a q cl h r :
  lib_in lib cl -> inv a q cl -> pend a = Some h ->
  inv (spec_drop_pending (spec_terminate lib h r a)) q cl.
Proof.
  intros Hl I Hp. destruct (spec_terminate_cases lib cl h r a Hl) as (a' & M & Hor).
  pose proof (inv_lib _ _ _ _ I M) as I'. rewrite <- (moved_pend _ _ _ M) in Hp.
  destruct Hor as [(-> & Ha & _)|(st & -> & He)].
  - apply inv_drop_pending; [done|]. intros g Hg. congruence.
  - apply (inv_end_pending a'); [done|done|by eapply ends_terminal].
Qed.

Lemma inv_accept lib a q cl r : lib_in lib cl -> inv a q cl -> inv (spec_accept lib r a).2 q cl.
Proof.
  intros Hl I. unfold spec_accept. destruct (spec_deferred a) as [p|] eqn:Ep; [|done].
  apply spec_deferred_Some in Ep as [Hp _].
  pose proof (inv_lib _ _ _ _ I (lib_moved_window lib cl BeforeFinishActive a Hl)) as I0.
  pose proof (inv_finish lib _ _ _ r Hl I0) as I1.
  destruct (spec_finish_slots lib (spec_lib (lib BeforeFinishActive) a) r) as [Ha1 Hp1].
  set (a1 := (spec_finish lib r _).2) in *.
  pose proof (inv_lib _ _ _ _ I1 (lib_moved_window lib cl BeforeExecute a1 Hl)) as I2.
  set (a2 := spec_lib (lib BeforeExecute) a1) in *.
  assert (act a2 = None) as Ha2 by exact Ha1.
  assert (pend a2 = Some p) as Hp2 by (change (pend a1 = Some p); by rewrite Hp1).
  destruct (decide (ast a2 p = Some ACCEPTED)) as [Hst|Hst].
  - rewrite Hst. by apply inv_promote.
  - assert (inv (spec_drop_pending a2) q cl) as H.
    { apply inv_drop_pending; [done|]. intros h Hh. congruence. }
    by destruct (ast a2 p) as [[]|].
Qed.

Lemma inv_api lib a q cl c : lib_in lib cl -> inv a q cl -> inv (spec_api lib c a).2 q cl.
Proof.
  intros Hl I. destruct c; cbn [spec_api]; try done.
  - pose proof (inv_accept lib _ _ _ result Hl I). by destruct (spec_accept lib result a).
  - unfold spec_reject. destruct (spec_deferred a) as [p|] eqn:Ep; [|done].
    apply spec_deferred_Some in Ep as [Hp _]. by apply inv_terminate_pending.
  - unfold spec_publish. destruct (spec_running a); [|done].
    apply (inv_lib a); [done|by apply lib_moved_window].
  - pose proof (inv_finish lib _ _ _ result Hl I). by destruct (spec_finish lib result a).
  - pose proof (inv_finish lib _ _ _ result Hl I). by destruct (spec_finish lib result a).
  - unfold spec_succeed. rewrite (inv_running _ _ _ I). destruct (act a) as [h|] eqn:Ha; [|done].
    apply (inv_end_active (spec_lib (lib BeforeEnd) a)); [|done|done].
    apply (inv_lib a); [done|by apply lib_moved_window].
Qed.

(** ** The invariant is kept by every step *)

Lemma queued_app q1 q2 : queued (q1 ++ q2) = queued q1 ++ queued q2.
Proof. apply omap_app. Qed.

Lemma inv_message a q cl h : inv a (MsgCancelHandler h :: q) cl -> inv a q cl.
Proof. intros []. by split. Qed.

(** A queued goal takes the pending slot, once no deferred goal is in it. *)
Lemma inv_take_pending a q cl h :
  inv a (MsgAccepted h :: q) cl -> (forall p, pend a = Some p -> ast a p <> Some ACCEPTED) ->
  inv (MkAserver (act a) (Some h) (goals a)) q cl.
Proof.
  intros I Hp.
  assert (forall g, g ∈ queued q -> g ∈ queued (MsgAccepted h :: q)) as Hq by (intros; by right).
  assert (h ∈ queued (MsgAccepted h :: q)) as Hh by left.
  destruct (inv_queued _ _ _ I h Hh) as (Hst & Hph & Hcl).
  pose proof (inv_nodup _ _ _ I) as Hnd. apply NoDup_cons in Hnd as [Hnin Hnd].
  split; simpl; try done.
  - intros g Hg [= ->]. destruct (inv_active _ _ _ I g Hg); congruence.
  - apply (inv_active _ _ _ I).
  - intros g [= <-]. by left.
  - apply (inv_executing _ _ _ I).
  - intros g Hg. destruct (inv_accepted _ _ _ I g Hg) as [Hpg|Hin].
    + by destruct (Hp g Hpg).
    + apply elem_of_cons in Hin as [-> |]; [by left|by right].
  - intros g Hg. destruct (inv_queued _ _ _ I g (Hq g Hg)) as (? & ? & ?). split; [done|].
    split; [|done]. intros [= ->]. done.
  - apply (inv_canceling _ _ _ I).
Qed.

Lemma inv_spec_accepted lib a q cl h :
  lib_in lib cl -> inv a (MsgAccepted h :: q) cl -> inv (spec_accepted lib h a) q cl.
Proof.
  intros Hl I. unfold spec_accepted. destruct (spec_deferred a) as [p|] eqn:Ep.
  - apply spec_deferred_Some in Ep as [Hp _].
    apply (inv_terminate_pending lib _ _ _ p default_result Hl) in I; [|done].
    by apply (inv_take_pending _ _ _ _ I).
  - apply inv_take_pending; [done|]. intros p Hp Hst.
    rewrite (proj2 (spec_deferred_Some a p)) in Ep; done.
Qed.

Lemma inv_spec_cancel lib a q cl h :
  lib_in lib cl -> inv a (MsgCancelHandler h :: q) cl -> inv (spec_cancel lib h a).2 q cl.
Proof.
  intros Hl I%inv_message. unfold spec_cancel.
  case_bool_decide; [done|]. case_bool_decide as Hp; [|done]. by apply inv_terminate_pending.
Qed.

Lemma inv_spec_cancel_finish lib a q cl h :
  lib_in lib cl -> inv a q cl -> inv (spec_cancel_finish lib h a) q cl.
Proof. intros Hl I. unfold spec_cancel_finish. case_bool_decide; [|done]. by apply inv_finish. Qed.

(** A new goal is queued. *)
Lemma inv_new_goal a q cl h :
  inv a q cl -> ast a h = None ->
  inv (MkAserver (act a) (pend a) (upd h (ACCEPTED, None) (goals a))) (q ++ [MsgAccepted h]) cl.
Proof.
  intros I Hn.
  assert (forall g st, ast a g = Some st -> g <> h) as Hne by (intros; congruence).
  split; simpl.
  - apply (inv_distinct _ _ _ I).
  - intros g Hg. rewrite ast_upd. destruct (inv_active _ _ _ I g Hg);
      (rewrite decide_False by eauto; eauto).
  - intros g Hg. rewrite ast_upd. destruct (inv_pending _ _ _ I g Hg);
      (rewrite decide_False by eauto; eauto).
  - intros g. rewrite ast_upd. case_decide; [done|]. apply (inv_executing _ _ _ I).
  - intros g. rewrite ast_upd, queued_app. case_decide as Hd.
    + intros _. right. apply elem_of_app. right. subst. by left.
    + intros Hg. apply (inv_accepted _ _ _ I) in Hg as [|]; [by left|].
      right. apply elem_of_app. by left.
  - intros g. rewrite ast_upd, queued_app. intros Hin.
    apply elem_of_app in Hin as [Hin|Hin%list_elem_of_singleton].
    + destruct (inv_queued _ _ _ I g Hin) as (Hst & ? & ?).
      rewrite decide_False by eauto. done.
    + subst. rewrite decide_True by done. repeat split.
      * intros Hp. destruct (inv_pending _ _ _ I h Hp); congruence.
      * intros Hc. apply (inv_canceling _ _ _ I) in Hc. rewrite Hn in Hc. by destruct Hc.
  - rewrite queued_app. apply NoDup_app. split; [apply (inv_nodup _ _ _ I)|]. split.
    + intros g Hg ->%list_elem_of_singleton. apply (inv_queued _ _ _ I) in Hg as [? _]. congruence.
    + apply NoDup_singleton.
  - intros g Hg. rewrite ast_upd. case_decide; [by eexists|]. by apply (inv_canceling _ _ _ I).
Qed.

Lemma inv_less_canceling a q cl cl' : inv a q cl -> (forall g, g ∈ cl' -> g ∈ cl) -> inv a q cl'.
Proof.
  intros I Hsub. destruct I. split; eauto. intros h Hh.
  destruct (inv_queued0 h Hh) as (? & ? & ?). eauto 10.
Qed.

Lemma inv_cancel_message a q cl h : inv a q cl -> inv a (q ++ [MsgCancelHandler h]) cl.
Proof.
  intros I. assert (queued (q ++ [MsgCancelHandler h]) = queued q) as Hq.
  { rewrite queued_app. simpl. apply app_nil_r. }
  destruct I. split; rewrite ?Hq; eauto.
Qed.

Lemma inv_more_canceling a q cl h :
  inv a q cl -> act a = Some h \/ pend a = Some h -> inv a q (h :: cl).
Proof.
  intros I Hor. split; try apply I.
  - intros g Hg. destruct (inv_queued _ _ _ I g Hg) as (Hst & Hp & Hc). split; [done|].
    split; [done|]. intros [-> |]%elem_of_cons; [|done].
    destruct Hor as [Ha|]; [|done]. destruct (inv_active _ _ _ I h Ha); congruence.
  - intros g [-> |Hg]%elem_of_cons; [|by apply (inv_canceling _ _ _ I)].
    destruct Hor as [Ha|Hp].
    + destruct (inv_active _ _ _ I h Ha) as [-> | ->]; by eexists.
    + destruct (inv_pending _ _ _ I h Hp) as [-> | ->]; by eexists.
Qed.

(** ** What one step does to one goal

    [asked]: the client's cancel request has been accepted. *)
Inductive goal_move (asked : Prop) : goal_view AO -> goal_view AO -> Prop :=
| MoveNone v : goal_move asked v v
| MoveExecute o : goal_move asked (Some (ACCEPTED, o)) (Some (EXECUTING, None))
| MoveCanceling st o :
    asked -> st = ACCEPTED \/ st = EXECUTING ->
    goal_move asked (Some (st, o)) (Some (CANCELING, None))
| MoveAbort st o r :
    st = ACCEPTED \/ st = EXECUTING -> goal_move asked (Some (st, o)) (Some (ABORTED, Some r))
| MoveCanceled st o r :
    st = CANCELING \/ asked /\ (st = ACCEPTED \/ st = EXECUTING) ->
    goal_move asked (Some (st, o)) (Some (CANCELED, Some r))
| MoveSucceed st o r :
    st = EXECUTING \/ st = CANCELING -> goal_move asked (Some (st, o)) (Some (SUCCEEDED, Some r)).

Lemma ast_view a h st : ast a h = Some st -> exists o, goals a h = Some (st, o).
Proof. unfold ast. destruct (goals a h) as [[]|]; [|done]. intros [= ->]. eauto. Qed.

Lemma spec_running_Some a h :
  spec_running a = Some h -> act a = Some h /\ (ast a h = Some EXECUTING \/ ast a h = Some CANCELING).
Proof.
  unfold spec_running. destruct (act a) as [g|]; [|done].
  destruct (ast a g) as [[]|] eqn:E; try done; intros [= ->]; auto.
Qed.

Lemma move_lib cl a a' h : lib_moved cl a a' -> goal_move (h ∈ cl) (goals a h) (goals a' h).
Proof.
  intros M. destruct (moved_goals _ _ _ M h) as [->|[Hin ->]]; [constructor|].
  destruct (goals a h) as [[[] ?]|]; constructor; auto.
Qed.

(** A goal that was moved by the library, perhaps, and then ended. *)
Lemma move_end cl a a' h r st h' :
  lib_moved cl a a' -> ends a a' h st ->
  goal_move (h' ∈ cl) (goals a h') (goals (spec_end st h r a') h').
Proof.
  intros M He. cbn. unfold upd. case_decide as Hd; [subst h'|by apply move_lib].
  destruct He as [[-> Hst]|[-> Hst]].
  - destruct (moved_status _ _ _ h M) as [E|(Hin & _ & [[o ->]%ast_view|[o ->]%ast_view])].
    + rewrite E in Hst. apply ast_view in Hst as [o ->]. constructor. auto.
    + constructor. auto.
    + constructor. auto.
  - destruct Hst as [[o ->]%ast_view|[o ->]%ast_view]; constructor; auto.
Qed.

Lemma move_terminate lib cl h r a h' :
  lib_in lib cl -> goal_move (h' ∈ cl) (goals a h') (goals (spec_terminate lib h r a) h').
Proof.
  intros Hl. destruct (spec_terminate_cases lib cl h r a Hl) as (a' & M & [(-> & _)|(st & -> & He)]).
  - by apply move_lib.
  - by apply (move_end cl).
Qed.

(** Finishing the active goal, also some transitions of the library later. *)
Lemma move_finish lib cl r a0 a h' :
  lib_in lib cl -> lib_moved cl a0 a ->
  goal_move (h' ∈ cl) (goals a0 h') (goals (spec_finish lib r a).2 h').
Proof.
  intros Hl M0. destruct (spec_finish_cases lib cl r a Hl) as [[_ ->]|(a' & h & st & M & _ & -> & He)].
  - exact (move_lib cl a0 a h' M0).
  - apply (move_end cl); [by eapply lib_moved_trans|]. destruct He as [He|[-> Hor]]; [by left|right].
    split; [done|]. destruct Hor; [left|right]; by eapply moved_back.
Qed.

(** The library then moves a goal that is known. *)
Lemma move_then_lib (asked : Prop) (v v1 v2 : goal_view AO) :
  is_Some v -> goal_move asked v v1 -> v2 = v1 \/ asked /\ v2 = to_canceling v1 ->
  goal_move asked v v2.
Proof.
  intros Hk Hm [->|[Ha ->]]; [done|].
  destruct Hm as [v|o|st o _ H|st o r H|st o r H|st o r H]; cbn; try (by constructor; auto).
  destruct v as [[[] ?]|]; cbn; try constructor; auto.
Qed.

Lemma move_unknown lib cl r a h :
  lib_in lib cl -> goals a h = None -> goals (spec_finish lib r a).2 h = None.
Proof.
  intros Hl Hn. destruct (spec_finish_cases lib cl r a Hl) as [[_ ->]|(a' & g & st & M & Hr & -> & He)];
    [done|]. cbn. unfold upd. case_decide as Hd.
  - subst g. apply spec_running_Some in Hr as [_ Hr]. unfold ast in Hr. rewrite Hn in Hr. by destruct Hr.
  - by destruct (moved_goals _ _ _ M h) as [->|[_ ->]]; rewrite Hn.
Qed.

Lemma move_accept lib cl r a h' :
  lib_in lib cl -> goal_move (h' ∈ cl) (goals a h') (goals (spec_accept lib r a).2 h').
Proof.
  intros Hl. unfold spec_accept. destruct (spec_deferred a) as [p|] eqn:Ep; [|constructor].
  apply spec_deferred_Some in Ep as [_ [o Eo]%ast_view].
  pose proof (lib_moved_window lib cl BeforeFinishActive a Hl) as M0.
  set (a0 := spec_lib (lib BeforeFinishActive) a) in *.
  pose proof (lib_moved_window lib cl BeforeExecute (spec_finish lib r a0).2 Hl) as M2.
  set (a2 := spec_lib (lib BeforeExecute) _) in *.
  assert (goal_move (h' ∈ cl) (goals a h') (goals a2 h')) as H.
  { destruct (goals a h') as [v|] eqn:Hv.
    - rewrite <- Hv. apply (move_then_lib _ _ (goals (spec_finish lib r a0).2 h')).
      + by rewrite Hv.
      + by apply (move_finish lib cl).
      + apply (moved_goals _ _ _ M2).
    - assert (goals a0 h' = None) as Hn0.
      { by destruct (moved_goals _ _ _ M0 h') as [->|[_ ->]]; rewrite Hv. }
      pose proof (move_unknown lib cl r a0 h' Hl Hn0) as Hn1.
      replace (goals a2 h') with (@None (goal_status * option Result)); [constructor|].
      by destruct (moved_goals _ _ _ M2 h') as [->|[_ ->]]; rewrite Hn1. }
  assert (goal_move (h' ∈ cl) (goals a h') (goals (spec_drop_pending a2) h')) as Hd by exact H.
  assert (goal_move (h' ∈ cl) (goals a h') (upd p (EXECUTING, None) (goals a2) h')) as Hp.
  { unfold upd. case_decide; [subst; rewrite Eo; constructor|done]. }
  by destruct (ast a2 p) as [[]|].
Qed.

Lemma move_api lib cl c a h' :
  lib_in lib cl -> goal_move (h' ∈ cl) (goals a h') (goals (spec_api lib c a).2 h').
Proof.
  intros Hl. pose proof (fun r => move_finish lib cl r a a h' Hl (lib_moved_refl cl a)) as Hf.
  destruct c; cbn [spec_api]; try constructor.
  - pose proof (move_accept lib cl result a h' Hl). by destruct (spec_accept lib result a).
  - unfold spec_reject. destruct (spec_deferred a); [by apply move_terminate|constructor].
  - unfold spec_publish. destruct (spec_running a); [|constructor]. by apply move_lib, lib_moved_window.
  - specialize (Hf result). by destruct (spec_finish lib result a).
  - specialize (Hf result). by destruct (spec_finish lib result a).
  - unfold spec_succeed. destruct (spec_running a) as [h|] eqn:E; [|constructor].
    apply spec_running_Some in E as [_ E]. cbn. unfold upd. case_decide as Hd.
    + subst. destruct E as [[o ->]%ast_view|[o ->]%ast_view]; constructor; auto.
    + apply (move_lib cl a (spec_lib (lib BeforeEnd) a)), lib_moved_window, Hl.
Qed.

Lemma move_accepted lib cl h a h' :
  lib_in lib cl -> goal_move (h' ∈ cl) (goals a h') (goals (spec_accepted lib h a) h').
Proof.
  intros Hl. unfold spec_accepted. destruct (spec_deferred a); [by apply move_terminate|constructor].
Qed.

Lemma move_cancel lib cl h a h' :
  lib_in lib cl -> goal_move (h' ∈ cl) (goals a h') (goals (spec_cancel lib h a).2 h').
Proof.
  intros Hl. unfold spec_cancel. case_bool_decide; [constructor|].
  case_bool_decide; [by apply move_terminate|constructor].
Qed.

Lemma move_cancel_finish lib cl h a h' :
  lib_in lib cl -> goal_move (h' ∈ cl) (goals a h') (goals (spec_cancel_finish lib h a) h').
Proof.
  intros Hl. unfold spec_cancel_finish. case_bool_decide; [|constructor].
  apply move_finish; [done|apply lib_moved_refl].
Qed.

(** ** The abstract system

    What a client and the owner can observe of the class at work: the abstract server,
    the owner's queue, the handler whose hook runs and the accepted cancel requests
    the library is at work on. A transition is a locked region, by its contract. *)
Inductive runner := RunsGoalHook (h : GoalHandle) | RunsCancelHook (h : GoalHandle).

Record astate := MkAstate {
  serv : aserver;
  queue : list message;
  hooked : option runner;
  cancels : list GoalHandle }.

Definition in_slots (h : GoalHandle) (a : aserver) : Prop := act a = Some h \/ pend a = Some h.

Inductive region : astate -> astate -> Prop :=
| RegionIdle a a' q k k' cl cl' :
    a' ≡ a -> (forall h, h ∈ cl' -> h ∈ cl) -> (k' = k \/ k' = None /\ exists h, k = Some (RunsGoalHook h)) ->
    region (MkAstate a q k cl) (MkAstate a' q k' cl')
| RegionApi lib c a a' q k cl :
    lib_in lib cl -> a' ≡ (spec_api lib c a).2 -> region (MkAstate a q k cl) (MkAstate a' q k cl)
| RegionNewGoal h a a' q k cl :
    ast a h = None -> a' ≡ MkAserver (act a) (pend a) (upd h (ACCEPTED, None) (goals a)) ->
    region (MkAstate a q k cl) (MkAstate a' (q ++ [MsgAccepted h]) k cl)
| RegionCancelRequest h a a' q k cl :
    in_slots h a -> a' ≡ a -> region (MkAstate a q k cl) (MkAstate a' (q ++ [MsgCancelHandler h]) k (h :: cl))
| RegionCancelTransition h a a' q k cl :
    h ∈ cl -> a' ≡ spec_lib [h] a ->
    region (MkAstate a q k cl) (MkAstate a' q k (filter (fun g => g <> h) cl))
| RegionAccepted lib h a a' q k cl :
    lib_in lib cl -> a' ≡ spec_accepted lib h a -> k = None \/ k = Some (RunsGoalHook h) ->
    region (MkAstate a (MsgAccepted h :: q) None cl) (MkAstate a' q k cl)
| RegionCancel lib h a a' q cl :
    lib_in lib cl -> a' ≡ (spec_cancel lib h a).2 ->
    region (MkAstate a (MsgCancelHandler h :: q) None cl)
           (MkAstate a' q (if (spec_cancel lib h a).1 then Some (RunsCancelHook h) else None) cl)
| RegionCancelFinish lib h a a' q cl :
    lib_in lib cl -> a' ≡ spec_cancel_finish lib h a ->
    region (MkAstate a q (Some (RunsCancelHook h)) cl) (MkAstate a' q None cl).

Definition runner_handle (k : runner) : GoalHandle :=
  match k with RunsGoalHook h | RunsCancelHook h => h end.

Definition aheld (h : GoalHandle) (t : astate) : Prop :=
  in_slots h (serv t) \/ h ∈ message_handle <$> queue t \/
  runner_handle <$> hooked t = Some h \/ h ∈ cancels t.

(** What the release of the handles that were held in [t0] and are not in [t] leaves. *)
Record released (t0 t t' : astate) : Prop := {
  released_act : act (serv t') = act (serv t);
  released_pend : pend (serv t') = pend (serv t);
  released_queue : queue t' = queue t;
  released_hooked : hooked t' = hooked t;
  released_cancels : cancels t' = cancels t;
  released_goals h :
    goals (serv t') h = goals (serv t) h /\
      ~ (aheld h t0 /\ ~ aheld h t /\ unfinished (ast (serv t) h) = true) \/
    ~ aheld h t /\ unfinished (ast (serv t) h) = true /\
      goals (serv t') h = Some (CANCELED, Some default_result) }.

Definition astep (t0 t' : astate) : Prop := exists t, region t0 t /\ released t0 t t'.

Definition hooked_of (o : owner_pc) : option runner :=
  match o with
  | Idle => None
  | InGoalHook _ gh => Some (RunsGoalHook gh)
  | InCancelHook _ gh => Some (RunsCancelHook gh)
  end.
Definition abs_system (s : system) : astate :=
  MkAstate (abs_of (srv s)) (engine (srv s)) (hooked_of (owner s)) (canceling s).

(** *** Every step of the system is a transition of the abstract system *)

Lemma region_same s o cl :
  hooked_of o = hooked_of (owner s) \/ o = Idle /\ (exists p gh, owner s = InGoalHook p gh) ->
  (forall h, h ∈ cl -> h ∈ canceling s) ->
  region (abs_system s) (abs_system (MkSystem (srv s) o cl)).
Proof.
  intros Ho Hcl. apply RegionIdle; [done|done|]. cbn.
  destruct Ho as [->|[-> (p & gh & ->)]]; [by left|right]. split; [done|]. by exists gh.
Qed.

Lemma region_hooks g c s o :
  hooked_of o = hooked_of (owner s) ->
  region (abs_system s) (abs_system (MkSystem (set_hooks g c (srv s)) o (canceling s))).
Proof. intros Ho. apply RegionIdle; [done|done|by left]. Qed.

Lemma region_api lib c s o :
  lib_in lib (canceling s) -> hooked_of o = hooked_of (owner s) ->
  region (abs_system s) (abs_system (MkSystem (run_api lib c (srv s)).2 o (canceling s))).
Proof.
  intros Hl Ho. destruct (run_api_refines lib c (srv s) _ (shows_abs_of _)) as (v & -> & (He & _) & Hs).
  unfold abs_system. cbn. rewrite Ho, He. apply (RegionApi lib c); [done|]. by apply shows_equiv.
Qed.

Lemma region_goal uuid gh s s' : do_goal uuid gh s = Some s' -> region (abs_system s) (abs_system s').
Proof.
  unfold do_goal. simpl. destruct (status_of (rcl (srv s)) gh) as [|] eqn:Hn; [done|].
  intros [= <-]. pose proof (accept_goal_spec (rcl (srv s)) gh Hn) as Hm.
  apply RegionNewGoal; [exact Hn|].
  exact (proj1 (shows_equiv _ _) (shows_moves _ _ _ _ _ (shows_abs_of (srv s)) Hm)).
Qed.

Lemma region_cancel_request gh s s' :
  do_cancel_request gh s = Some s' -> region (abs_system s) (abs_system s').
Proof.
  unfold do_cancel_request, cancelCallback.
  destruct (bool_decide _ || bool_decide _) eqn:E; simpl; intros [= <-].
  - apply orb_true_iff in E. rewrite !bool_decide_eq_true in E.
    apply RegionCancelRequest; [|done]. destruct E as [E|E]; [left|right]; by symmetry.
  - apply region_same; [by left|done].
Qed.

Lemma region_cancel_transition gh s s' :
  do_cancel_transition gh s = Some s' -> region (abs_system s) (abs_system s').
Proof.
  unfold do_cancel_transition. destruct (decide (gh ∈ canceling s)) as [Hin|]; [|done].
  intros [= <-]. apply RegionCancelTransition; [done|].
  exact (proj1 (shows_equiv _ _) (shows_interfere (fun _ => [gh]) BeforeEnd _ _ (shows_abs_of (srv s)))).
Qed.

(** Taking a message and running the locked region of its handler. *)
Lemma region_dequeue lib s s' :
  lib_in lib (canceling s) -> do_dequeue lib s = Some s' -> region (abs_system s) (abs_system s').
Proof.
  intros Hl. unfold do_dequeue, abs_system. destruct (owner s) eqn:Ho; [|done..].
  destruct (engine (srv s)) as [|[gh|gh] q] eqn:Hq; [done|..].
  - destruct (acceptedCallback_refines lib gh (set_engine q (srv s)) _ (shows_abs_of _))
      as (v & -> & (He & _) & Hs). intros [= <-]. cbn in *. rewrite He.
    apply (RegionAccepted lib); [done|by apply shows_equiv|].
    destruct (new_goal_hook_ _); [by right|by left].
  - destruct (cancelHandler_locked_refines lib gh (set_engine q (srv s)) _ (shows_abs_of _))
      as (v & -> & (He & _) & Hs). intros [= <-]. cbn in *. rewrite He.
    replace (hooked_of _) with
      (if (spec_cancel lib gh (abs_of (srv s))).1 then Some (RunsCancelHook gh) else None).
    + apply RegionCancel; [done|]. by apply shows_equiv.
    + change (abs_of (set_engine q (srv s))) with (abs_of (srv s)).
      destruct (spec_cancel lib gh (abs_of (srv s))).1; [|done]. by destruct (cancel_goal_hook_ _).
Qed.

Lemma region_hook_step lib p s o p' v :
  lib_in lib (canceling s) ->
  hook_step lib p (srv s) = Some (p', v) -> hooked_of o = hooked_of (owner s) ->
  region (abs_system s) (abs_system (MkSystem v o (canceling s))).
Proof.
  intros Hl Hp Ho. destruct p as [|c k|h k|h k]; simpl in Hp; [done|..].
  - pose proof (region_api lib c s o Hl Ho) as H. destruct (run_api lib c (srv s)). by injection Hp as <- <-.
  - injection Hp as <- <-. by apply region_hooks.
  - injection Hp as <- <-. by apply region_hooks.
Qed.

Lemma region_hook lib s s' :
  lib_in lib (canceling s) -> do_hook lib s = Some s' -> region (abs_system s) (abs_system s').
Proof.
  intros Hl. unfold do_hook. destruct (owner s) as [|p gh|p gh] eqn:Ho; [done|..].
  - destruct (hook_step lib p (srv s)) as [[p' v]|] eqn:E; intros [= <-].
    + eapply region_hook_step; [done|done|by rewrite Ho].
    + apply region_same; [|done]. right. split; [done|]. eauto.
  - destruct (hook_step lib p (srv s)) as [[p' v]|] eqn:E; intros [= <-].
    + eapply region_hook_step; [done|done|by rewrite Ho].
    + destruct (cancelHandler_finish_refines lib gh (srv s) _ (shows_abs_of _)) as (v & -> & (He & _) & Hs).
      unfold abs_system. cbn. rewrite Ho, He. apply (RegionCancelFinish lib); [done|]. by apply shows_equiv.
Qed.

Lemma sys_region_region e s s' : sys_region e s = Some s' -> region (abs_system s) (abs_system s').
Proof.
  destruct e; simpl.
  - apply region_goal.
  - apply region_cancel_request.
  - apply region_cancel_transition.
  - case_decide as Hl; [by apply region_dequeue|done].
  - case_decide as Hl; [by apply region_hook|done].
  - case_decide as Hl; [|done]. intros [= <-]. by apply region_api.
  - intros [= <-]. by apply region_hooks.
  - intros [= <-]. by apply region_hooks.
Qed.

(** *** The release of handles *)

Lemma elem_of_option_list {A} (x : A) o : x ∈ option_list o <-> o = Some x.
Proof.
  destruct o as [y|]; cbn; [|split; [by intros ?%elem_of_nil|done]].
  rewrite list_elem_of_singleton. split; [by intros ->|by intros [= ->]].
Qed.

Lemma held_aheld s h : h ∈ held s <-> aheld h (abs_system s).
Proof.
  unfold held, elsewhere, aheld, in_slots. rewrite !elem_of_app, !elem_of_option_list. cbn.
  assert (h ∈ owner_handle (owner s) <-> runner_handle <$> hooked_of (owner s) = Some h) as ->;
    [|tauto].
  destruct (owner s); cbn; rewrite ?list_elem_of_singleton;
    (split; [intros H; (by apply elem_of_nil in H) || by rewrite H|by intros [= ->]]).
Qed.

Lemma release_released s s' : released (abs_system s) (abs_system s') (abs_system (release s s')).
Proof.
  split; try done. intros h. cbn [abs_system serv goals abs_of release srv set_rcl rcl].
  rewrite destroy_handles_view. change (ast (abs_of (srv s')) h) with (status_of (rcl (srv s')) h).
  rewrite <- !held_aheld. case_decide as Hin.
  - apply list_elem_of_filter in Hin as [Hn Hh]. destruct (unfinished _); [right|left]; [done|].
    split; [done|]. naive_solver.
  - left. split; [done|]. intros (Hh & Hn & _). apply Hin, list_elem_of_filter. done.
Qed.

(** The class at work refines the abstract system. *)
Lemma sys_step_astep e s s' : sys_step e s = Some s' -> astep (abs_system s) (abs_system s').
Proof.
  unfold sys_step. destruct (sys_region e s) as [m|] eqn:E; [|done]. intros [= <-].
  exists (abs_system m). split; [by apply (sys_region_region e)|apply release_released].
Qed.

(** *** What a step keeps *)

(** The invariant of the slots, and that every unfinished goal has an owner. *)
Record ainv (t : astate) : Prop := {
  ainv_slots : inv (serv t) (queue t) (cancels t);
  ainv_held h : unfinished (ast (serv t) h) = true -> aheld h t }.

Lemma region_inv t t' :
  region t t' -> inv (serv t) (queue t) (cancels t) -> inv (serv t') (queue t') (cancels t').
Proof.
  intros [a a' q k k' cl cl' E Hcl _|lib c a a' q k cl Hl E|h a a' q k cl Hn E|h a a' q k cl Hs E
    |h a a' q k cl Hin E|lib h a a' q k cl Hl E _|lib h a a' q cl Hl E|lib h a a' q cl Hl E];
    cbn; rewrite E; intros I.
  - by eapply inv_less_canceling.
  - by apply inv_api.
  - by apply inv_new_goal.
  - by apply inv_cancel_message, inv_more_canceling.
  - apply (inv_less_canceling _ _ cl); [|by intros g [_ ?]%list_elem_of_filter].
    apply (inv_lib a); [done|]. apply spec_lib_moved. by intros g ->%list_elem_of_singleton.
  - by apply inv_spec_accepted.
  - by apply inv_spec_cancel.
  - by apply inv_spec_cancel_finish.
Qed.

Definition held_list (t : astate) : list GoalHandle :=
  option_list (act (serv t)) ++ option_list (pend (serv t)) ++ (message_handle <$> queue t) ++
  option_list (runner_handle <$> hooked t) ++ cancels t.

Lemma held_list_spec h t : h ∈ held_list t <-> aheld h t.
Proof. unfold held_list, aheld, in_slots. rewrite !elem_of_app, !elem_of_option_list. tauto. Qed.

(** A goal moves, or it is new. *)
Definition goal_step (asked : Prop) (v v' : goal_view AO) : Prop :=
  goal_move asked v v' \/ v = None /\ v' = Some (ACCEPTED, None).

Lemma region_move t t' h :
  region t t' -> goal_step (h ∈ cancels t) (goals (serv t) h) (goals (serv t') h).
Proof.
  unfold goal_step.
  intros [a a' q k k' cl cl' (_ & _ & ->) _ _|lib c a a' q k cl Hl (_ & _ & ->)
    |g a a' q k cl Hn (_ & _ & ->)|g a a' q k cl Hs (_ & _ & ->)|g a a' q k cl Hin (_ & _ & ->)
    |lib g a a' q k cl Hl (_ & _ & ->) _|lib g a a' q cl Hl (_ & _ & ->)|lib g a a' q cl Hl (_ & _ & ->)];
    cbn [serv cancels].
  - left. constructor.
  - left. by apply move_api.
  - cbn. unfold upd. case_decide as Hd; [right|left; constructor]. subst g. split; [|done].
    unfold ast in Hn. by destruct (goals a h).
  - left. constructor.
  - left. apply move_lib, spec_lib_moved. by intros f ->%list_elem_of_singleton.
  - left. by apply move_accepted.
  - left. by apply move_cancel.
  - left. by apply move_cancel_finish.
Qed.

Lemma released_aheld t0 t t' h : released t0 t t' -> (aheld h t' <-> aheld h t).
Proof.
  intros [Ha Hp Hq Hk Hc _]. unfold aheld, in_slots. by rewrite Ha, Hp, Hq, Hk, Hc.
Qed.

Lemma released_status t0 t t' h :
  released t0 t t' ->
  ast (serv t') h = ast (serv t) h \/
  ~ aheld h t /\ unfinished (ast (serv t) h) = true /\ ast (serv t') h = Some CANCELED.
Proof. intros R. unfold ast. destruct (released_goals _ _ _ R h) as [[-> _]|(? & ? & ->)]; auto. Qed.

Lemma queued_held h t : h ∈ queued (queue t) -> aheld h t.
Proof.
  intros Hq. right. left. unfold queued in Hq. apply list_elem_of_omap in Hq as (m & Hm & Hh).
  apply list_elem_of_fmap. exists m. destruct m; by simplify_eq.
Qed.

Lemma released_inv t0 t t' :
  released t0 t t' -> inv (serv t) (queue t) (cancels t) -> inv (serv t') (queue t') (cancels t').
Proof.
  intros R I. rewrite (released_queue _ _ _ R), (released_cancels _ _ _ R).
  pose proof (released_act _ _ _ R) as Ha. pose proof (released_pend _ _ _ R) as Hp.
  assert (forall h, aheld h t -> ast (serv t') h = ast (serv t) h) as Hh.
  { intros h Hh. by destruct (released_status _ _ _ h R) as [|[? _]]. }
  assert (forall h st, ast (serv t') h = Some st -> st <> CANCELED -> ast (serv t) h = Some st) as Hst.
  { intros h st E Hn. destruct (released_status _ _ _ h R) as [|(_ & _ & ?)]; congruence. }
  split; try intros h; rewrite ?Ha, ?Hp.
  - apply (inv_distinct _ _ _ I).
  - intros E. rewrite Hh by (by left; left). by apply (inv_active _ _ _ I).
  - intros E. rewrite Hh by (by left; right). by apply (inv_pending _ _ _ I).
  - intros E. by apply (inv_executing _ _ _ I), Hst.
  - intros E. by apply (inv_accepted _ _ _ I), Hst.
  - intros E. rewrite Hh by (by apply queued_held). by apply (inv_queued _ _ _ I).
  - apply (inv_nodup _ _ _ I).
  - intros E. destruct (released_status _ _ _ h R) as [->|(_ & _ & ->)]; [|by eexists].
    by apply (inv_canceling _ _ _ I).
Qed.

(** An unfinished goal without an owner is being canceled. *)
Lemma unheld_canceling t h :
  inv (serv t) (queue t) (cancels t) -> ~ aheld h t -> unfinished (ast (serv t) h) = true ->
  ast (serv t) h = Some CANCELING.
Proof.
  intros I Hn. destruct (ast (serv t) h) as [[]|] eqn:E; try done; intros _; destruct Hn.
  - destruct (inv_accepted _ _ _ I h E); [by left; right|by apply queued_held].
  - left. left. by apply (inv_executing _ _ _ I).
Qed.

Lemma astep_inv t t' : astep t t' -> ainv t -> ainv t'.
Proof.
  intros (m & Hr & R) [I Hheld]. pose proof (region_inv _ _ Hr I) as Im.
  split; [by apply (released_inv t m)|]. intros h Hu. apply (released_aheld _ _ _ h R).
  destruct (released_goals _ _ _ R h) as [[E Hno]|(_ & _ & E)]; unfold ast in Hu; rewrite E in Hu;
    [|done]. change (unfinished (ast (serv m) h) = true) in Hu.
  destruct (decide (unfinished (ast (serv t) h) = true)) as [Hu0|Hu0].
  - destruct (decide (h ∈ cancels m)) as [|Hc]; [by right; right; right|].
    apply dec_stable. intros Hn. apply Hno. auto.
  - destruct (region_move _ _ h Hr) as [Hm|[_ Hm]].
    + destruct Hu0. unfold ast in *. destruct Hm; cbn in *; try done.
      all: naive_solver.
    + assert (ast (serv m) h = Some ACCEPTED) as Hst by (unfold ast; by rewrite Hm).
      destruct (inv_accepted _ _ _ Im h Hst); [by left; right|by apply queued_held].
Qed.

Lemma astep_move t t' h :
  ainv t -> astep t t' -> goal_step (h ∈ cancels t) (goals (serv t) h) (goals (serv t') h).
Proof.
  intros [I _] (m & Hr & R). pose proof (region_move _ _ h Hr) as Hm.
  destruct (released_goals _ _ _ R h) as [[-> _]|(Hn & Hu & ->)]; [exact Hm|]. left.
  pose proof (unheld_canceling m h (region_inv _ _ Hr I) Hn Hu) as [o Ho]%ast_view. rewrite Ho in Hm.
  destruct Hm as [Hm|[_ [=]]].
  destruct (goals (serv t) h) as [[st o']|]; inversion Hm; subst; constructor; auto.
Qed.

Definition sys_inv (s : system) : Prop := ainv (abs_system s).

Lemma initial_inv s : initial s -> sys_inv s.
Proof.
  intros (Ha & Hp & Hq & Hst & _ & Hc).
  assert (forall h, ast (abs_of (srv s)) h = None) as Hn by apply Hst.
  split; [|intros h; cbn [abs_system serv]; by rewrite Hn].
  cbn [abs_system serv queue cancels]. rewrite Hq, Hc.
  split; simpl; rewrite ?Ha, ?Hp; intros; rewrite ?Hn in *; try done.
  - by apply not_elem_of_nil in H.
  - constructor.
  - by apply not_elem_of_nil in H.
Qed.

Lemma reachable_inv s : reachable s -> sys_inv s.
Proof.
  induction 1 as [s Hi|e s s' _ IH He]; [by apply initial_inv|].
  by apply (astep_inv _ _ (sys_step_astep _ _ _ He)).
Qed.

(** ** The theorems *)

(** C1 -- In every reachable state of a simple action server under any interleaving of goal requests, cancel requests, library transitions (also inside locked regions), owner messages, user hooks and method calls of other threads: at most one goal executes and it is the one in the active slot; the active slot only holds a goal that is executing or being canceled, the pending slot one that is deferred or being canceled, and they are different goals; and every goal that was accepted and neither started nor finished is in the pending slot or waits exactly once in the owner's queue, so no accepted goal is ever forgotten. *)
Theorem slots_invariant (s : system) :
  reachable s ->
  let st h := status_of (rcl (srv s)) h in
  (forall h, st h = Some EXECUTING -> goal_active_ (srv s) = Some h) /\
  (forall h, goal_active_ (srv s) = Some h -> st h = Some EXECUTING \/ st h = Some CANCELING) /\
  (forall h, goal_pending_ (srv s) = Some h -> st h = Some ACCEPTED \/ st h = Some CANCELING) /\
  (forall h, goal_active_ (srv s) = Some h -> goal_pending_ (srv s) <> Some h) /\
  (forall h, st h = Some ACCEPTED -> goal_pending_ (srv s) = Some h \/ h ∈ queued (engine (srv s))) /\
  NoDup (queued (engine (srv s))).
Proof.
  intros [I _]%reachable_inv. split_and!.
  - apply (inv_executing _ _ _ I).
  - apply (inv_active _ _ _ I).
  - apply (inv_pending _ _ _ I).
  - apply (inv_distinct _ _ _ I).
  - apply (inv_accepted _ _ _ I).
  - apply (inv_nodup _ _ _ I).
Qed.

(** A library that moves [h] in one window. *)
Definition at_window (p : window) (h : GoalHandle) : interference AO :=
  fun p' => match p, p' with
            | BeforeFinishActive, BeforeFinishActive | BeforeIsCanceling, BeforeIsCanceling
            | BeforeIsExecuting, BeforeIsExecuting | BeforeExecute, BeforeExecute
            | BeforeEnd, BeforeEnd => [h]
            | _, _ => []
            end.

Lemma lib_in_quiet cl : lib_in quiet cl.
Proof. repeat constructor. Qed.

Lemma lib_in_at p h cl : h ∈ cl -> lib_in (at_window p h) cl.
Proof. intros Hin. destruct p; repeat (constructor; [by repeat constructor|]); constructor. Qed.

(** The release of handles does not touch the goals that are held or finished. *)
Lemma release_view s m h :
  h ∈ held m \/ unfinished (status_of (rcl (srv m)) h) = false ->
  view (rcl (srv (release s m))) h = view (rcl (srv m)) h.
Proof.
  intros Hor. cbn. rewrite destroy_handles_view. case_decide as Hin; [|done].
  apply list_elem_of_filter in Hin as [Hn _]. destruct Hor as [? | Hu]; [done|by rewrite Hu].
Qed.

Lemma release_shape s m :
  exists w, release s m = MkSystem (set_rcl w (srv m)) (owner m) (canceling m) /\
    forall h, h ∈ held m \/ unfinished (status_of (rcl (srv m)) h) = false ->
      view w h = view (rcl (srv m)) h.
Proof. eexists. split; [done|]. intros h Hor. by apply (release_view s m h). Qed.

Lemma held_active s h : goal_active_ (srv s) = Some h -> h ∈ held s.
Proof. intros Ha. unfold held. rewrite Ha. by left. Qed.
Lemma held_canceling s h : h ∈ canceling s -> h ∈ held s.
Proof. intros Hc. apply held_aheld. by right; right; right. Qed.

Lemma cancel_goal_status w h st :
  status_of w h = Some st -> st = ACCEPTED \/ st = EXECUTING ->
  status_of (cancel_goals [h] w) h = Some CANCELING.
Proof.
  unfold status_of. intros Hst Hor. rewrite cancel_goals_view, decide_True by (by left).
  destruct (view w h) as [[st' o]|]; [|done]. cbn in Hst. injection Hst as ->.
  by destruct Hor as [-> | ->].
Qed.

(** [finishActive] between whose look at the goal and whose call the library is. *)
Lemma finish_race s h r :
  goal_active_ s = Some h -> status_of (rcl s) h = Some EXECUTING ->
  status_of (cancel_goals [h] (rcl s)) h = Some CANCELING /\
  exists w, abort h r (cancel_goals [h] (rcl s)) = (Ok tt, w) /\
    abortActive (at_window BeforeEnd h) r s = (true, set_active None (set_rcl w s)) /\
    view w h = Some (ABORTED, Some r).
Proof.
  intros Ha Hst.
  assert (status_of (cancel_goals [h] (rcl s)) h = Some CANCELING) as Hc.
  { apply (cancel_goal_status _ _ EXECUTING); auto. }
  split; [done|]. pose proof (abort_spec (cancel_goals [h] (rcl s)) h r) as Hab.
  rewrite decide_True in Hab by (by right). destruct Hab as (w & Hw & Hm). exists w.
  split; [done|]. split; [|exact (moves_view_eq _ _ _ _ Hm)].
  unfold abortActive, finishActive. rewrite Ha, is_running_spec, Hst. cbn [negb].
  change (rcl (interfere (at_window BeforeEnd h) BeforeIsCanceling s)) with (rcl s).
  change (interfere _ BeforeEnd _) with (set_rcl (cancel_goals [h] (rcl s)) s).
  rewrite is_canceling_spec, Hst, bool_decide_false by done.
  unfold on_rcl. change (rcl (set_rcl ?w s)) with w. by rewrite Hw.
Qed.

(** C2 -- In every reachable state, whatever one thread does while it holds the mutex, with whatever transitions the library makes in the meantime, and whatever goal handles are destroyed after it, each goal makes at most one step of its life cycle: it is accepted, started, moved to CANCELING, aborted from ACCEPTED or EXECUTING, canceled from CANCELING (or from ACCEPTED or EXECUTING if the library moves it to CANCELING in that very step), succeeded from EXECUTING or CANCELING; it becomes CANCELING or CANCELED only if a cancel request of the client was accepted, and a finished goal keeps its status and its result forever. A goal that is CANCELING before a locked region is thus never aborted by it. The mutex does not protect a goal that becomes CANCELING inside the region: finishActive may look at a goal that is EXECUTING, the library then move it to CANCELING, and the call of abort succeed, so that the client sees a goal being canceled end as ABORTED. *)
Theorem goal_life_cycle (s : system) :
  reachable s ->
  (forall (e : event) (s' : system) (h : GoalHandle), sys_step e s = Some s' ->
     goal_step (h ∈ canceling s) (view (rcl (srv s)) h) (view (rcl (srv s')) h) /\
     (forall st r, view (rcl (srv s)) h = Some (st, r) -> terminal st = true ->
        view (rcl (srv s')) h = Some (st, r)) /\
     (status_of (rcl (srv s)) h = Some CANCELING -> status_of (rcl (srv s')) h <> Some ABORTED)) /\
  (forall (h : GoalHandle) (r : Result),
     goal_active_ (srv s) = Some h -> status_of (rcl (srv s)) h = Some EXECUTING -> h ∈ canceling s ->
     let w := cancel_goals [h] (rcl (srv s)) in
     exists s', sys_region (EvApi (at_window BeforeEnd h) (CallAbortActive r)) s = Some s' /\
       status_of w h = Some CANCELING /\ abort h r w = (Ok tt, rcl (srv s')) /\
       view (rcl (srv (release s s'))) h = Some (ABORTED, Some r)).
Proof.
  intros I%reachable_inv. split.
  - intros e s' h Hs%sys_step_astep. pose proof (astep_move _ _ h I Hs) as Hm. split; [done|].
    cbn in Hm. clear Hs. split.
    + intros st r Hv Ht. rewrite Hv in Hm. destruct Hm as [Hm|[? _]]; [|done].
      inversion Hm as [| |? ? ? []|? ? ? []|? ? ? [|[_ []]]|? ? ? []]; by subst.
    + unfold status_of. intros Hst Hab. destruct Hm as [Hm|[E _]]; [|by rewrite E in Hst].
      destruct Hm as [| | |? ? ? []| |]; cbn in *; by simplify_eq.
  - intros h r Ha Hst Hc w. destruct (finish_race _ _ r Ha Hst) as (Hw & w' & Hw' & Hab & Hv).
    eexists. split.
    { cbn [sys_region]. rewrite decide_True by (by apply lib_in_at).
      cbn [run_api]. unfold mbind, state_bind. rewrite Hab. reflexivity. }
    split; [exact Hw|]. split; [exact Hw'|]. rewrite release_view; [exact Hv|].
    left. by apply held_canceling.
Qed.

(** The second half of [cancelHandler] on an executing or canceling goal. *)
Lemma cancel_finish_alone s h st :
  goal_active_ s = Some h -> status_of (rcl s) h = Some st -> st = EXECUTING \/ st = CANCELING ->
  exists s', cancelHandler_finish quiet h s = (tt, s') /\
    view (rcl s') h = Some (match st with CANCELING => CANCELED | _ => ABORTED end,
                            Some default_result).
Proof.
  intros Ha Hst Hor. destruct (cancelHandler_finish_refines quiet h s _ (shows_abs_of s))
    as (s' & He & _ & Hs). exists s'. split; [exact He|]. rewrite (shows_goals _ _ Hs).
  assert (ast (abs_of s) h = Some st) as Hast by exact Hst.
  unfold spec_cancel_finish, spec_finish, spec_running. cbn [act abs_of]. rewrite Ha.
  rewrite bool_decide_true by done. rewrite Hast.
  cbn [snd]. destruct Hor as [-> | ->]; cbn [snd spec_drop_active spec_end goals]; unfold upd;
    rewrite (decide_True (P := h = h)) by done;
    (rewrite ast_spec_lib, (decide_False (P := h ∈ _)), Hast; [done|apply not_elem_of_nil]).
Qed.

Lemma run_events_cons e es s m :
  sys_region e s = Some m -> run_events (e :: es) s = run_events es (release s m).
Proof. intros E. cbn [run_events]. unfold sys_step. by rewrite E. Qed.

(** Single regions of a cancellation. *)
Lemma request_region s h :
  in_slots h (abs_of (srv s)) ->
  sys_region (EvCancelRequest h) s =
    Some (MkSystem (set_engine (engine (srv s) ++ [MsgCancelHandler h]) (srv s)) (owner s)
            (h :: canceling s)).
Proof.
  intros Hin. cbn [sys_region]. unfold do_cancel_request, cancelCallback.
  replace (bool_decide _ || bool_decide _) with true; [done|]. symmetry.
  apply orb_true_iff. rewrite !bool_decide_eq_true. destruct Hin; [left|right]; done.
Qed.

Lemma transition_region s h :
  h ∈ canceling s ->
  sys_region (EvCancelTransition h) s =
    Some (MkSystem (set_rcl (cancel_goals [h] (rcl (srv s))) (srv s)) (owner s)
            (filter (fun g => g <> h) (canceling s))).
Proof. intros Hin. cbn [sys_region]. unfold do_cancel_transition. by rewrite decide_True. Qed.

Lemma cancel_handler_region s h q :
  goal_active_ (srv s) = Some h -> cancel_goal_hook_ (srv s) = None ->
  owner s = Idle -> engine (srv s) = MsgCancelHandler h :: q ->
  sys_region (EvDequeue quiet) s =
    Some (MkSystem (set_engine q (srv s)) (InCancelHook HookReturn h) (canceling s)).
Proof.
  intros Ha Hk Ho Hq. cbn [sys_region]. rewrite decide_True by apply lib_in_quiet.
  unfold do_dequeue. rewrite Ho, Hq. unfold cancelHandler_locked.
  cbn [set_engine goal_active_ cancel_goal_hook_]. by rewrite Ha, bool_decide_true, Hk by done.
Qed.

Lemma cancel_finish_region s h :
  owner s = InCancelHook HookReturn h ->
  sys_region (EvHook quiet) s =
    Some (MkSystem (cancelHandler_finish quiet h (srv s)).2 Idle (canceling s)).
Proof.
  intros Ho. cbn [sys_region]. rewrite decide_True by apply lib_in_quiet.
  unfold do_hook. by rewrite Ho.
Qed.

(** The owner handles the cancel request of the active goal in peace. *)
Lemma cancel_handled s h st :
  goal_active_ (srv s) = Some h -> cancel_goal_hook_ (srv s) = None -> owner s = Idle ->
  engine (srv s) = [MsgCancelHandler h] -> status_of (rcl (srv s)) h = Some st ->
  st = EXECUTING \/ st = CANCELING ->
  exists s', (forall es, run_events (EvDequeue quiet :: EvHook quiet :: es) s = run_events es s') /\
    canceling s' = canceling s /\
    view (rcl (srv s')) h = Some (match st with CANCELING => CANCELED | _ => ABORTED end,
                                  Some default_result).
Proof.
  intros Ha Hk Ho Hq Hst Hor.
  pose proof (cancel_handler_region s h [] Ha Hk Ho Hq) as E1.
  set (m1 := MkSystem _ _ _) in E1.
  assert (status_of (rcl (srv (release s m1))) h = Some st) as Hst1.
  { unfold status_of in *. rewrite release_view; [exact Hst|]. left. by apply held_active. }
  pose proof (cancel_finish_region (release s m1) h eq_refl) as E2.
  destruct (cancel_finish_alone (srv (release s m1)) h st Ha Hst1 Hor) as (v & Hv & Hview).
  rewrite Hv in E2. cbn [snd] in E2. set (m2 := MkSystem v _ _) in E2.
  exists (release (release s m1) m2). split_and!; [|done|].
  - intros es. by rewrite (run_events_cons _ _ _ _ E1), (run_events_cons _ _ _ _ E2).
  - rewrite release_view; [exact Hview|]. right. unfold status_of. cbn [srv m2]. rewrite Hview.
    by destruct Hor as [-> | ->].
Qed.

(** C3 -- The owner may run the cancel handler before the client library has made the CANCELING transition that follows the accepted cancel request, because the request was forwarded from inside the callback: in every state with an executing active goal, an idle owner with an empty queue and no cancel hook, that schedule finishes the goal as ABORTED, while the schedule with the transition first finishes the same goal as CANCELED. *)
Theorem cancel_outcome_depends_on_schedule (s : system) (h : GoalHandle) :
  goal_active_ (srv s) = Some h -> status_of (rcl (srv s)) h = Some EXECUTING ->
  owner s = Idle -> engine (srv s) = [] -> cancel_goal_hook_ (srv s) = None ->
  (exists s1, run_events [EvCancelRequest h; EvDequeue quiet; EvHook quiet; EvCancelTransition h] s = Some s1 /\
     view (rcl (srv s1)) h = Some (ABORTED, Some default_result)) /\
  (exists s2, run_events [EvCancelRequest h; EvCancelTransition h; EvDequeue quiet; EvHook quiet] s = Some s2 /\
     view (rcl (srv s2)) h = Some (CANCELED, Some default_result)).
Proof.
  intros Ha Hst Ho Hq Hk.
  pose proof (request_region s h (or_introl Ha)) as E1. rewrite Hq in E1. cbn [app] in E1.
  set (m1 := MkSystem _ _ _) in E1. rewrite !(run_events_cons _ _ _ _ E1).
  assert (status_of (rcl (srv (release s m1))) h = Some EXECUTING) as Hst1.
  { unfold status_of in *. rewrite release_view; [exact Hst|]. left. by apply held_active. }
  assert (h ∈ canceling (release s m1)) as Hc by (by left). split.
  - destruct (cancel_handled (release s m1) h EXECUTING) as (s2 & Hr & Hc2 & Hv2);
      [done..|by left|]. rewrite Hr. rewrite <- Hc2 in Hc.
    rewrite (run_events_cons _ _ _ _ (transition_region s2 h Hc)). eexists. split; [done|].
    assert (forall m : system, view (rcl (srv m)) h = Some (ABORTED, Some default_result) ->
              view (rcl (srv (release s2 m))) h = Some (ABORTED, Some default_result)) as Hrel.
    { intros m Hm. rewrite release_view; [done|]. right. unfold status_of. by rewrite Hm. }
    apply Hrel. cbn [srv set_rcl rcl]. rewrite cancel_goals_view, decide_True by (by left).
    by rewrite Hv2.
  - pose proof (transition_region _ _ Hc) as E2. set (m2 := MkSystem _ _ _) in E2.
    rewrite (run_events_cons _ _ _ _ E2).
    assert (status_of (rcl (srv (release (release s m1) m2))) h = Some CANCELING) as Hst2.
    { unfold status_of at 1. rewrite release_view by (left; by apply held_active).
      exact (cancel_goal_status _ _ EXECUTING Hst1 (or_intror eq_refl)). }
    destruct (cancel_handled (release (release s m1) m2) h CANCELING) as (s3 & Hr & _ & Hv3);
      [done..|by right|]. rewrite Hr. by eexists.
Qed.

End ActionSystem.

(** ** Witnesses: a scenario on the concrete library *)
Module Witnesses.
Import Reference.

Definition start_state : system (AO := ref_ops) :=
  MkSystem (MkSlots None None (Some (fun g => HookCall (CallAcceptPending 0) (fun _ => HookReturn)))
              None [] (∅ : ref_world)) Idle [].

(** Two goals: the first becomes active in the goal hook, the second is pending. *)
Definition two_goals : list (event (AO := ref_ops) (GoalUUID := nat)) :=
  [EvGoal 1 7; EvDequeue quiet; EvHook quiet; EvHook quiet; EvSetGoalHook None; EvGoal 2 8; EvDequeue quiet].

Lemma start_initial : initial start_state.
Proof. by split_and!. Qed.

Definition final_state : system (AO := ref_ops) :=
  default start_state (run_events two_goals start_state).

Lemma final_reachable : reachable (AL := ref_laws) (GoalUUID := nat) final_state.
Proof.
  unfold final_state. destruct (run_events two_goals start_state) as [s|] eqn:Hs; simpl.
  - exact (reachable_run two_goals start_state s (reachable_init _ start_initial) Hs).
  - apply (f_equal (fun o => match o with Some _ => true | None => false end)) in Hs.
    vm_compute in Hs. discriminate Hs.
Qed.

Lemma slots_invariant_witness :
  goal_active_ (srv final_state) = Some (7 : @GoalHandle ref_ops) /\
  goal_pending_ (srv final_state) = Some (8 : @GoalHandle ref_ops) /\
  (forall h, status_of (rcl (srv final_state)) h = Some EXECUTING ->
     goal_active_ (srv final_state) = Some h).
Proof.
  split; [vm_compute; reflexivity|]. split; [vm_compute; reflexivity|].
  exact (proj1 (slots_invariant (AL := ref_laws) (GoalUUID := nat) final_state final_reachable)).
Defined.

(** The client asks for the first goal to be canceled; the owner has not looked yet. *)
Definition asked_state : system (AO := ref_ops) :=
  default start_state (run_events (two_goals ++ [EvCancelRequest (7 : @GoalHandle ref_ops)]) start_state).

Lemma asked_reachable : reachable (AL := ref_laws) (GoalUUID := nat) asked_state.
Proof.
  unfold asked_state. destruct (run_events (two_goals ++ _) start_state) as [s|] eqn:Hs; simpl.
  - exact (reachable_run _ start_state s (reachable_init _ start_initial) Hs).
  - apply (f_equal (fun o => match o with Some _ => true | None => false end)) in Hs.
    vm_compute in Hs. discriminate Hs.
Qed.

Lemma goal_life_cycle_witness :
  exists s' : system, abort (7 : @GoalHandle ref_ops) 4 (cancel_goals [7] (rcl (srv asked_state)))
                        = (Ok tt, rcl (srv s')) /\
    view (rcl (srv (release asked_state s'))) (7 : @GoalHandle ref_ops) = Some (ABORTED, Some 4).
Proof.
  destruct (goal_life_cycle (AL := ref_laws) (GoalUUID := nat) asked_state asked_reachable) as [_ H].
  destruct (H (7 : @GoalHandle ref_ops) 4) as (s' & _ & _ & Hab & Hv);
    [vm_compute; reflexivity|vm_compute; reflexivity|apply (bool_decide_unpack _); vm_compute; exact I|].
  exists s'. exact (conj Hab Hv).
Defined.

Definition executing_state : system (AO := ref_ops) :=
  MkSystem (MkSlots (Some 7) None None None [] ({[7 := (EXECUTING, None)]} : ref_world)) Idle [].

Lemma cancel_outcome_depends_on_schedule_witness :
  exists s1, run_events (GoalUUID := nat) [EvCancelRequest 7; EvDequeue quiet; EvHook quiet; EvCancelTransition 7]
               executing_state = Some s1 /\
    view (rcl (srv s1)) (7 : @GoalHandle ref_ops) = Some (ABORTED, Some 0).
Proof.
  refine (proj1 (cancel_outcome_depends_on_schedule executing_state 7 _ _ _ _ _)); reflexivity.
Defined.
End Witnesses.
