(* ===== verification/ActionOutcomes.v ===== *)
(** Package [rtt_ros2_actions]: what becomes of the goals of a [SimpleActionServer].

    The owner can always work off its queue, an accepted cancel request takes the goal
    out of the server whatever happens in between, every unfinished goal has an owner of
    its handle, and the goals that the class does not finish itself are canceled by the
    destruction of their handles. Everything is proved of the abstract transitions
    ([ActionSystem.region], [ActionSystem.released]) and carried to the class by
    [sys_step_astep]. *)

From S2P Require Import Prelude RclcppAction RttServices RttActionServer SimpleActionServer ActionSystem.

Section Outcomes.
Context {AO : ActionOps} {AL : ActionLaws AO} {GoalUUID : Type}.
Implicit Types (h g : GoalHandle) (a : aserver) (s : system).
Abbreviation event := (event (GoalUUID := GoalUUID)).

(** ** Goals outside the slots *)

(** Nothing but a transition of the library has happened to the goal. *)
Definition lib_only h a a' : Prop :=
  goals a' h = goals a h \/ goals a' h = to_canceling (goals a h).

(** A goal in no slot stays as it is, but for the library, and in no slot. *)
Definition untouched h a a' : Prop := ~ in_slots h a' /\ lib_only h a a'.

Lemma lib_only_refl h a : lib_only h a a.
Proof. by left. Qed.

Lemma lib_only_lib h hs a a' : lib_only h a a' -> lib_only h a (spec_lib hs a').
Proof.
  unfold lib_only. cbn. destruct (decide (h ∈ hs)); [|done].
  intros [-> | ->]; rewrite ?to_canceling_idem; auto.
Qed.

Lemma lib_only_end h g st r a a' : h <> g -> lib_only h a a' -> lib_only h a (spec_end st g r a').
Proof. intros Hn. unfold lib_only. cbn. unfold upd. by rewrite decide_False. Qed.

Lemma terminate_slots lib g r a h : in_slots h (spec_terminate lib g r a) <-> in_slots h a.
Proof. by apply (spec_terminate_ind (fun a' => in_slots h a' <-> in_slots h a)). Qed.

Lemma terminate_other lib g r a h : h <> g -> lib_only h a (spec_terminate lib g r a).
Proof.
  intros Hn. apply spec_terminate_ind; [intros; by apply lib_only_lib|intros; by apply lib_only_end|].
  apply lib_only_refl.
Qed.

Lemma spec_finish_other lib r a0 a h :
  act a <> Some h -> lib_only h a0 a -> lib_only h a0 (spec_finish lib r a).2.
Proof.
  intros Hn Ho. unfold spec_finish. destruct (spec_running a) as [g|] eqn:E; [|exact Ho].
  apply spec_running_Some in E as [Hg _].
  match goal with |- lib_only h a0 (_, spec_drop_active ?b).2 => change (lib_only h a0 b) end.
  apply lib_only_end; [congruence|]. by do 2 apply lib_only_lib.
Qed.

Lemma spec_finish_untouched lib r a h : ~ in_slots h a -> untouched h a (spec_finish lib r a).2.
Proof.
  intros Hn. split.
  - destruct (spec_finish_slots lib a r) as [Ha Hp]. unfold in_slots. rewrite Ha, Hp.
    intros [?|?]; [done|]. apply Hn. by right.
  - apply spec_finish_other; [|apply lib_only_refl]. intros ?. apply Hn. by left.
Qed.

Lemma spec_accept_untouched lib r a h : ~ in_slots h a -> untouched h a (spec_accept lib r a).2.
Proof.
  intros Hn. unfold spec_accept. destruct (spec_deferred a) as [p|] eqn:E;
    [|split; [done|apply lib_only_refl]].
  apply spec_deferred_Some in E as [Hp _].
  assert (h <> p) as Hne by (intros ->; apply Hn; by right).
  set (a0 := spec_lib (lib BeforeFinishActive) a).
  assert (lib_only h a (spec_finish lib r a0).2) as H1.
  { apply spec_finish_other; [intros ?; apply Hn; by left|]. by apply lib_only_lib, lib_only_refl. }
  apply (lib_only_lib h (lib BeforeExecute)) in H1.
  destruct (spec_finish_slots lib a0 r) as [Ha1 _].
  set (a2 := spec_lib (lib BeforeExecute) _) in *. change (act a2 = None) in Ha1.
  assert (untouched h a (spec_drop_pending a2)) as Hd.
  { split; [|exact H1]. unfold in_slots.
    change (act (spec_drop_pending a2)) with (act a2). rewrite Ha1. by intros [|]. }
  assert (untouched h a (MkAserver (Some p) None (upd p (EXECUTING, None) (goals a2)))) as Hs.
  { split; [by intros [[= ->]|]|]. unfold lib_only. cbn. unfold upd. by rewrite decide_False. }
  by destruct (ast a2 p) as [[]|].
Qed.

Lemma spec_api_untouched lib c a h : ~ in_slots h a -> untouched h a (spec_api lib c a).2.
Proof.
  intros Hn. assert (untouched h a a) as Hid by (split; [done|apply lib_only_refl]).
  destruct c; cbn [spec_api]; try done.
  - pose proof (spec_accept_untouched lib result a h Hn). by destruct (spec_accept lib result a).
  - unfold spec_reject. destruct (spec_deferred a) as [p|] eqn:E; [|done].
    apply spec_deferred_Some in E as [Hp _]. split.
    + intros [Ha|?]; [|done]. apply Hn, (terminate_slots lib p result a). by left.
    + apply (terminate_other lib p result a). intros ->. apply Hn. by right.
  - unfold spec_publish. destruct (spec_running a); [|done].
    split; [done|]. by apply lib_only_lib, lib_only_refl.
  - pose proof (spec_finish_untouched lib result a h Hn). by destruct (spec_finish lib result a).
  - pose proof (spec_finish_untouched lib result a h Hn). by destruct (spec_finish lib result a).
  - unfold spec_succeed. destruct (spec_running a) as [g|] eqn:E; [|done].
    apply spec_running_Some in E as [Hg _]. split.
    + intros [?|Hp]; [done|]. apply Hn. by right.
    + apply (lib_only_end h g SUCCEEDED result a (spec_lib (lib BeforeEnd) a));
        [intros ->; apply Hn; by left|]. by apply lib_only_lib, lib_only_refl.
Qed.

Lemma spec_accepted_untouched lib g a h :
  h <> g -> ~ in_slots h a -> untouched h a (spec_accepted lib g a).
Proof.
  intros Hg Hn. unfold spec_accepted.
  destruct (spec_deferred a) as [p|] eqn:E; (split; [intros [Ha|[= ?]]; [|done]|]).
  - apply Hn, (terminate_slots lib p default_result a). by left.
  - apply spec_deferred_Some in E as [Hp _]. apply (terminate_other lib p default_result a).
    intros ->. apply Hn. by right.
  - apply Hn. by left.
  - exact (lib_only_refl h a).
Qed.

Lemma spec_cancel_untouched lib g a h : ~ in_slots h a -> untouched h a (spec_cancel lib g a).2.
Proof.
  intros Hn. assert (untouched h a a) as Hid by (split; [done|apply lib_only_refl]).
  unfold spec_cancel. case_bool_decide; [done|]. case_bool_decide as Hp; [|done]. split.
  - intros [Ha|?]; [|done]. apply Hn, (terminate_slots lib g default_result a). by left.
  - apply (terminate_other lib g default_result a). intros ->. apply Hn. by right.
Qed.

Lemma spec_cancel_finish_untouched lib g a h :
  ~ in_slots h a -> untouched h a (spec_cancel_finish lib g a).
Proof.
  intros Hn. unfold spec_cancel_finish. case_bool_decide; [by apply spec_finish_untouched|].
  split; [done|apply lib_only_refl].
Qed.

Lemma untouched_equiv h a a' a'' : a'' ≡ a' -> untouched h a a' -> untouched h a a''.
Proof.
  intros (E1 & E2 & E3) [Hn Hg]. unfold untouched, lib_only, in_slots. by rewrite E1, E2, E3.
Qed.

(** A goal that is in no slot and whose acceptance is not in the owner's queue. *)
Definition outside h (t : astate) : Prop := ~ in_slots h (serv t) /\ h ∉ queued (queue t).

(** A region does nothing to such a goal; only the library may. *)
Lemma region_outside t t' h :
  region t t' -> is_Some (ast (serv t) h) -> outside h t ->
  outside h t' /\ lib_only h (serv t) (serv t').
Proof.
  unfold outside. intros [a a' q k k' cl cl' E _ _|lib c a a' q k cl _ E|g a a' q k cl Hn E
    |g a a' q k cl Hs E|g a a' q k cl Hin E|lib g a a' q k cl _ E _|lib g a a' q cl _ E
    |lib g a a' q cl _ E]; cbn [serv queue]; intros Hk [Ho Hq].
  - destruct (untouched_equiv h _ _ _ E (conj Ho (lib_only_refl h a))). auto.
  - destruct (untouched_equiv h _ _ _ E (spec_api_untouched lib c a h Ho)). auto.
  - assert (h <> g) as Hd by (intros ->; destruct Hk; congruence).
    destruct (untouched_equiv h a _ _ E) as [Ho' Hg'].
    { split; [done|]. left. cbn. unfold upd. by rewrite decide_False. }
    split; [|done]. split; [done|]. rewrite queued_app. intros [?|Hl]%elem_of_app; [done|].
    cbn in Hl. apply list_elem_of_singleton in Hl. done.
  - destruct (untouched_equiv h _ _ _ E (conj Ho (lib_only_refl h a))). split; [|done]. split; [done|].
    rewrite queued_app. cbn. by rewrite app_nil_r.
  - destruct (untouched_equiv h _ _ _ E (conj Ho (lib_only_lib h [g] a a (lib_only_refl h a)))). auto.
  - cbn in Hq. apply not_elem_of_cons in Hq as [Hd Hq].
    destruct (untouched_equiv h _ _ _ E (spec_accepted_untouched lib g a h Hd Ho)). auto.
  - destruct (untouched_equiv h _ _ _ E (spec_cancel_untouched lib g a h Ho)). auto.
  - destruct (untouched_equiv h _ _ _ E (spec_cancel_finish_untouched lib g a h Ho)). auto.
Qed.

Lemma lib_only_unfinished h a a' :
  lib_only h a a' -> unfinished (ast a' h) = unfinished (ast a h).
Proof. unfold lib_only, ast. intros [-> | ->]; [done|]. by destruct (goals a h) as [[[] ?]|]. Qed.

(** The goal is on its way out: someone still holds it, or its handle has been destroyed. *)
Definition settling h (t : astate) : Prop :=
  outside h t /\
  (aheld h t /\ unfinished (ast (serv t) h) = true \/
   goals (serv t) h = Some (CANCELED, Some default_result)).

Lemma astep_settling t t' h : astep t t' -> settling h t -> settling h t'.
Proof.
  intros (m & Hr & R) [Ho Hor].
  assert (is_Some (ast (serv t) h)) as Hk.
  { unfold ast. destruct Hor as [[_ Hu]|Hg]; [|by rewrite Hg; eexists].
    unfold ast in Hu. by destruct (goals (serv t) h) as [[]|]; [eexists|]. }
  destruct (region_outside t m h Hr Hk Ho) as [[Hn Hq] Hl]. split.
  { unfold outside, in_slots. rewrite (released_act _ _ _ R), (released_pend _ _ _ R),
      (released_queue _ _ _ R). done. }
  pose proof (lib_only_unfinished _ _ _ Hl) as Hu. destruct Hor as [[Hh Hu0]|Hg].
  - destruct (released_goals _ _ _ R h) as [[E Hno]|(_ & _ & E)]; [|by right]. left.
    rewrite (released_aheld _ _ _ h R). unfold ast at 1. rewrite E. rewrite <- Hu in Hu0.
    split; [|exact Hu0]. destruct (decide (h ∈ held_list m)) as [Hm|Hm]; [by apply held_list_spec|].
    destruct Hno. split; [done|]. split; [|done]. by rewrite <- held_list_spec.
  - right. assert (unfinished (ast (serv m) h) = false) as Hf.
    { rewrite Hu. unfold ast. by rewrite Hg. }
    destruct (released_goals _ _ _ R h) as [[E _]|(_ & Hu' & _)]; [|congruence]. rewrite E.
    destruct Hl as [-> | ->]; by rewrite Hg.
Qed.

Lemma run_settling (es : list event) s s' h :
  run_events es s = Some s' -> settling h (abs_system s) -> settling h (abs_system s').
Proof.
  revert s. induction es as [|e es IH]; cbn [run_events]; intros s; [by intros [= ->]|].
  destruct (sys_step e s) as [s1|] eqn:E; [|done]. cbn. intros Hr Hs. apply (IH s1 Hr).
  exact (astep_settling _ _ h (sys_step_astep e s s1 E) Hs).
Qed.

(** ** Accepted cancel requests *)

(** The slots after an operation hold goals that were there before. *)
Definition slots_from a a' : Prop :=
  (forall h, pend a' = Some h -> pend a = Some h) /\ (forall h, act a' = Some h -> in_slots h a).

Lemma slots_from_same a a' : act a' = act a -> pend a' = pend a -> slots_from a a'.
Proof. intros E1 E2. split; intros h; rewrite ?E1, ?E2; [done|]. by left. Qed.

Lemma slots_from_finish lib r a : slots_from a (spec_finish lib r a).2.
Proof.
  destruct (spec_finish_slots lib a r) as [Ha Hp].
  split; intros h; rewrite ?Ha, ?Hp; [done|]. intros [=].
Qed.

Lemma slots_from_accept lib r a : slots_from a (spec_accept lib r a).2.
Proof.
  unfold spec_accept. destruct (spec_deferred a) as [p|] eqn:E; [|by apply slots_from_same].
  apply spec_deferred_Some in E as [Hp _].
  destruct (spec_finish_slots lib (spec_lib (lib BeforeFinishActive) a) r) as [Ha1 Hp1].
  set (a2 := spec_lib (lib BeforeExecute) _). change (act a2 = None) in Ha1.
  assert (slots_from a (spec_drop_pending a2)) as Hd.
  { split; [done|]. change (act (spec_drop_pending a2)) with (act a2). rewrite Ha1. intros h [=]. }
  assert (slots_from a (MkAserver (Some p) None (upd p (EXECUTING, None) (goals a2)))) as Hs.
  { split; [done|]. intros h [= <-]. by right. }
  by destruct (ast a2 p) as [[]|].
Qed.

Lemma slots_from_api lib c a : slots_from a (spec_api lib c a).2.
Proof.
  assert (slots_from a a) as Hid by (by apply slots_from_same).
  destruct c; cbn [spec_api]; try done.
  - pose proof (slots_from_accept lib result a). by destruct (spec_accept lib result a).
  - unfold spec_reject. destruct (spec_deferred a) as [p|] eqn:E; [|done]. split; [done|]. cbn.
    intros h Hh. apply (terminate_slots lib p result a). by left.
  - unfold spec_publish. destruct (spec_running a); [by apply slots_from_same|done].
  - pose proof (slots_from_finish lib result a). by destruct (spec_finish lib result a).
  - pose proof (slots_from_finish lib result a). by destruct (spec_finish lib result a).
  - unfold spec_succeed. destruct (spec_running a); [|done]. by split.
Qed.

(** Goal [h] will leave the slots: a message for its cancel handler is in the queue, or
    its cancel hook runs, or it has left. It does not come back. *)
Record leaving h (t : astate) : Prop := {
  leaving_known : is_Some (ast (serv t) h);
  leaving_unqueued : h ∉ queued (queue t);
  leaving_how : MsgCancelHandler h ∈ queue t \/
    pend (serv t) <> Some h /\ (hooked t = Some (RunsCancelHook h) \/ act (serv t) <> Some h) }.

Lemma goal_step_known (P : Prop) (v v' : goal_view AO) : goal_step P v v' -> is_Some v -> is_Some v'.
Proof. intros [[]|[-> _]]; [done|by eexists..|by intros []]. Qed.

Lemma region_known t t' h : region t t' -> is_Some (ast (serv t) h) -> is_Some (ast (serv t') h).
Proof.
  intros Hm%(region_move _ _ h). unfold ast. rewrite !fmap_is_Some. by apply (goal_step_known _ _ _ Hm).
Qed.

(** The slots and the queue alone decide. *)
Lemma leaving_how_from a a' h (b : Prop) :
  slots_from a a' -> pend a <> Some h /\ (b \/ act a <> Some h) -> pend a' <> Some h /\ (b \/ act a' <> Some h).
Proof.
  intros [Hp Ha] [Hn Hor]. split; [by intros ?%Hp|]. destruct Hor as [|Hor]; [by left|].
  right. by intros [?|?]%Ha.
Qed.

Lemma slots_from_equiv a a' a'' : a'' ≡ a' -> slots_from a a' -> slots_from a a''.
Proof. intros (E1 & E2 & _) [Hp Ha]. split; intros h; rewrite ?E1, ?E2; auto. Qed.

Lemma spec_accepted_slots lib g a :
  act (spec_accepted lib g a) = act a /\ pend (spec_accepted lib g a) = Some g.
Proof.
  unfold spec_accepted. split; [|done]. destruct (spec_deferred a) as [p|]; [|done].
  apply spec_terminate_act.
Qed.

(** The messages of cancel handlers other than [g]'s stay in the queue. *)
Lemma leaving_queue_app h m q : MsgCancelHandler h ∈ q -> MsgCancelHandler h ∈ q ++ [m].
Proof. intros ?. apply elem_of_app. by left. Qed.

Lemma spec_cancel_leaving lib h a :
  (act a = Some h -> pend a <> Some h) ->
  pend (spec_cancel lib h a).2 <> Some h /\
  ((spec_cancel lib h a).1 = true \/ act (spec_cancel lib h a).2 <> Some h).
Proof.
  intros Hd. unfold spec_cancel. case_bool_decide as Ha; [split; [apply Hd; congruence|by left]|].
  case_bool_decide as Hp; cbn; [|split; [congruence|right; congruence]].
  split; [done|]. right. rewrite spec_terminate_act. congruence.
Qed.

Lemma spec_cancel_slots_from lib g a : slots_from a (spec_cancel lib g a).2.
Proof.
  unfold spec_cancel. case_bool_decide; [by apply slots_from_same|].
  case_bool_decide; [|by apply slots_from_same]. split; [done|]. cbn.
  intros h Hh. apply (terminate_slots lib g default_result a). by left.
Qed.

Lemma region_unqueued t t' h :
  region t t' -> is_Some (ast (serv t) h) -> h ∉ queued (queue t) -> h ∉ queued (queue t').
Proof.
  intros [] Hk Hq; cbn [serv queue] in *; try done.
  - rewrite queued_app. intros [?|Hg]%elem_of_app; [done|]. cbn in Hg.
    apply list_elem_of_singleton in Hg as ->. destruct Hk. congruence.
  - rewrite queued_app. cbn. by rewrite app_nil_r.
  - by apply not_elem_of_cons in Hq as [_ Hq].
Qed.

Lemma region_leaving t t' h :
  region t t' -> (act (serv t) = Some h -> pend (serv t) <> Some h) -> leaving h t -> leaving h t'.
Proof.
  intros Hr Hd [Hk Hq Hl]. split; [by apply (region_known _ _ h Hr)|by apply (region_unqueued _ _ h Hr)|].
  destruct Hr as [a a' q k k' cl cl' E _ Hkk|lib c a a' q k cl _ E|g a a' q k cl Hn E|g a a' q k cl Hs E
    |g a a' q k cl Hin E|lib g a a' q k cl _ E _|lib g a a' q cl _ E|lib g a a' q cl _ E];
    cbn [serv queue hooked cancels] in *.
  - destruct Hl as [|[Hp Ho]]; [by left|right]. destruct E as (-> & -> & _). split; [done|].
    destruct Ho as [->|]; [|by right]. destruct Hkk as [->|[_ [g [=]]]]. by left.
  - destruct Hl as [|Hl]; [by left|right]. apply (leaving_how_from a), Hl.
    apply (slots_from_equiv _ _ _ E), slots_from_api.
  - destruct Hl as [|Hl]; [left; by apply leaving_queue_app|right].
    apply (leaving_how_from a), Hl. by apply (slots_from_equiv _ _ _ E), slots_from_same.
  - destruct Hl as [|Hl]; [left; by apply leaving_queue_app|right].
    apply (leaving_how_from a), Hl. by apply (slots_from_equiv _ _ _ E), slots_from_same.
  - destruct Hl as [|Hl]; [by left|right]. apply (leaving_how_from a), Hl.
    by apply (slots_from_equiv _ _ _ E), slots_from_same.
  - apply not_elem_of_cons in Hq as [Hg _]. destruct E as (E1 & E2 & _).
    destruct Hl as [[?|?]%elem_of_cons|[Hp [?|Ha]]]; [done|by left|done|]. right.
    rewrite E1, E2. destruct (spec_accepted_slots lib g a) as [-> ->]. split; [congruence|by right].
  - destruct (decide (g = h)) as [->|Hg].
    + right. destruct (spec_cancel_leaving lib h a Hd) as [Hp Ho]. destruct E as (E1 & E2 & _).
      rewrite E1, E2. split; [done|]. destruct Ho as [->|]; [by left|by right].
    + destruct Hl as [[?|?]%elem_of_cons|[Hp [?|Ha]]]; [congruence|by left|done|]. right.
      apply (leaving_how_from a); [|split; [done|by right]].
      apply (slots_from_equiv _ _ _ E), spec_cancel_slots_from.
  - destruct Hl as [|[Hp Ho]]; [by left|right]. destruct E as (E1 & E2 & _). rewrite E1, E2.
    unfold spec_cancel_finish. case_bool_decide as Hg.
    + destruct (spec_finish_slots lib a default_result) as [-> ->]. split; [done|]. by right.
    + split; [done|]. right. destruct Ho as [[= ->]|]; congruence.
Qed.

Lemma released_leaving t0 t t' h : released t0 t t' -> leaving h t -> leaving h t'.
Proof.
  intros R [Hk Hq Hl]. split.
  - destruct (released_status _ _ _ h R) as [->|(_ & _ & ->)]; [done|by eexists].
  - by rewrite (released_queue _ _ _ R).
  - by rewrite (released_queue _ _ _ R), (released_hooked _ _ _ R), (released_act _ _ _ R),
      (released_pend _ _ _ R).
Qed.

Lemma astep_leaving t t' h : astep t t' -> ainv t -> leaving h t -> leaving h t'.
Proof.
  intros (m & Hr & R) [I _] Hl. apply (released_leaving t m t' h R), (region_leaving t m h Hr); [|done].
  apply (inv_distinct _ _ _ I).
Qed.

(** ** The owner on its own *)

(** No thread but the owner moves, and no library. *)
Definition owner_event (e : event) : Prop := e = EvDequeue quiet \/ e = EvHook quiet.

(** The owner comes to the end of what it is doing, and [q] is left in its queue. *)
Definition owner_reaches (s : system) (q : list message) : Prop :=
  exists es s', Forall owner_event es /\ run_events es s = Some s' /\ owner s' = Idle /\ engine (srv s') = q.

Lemma owner_reaches_step e s s1 q :
  owner_event e -> sys_step e s = Some s1 -> owner_reaches s1 q -> owner_reaches s q.
Proof.
  intros He Hs (es & s' & Hes & Hr & Ho & Hq). exists (e :: es), s'.
  split; [by constructor|]. cbn [run_events]. by rewrite Hs.
Qed.

(** Hooks end: a hook is a finite program, and no call of it adds a message. *)
Lemma hook_step_engine p v p' v' : hook_step quiet p v = Some (p', v') -> engine v' = engine v.
Proof.
  destruct p as [|c k|f k|f k]; cbn; [done|..].
  - destruct (run_api_refines quiet c v _ (shows_abs_of _)) as (v1 & -> & (He & _) & _). by intros [= _ <-].
  - by intros [= _ <-].
  - by intros [= _ <-].
Qed.

Definition in_hook (p : hook_prog) (s : system) : Prop :=
  exists h, owner s = InGoalHook p h \/ owner s = InCancelHook p h.

Lemma region_step (e : event) s m : sys_region e s = Some m -> sys_step e s = Some (release s m).
Proof. intros E. unfold sys_step. by rewrite E. Qed.

Lemma in_hook_step p s p' v :
  in_hook p s -> hook_step quiet p (srv s) = Some (p', v) ->
  exists s1, sys_step (GoalUUID := GoalUUID) (EvHook quiet) s = Some s1 /\ in_hook p' s1 /\ engine (srv s1) = engine (srv s).
Proof.
  intros [h Hp] Hv. pose proof (hook_step_engine _ _ _ _ Hv) as He.
  assert (exists o, sys_region (GoalUUID := GoalUUID) (EvHook quiet) s = Some (MkSystem v o (canceling s)) /\
            (o = InGoalHook p' h \/ o = InCancelHook p' h)) as (o & E & Ho).
  { cbn [sys_region]. rewrite decide_True by apply lib_in_quiet. unfold do_hook.
    destruct Hp as [-> | ->]; rewrite Hv; eauto. }
  eexists. split; [by apply region_step|]. split; [by exists h|exact He].
Qed.

Lemma in_hook_return s :
  in_hook HookReturn s ->
  exists s1, sys_step (GoalUUID := GoalUUID) (EvHook quiet) s = Some s1 /\ owner s1 = Idle /\ engine (srv s1) = engine (srv s).
Proof.
  intros [h Hp].
  assert (exists v, sys_region (GoalUUID := GoalUUID) (EvHook quiet) s = Some (MkSystem v Idle (canceling s)) /\
            engine v = engine (srv s)) as (v & E & He).
  { cbn [sys_region]. rewrite decide_True by apply lib_in_quiet. unfold do_hook.
    destruct Hp as [-> | ->]; cbn [hook_step]; [by eexists|].
    destruct (cancelHandler_finish_refines quiet h (srv s) _ (shows_abs_of _)) as (v & -> & (He & _) & _).
    by eexists. }
  eexists. split; [by apply region_step|]. split; [done|exact He].
Qed.

Lemma hook_ends p s : in_hook p s -> owner_reaches s (engine (srv s)).
Proof.
  revert s. induction p as [|c k IH|f k IH|f k IH]; intros s Hp.
  - destruct (in_hook_return s Hp) as (s1 & Hs & Ho & He). exists [EvHook quiet], s1.
    split; [by constructor; [right|]|]. cbn [run_events]. by rewrite Hs.
  - destruct (run_api quiet c (srv s)) as [r v] eqn:E.
    destruct (in_hook_step _ s (k r) v Hp) as (s1 & Hs & Hp1 & <-); [cbn; by rewrite E|].
    eapply owner_reaches_step; [by right|exact Hs|]. by apply (IH r).
  - destruct (in_hook_step _ s k _ Hp eq_refl) as (s1 & Hs & Hp1 & <-).
    eapply owner_reaches_step; [by right|exact Hs|]. by apply IH.
  - destruct (in_hook_step _ s k _ Hp eq_refl) as (s1 & Hs & Hp1 & <-).
    eapply owner_reaches_step; [by right|exact Hs|]. by apply IH.
Qed.

(** Finishing what it is doing, and then working off the rest. *)
Lemma owner_reaches_trans s q q' :
  owner_reaches s q -> (forall s', owner s' = Idle -> engine (srv s') = q -> owner_reaches s' q') ->
  owner_reaches s q'.
Proof.
  intros (es & s1 & Hes & Hr & Ho & Hq) H. destruct (H s1 Ho Hq) as (es' & s2 & Hes' & Hr' & Ho' & Hq').
  exists (es ++ es'), s2. split; [by apply Forall_app|]. split; [|done].
  clear -Hr Hr'. revert s Hr. induction es as [|e es IH]; intros s Hr; cbn in *; [by injection Hr as ->|].
  destruct (sys_step e s); [by apply IH|done].
Qed.

Lemma message_handled s m q :
  owner s = Idle -> engine (srv s) = m :: q ->
  exists s1, sys_step (GoalUUID := GoalUUID) (EvDequeue quiet) s = Some s1 /\ engine (srv s1) = q /\
    (owner s1 = Idle \/ exists p, in_hook p s1).
Proof.
  intros Ho Hq.
  assert (exists m1, sys_region (GoalUUID := GoalUUID) (EvDequeue quiet) s = Some m1 /\ engine (srv m1) = q /\
            (owner m1 = Idle \/ exists p, in_hook p m1)) as (m1 & E & Hq1 & Hor).
  { cbn [sys_region]. rewrite decide_True by apply lib_in_quiet. unfold do_dequeue. rewrite Ho, Hq.
    destruct m as [h|h].
    - destruct (acceptedCallback_refines quiet h (set_engine q (srv s)) _ (shows_abs_of _))
        as (v & -> & (He & _) & _).
      eexists. split; [reflexivity|]. split; [exact He|]. cbn.
      destruct (new_goal_hook_ _) as [f|]; [right; eexists; exists h; by left|by left].
    - destruct (cancelHandler_locked_refines quiet h (set_engine q (srv s)) _ (shows_abs_of _))
        as (v & -> & (He & _) & _).
      eexists. split; [reflexivity|]. split; [exact He|]. cbn.
      destruct (spec_cancel quiet h _).1; [|by left]. right.
      destruct (cancel_goal_hook_ _) as [p|]; eexists; exists h; by right. }
  eexists. split; [by apply region_step|]. split; [exact Hq1|]. exact Hor.
Qed.

Lemma queue_worked_off q s : owner s = Idle -> engine (srv s) = q -> owner_reaches s [].
Proof.
  revert s. induction q as [|m q IH]; intros s Ho Hq; [by exists [], s|].
  destruct (message_handled s m q Ho Hq) as (s1 & Hs & Hq1 & Hor).
  eapply owner_reaches_step; [by left|exact Hs|]. destruct Hor as [Ho1|[p Hp]]; [by apply IH|].
  eapply owner_reaches_trans; [by apply (hook_ends p)|]. rewrite Hq1. apply IH.
Qed.

Lemma owner_settles s : owner_reaches s [].
Proof.
  destruct (owner s) as [|p h|p h] eqn:Ho; [by eapply queue_worked_off|..];
    (eapply owner_reaches_trans; [apply (hook_ends p)|by intros s'; apply queue_worked_off]);
    exists h; [by left|by right].
Qed.

(** ** The theorems *)

Lemma run_leaving (es : list event) s s' h :
  run_events es s = Some s' -> sys_inv s -> leaving h (abs_system s) ->
  sys_inv s' /\ leaving h (abs_system s').
Proof.
  revert s. induction es as [|e es IH]; cbn [run_events]; intros s; [by intros [= ->]|].
  destruct (sys_step e s) as [s1|] eqn:E; cbn; [|done]. intros Hr Hi Hl.
  pose proof (sys_step_astep e s s1 E) as Hs. apply (IH s1 Hr).
  - exact (astep_inv _ _ Hs Hi).
  - exact (astep_leaving _ _ h Hs Hi Hl).
Qed.

Lemma in_slots_known s h :
  sys_inv s -> in_slots h (abs_of (srv s)) ->
  unfinished (status_of (rcl (srv s)) h) = true /\ h ∉ queued (engine (srv s)).
Proof.
  intros [I _]. change (status_of (rcl (srv s)) h) with (ast (abs_of (srv s)) h).
  cbn [abs_system serv queue cancels] in I. intros [Ha|Hp]; split.
  - by destruct (inv_active _ _ _ I h Ha) as [-> | ->].
  - intros Hq. destruct (inv_queued _ _ _ I h Hq) as (Hst & _). destruct (inv_active _ _ _ I h Ha); congruence.
  - by destruct (inv_pending _ _ _ I h Hp) as [-> | ->].
  - intros Hq. by destruct (inv_queued _ _ _ I h Hq) as (_ & Hn & _).
Qed.

(** A goal outside the slots and the queue is finished or being canceled. *)
Lemma outside_status s h st :
  sys_inv s -> outside h (abs_system s) -> status_of (rcl (srv s)) h = Some st ->
  terminal st = true \/ st = CANCELING.
Proof.
  intros [I _] [Hn Hq] Hst. destruct st; auto.
  - destruct (inv_accepted _ _ _ I h Hst) as [Hp|?]; [|done]. destruct Hn. by right.
  - destruct Hn. left. by apply (inv_executing _ _ _ I).
Qed.

(** The owners of a handle that are left when the owner of the component has nothing to do. *)
Lemma held_idle s h :
  owner s = Idle -> h ∈ held s ->
  in_slots h (abs_of (srv s)) \/ MsgAccepted h ∈ engine (srv s) \/
  MsgCancelHandler h ∈ engine (srv s) \/ h ∈ canceling s.
Proof.
  intros Ho [Hin|[Hin|[Hin|?]]]%held_aheld; [by left| |cbn in Hin; by rewrite Ho in Hin|auto].
  cbn in Hin. apply list_elem_of_fmap in Hin as ([g|g] & -> & Hm); auto.
Qed.

(** C4 -- A cancel request that the server accepts takes its goal out of the server: the owner can always work off its queue by its own steps alone, whatever the user hooks do (they end, and add no message), and in every later state of the system, under any interleaving with clients, library and other threads, in which the owner is idle and has no cancel message for the goal left, the goal is in neither slot, and it is finished or being canceled, never waiting or executing; it is being canceled only as long as the library is at work on a request to cancel it. *)
Theorem cancel_request_settles s s1 h :
  reachable (GoalUUID := GoalUUID) s -> in_slots h (abs_of (srv s)) ->
  sys_step (GoalUUID := GoalUUID) (EvCancelRequest h) s = Some s1 ->
  owner_reaches s1 [] /\
  (forall (es : list event) s2, run_events es s1 = Some s2 ->
     owner s2 = Idle -> MsgCancelHandler h ∉ engine (srv s2) ->
     goal_active_ (srv s2) <> Some h /\ goal_pending_ (srv s2) <> Some h /\
     exists st, status_of (rcl (srv s2)) h = Some st /\
       (terminal st = true \/ st = CANCELING /\ h ∈ canceling s2)).
Proof.
  intros I%reachable_inv Hin Hs. split; [apply owner_settles|]. intros es s2 Hr Ho Hm.
  destruct (in_slots_known s h I Hin) as [Hu Hq].
  pose proof (sys_step_astep _ _ _ Hs) as Hst.
  assert (leaving h (abs_system s1)) as Hl.
  { unfold sys_step in Hs. rewrite (request_region s h Hin) in Hs. injection Hs as <-.
    apply (released_leaving _ _ _ h (release_released s _)). split.
    - change (is_Some (status_of (rcl (srv s)) h)).
      destruct (status_of (rcl (srv s)) h) as [st|]; [by eexists|done].
    - change (h ∉ queued (engine (srv s) ++ [MsgCancelHandler h])).
      rewrite queued_app. cbn. by rewrite app_nil_r.
    - left. change (MsgCancelHandler h ∈ engine (srv s) ++ [MsgCancelHandler h]).
      apply elem_of_app. right. by left. }
  destruct (run_leaving es s1 s2 h Hr) as [I2 [[st Hst2] Hq2 Hhow]]; [exact (astep_inv _ _ Hst I)|done|].
  destruct Hhow as [?|[Hp [Hh|Ha]]]; [done|cbn in Hh; by rewrite Ho in Hh|].
  split; [exact Ha|]. split; [exact Hp|]. exists st. split; [exact Hst2|].
  assert (outside h (abs_system s2)) as Hout by (split; [by intros []|exact Hq2]).
  destruct (outside_status s2 h st I2 Hout Hst2) as [?| ->]; [by left|right]. split; [done|].
  pose proof (ainv_held _ I2 h) as Hheld. rewrite Hst2 in Hheld.
  destruct (held_idle s2 h Ho) as [[|]|[Hacc|[|]]]; [by apply held_aheld, Hheld|done|done| |done|done].
  destruct Hq2. apply list_elem_of_omap. by exists (MsgAccepted h).
Qed.

(** A goal in the pending slot that is being canceled is displaced by the next goal. *)
Lemma canceling_displaced s g h q :
  goal_pending_ (srv s) = Some h -> status_of (rcl (srv s)) h = Some CANCELING ->
  owner s = Idle -> engine (srv s) = MsgAccepted g :: q -> new_goal_hook_ (srv s) = None ->
  exists m, sys_region (GoalUUID := GoalUUID) (EvDequeue quiet) s = Some m /\ owner m = Idle /\
    canceling m = canceling s /\ engine (srv m) = q /\
    abs_of (srv m) ≡ MkAserver (goal_active_ (srv s)) (Some g) (view (rcl (srv s))).
Proof.
  intros Hp Hst Ho Hq Hn. cbn [sys_region]. rewrite decide_True by apply lib_in_quiet.
  unfold do_dequeue. rewrite Ho, Hq.
  destruct (acceptedCallback_refines quiet g (set_engine q (srv s)) _ (shows_abs_of _)) as (v & -> & (He & _) & Hs).
  cbn [new_goal_hook_ set_engine]. rewrite Hn. eexists. split; [reflexivity|].
  split; [done|]. split; [done|]. split; [exact He|].
  apply shows_equiv in Hs. cbn. rewrite Hs. unfold spec_accepted, spec_deferred.
  change (pend (abs_of (set_engine q (srv s)))) with (goal_pending_ (srv s)). rewrite Hp.
  change (ast (abs_of (set_engine q (srv s))) h) with (status_of (rcl (srv s)) h). by rewrite Hst.
Qed.

(** The cancel handler of a goal in neither slot does nothing. *)
Lemma late_cancel_handler s h q :
  ~ in_slots h (abs_of (srv s)) -> owner s = Idle -> engine (srv s) = MsgCancelHandler h :: q ->
  sys_region (GoalUUID := GoalUUID) (EvDequeue quiet) s =
    Some (MkSystem (set_engine q (srv s)) Idle (canceling s)).
Proof.
  intros Hn Ho Hq. cbn [sys_region]. rewrite decide_True by apply lib_in_quiet.
  unfold do_dequeue. rewrite Ho, Hq. unfold cancelHandler_locked.
  rewrite !bool_decide_false; [done|..]; cbn; intros E; apply Hn; [right|left]; by symmetry.
Qed.

(** The client's cancel request for a deferred goal arrives and takes effect while the
    acceptance of the next goal is already in the owner's queue. *)
Definition overtaken h : list event :=
  [EvCancelRequest h; EvCancelTransition h; EvDequeue quiet].

Lemma overtaken_displaced s g h :
  reachable (GoalUUID := GoalUUID) s ->
  goal_pending_ (srv s) = Some h -> status_of (rcl (srv s)) h = Some ACCEPTED ->
  owner s = Idle -> engine (srv s) = [MsgAccepted g] -> new_goal_hook_ (srv s) = None ->
  exists s3, run_events (overtaken h) s = Some s3 /\ owner s3 = Idle /\
    engine (srv s3) = [MsgCancelHandler h] /\ ~ in_slots h (abs_of (srv s3)) /\
    (h ∉ canceling s3) /\ status_of (rcl (srv s3)) h = Some CANCELING.
Proof.
  intros [I _]%reachable_inv Hp Hst Ho Hq Hn.
  assert (g <> h) as Hgh.
  { intros ->. assert (h ∈ queued (engine (srv s))) as Hin by (rewrite Hq; by left).
    by destruct (inv_queued _ _ _ I h Hin) as (_ & ? & _). }
  assert (goal_active_ (srv s) <> Some h) as Ha.
  { intros Ha. by destruct (inv_distinct _ _ _ I h Ha). }
  pose proof (request_region (GoalUUID := GoalUUID) s h (or_intror Hp)) as E1. rewrite Hq in E1. cbn [app] in E1.
  set (m1 := MkSystem _ _ _) in E1. unfold overtaken. rewrite (run_events_cons _ _ _ _ E1).
  assert (status_of (rcl (srv (release s m1))) h = Some ACCEPTED) as Hst1.
  { unfold status_of in *. rewrite release_view; [exact Hst|]. left. apply held_canceling. by left. }
  pose proof (transition_region (GoalUUID := GoalUUID) (release s m1) h (list_elem_of_here _ _)) as E2.
  set (m2 := MkSystem _ _ _) in E2. rewrite (run_events_cons _ _ _ _ E2).
  set (s2 := release (release s m1) m2).
  assert (status_of (rcl (srv s2)) h = Some CANCELING) as Hst2.
  { unfold status_of at 1, s2. rewrite release_view.
    - exact (cancel_goal_status _ _ ACCEPTED Hst1 (or_introl eq_refl)).
    - left. apply held_aheld. left. right. exact Hp. }
  destruct (canceling_displaced s2 g h [MsgCancelHandler h]) as (m3 & E3 & Ho3 & Hc3 & Hq3 & Ha3 & Hp3 & Hg3);
    [exact Hp|exact Hst2|exact Ho|done|exact Hn|].
  rewrite (run_events_cons _ _ _ _ E3). eexists. split; [done|]. split; [exact Ho3|]. split; [exact Hq3|].
  split_and!.
  - change (abs_of (srv (release s2 m3))) with
      (MkAserver (goal_active_ (srv m3)) (goal_pending_ (srv m3)) (view (rcl (srv (release s2 m3))))).
    cbn in Ha3, Hp3. unfold in_slots. cbn. rewrite Ha3, Hp3. intros [?|[= ?]]; done.
  - change (h ∉ canceling m3). rewrite Hc3.
    change (h ∉ filter (fun g => g <> h) (h :: canceling s)). by intros [? _]%list_elem_of_filter.
  - unfold status_of at 1. rewrite release_view.
    + pose proof (Hg3 h) as Hv3. cbn [abs_of goals] in Hv3. rewrite Hv3. exact Hst2.
    + left. apply held_aheld. right. left. cbn. rewrite Hq3. by left.
Qed.

(** The handle of a goal that nobody holds any more is destroyed. *)
Lemma release_destroys s m h :
  h ∈ held s -> h ∉ held m -> unfinished (status_of (rcl (srv m)) h) = true ->
  view (rcl (srv (release s m))) h = Some (CANCELED, Some default_result).
Proof.
  intros Hs Hm Hu. cbn. rewrite destroy_handles_view, Hu.
  rewrite decide_True; [done|]. by apply list_elem_of_filter.
Qed.

(** The pending goal becomes CANCELING just before [acceptPending] executes it. *)
Lemma accept_race (s : slots) p r :
  goal_pending_ s = Some p -> status_of (rcl s) p = Some ACCEPTED -> goal_active_ s <> Some p ->
  exists v, acceptPending (at_window BeforeExecute p) r s = (false, v) /\
    goal_active_ v = None /\ goal_pending_ v = None /\ status_of (rcl v) p = Some CANCELING /\
    engine v = engine s.
Proof.
  intros Hp Hst Ha. set (lib := at_window BeforeExecute p).
  destruct (acceptPending_refines lib r s _ (shows_abs_of s)) as (v & -> & (He & _) & Hs).
  assert (spec_deferred (abs_of s) = Some p) as Hd by (by apply spec_deferred_Some).
  set (a0 := spec_lib (lib BeforeFinishActive) (abs_of s)) in *.
  assert (ast (spec_lib (lib BeforeExecute) (spec_finish lib r a0).2) p = Some CANCELING) as Hc.
  { assert (lib_only p (abs_of s) (spec_finish lib r a0).2) as Hl.
    { apply spec_finish_other; [exact Ha|]. apply lib_only_lib, lib_only_refl. }
    rewrite ast_spec_lib, decide_True by (by left). unfold lib_only, ast in *.
    change (fst <$> goals (abs_of s) p = Some ACCEPTED) in Hst.
    destruct (goals (abs_of s) p) as [[st o]|]; [|done]. cbn in Hst. injection Hst as ->.
    by destruct Hl as [-> | ->]. }
  unfold spec_accept in *. rewrite Hd in *. fold a0 in Hs |- *. rewrite Hc in *.
  exists v. split; [done|]. destruct (spec_finish_slots lib a0 r) as [Ha1 _].
  rewrite (shows_active _ _ Hs), (shows_pending _ _ Hs), (shows_status _ _ p Hs).
  split; [exact Ha1|]. split; [done|]. split; [exact Hc|exact He].
Qed.

(** C5 -- No goal is lost without a result: in every reachable state each unfinished goal has an owner of its handle (a slot, a message to the owner's thread, the handler it runs, the library in the middle of a cancel request), so that with an idle owner, an empty queue and no cancel request in progress each unfinished goal is in a slot. But the class does not finish every goal it lets go of. When a deferred goal is canceled while the acceptance of the next goal is already in the queue, the new goal displaces it without finishing it, because a goal that is being canceled does not count as pending; its cancel handler then finds it in neither slot and does nothing, and only the destruction of the goal handle after it cancels the goal. Had the owner been faster, the goal would have been finished as ABORTED. And when the library moves the pending goal to CANCELING just before acceptPending executes it, acceptPending fails after it has finished the active goal, and lets go of the pending goal too. *)
Theorem unfinished_goals_are_held s :
  reachable (GoalUUID := GoalUUID) s ->
  (forall h st, status_of (rcl (srv s)) h = Some st -> terminal st = false ->
     h ∈ held s /\
     (owner s = Idle -> engine (srv s) = [] -> canceling s = [] -> in_slots h (abs_of (srv s)))) /\
  (forall g h, goal_pending_ (srv s) = Some h -> status_of (rcl (srv s)) h = Some ACCEPTED ->
     owner s = Idle -> engine (srv s) = [MsgAccepted g] -> new_goal_hook_ (srv s) = None ->
     (exists s3 m, run_events (overtaken h) s = Some s3 /\ ~ in_slots h (abs_of (srv s3)) /\
        status_of (rcl (srv s3)) h = Some CANCELING /\
        sys_region (GoalUUID := GoalUUID) (EvDequeue quiet) s3 = Some m /\ owner m = Idle /\
        engine (srv m) = [] /\ rcl (srv m) = rcl (srv s3) /\
        view (rcl (srv (release s3 m))) h = Some (CANCELED, Some default_result)) /\
     (exists s', sys_step (GoalUUID := GoalUUID) (EvDequeue quiet) s = Some s' /\
        view (rcl (srv s')) h = Some (ABORTED, Some default_result))) /\
  (forall p r, goal_pending_ (srv s) = Some p -> status_of (rcl (srv s)) p = Some ACCEPTED ->
     p ∈ canceling s ->
     exists s', sys_step (GoalUUID := GoalUUID) (EvApi (at_window BeforeExecute p) (CallAcceptPending r)) s = Some s' /\
       (acceptPending (at_window BeforeExecute p) r (srv s)).1 = false /\
       goal_active_ (srv s') = None /\ goal_pending_ (srv s') = None /\
       status_of (rcl (srv s')) p = Some CANCELING).
Proof.
  intros R. pose proof (reachable_inv s R) as I. split_and!.
  - intros h st Hst Ht.
    assert (h ∈ held s) as Hh.
    { apply held_aheld, (ainv_held _ I). change (unfinished (status_of (rcl (srv s)) h) = true).
      rewrite Hst. cbn. by rewrite Ht. }
    split; [done|]. intros Ho Hq Hc.
    destruct (held_idle s h Ho Hh) as [?|[Hm|[Hm|Hm]]]; [done|..];
      rewrite ?Hq, ?Hc in Hm; by apply elem_of_nil in Hm.
  - intros g h Hp Hst Ho Hq Hn. split.
    + destruct (overtaken_displaced s g h R Hp Hst Ho Hq Hn) as (s3 & Hr & Ho3 & Hq3 & Hout & Hc & Hst3).
      pose proof (late_cancel_handler s3 h [] Hout Ho3 Hq3) as E. eexists s3, _.
      split; [exact Hr|]. split; [exact Hout|]. split; [exact Hst3|]. split; [exact E|].
      split; [done|]. split; [done|]. split; [done|]. apply release_destroys.
      * apply held_aheld. right. left. cbn. rewrite Hq3. by left.
      * intros [Hin|[Hin|[Hin|Hin]]]%held_aheld; cbn in Hin; [done|by apply elem_of_nil in Hin|done..].
      * change (unfinished (status_of (rcl (srv s3)) h) = true). by rewrite Hst3.
    + assert (exists m, sys_region (GoalUUID := GoalUUID) (EvDequeue quiet) s = Some m /\
                view (rcl (srv m)) h = Some (ABORTED, Some default_result)) as (m & E & Hv).
      { cbn [sys_region]. rewrite decide_True by apply lib_in_quiet. unfold do_dequeue. rewrite Ho, Hq.
        destruct (acceptedCallback_refines quiet g (set_engine [] (srv s)) _ (shows_abs_of _)) as (v & -> & _ & Hs).
        cbn [new_goal_hook_ set_engine]. rewrite Hn. eexists. split; [reflexivity|]. cbn [srv].
        rewrite (shows_goals _ _ Hs). unfold spec_accepted.
        assert (spec_deferred (abs_of (set_engine [] (srv s))) = Some h) as -> by (by apply spec_deferred_Some).
        assert (forall hs a, ast (spec_lib [] a) hs = ast a hs) as Hl.
        { intros k a. rewrite ast_spec_lib. rewrite decide_False; [done|]. apply not_elem_of_nil. }
        unfold spec_terminate, quiet. rewrite !Hl.
        change (ast (abs_of (set_engine [] (srv s))) h) with (status_of (rcl (srv s)) h).
        rewrite Hst. cbn [goals spec_end act pend]. unfold upd. by rewrite decide_True. }
      exists (release s m). split; [by apply region_step|]. rewrite release_view; [exact Hv|].
      right. unfold status_of. by rewrite Hv.
  - intros p r Hp Hst Hc. destruct I as [I _].
    destruct (accept_race (srv s) p r Hp Hst) as (v & Hv & Ha' & Hp' & Hst' & _).
    { intros Ha. by apply (inv_distinct _ _ _ I p Ha). }
    rewrite Hv. exists (release s (MkSystem v (owner s) (canceling s))).
    split; [|split_and!; [done|exact Ha'|exact Hp'|]].
    + apply region_step. cbn [sys_region]. rewrite decide_True by (by apply lib_in_at).
      cbn [run_api]. unfold mbind, state_bind. rewrite Hv. reflexivity.
    + unfold status_of at 1. rewrite release_view; [exact Hst'|]. left. by apply held_canceling.
Qed.

(** ** Shutting down *)

Context {RC : RclcppOps} {RO : RTTOps RC} {Server : Type}.

(** The server is shut down while the owner may be at work and messages in its queue. *)
Definition shut_down (this : SimpleActionServer GoalUUID Server) (s : system) : system :=
  MkSystem (sas_shutdown (elsewhere s) this (srv s)).2 (owner s) (canceling s).

(** Everyone but the slots. *)
Definition held_elsewhere s : list GoalHandle :=
  (message_handle <$> engine (srv s)) ++ elsewhere s.

Lemma drop_handle_view hs gh (s : slots) h :
  view (rcl (drop_handle hs gh s)) h =
    if decide (gh = Some h /\ h ∉ hs) then
      if unfinished (status_of (rcl s) h) then Some (CANCELED, Some default_result) else view (rcl s) h
    else view (rcl s) h.
Proof.
  unfold drop_handle. destruct gh as [g|]; [|by rewrite decide_False by naive_solver].
  destruct (decide (g ∈ hs)) as [Hin|Hin]; [rewrite decide_False by naive_solver; done|].
  cbn [set_rcl rcl]. rewrite destroy_handle_view. destruct (decide (h = g)) as [->|Hne].
  - by rewrite decide_True by done.
  - by rewrite decide_False by naive_solver.
Qed.

Lemma drop_handle_slots hs gh (s : slots) :
  goal_active_ (drop_handle hs gh s) = goal_active_ s /\
  goal_pending_ (drop_handle hs gh s) = goal_pending_ s /\ engine (drop_handle hs gh s) = engine s.
Proof. unfold drop_handle. destruct gh as [g|]; [|done]. by destruct (decide _). Qed.

Lemma shut_down_frame this s :
  goal_active_ (srv (shut_down this s)) = None /\ goal_pending_ (srv (shut_down this s)) = None /\
  engine (srv (shut_down this s)) = engine (srv s) /\
  owner (shut_down this s) = owner s /\ canceling (shut_down this s) = canceling s.
Proof.
  unfold shut_down, sas_shutdown. cbn [srv snd owner canceling].
  set (s1 := drop_handle _ (goal_active_ (srv s)) _).
  destruct (drop_handle_slots (option_list (goal_pending_ (srv s)) ++ held_elsewhere s)
              (goal_active_ (srv s)) (set_active None (srv s))) as (Ha1 & Hp1 & Hq1).
  destruct (drop_handle_slots (held_elsewhere s) (goal_pending_ s1) (set_pending None s1))
    as (Ha2 & Hp2 & Hq2). unfold held_elsewhere in *. fold s1 in Ha1, Hp1, Hq1.
  rewrite Ha2, Hp2, Hq2. cbn. by rewrite Ha1, Hq1.
Qed.

(** What becomes of a goal in one of two different slots. *)
Lemma shut_down_view this s h :
  goal_active_ (srv s) = Some h \/ goal_pending_ (srv s) = Some h ->
  (goal_active_ (srv s) = Some h -> goal_pending_ (srv s) <> Some h) ->
  unfinished (status_of (rcl (srv s)) h) = true ->
  view (rcl (srv (shut_down this s))) h =
    if decide (h ∈ held_elsewhere s) then view (rcl (srv s)) h
    else Some (CANCELED, Some default_result).
Proof.
  intros Hor Hd Hu. unfold shut_down, sas_shutdown. cbn [srv snd].
  set (s1 := drop_handle _ (goal_active_ (srv s)) _).
  assert (goal_pending_ s1 = goal_pending_ (srv s)) as Hp1
    by (exact (proj1 (proj2 (drop_handle_slots _ _ (set_active None (srv s)))))).
  fold (held_elsewhere s). rewrite drop_handle_view. cbn [set_pending rcl]. rewrite Hp1.
  assert (view (rcl s1) h =
            if decide (goal_active_ (srv s) = Some h /\ h ∉ held_elsewhere s)
            then Some (CANCELED, Some default_result) else view (rcl (srv s)) h) as Hv1.
  { subst s1. rewrite drop_handle_view. cbn [set_active rcl]. rewrite Hu. fold (held_elsewhere s).
    destruct (decide (goal_active_ (srv s) = Some h /\ h ∉ held_elsewhere s)) as [[Ha Hn]|Hn].
    - rewrite decide_True; [done|]. split; [done|].
      rewrite elem_of_app, elem_of_option_list. intros [?|?]; [by apply Hd|done].
    - rewrite decide_False; [done|]. intros [Ha Hin]. apply Hn. split; [done|].
      intros ?. apply Hin, elem_of_app. by right. }
  unfold status_of. rewrite Hv1.
  destruct (decide (h ∈ held_elsewhere s)) as [Hin|Hin].
  - rewrite !decide_False by naive_solver. done.
  - destruct Hor as [Ha|Hp].
    + rewrite (decide_True (P := goal_active_ (srv s) = Some h /\ _)) by done.
      rewrite decide_False by (intros [Hp _]; by apply Hd). done.
    + rewrite (decide_True (P := goal_pending_ (srv s) = Some h /\ _)) by done.
      rewrite decide_False by (intros [Ha _]; by apply Hd). unfold status_of in Hu. by rewrite Hu.
Qed.

(** C6 -- Shutting a server down finishes its goals, but not as its comment says: an active or pending goal whose handle nobody else holds is canceled by the destruction of the handle, with a default result, although no client asked for it (the comment says aborted). A goal that a message to the owner, the handler it runs or the library still holds keeps its state until the last of them lets go, and is canceled then; whatever the owner, its hooks, other threads and the library do afterwards, the class never puts such a goal back into a slot and never gives it another result. *)
Theorem shutdown_cancels_goals (this : SimpleActionServer GoalUUID Server) s h :
  reachable (GoalUUID := GoalUUID) s -> in_slots h (abs_of (srv s)) ->
  view (rcl (srv (shut_down this s))) h =
    (if decide (h ∈ held_elsewhere s) then view (rcl (srv s)) h
     else Some (CANCELED, Some default_result)) /\
  forall (es : list event) s', run_events es (shut_down this s) = Some s' ->
    goal_active_ (srv s') <> Some h /\ goal_pending_ (srv s') <> Some h /\
    (view (rcl (srv s')) h = Some (CANCELED, Some default_result) \/
     h ∈ held s' /\ exists st, status_of (rcl (srv s')) h = Some st /\ terminal st = false).
Proof.
  intros I%reachable_inv Hin. destruct (in_slots_known s h I Hin) as [Hu Hq].
  pose proof (shut_down_view this s h Hin (inv_distinct _ _ _ (ainv_slots _ I) h) Hu) as Hv.
  split; [exact Hv|]. intros es s' Hr.
  destruct (shut_down_frame this s) as (Ha & Hp & He & Ho & Hc).
  assert (settling h (abs_system (shut_down this s))) as Hset.
  { split.
    - split; cbn [abs_system serv queue]; [|by rewrite He].
      unfold in_slots. cbn [abs_of act pend]. rewrite Ha, Hp. by intros [|].
    - change (goals (serv (abs_system (shut_down this s))) h) with
        (view (rcl (srv (shut_down this s))) h). rewrite Hv.
      case_decide as Hh; [left|by right]. split.
      + apply held_aheld. unfold held, elsewhere. rewrite Ha, Hp, He, Ho, Hc. exact Hh.
      + unfold ast. change (goals (serv (abs_system (shut_down this s))) h) with
          (view (rcl (srv (shut_down this s))) h). rewrite Hv. exact Hu. }
  destruct (run_settling es _ s' h Hr Hset) as [[Hn _] Hor].
  split; [intros E; apply Hn; by left|]. split; [intros E; apply Hn; by right|].
  destruct Hor as [[Hh Hu']|?]; [right|by left]. split; [by apply held_aheld|].
  change (unfinished (status_of (rcl (srv s')) h) = true) in Hu'.
  destruct (status_of (rcl (srv s')) h) as [st|]; [|done]. exists st. split; [done|].
  cbn in Hu'. by destruct (terminal st).
Qed.
End Outcomes.

(** ** The theorems at work *)
Module Witnesses.
Import RclcppAction.Reference ActionSystem.Witnesses.

(** Two goals have been accepted, the acceptance of a third is in the queue. *)
Definition three_goals : list (event (AO := ref_ops) (GoalUUID := nat)) := two_goals ++ [EvGoal 3 9].

Definition busy_state : system (AO := ref_ops) :=
  default start_state (run_events three_goals start_state).

Lemma busy_reachable : reachable (AL := ref_laws) (GoalUUID := nat) busy_state.
Proof.
  unfold busy_state. destruct (run_events three_goals start_state) as [s|] eqn:Hs; simpl.
  - exact (reachable_run three_goals start_state s (reachable_init _ start_initial) Hs).
  - apply (f_equal (fun o => match o with Some _ => true | None => false end)) in Hs.
    vm_compute in Hs. discriminate Hs.
Qed.

Lemma unfinished_goals_are_held_witness :
  exists s3 : system, run_events (GoalUUID := nat) (overtaken (AO := ref_ops) 8) busy_state = Some s3 /\
    status_of (rcl (srv s3)) (8 : @GoalHandle ref_ops) = Some CANCELING.
Proof.
  destruct (unfinished_goals_are_held (AL := ref_laws) busy_state busy_reachable) as (_ & H & _).
  destruct (H 9 8) as [(s3 & m & Hr & _ & Hst & _) _]; [vm_compute; reflexivity..|].
  exists s3. exact (conj Hr Hst).
Defined.

(** Its first request to cancel the active goal. *)
Definition canceled_state : system (AO := ref_ops) :=
  default busy_state (sys_step (GoalUUID := nat) (EvCancelRequest (7 : @GoalHandle ref_ops)) busy_state).

Lemma cancel_request_settles_witness :
  engine (srv canceled_state) = [MsgAccepted 9; MsgCancelHandler 7] /\
  owner_reaches (AO := ref_ops) (GoalUUID := nat) canceled_state [].
Proof.
  split; [vm_compute; reflexivity|].
  refine (proj1 (cancel_request_settles (AL := ref_laws) busy_state _ 7 busy_reachable _ _)).
  - left. vm_compute. reflexivity.
  - vm_compute. reflexivity.
Defined.

(** A server on the component 4 of the reference instance. *)
Definition some_server : SimpleActionServer (AO := ref_ops) (RO := RttReference.ref_rtt_ops) nat nat :=
  MkSimpleActionServer (RO := RttReference.ref_rtt_ops) (RTTActionServer_ctor "dock") 4 "".

Lemma shutdown_cancels_goals_witness :
  view (rcl (srv (shut_down some_server busy_state))) (7 : @GoalHandle ref_ops) = Some (CANCELED, Some 0).
Proof.
  refine (eq_trans (proj1 (shutdown_cancels_goals (AL := ref_laws) some_server busy_state 7 busy_reachable _)) _).
  - left. vm_compute. reflexivity.
  - vm_compute. reflexivity.
Defined.
End Witnesses.
