(* ===== verification/RosImport.v ===== *)
(** Package [rtt_ros2] ([src/rtt_ros2/src/rtt_ros2.cpp],
    [src/rtt_ros2/src/rtt_ros2_service.cpp]): finding ROS packages and importing
    the Orocos plugins of a package and of its plugin dependencies.

    The ament index, the file system, libxml2 and RTT's component loader are
    interfaces ([AmentIndex], [LoaderOps]). The index does not change while
    [import] runs. The loop over the queue of dependency names has no structural
    bound, so [collect] takes fuel; [collect_enough] and [collect_cycle] say when
    some amount of fuel is enough and when none is. *)

From Stdlib Require Import Ascii.
From S2P Require Import Prelude RclcppAction RttServices.
Local Open Scope string_scope.
Local Open Scope list_scope.

(** ** The ament index, package files and the component loader *)

(** [PackageNotFoundError], or any other exception (the index refuses empty names, and
    resources it cannot read, with [std::runtime_error]). *)
Inductive index_error := PackageNotFoundError | OtherIndexError (what : string).

Class AmentIndex := {
  (** [get_resource type name]: the content of the resource and its prefix, if there is one *)
  get_resource : string -> string -> outcome index_error (option (string * string));
  get_package_share_directory : string -> outcome index_error string;
  get_package_prefix : string -> outcome index_error string;
  is_regular_file : string -> bool;
  (** the text of the nodes at [/package/export/rtt_ros2/plugin_depend/text()] of
      an XML file, null entries of the node table as [None]; [None] when libxml2
      gives no result object *)
  plugin_depend_nodes : string -> option (list (option string)) }.

Class LoaderOps := {
  LoaderWorld : Type;
  getComponentPath : LoaderWorld -> string;
  isImported : LoaderWorld -> string -> bool;
  loader_import : string -> string -> State LoaderWorld bool }.

(** An import that succeeds has imported the package; what is imported stays so. *)
Class LoaderLaws (LO : LoaderOps) := {
  loader_import_done p path w :
    (loader_import p path w).1 = true -> isImported (loader_import p path w).2 p = true;
  loader_import_keeps p path w q :
    isImported w q = true -> isImported (loader_import p path w).2 q = true }.

(** ** Strings *)

(** [std::getline(stream, part, sep)] until it fails: a last part is produced
    only if a character was left to read. *)
Fixpoint getline_all (sep : ascii) (s cur : string) : list string :=
  match s with
  | EmptyString => if bool_decide (cur = "") then [] else [cur]
  | String c s =>
      if bool_decide (c = sep) then cur :: getline_all sep s ""
      else getline_all sep s (cur +:+ String c "")
  end.

(** [boost::filesystem::path::operator/] on a relative right operand. *)
Definition path_append (a b : string) : string :=
  if bool_decide (a = "") then b
  else if bool_decide (String.get (String.length a - 1) a = Some "/"%char) then a +:+ b
  else a +:+ "/" +:+ b.

Section RosImport.
Context {AI : AmentIndex}.

(* [rtt_ros2/src/rtt_ros2.cpp:68-80] find *)
Definition find (package : string) : outcome index_error string :=
  match get_package_share_directory package with
  | Throw PackageNotFoundError => Ok ""
  | r => r
  end.

(** ** Collecting the dependencies *)

(** What one turn of the loop learns about a name. [DepUndefined] is an
    exception nothing catches, or a null XPath result that is dereferenced. *)
Inductive dep_info :=
| DepFound (search_path : string) (deps : list string)
| DepMissing
| DepUndefined.

(* [rtt_ros2/src/rtt_ros2.cpp:108-216] dep_name *)
Definition find_dep (dep_name : string) : dep_info :=
  match get_resource "rtt_ros2_plugin_depends" dep_name with
  | Throw _ => DepUndefined
  | Ok (Some (plugin_depends, prefix_path)) =>
      DepFound (path_append (path_append prefix_path "lib") "orocos")
        (getline_all ";"%char plugin_depends "")
  | Ok None =>
      match get_package_share_directory dep_name with
      | Throw PackageNotFoundError => DepMissing
      | Throw (OtherIndexError _) => DepUndefined
      | Ok dir =>
          let package_xml_path := path_append dir "package.xml" in
          if negb (is_regular_file package_xml_path) then DepMissing
          else
            match get_package_prefix dep_name, plugin_depend_nodes package_xml_path with
            | Ok prefix, Some nodes =>
                DepFound (path_append (path_append prefix "lib") "orocos")
                  (omap (fun n => n) nodes)
            | _, _ => DepUndefined
            end
      end
  end.

Record collected := MkCollected {
  deps_to_import : list string;
  search_paths : list string;
  missing_packages : gset string }.

(** The loop over [dep_names]: [None] while it has not ended, [Some None] if the
    call never gets past it regularly. *)
(* [rtt_ros2/src/rtt_ros2.cpp:101-220] dep_names *)
Fixpoint collect (fuel : nat) (dep_names : list string) (c : collected) : option (option collected) :=
  match dep_names with
  | [] => Some (Some c)
  | dep_name :: dep_names =>
      match fuel with
      | 0 => None
      | S fuel =>
          match find_dep dep_name with
          | DepUndefined => Some None
          | DepMissing =>
              collect fuel dep_names
                (MkCollected (deps_to_import c) (search_paths c) ({[dep_name]} ∪ missing_packages c))
          | DepFound path deps =>
              collect fuel (dep_names ++ deps)
                (MkCollected (deps_to_import c ++ [dep_name]) (search_paths c ++ [path])
                   (missing_packages c))
          end
      end
  end.

Definition collect_start : collected := MkCollected [] [] ∅.

(** ** Importing what was collected *)
Section Import.
Context {LO : LoaderOps}.

(* [rtt_ros2/src/rtt_ros2.cpp:226-232] path_list *)
Fixpoint prepend_paths (rpaths : list string) (seen : gset string) (path_list : string) : string :=
  match rpaths with
  | [] => path_list
  | it :: rpaths =>
      if bool_decide (it ∈ seen) then prepend_paths rpaths seen path_list
      else prepend_paths rpaths ({[it]} ∪ seen) (it +:+ ":" +:+ path_list)
  end.

(* [rtt_ros2/src/rtt_ros2.cpp:240-259] deps_to_import *)
Fixpoint import_all (rdeps : list string) (path_list : string) (missing : gset string)
    : State LoaderWorld (gset string) :=
  fun w =>
    match rdeps with
    | [] => (missing, w)
    | it :: rdeps =>
        if bool_decide (it = "rtt_ros2") || isImported w it then import_all rdeps path_list missing w
        else
          let '(ok, w) := loader_import it path_list w in
          import_all rdeps path_list (if ok : bool then missing else {[it]} ∪ missing) w
    end.

(* [rtt_ros2/src/rtt_ros2.cpp:223-275] deps_to_import *)
Definition import_collected (c : collected) : State LoaderWorld bool :=
  fun w =>
    let '(missing, w) :=
      match deps_to_import c with
      | [] => (missing_packages c, w)
      | _ =>
          import_all (reverse (deps_to_import c))
            (prepend_paths (reverse (search_paths c)) ∅ (getComponentPath w))
            (missing_packages c) w
      end in
    (bool_decide (missing = ∅), w).

(** [None]: the loop needs more fuel; [Some None]: no regular return. *)
(* [rtt_ros2/src/rtt_ros2.cpp:82-276] import *)
Definition import (fuel : nat) (package : string) (w : LoaderWorld)
    : option (option (bool * LoaderWorld)) :=
  match collect fuel [package] collect_start with
  | None => None
  | Some None => Some None
  | Some (Some c) => Some (Some (import_collected c w))
  end.
End Import.
End RosImport.

(** ** The RTT plugin *)
Section Plugin.
Context {RC : RclcppOps} {RO : RTTOps RC}.

(* [rtt_ros2/src/rtt_ros2_service.cpp:24-42] loadROSService *)
Definition ros2_loadROSService (w : RTTWorld) : RTTWorld :=
  let '(ros, w) := provides GlobalService "ros" w in
  let w := addOperation ros "find" w in
  addOperation ros "import" w.

(* [rtt_ros2/src/rtt_ros2_service.cpp:45-50] loadRTTPlugin *)
Definition ros2_loadRTTPlugin (tc : option TaskContext) (w : RTTWorld) : bool * RTTWorld :=
  match tc with
  | Some _ => (false, w)
  | None => (true, ros2_loadROSService w)
  end.
End Plugin.

(** ** Splitting and joining dependency lists *)

Fixpoint join_with (sep : ascii) (l : list string) : string :=
  match l with
  | [] => ""
  | [x] => x
  | x :: l => x +:+ String sep (join_with sep l)
  end.

Fixpoint has_char (c : ascii) (s : string) : bool :=
  match s with EmptyString => false | String d s => bool_decide (d = c) || has_char c s end.

Lemma string_app_assoc (a b c : string) : a +:+ (b +:+ c) = (a +:+ b) +:+ c.
Proof.
  induction a as [|x a IH]; [done|].
  change (String x (a +:+ (b +:+ c)) = String x ((a +:+ b) +:+ c)). by rewrite IH.
Qed.

Lemma string_app_nil (a : string) : a +:+ "" = a.
Proof.
  induction a as [|x a IH]; [done|]. change (String x (a +:+ "") = String x a). by rewrite IH.
Qed.

Lemma getline_word sep x s cur :
  has_char sep x = false -> getline_all sep (x +:+ s) cur = getline_all sep s (cur +:+ x).
Proof.
  revert cur. induction x as [|c x IH]; intros cur Hx; [by rewrite string_app_nil|].
  change (bool_decide (c = sep) || has_char sep x = false) in Hx.
  apply orb_false_iff in Hx as [Hc Hx].
  change ((if bool_decide (c = sep) then cur :: getline_all sep (x +:+ s) ""
           else getline_all sep (x +:+ s) (cur +:+ String c "")) =
          getline_all sep s (cur +:+ String c x)).
  rewrite Hc, IH by done. by rewrite <- string_app_assoc.
Qed.

(** The list of plugin dependencies read back from the ament index is the list
    that was joined with semicolons, if no name has a semicolon and the last one
    is not empty. *)
Lemma dependency_list_roundtrip (l : list string) :
  Forall (fun x => has_char ";"%char x = false) l -> last l <> Some "" ->
  getline_all ";"%char (join_with ";"%char l) "" = l.
Proof.
  induction 1 as [|x l Hx Hl IH]; [done|]. intros Hlast.
  destruct l as [|y l].
  - cbn [join_with]. rewrite <- (string_app_nil x) at 1. rewrite getline_word by done.
    change ((if bool_decide (x = "") then [] else [x]) = [x]).
    rewrite bool_decide_false; [done|]. intros ->. by apply Hlast.
  - change (getline_all ";"%char (x +:+ String ";"%char (join_with ";"%char (y :: l))) "" = x :: y :: l).
    rewrite getline_word by done.
    change ((if bool_decide (";"%char = ";"%char)
             then x :: getline_all ";"%char (join_with ";"%char (y :: l)) ""
             else getline_all ";"%char (join_with ";"%char (y :: l)) (x +:+ ";")) = x :: y :: l).
    rewrite bool_decide_true by done. f_equal. apply IH. exact Hlast.
Qed.

(** ** The dependency graph *)
Section Graph.
Context {AI : AmentIndex}.

Definition deps_of (n : string) : list string :=
  match find_dep n with DepFound _ deps => deps | _ => [] end.
Definition path_of (n : string) : string :=
  match find_dep n with DepFound path _ => path | _ => "" end.
Definition found (n : string) : Prop :=
  match find_dep n with DepFound _ _ => True | _ => False end.

Definition depends (n d : string) : Prop := d ∈ deps_of n.
Definition reaches : string -> string -> Prop := rtc depends.

(** Found packages are the only ones with dependencies. *)
Lemma depends_found n d : depends n d -> found n.
Proof. unfold depends, deps_of, found. destruct (find_dep n); [done|..]; by intros ?%not_elem_of_nil. Qed.

(** More fuel does not change a result. *)
Lemma collect_more f f' q c r : collect f q c = Some r -> f <= f' -> collect f' q c = Some r.
Proof.
  revert f' q c. induction f as [|f IH]; intros f' q c Hr Hle.
  - destruct q; [|done]. destruct f'; exact Hr.
  - destruct f' as [|f']; [lia|]. destruct q as [|n q]; [exact Hr|]. cbn in *.
    destruct (find_dep n); [apply IH; [done|lia]|apply IH; [done|lia]|done].
Qed.

(** *** Fuel that is enough

    [rank] decreases along dependencies; [cost] counts the turns of the loop a
    name causes. *)
Fixpoint cost (k : nat) (n : string) : nat :=
  match k with
  | 0 => 1
  | S k => S (sum_list (cost k <$> deps_of n))
  end.

Section Rank.
Variable rank : string -> nat.
Hypothesis rank_decreases : forall n d, depends n d -> rank d < rank n.

Lemma cost_stable k n k' : rank n <= k -> k <= k' -> cost k' n = cost k n.
Proof.
  revert n k'. induction k as [|k IH]; intros n k' Hn Hk.
  - assert (deps_of n = []) as Hd.
    { destruct (deps_of n) as [|d l] eqn:E; [done|].
      assert (rank d < rank n) by (apply rank_decreases; unfold depends; rewrite E; by left). lia. }
    destruct k'; [done|]. cbn. by rewrite Hd.
  - destruct k' as [|k']; [lia|]. cbn. do 2 f_equal. apply list_fmap_ext.
    intros i d Hd%list_elem_of_lookup_2. apply IH; [|lia]. specialize (rank_decreases n d Hd). lia.
Qed.

Lemma sum_list_app (l k : list nat) : sum_list (l ++ k) = sum_list l + sum_list k.
Proof. induction l as [|x l IH]; cbn in *; lia. Qed.

Definition turns (n : string) : nat := cost (rank n) n.

Lemma turns_unfold n : turns n = S (sum_list (turns <$> deps_of n)).
Proof.
  unfold turns. rewrite <- (cost_stable (rank n) n (S (rank n))) by lia. cbn. do 2 f_equal.
  apply list_fmap_ext. intros i d Hd%list_elem_of_lookup_2. apply cost_stable; [lia|].
  specialize (rank_decreases n d Hd). lia.
Qed.

Lemma collect_turns f q c : sum_list (turns <$> q) <= f -> is_Some (collect f q c).
Proof.
  revert q c. induction f as [|f IH]; intros q c Hf.
  - destruct q as [|n q]; [by eexists|]. cbn in Hf. rewrite turns_unfold in Hf. lia.
  - destruct q as [|n q]; [by eexists|]. cbn in Hf. rewrite turns_unfold in Hf. cbn.
    unfold deps_of in Hf. destruct (find_dep n) as [path deps| |].
    + apply IH. rewrite fmap_app, sum_list_app. lia.
    + apply IH. lia.
    + by eexists.
Qed.
End Rank.

(** *** Fuel that is never enough *)
Lemma tc_first {A} (R : A -> A -> Prop) x y : tc R x y -> exists z, R x z /\ rtc R z y.
Proof. intros [x' y' H|x' y' z H Ht]; eexists; (split; [exact H|]); [apply rtc_refl|by apply tc_rtc]. Qed.

Lemma collect_cycle f q c a c' :
  tc depends a a -> (exists x, x ∈ q /\ reaches x a) -> collect f q c <> Some (Some c').
Proof.
  intros Hcyc. revert q c. induction f as [|f IH]; intros q c (x & Hx & Hr).
  - destruct q; [by apply not_elem_of_nil in Hx|done].
  - destruct q as [|n q]; [by apply not_elem_of_nil in Hx|]. cbn.
    apply elem_of_cons in Hx as [->|Hx].
    + assert (exists y, depends n y /\ reaches y a) as (y & Hy & Hya).
      { destruct Hr as [n|n y a Hny Hya]; [|by eexists].
        by apply tc_first. }
      pose proof (depends_found _ _ Hy) as Hf. unfold depends, deps_of, found in *.
      destruct (find_dep n) as [path deps| |]; try done.
      apply IH. exists y. split; [apply elem_of_app; by right|done].
    + destruct (find_dep n) as [path deps| |]; [| |done];
        apply IH; exists x; (split; [|done]); [apply elem_of_app; by left|done].
Qed.
End Graph.

Lemma snoc_case {A} (l : list A) : l = [] \/ exists l' x, l = l' ++ [x].
Proof. induction l using rev_ind; eauto. Qed.

(** *** What has been collected when the loop ends *)
Section Collected.
Context {AI : AmentIndex}.

(** The loop for [p], with the names [q] still in the queue. *)
Record collect_inv (p : string) (q : list string) (c : collected) : Prop := {
  ci_queue n : n ∈ q -> reaches p n;
  ci_deps n : n ∈ deps_to_import c -> reaches p n /\ found n;
  ci_missing n : n ∈ missing_packages c -> reaches p n /\ find_dep n = DepMissing;
  ci_start : p ∈ q \/ p ∈ deps_to_import c \/ p ∈ missing_packages c;
  ci_order d1 n d2 d : deps_to_import c = d1 ++ n :: d2 -> depends n d ->
    d ∈ d2 \/ d ∈ q \/ d ∈ missing_packages c;
  ci_paths : search_paths c = path_of <$> deps_to_import c }.

Lemma collect_inv_missing p n q c :
  collect_inv p (n :: q) c -> find_dep n = DepMissing ->
  collect_inv p q (MkCollected (deps_to_import c) (search_paths c) ({[n]} ∪ missing_packages c)).
Proof.
  intros [Hq Hd Hm Hs Ho Hp] Hn. split; simpl.
  - intros k Hk. apply Hq. by right.
  - exact Hd.
  - intros k [->%elem_of_singleton|Hk]%elem_of_union; [|by apply Hm].
    split; [|done]. apply Hq. by left.
  - destruct Hs as [[->|?]%elem_of_cons|[?|?]]; [|by left|by right; left|];
      right; right; apply elem_of_union; [left; by apply elem_of_singleton|by right].
  - intros d1 k d2 d Hk Hkd. destruct (Ho d1 k d2 d Hk Hkd) as [?|[[->|?]%elem_of_cons|?]].
    + by left.
    + right; right. apply elem_of_union. left. by apply elem_of_singleton.
    + by right; left.
    + right; right. apply elem_of_union. by right.
  - exact Hp.
Qed.

Lemma collect_inv_found p n q c path deps :
  collect_inv p (n :: q) c -> find_dep n = DepFound path deps ->
  collect_inv p (q ++ deps)
    (MkCollected (deps_to_import c ++ [n]) (search_paths c ++ [path]) (missing_packages c)).
Proof.
  intros [Hq Hd Hm Hs Ho Hp] Hn.
  assert (reaches p n) as Hpn by (apply Hq; by left).
  split; simpl.
  - intros k [Hk|Hk]%elem_of_app; [apply Hq; by right|].
    eapply rtc_r; [exact Hpn|]. unfold depends, deps_of. by rewrite Hn.
  - intros k [Hk| ->%list_elem_of_singleton]%elem_of_app; [by apply Hd|].
    split; [done|]. unfold found. by rewrite Hn.
  - exact Hm.
  - rewrite !elem_of_app, list_elem_of_singleton. destruct Hs as [[->|?]%elem_of_cons|[?|?]]; auto.
  - intros d1 k d2 d Hk Hkd. rewrite elem_of_app.
    destruct (snoc_case d2) as [->|(d2' & z & ->)].
    + apply app_inj_tail in Hk as [_ ->]. right. left. right.
      unfold depends, deps_of in Hkd. by rewrite Hn in Hkd.
    + rewrite app_comm_cons, app_assoc in Hk. apply app_inj_tail in Hk as [Hk ->].
      rewrite elem_of_app, list_elem_of_singleton.
      destruct (Ho _ _ _ _ Hk Hkd) as [?|[[->|?]%elem_of_cons|?]]; auto.
  - rewrite fmap_app, Hp. simpl. do 2 f_equal. unfold path_of. by rewrite Hn.
Qed.

Lemma collect_keeps_inv p f q c c' :
  collect_inv p q c -> collect f q c = Some (Some c') -> collect_inv p [] c'.
Proof.
  revert q c. induction f as [|f IH]; intros [|n q] c I; simpl; try done.
  - by intros [= ->].
  - by intros [= ->].
  - destruct (find_dep n) as [path deps| |] eqn:Hn; [|..|done]; intros Hc; eapply IH; [|done| |done].
    + by apply collect_inv_found.
    + by apply collect_inv_missing.
Qed.

Lemma collect_start_inv p : collect_inv p [p] collect_start.
Proof.
  split; simpl; try done.
  - intros n ->%list_elem_of_singleton. apply rtc_refl.
  - by intros n ?%not_elem_of_nil.
  - left. by left.
  - intros [] ? ? ?; done.
Qed.

(** Everything reachable has been looked up. *)
Lemma collect_complete p c n : collect_inv p [] c -> reaches p n ->
  n ∈ deps_to_import c \/ n ∈ missing_packages c.
Proof.
  intros I. revert n.
  apply (rtc_ind_r (fun n => n ∈ deps_to_import c \/ n ∈ missing_packages c)).
  - destruct (ci_start _ _ _ I) as [?%not_elem_of_nil|?]; done.
  - intros n m Hpn Hnm IH.
    assert (n ∈ deps_to_import c) as [d1 [d2 Hd]]%list_elem_of_split.
    { destruct IH as [|Hm]; [done|]. apply (ci_missing _ _ _ I) in Hm as [_ Hm].
      apply depends_found in Hnm. unfold found in Hnm. by rewrite Hm in Hnm. }
    destruct (ci_order _ _ _ I d1 n d2 m Hd Hnm) as [?|[?%not_elem_of_nil|?]]; [|done|by right].
    left. rewrite Hd. apply elem_of_app. right. by right.
Qed.

Lemma collect_members p f c :
  collect f [p] collect_start = Some (Some c) ->
  (forall n, n ∈ deps_to_import c <-> reaches p n /\ found n) /\
  (forall n, n ∈ missing_packages c <-> reaches p n /\ find_dep n = DepMissing).
Proof.
  intros Hc. pose proof (collect_keeps_inv _ _ _ _ _ (collect_start_inv p) Hc) as I.
  split; intros n.
  - split; [apply (ci_deps _ _ _ I)|]. intros [Hr Hf].
    destruct (collect_complete _ _ _ I Hr) as [|Hm]; [done|].
    apply (ci_missing _ _ _ I) in Hm as [_ Hm]. unfold found in Hf. by rewrite Hm in Hf.
  - split; [apply (ci_missing _ _ _ I)|]. intros [Hr Hm].
    destruct (collect_complete _ _ _ I Hr) as [Hd|]; [|done].
    apply (ci_deps _ _ _ I) in Hd as [_ Hf]. unfold found in Hf. by rewrite Hm in Hf.
Qed.
End Collected.

(** ** The theorems about [import] *)
Section Theorems.
Context {AI : AmentIndex} {LO : LoaderOps}.

(** C19 -- If the plugin dependencies of the packages in the index have no cycle (they can be ranked), importing a package always comes to an end: a computable number of turns of the dependency loop is enough, and the outcome does not depend on how much more is allowed. *)
Theorem import_terminates (rank : string -> nat) (package : string) (w : LoaderWorld) :
  (forall n d, depends n d -> rank d < rank n) ->
  exists r, forall fuel, turns rank package <= fuel -> import fuel package w = Some r.
Proof.
  intros Hrank.
  destruct (collect_turns rank Hrank (turns rank package) [package] collect_start) as [r Hr].
  { simpl. lia. }
  exists (match r with Some c => Some (import_collected c w) | None => None end).
  intros fuel Hf. unfold import. rewrite (collect_more _ _ _ _ _ Hr Hf). by destruct r.
Qed.

(** C20 -- If a package that depends on itself through plugin dependencies can be reached from the package to import, import never returns a result, however long it runs: the loop keeps no record of the names it has already looked up. *)
Theorem import_cycle_never_returns (package a : string) (fuel : nat) (w : LoaderWorld) :
  reaches package a -> tc depends a a ->
  forall r, import fuel package w <> Some (Some r).
Proof.
  intros Hr Hc r. unfold import.
  destruct (collect fuel [package] collect_start) as [[c|]|] eqn:E; try done.
  exfalso. refine (collect_cycle fuel _ _ a c Hc _ E). exists package. split; [by left|done].
Qed.

(** C18 -- When the dependency loop ends, the packages to import are exactly the packages that can be reached from the requested one and are found in the index or have a package.xml, the missing ones are exactly the names reached that are not found, and in the import order (the reverse of the order of discovery) every package comes after each of its plugin dependencies, except missing ones. *)
Theorem import_order_respects_dependencies (package : string) (fuel : nat) (c : collected) :
  collect fuel [package] collect_start = Some (Some c) ->
  (forall n, n ∈ deps_to_import c <-> reaches package n /\ found n) /\
  (forall n, n ∈ missing_packages c <-> reaches package n /\ find_dep n = DepMissing) /\
  (forall l1 n l2 d, reverse (deps_to_import c) = l1 ++ n :: l2 -> depends n d ->
     d ∈ l1 \/ d ∈ missing_packages c).
Proof.
  intros Hc. destruct (collect_members _ _ _ Hc) as [Hd Hm]. split_and!; [done..|].
  pose proof (collect_keeps_inv _ _ _ _ _ (collect_start_inv package) Hc) as I.
  intros l1 n l2 d Hrev Hnd.
  assert (deps_to_import c = reverse l2 ++ n :: reverse l1) as Hsplit.
  { rewrite <- (reverse_involutive (deps_to_import c)), Hrev.
    rewrite reverse_app, reverse_cons, <- app_assoc. done. }
  destruct (ci_order _ _ _ I _ _ _ _ Hsplit Hnd) as [Hin|[?%not_elem_of_nil|?]]; [|done|by right].
  left. by rewrite elem_of_reverse in Hin.
Qed.

(** The search path: each distinct path once, in the order of its last discovery. *)
Lemma prepend_paths_spec rpaths seen acc paths :
  (forall x, x ∈ seen <-> x ∈ paths) ->
  prepend_paths rpaths seen (foldr (fun p s => p +:+ ":" +:+ s) acc (remove_dups paths)) =
  foldr (fun p s => p +:+ ":" +:+ s) acc (remove_dups (reverse rpaths ++ paths)).
Proof.
  revert seen paths. induction rpaths as [|it rpaths IH]; intros seen paths Hseen; [done|].
  cbn [prepend_paths]. rewrite reverse_cons, <- app_assoc. simpl.
  assert (forall x, x ∈ {[it]} ∪ seen <-> x ∈ it :: paths) as Hseen'.
  { intros x. rewrite elem_of_union, elem_of_singleton, elem_of_cons, Hseen. done. }
  case_bool_decide as Hit.
  - rewrite <- (IH seen (it :: paths)); cbn [remove_dups].
    + case_decide as Hd; [done|]. by destruct Hd; apply Hseen.
    + intros x. rewrite elem_of_cons, Hseen. apply Hseen in Hit. naive_solver.
  - rewrite <- (IH ({[it]} ∪ seen) (it :: paths) Hseen'). cbn [remove_dups].
    case_decide as Hd; [|done]. by destruct Hit; apply Hseen.
Qed.

(** The component path import hands to RTT's loader is the loader's own path with the lib/orocos directory of every collected package prepended, each distinct directory exactly once, in the order of its last discovery. *)
Theorem search_path_without_duplicates (package : string) (fuel : nat) (c : collected) (base : string) :
  collect fuel [package] collect_start = Some (Some c) ->
  prepend_paths (reverse (search_paths c)) ∅ base =
    foldr (fun p s => p +:+ ":" +:+ s) base (remove_dups (path_of <$> deps_to_import c)).
Proof.
  intros Hc. pose proof (collect_keeps_inv _ _ _ _ _ (collect_start_inv package) Hc) as I.
  rewrite (ci_paths _ _ _ I).
  pose proof (prepend_paths_spec (reverse (path_of <$> deps_to_import c)) ∅ base []) as Hp.
  rewrite reverse_involutive, app_nil_r in Hp. apply Hp. set_solver.
Qed.

(** *** The packages that are imported in the end *)
Context {LL : LoaderLaws LO}.

Lemma import_all_keeps rdeps path m w q :
  isImported w q = true -> isImported (import_all rdeps path m w).2 q = true.
Proof.
  revert m w. induction rdeps as [|it rdeps IH]; intros m w Hq; [done|]. cbn [import_all].
  destruct (_ || _); [by apply IH|].
  destruct (loader_import it path w) as [ok w'] eqn:E. apply IH.
  pose proof (loader_import_keeps it path w q Hq) as Hk. by rewrite E in Hk.
Qed.

Lemma import_all_missing rdeps path m w n : n ∈ m -> n ∈ (import_all rdeps path m w).1.
Proof.
  revert m w. induction rdeps as [|it rdeps IH]; intros m w Hn; [done|]. cbn [import_all].
  destruct (_ || _); [by apply IH|].
  destruct (loader_import it path w) as [[] w']; apply IH; [done|]. apply elem_of_union. by right.
Qed.

Lemma import_all_imported rdeps path m w n :
  n ∈ rdeps -> n ∉ (import_all rdeps path m w).1 ->
  n = "rtt_ros2" \/ isImported (import_all rdeps path m w).2 n = true.
Proof.
  revert m w. induction rdeps as [|it rdeps IH]; intros m w Hn; [by apply not_elem_of_nil in Hn|].
  cbn [import_all]. apply elem_of_cons in Hn as [->|Hn].
  - destruct (bool_decide (it = "rtt_ros2") || isImported w it) eqn:E.
    + intros _. apply orb_true_iff in E as [E|E]; [left; by apply bool_decide_eq_true in E|].
      right. by apply import_all_keeps.
    + pose proof (loader_import_done it path w) as Hd.
      destruct (loader_import it path w) as [[] w']; simpl in Hd.
      * intros _. right. apply import_all_keeps. by apply Hd.
      * intros Hnot. destruct Hnot. apply import_all_missing. apply elem_of_union. left.
        by apply elem_of_singleton.
  - destruct (_ || _); [by apply IH|]. destruct (loader_import it path w) as [ok w']. by apply IH.
Qed.

(** If import reports success, every package that can be reached through plugin dependencies was found, and each of them (rtt_ros2 itself apart) is imported in RTT afterwards; and if any reachable name is missing, import reports failure. *)
Theorem import_success (package : string) (fuel : nat) (w w' : LoaderWorld) (b : bool) :
  import fuel package w = Some (Some (b, w')) ->
  (b = true -> forall n, reaches package n ->
     found n /\ (n = "rtt_ros2" \/ isImported w' n = true)) /\
  ((exists n, reaches package n /\ find_dep n = DepMissing) -> b = false).
Proof.
  unfold import. destruct (collect fuel [package] collect_start) as [[c|]|] eqn:Hc; try done.
  intros [= Himp]. destruct (collect_members _ _ _ Hc) as [Hd Hm].
  unfold import_collected in Himp.
  set (r := match deps_to_import c with [] => _ | _ => _ end) in Himp.
  destruct r as [m w1] eqn:Er. injection Himp as <- <-. subst r.
  assert (forall n, n ∈ missing_packages c -> n ∈ m) as Hsub.
  { intros n Hn. destruct (deps_to_import c); [by injection Er as <- _|].
    change m with (m, w1).1. rewrite <- Er. by apply import_all_missing. }
  split.
  - intros ->%bool_decide_eq_true n Hr.
    assert (found n) as Hf.
    { unfold found. destruct (find_dep n) eqn:Hn; [done|..].
      - by destruct (not_elem_of_empty (C := gset string) n); apply Hsub, Hm.
      - assert (n ∈ deps_to_import c \/ n ∈ missing_packages c) as [Hi|Hi].
        { eapply collect_complete; [|done]. eapply collect_keeps_inv; [apply collect_start_inv|done]. }
        + apply Hd in Hi as [_ Hi]. unfold found in Hi. by rewrite Hn in Hi.
        + by destruct (not_elem_of_empty (C := gset string) n); apply Hsub. }
    split; [done|]. assert (n ∈ deps_to_import c) as Hin by (by apply Hd).
    destruct (deps_to_import c) as [|d ds] eqn:Ed; [by apply not_elem_of_nil in Hin|].
    change w1 with (∅ : gset string, w1).2. rewrite <- Er. apply import_all_imported.
    + by apply elem_of_reverse.
    + rewrite Er. apply not_elem_of_empty.
  - intros (n & Hr & Hn). apply bool_decide_eq_false. intros ->.
    by destruct (not_elem_of_empty (C := gset string) n); apply Hsub, Hm.
Qed.
End Theorems.

(** ** Witnesses *)
Module Witnesses.

(** An index that only knows the resources in [table]. *)
Definition ref_index (table : list (string * string)) : AmentIndex := {|
  get_resource := fun _ n =>
    if bool_decide (n = "") then Throw (OtherIndexError "empty name")
    else Ok (match list_find (fun e : string * string => e.1 = n) table with
             | Some (_, (_, deps)) => Some (deps, "/opt/ros")
             | None => None
             end);
  get_package_share_directory := fun _ => Throw PackageNotFoundError;
  get_package_prefix := fun _ => Throw PackageNotFoundError;
  is_regular_file := fun _ => false;
  plugin_depend_nodes := fun _ => None |}.

#[export] Instance ref_loader : LoaderOps := {|
  LoaderWorld := list string;
  getComponentPath := fun _ => "/usr/lib/orocos";
  isImported := fun w p => bool_decide (p ∈ w);
  loader_import := fun p _ w => (true, p :: w) |}.

#[export] Instance ref_loader_laws : LoaderLaws ref_loader.
Proof.
  split; cbn.
  - intros p _ w _. apply bool_decide_eq_true. by left.
  - intros p _ w q Hq%bool_decide_eq_true. apply bool_decide_eq_true. by right.
Qed.

Definition diamond : AmentIndex := ref_index [("app", "lib;msgs"); ("lib", "msgs"); ("msgs", "")].
Definition loop : AmentIndex := ref_index [("a", "b"); ("b", "a")].

Definition diamond_rank (n : string) : nat :=
  if bool_decide (n = "app") then 2 else if bool_decide (n = "lib") then 1 else 0.

Lemma diamond_ranked n d : depends (AI := diamond) n d -> diamond_rank d < diamond_rank n.
Proof.
  unfold depends, deps_of, find_dep. cbn [get_resource diamond ref_index].
  case_bool_decide; [by intros ?%not_elem_of_nil|].
  destruct (list_find _ _) as [[i [k v]]|] eqn:E; [|cbn; by intros ?%not_elem_of_nil].
  apply list_find_Some in E as (Hi & Hk & _). cbn in Hk. subst k.
  destruct i as [|[|[|i]]]; cbn in Hi; [..|by destruct i];
    injection Hi as <- <-; intros Hd.
  - change (d ∈ ["lib"; "msgs"]) in Hd.
    apply elem_of_cons in Hd as [-> | ->%list_elem_of_singleton]; vm_compute; lia.
  - change (d ∈ ["msgs"]) in Hd. apply list_elem_of_singleton in Hd as ->. vm_compute. lia.
  - by apply not_elem_of_nil in Hd.
Qed.

Lemma dependency_list_roundtrip_witness :
  getline_all ";"%char (join_with ";"%char ["rtt_ros2_node"; ""; "rtt_ros2_params"]) "" =
    ["rtt_ros2_node"; ""; "rtt_ros2_params"].
Proof. apply dependency_list_roundtrip; [repeat constructor|discriminate]. Defined.

Lemma import_terminates_witness :
  exists r, forall fuel, 6 <= fuel -> import (AI := diamond) (LO := ref_loader) fuel "app" ["msgs"] = Some r.
Proof.
  destruct (import_terminates (AI := diamond) (LO := ref_loader) diamond_rank "app" ["msgs"] diamond_ranked) as [r Hr].
  exists r. intros fuel Hf. apply Hr. vm_compute. vm_compute in Hf. lia.
Defined.

Lemma import_cycle_never_returns_witness :
  import (AI := loop) (LO := ref_loader) 100 "a" [] <> Some (Some (true, ["a"; "b"])).
Proof.
  apply (import_cycle_never_returns (AI := loop) (LO := ref_loader) "a" "a" 100 []).
  - apply rtc_refl.
  - apply (tc_l _ "a" "b" "a"); [|apply tc_once]; vm_compute; left.
Defined.

Definition diamond_collected : collected :=
  match collect (AI := diamond) 10 ["app"] collect_start with
  | Some (Some c) => c
  | _ => collect_start
  end.

Lemma import_order_respects_dependencies_witness :
  "msgs" ∈ ["msgs"; "msgs"] \/ "msgs" ∈ missing_packages diamond_collected.
Proof.
  destruct (import_order_respects_dependencies (AI := diamond) "app" 10 diamond_collected eq_refl)
    as (_ & _ & Ho).
  apply (Ho ["msgs"; "msgs"] "lib" ["app"] "msgs"); [reflexivity|]. vm_compute. left.
Defined.

Lemma search_path_without_duplicates_witness :
  prepend_paths (reverse (search_paths diamond_collected)) ∅ "/usr/lib/orocos" =
    "/opt/ros/lib/orocos:/usr/lib/orocos".
Proof.
  rewrite (search_path_without_duplicates (AI := diamond) "app" 10 diamond_collected
             "/usr/lib/orocos" eq_refl).
  vm_compute. reflexivity.
Defined.

Lemma import_success_witness :
  import (AI := diamond) (LO := ref_loader) 10 "app" [] = Some (Some (true, ["app"; "lib"; "msgs"])) /\
  forall n, reaches (AI := diamond) "app" n -> found (AI := diamond) n.
Proof.
  assert (import (AI := diamond) (LO := ref_loader) 10 "app" [] = Some (Some (true, ["app"; "lib"; "msgs"]))) as H
    by (vm_compute; reflexivity).
  split; [exact H|]. intros n Hr.
  exact (proj1 (proj1 (import_success (AI := diamond) (LL := ref_loader_laws) "app" 10 [] _ true H) eq_refl n Hr)).
Defined.
End Witnesses.
