(* ===== verification/RttTypes.v ===== *)
(** RTT's type and operator repositories, as the typekits use them.

    A type is known under a key (a name, or the C++ type it is looked up by) and has
    constructors: C++ functions with their argument types. The repositories are not
    part of the project; a class has their operations, a class of laws what is
    documented about them, and a reference instance satisfies the laws. *)

From S2P Require Import Prelude.
Local Open Scope list_scope.

(** [newConstructor(&function, automatic)]: an automatic constructor is also used
    for implicit conversions. *)
Record TypeConstructor (key conv : Type) := newConstructor {
  function : conv;
  arguments : list key;
  automatic : bool }.
Arguments newConstructor {key conv}.
Arguments function {key conv} _.
Arguments arguments {key conv} _.
Arguments automatic {key conv} _.

#[export] Instance TypeConstructor_eq_dec key conv `{EqDecision key, EqDecision conv} :
  EqDecision (TypeConstructor key conv).
Proof. solve_decision. Defined.

(** An operator: its symbol and the types of its operands and its result. *)
Record operator (key : Type) := MkOperator { op_symbol : string; op_operands : list key; op_type : key }.
Arguments MkOperator {key}.
Arguments op_symbol {key} _.
Arguments op_operands {key} _.
Arguments op_type {key} _.
Definition operator_key {key} (o : operator key) : string * list key := (op_symbol o, op_operands o).

(** RTT's type repository: which types are known, and their constructors. *)
Class TypeRepository (key conv : Type) := {
  Types : Type;
  getTypeInfo : Types -> key -> bool;
  addType : key -> Types -> Types;
  addConstructor : key -> TypeConstructor key conv -> Types -> Types;
  PrimitiveTypeInfo_installTypeInfoObject : key -> Types -> Types;
  (** Whether the members of a type come from a factory that was set for it. *)
  setMemberFactory : key -> Types -> Types;
  hasMemberFactory : Types -> key -> bool;
  (** The constructor an implicit conversion of a value of the second type to the
      first type uses, of those that were added. *)
  convert : Types -> key -> key -> option conv;
  constructors : Types -> key -> list (TypeConstructor key conv);
  (** RTT's own implicit conversions: an argument of the first type takes a value of the second. *)
  accepts : key -> key -> bool }.

Definition can_convert `{TR : TypeRepository key conv} (from : key) (c : TypeConstructor key conv) : bool :=
  match arguments c with
  | [a] => automatic c && accepts a from
  | _ => false
  end.

Class TypeRepositoryLaws {key conv : Type} `{EqDecision key} (TR : TypeRepository key conv) := {
  addConstructor_constructors t c r t' :
    constructors (addConstructor t c r) t' =
      if decide (t' = t) then constructors r t ++ [c] else constructors r t';
  addConstructor_known t c r t' : getTypeInfo (addConstructor t c r) t' = getTypeInfo r t';
  addType_known t r t' : getTypeInfo (addType t r) t' = bool_decide (t' = t) || getTypeInfo r t';
  addType_constructors t r t' : constructors (addType t r) t' = constructors r t';
  install_constructors t r t' :
    constructors (PrimitiveTypeInfo_installTypeInfoObject t r) t' = constructors r t';
  install_known t r t' :
    getTypeInfo (PrimitiveTypeInfo_installTypeInfoObject t r) t' = getTypeInfo r t';
  factory_constructors t r t' : constructors (setMemberFactory t r) t' = constructors r t';
  factory_known t r t' : getTypeInfo (setMemberFactory t r) t' = getTypeInfo r t';
  factory_set t r t' :
    hasMemberFactory (setMemberFactory t r) t' = bool_decide (t' = t) || hasMemberFactory r t';
  factory_addConstructor t c r t' : hasMemberFactory (addConstructor t c r) t' = hasMemberFactory r t';
  factory_addType t r t' : hasMemberFactory (addType t r) t' = hasMemberFactory r t';
  factory_install t r t' :
    hasMemberFactory (PrimitiveTypeInfo_installTypeInfoObject t r) t' = hasMemberFactory r t';
  convert_first r t from :
    convert r t from = function <$> (snd <$> list_find (fun c => can_convert from c) (constructors r t));
  accepts_same t : accepts t t = true }.

(** [types->getTypeInfo(t)->addConstructor(c)]: a null dereference for an unknown type. *)
Definition add_to_known `{TR : TypeRepository key conv} (t : key) (c : TypeConstructor key conv) (r : Types)
    : option Types :=
  if getTypeInfo r t then Some (addConstructor t c r) else None.

(** ** Lists of registrations *)

Section Registrations.
Context `{TRL : TypeRepositoryLaws key conv}.
Implicit Type r : Types.

(** A sequence of [addType] calls. *)
Definition add_types (l : list key) r : Types := fold_left (fun r t => addType t r) l r.

(** A sequence of unchecked [addConstructor] calls. *)
Fixpoint add_constructors (l : list (key * TypeConstructor key conv)) r : option Types :=
  match l with
  | [] => Some r
  | (t, c) :: l => r ← add_to_known t c r; add_constructors l r
  end.

(** The constructors a list registers for a type, in order. *)
Definition registered_for (t : key) (l : list (key * TypeConstructor key conv)) :
    list (TypeConstructor key conv) := snd <$> filter (fun e => e.1 = t) l.

Lemma add_types_known l r t : getTypeInfo (add_types l r) t = bool_decide (t ∈ l) || getTypeInfo r t.
Proof.
  unfold add_types. revert r. induction l as [|a l IH]; intros r; cbn; [done|].
  rewrite IH, addType_known.
  destruct (decide (t = a)) as [->|Hne].
  - rewrite !(bool_decide_eq_true_2 (a = a)), (bool_decide_eq_true_2 (a ∈ a :: l)) by (done || by left).
    by destruct (bool_decide (a ∈ l)).
  - rewrite (bool_decide_eq_false_2 (t = a)) by done. cbn. f_equal.
    apply bool_decide_ext. rewrite elem_of_cons. naive_solver.
Qed.

Lemma add_types_constructors l r t : constructors (add_types l r) t = constructors r t.
Proof.
  unfold add_types. revert r. induction l as [|a l IH]; intros r; cbn; [done|].
  by rewrite IH, addType_constructors.
Qed.

Lemma add_constructors_known l r :
  (forall e, e ∈ l -> getTypeInfo r e.1 = true) ->
  exists r', add_constructors l r = Some r' /\
    (forall t, getTypeInfo r' t = getTypeInfo r t) /\
    (forall t, constructors r' t = constructors r t ++ registered_for t l).
Proof.
  revert r. induction l as [|[t c] l IH]; intros r Hk.
  - exists r. split_and!; [done..|]. intros t. by rewrite app_nil_r.
  - cbn. unfold add_to_known. rewrite (Hk (t, c) ltac:(by left) : getTypeInfo r t = true). cbn.
    destruct (IH (addConstructor t c r)) as (r' & -> & K & C).
    { intros e He. rewrite addConstructor_known. apply Hk. by right. }
    exists r'. split; [done|]. split; [intros t'; by rewrite K, addConstructor_known|].
    intros t'. rewrite C, addConstructor_constructors. unfold registered_for.
    destruct (decide (t' = t)) as [->|Hne].
    + rewrite decide_True by done. by rewrite <- app_assoc.
    + by rewrite decide_False by congruence.
Qed.

Lemma add_constructors_unknown l r t c :
  (t, c) ∈ l -> getTypeInfo r t = false -> add_constructors l r = None.
Proof.
  revert r. induction l as [|[t0 c0] l IH]; intros r Hin Ht; [by apply elem_of_nil in Hin|].
  cbn. unfold add_to_known. destruct (getTypeInfo r t0) eqn:E; [|done]. cbn.
  apply elem_of_cons in Hin as [[= <- <-]|Hin]; [congruence|].
  apply IH; [done|]. by rewrite addConstructor_known.
Qed.

(** *** Implicit conversions *)

(** The automatic constructors of one argument, with its type. *)
Definition automatic_of (l : list (TypeConstructor key conv)) : list (key * conv) :=
  omap (fun c => match arguments c with
                 | [a] => if automatic c then Some (a, function c) else None
                 | _ => None
                 end) l.

(** The first in a list whose argument takes a value of a type. *)
Definition first_accepting {A} (l : list (key * A)) (from : key) : option A :=
  snd <$> (snd <$> list_find (fun p : key * A => accepts p.1 from) l).

Lemma convert_automatic r t from :
  convert r t from = first_accepting (automatic_of (constructors r t)) from.
Proof.
  rewrite convert_first. unfold first_accepting. induction (constructors r t) as [|c l IH]; [done|].
  assert (forall b : bool, can_convert from c = b ->
            list_find (fun c => can_convert from c) (c :: l) =
              if b then Some (0, c) else prod_map S id <$> list_find (fun c => can_convert from c) l) as E.
  { intros b <-. cbn. destruct (decide (can_convert from c)) as [H|H]; destruct (can_convert from c); done. }
  assert (can_convert from c = match arguments c with [a] => automatic c && accepts a from | _ => false end)
    as Hc by done.
  unfold automatic_of in *. cbn [omap list_omap].
  destruct (arguments c) as [|a [|]]; [rewrite (E _ Hc)| |rewrite (E _ Hc)].
  1,3: rewrite <- IH; by destruct (list_find _ l) as [[]|].
  destruct (automatic c); cbn in Hc; rewrite (E _ Hc); [|rewrite <- IH; by destruct (list_find _ l) as [[]|]].
  destruct (accepts a from) eqn:Ha; cbn.
  - by rewrite decide_True by (rewrite Ha; done).
  - rewrite decide_False by (rewrite Ha; tauto).
    destruct (list_find _ l) as [[]|]; destruct (list_find _ _) as [[]|]; cbn in *; congruence.
Qed.

(** *** What a loader adds

    A loader that adds types, then constructors and factories, is described by what it
    adds; descriptions compose. *)
Record additions := MkAdditions {
  new_types : list key;
  new_constructors : list (key * TypeConstructor key conv);
  new_factories : list key }.
Definition no_additions : additions := MkAdditions [] [] [].
Definition join (a b : additions) : additions :=
  MkAdditions (new_types a ++ new_types b) (new_constructors a ++ new_constructors b)
              (new_factories a ++ new_factories b).

Definition grows (a : additions) r r' : Prop :=
  forall t, getTypeInfo r' t = bool_decide (t ∈ new_types a) || getTypeInfo r t /\
    constructors r' t = constructors r t ++ registered_for t (new_constructors a) /\
    hasMemberFactory r' t = bool_decide (t ∈ new_factories a) || hasMemberFactory r t.

Lemma registered_for_app t (l l' : list (key * TypeConstructor key conv)) :
  registered_for t (l ++ l') = registered_for t l ++ registered_for t l'.
Proof. unfold registered_for. by rewrite filter_app, fmap_app. Qed.

Lemma or_app t (l l' : list key) (b : bool) :
  bool_decide (t ∈ l') || (bool_decide (t ∈ l) || b) = bool_decide (t ∈ l ++ l') || b.
Proof.
  rewrite orb_assoc. f_equal. rewrite <- bool_decide_or. apply bool_decide_ext. rewrite elem_of_app. tauto.
Qed.

Lemma grows_refl r : grows no_additions r r.
Proof. intros t. by rewrite app_nil_r. Qed.

Lemma grows_trans a b r r' r'' : grows a r r' -> grows b r' r'' -> grows (join a b) r r''.
Proof.
  intros Ha Hb t. destruct (Ha t) as (K & C & F), (Hb t) as (K' & C' & F').
  rewrite K', C', F', K, C, F. cbn [new_types new_constructors new_factories join]. by rewrite !or_app, registered_for_app, app_assoc.
Qed.

Lemma grows_addType t r : grows (MkAdditions [t] [] []) r (addType t r).
Proof.
  intros t'. cbn [new_types new_constructors new_factories]. rewrite addType_known, addType_constructors, factory_addType, app_nil_r.
  split_and!; [|done..]. f_equal. apply bool_decide_ext. by rewrite list_elem_of_singleton.
Qed.

Lemma grows_addConstructor t c r : grows (MkAdditions [] [(t, c)] []) r (addConstructor t c r).
Proof.
  intros t'. cbn [new_types new_constructors new_factories]. rewrite addConstructor_known, addConstructor_constructors, factory_addConstructor.
  split_and!; [done| |done]. unfold registered_for. destruct (decide (t' = t)) as [->|Hne].
  - by rewrite filter_cons_True.
  - rewrite filter_cons_False by (cbn; congruence). by rewrite app_nil_r.
Qed.

Lemma grows_install t r : grows no_additions r (PrimitiveTypeInfo_installTypeInfoObject t r).
Proof. intros t'. cbn. by rewrite install_known, install_constructors, factory_install, app_nil_r. Qed.

Lemma grows_setMemberFactory t r : grows (MkAdditions [] [] [t]) r (setMemberFactory t r).
Proof.
  intros t'. cbn [new_types new_constructors new_factories]. rewrite factory_known, factory_constructors, factory_set, app_nil_r.
  split_and!; [done..|]. f_equal. apply bool_decide_ext. by rewrite list_elem_of_singleton.
Qed.

(** What was known stays known. *)
Lemma grows_known a r r' t : grows a r r' -> getTypeInfo r t = true -> getTypeInfo r' t = true.
Proof. intros H Ht. destruct (H t) as (-> & _). by rewrite Ht, orb_true_r. Qed.
Lemma grows_unknown a r r' t :
  grows a r r' -> t ∉ new_types a -> getTypeInfo r t = false -> getTypeInfo r' t = false.
Proof. intros H Hn Ht. destruct (H t) as (-> & _). by rewrite Ht, bool_decide_eq_false_2. Qed.

(** A loader as the sequence of its calls. *)
Inductive step :=
| AddType (t : key)
| AddConstructor (t : key) (c : TypeConstructor key conv)
| Install (t : key)
| SetMemberFactory (t : key).

Definition run_step r (s : step) : Types :=
  match s with
  | AddType t => addType t r
  | AddConstructor t c => addConstructor t c r
  | Install t => PrimitiveTypeInfo_installTypeInfoObject t r
  | SetMemberFactory t => setMemberFactory t r
  end.
Definition run_steps (l : list step) r : Types := fold_left run_step l r.

Definition effect_of (s : step) : additions :=
  match s with
  | AddType t => MkAdditions [t] [] []
  | AddConstructor t c => MkAdditions [] [(t, c)] []
  | Install t => no_additions
  | SetMemberFactory t => MkAdditions [] [] [t]
  end.
Definition effect_of_steps (l : list step) : additions :=
  foldr (fun s a => join (effect_of s) a) no_additions l.

Lemma run_steps_grows l r : grows (effect_of_steps l) r (run_steps l r).
Proof.
  revert r. induction l as [|s l IH]; intros r; [apply grows_refl|].
  apply (grows_trans _ _ _ (run_step r s)); [|apply IH].
  destruct s; [apply grows_addType|apply grows_addConstructor|apply grows_install|apply grows_setMemberFactory].
Qed.

Lemma run_steps_app l l' r : run_steps (l ++ l') r = run_steps l' (run_steps l r).
Proof. apply fold_left_app. Qed.

Lemma run_steps_known l r t : getTypeInfo r t = true -> getTypeInfo (run_steps l r) t = true.
Proof. apply (grows_known _ _ _ _ (run_steps_grows l r)). Qed.
End Registrations.
Arguments step : clear implicits.
Arguments AddType {key conv}.
Arguments AddConstructor {key conv}.
Arguments Install {key conv}.
Arguments SetMemberFactory {key conv}.
Arguments MkAdditions {key conv}.
Arguments new_types {key conv} _.
Arguments new_constructors {key conv} _.
Arguments new_factories {key conv} _.

(** ** The reference repository: what was added, in order *)

Section Reference.
Context {key conv : Type} `{EqDecision key}.
(** The types known from the start, and the implicit conversions. *)
Variable known : key -> bool.
Variable ref_accepts : key -> key -> bool.

Record ref_repository := MkRepository {
  ref_added : list key;
  ref_factories : list key;
  ref_constructors : list (key * TypeConstructor key conv) }.

Definition ref_can_convert (from : key) (c : TypeConstructor key conv) : bool :=
  match arguments c with
  | [a] => automatic c && (bool_decide (a = from) || ref_accepts a from)
  | _ => false
  end.

Definition ref_types : TypeRepository key conv := {|
  Types := ref_repository;
  getTypeInfo r t := bool_decide (t ∈ ref_added r) || known t;
  addType t r := MkRepository (t :: ref_added r) (ref_factories r) (ref_constructors r);
  addConstructor t c r := MkRepository (ref_added r) (ref_factories r) (ref_constructors r ++ [(t, c)]);
  PrimitiveTypeInfo_installTypeInfoObject _ r := r;
  setMemberFactory t r := MkRepository (ref_added r) (t :: ref_factories r) (ref_constructors r);
  hasMemberFactory r t := bool_decide (t ∈ ref_factories r);
  constructors r t := snd <$> filter (fun p => fst p = t) (ref_constructors r);
  accepts a b := bool_decide (a = b) || ref_accepts a b;
  convert r t from :=
    function <$> (snd <$> list_find (fun c => ref_can_convert from c)
                            (snd <$> filter (fun p => fst p = t) (ref_constructors r))) |}.

Lemma ref_types_laws : TypeRepositoryLaws ref_types.
Proof.
  split; try done.
  - intros t c r t'. cbn. rewrite filter_app, fmap_app. cbn. unfold filter. cbn.
    destruct (decide (t = t')) as [->|Hne]; [by rewrite decide_True|].
    rewrite decide_False by congruence. by rewrite app_nil_r.
  - intros t r t'. cbn. rewrite orb_assoc. f_equal. rewrite <- bool_decide_or.
    apply bool_decide_ext. by rewrite elem_of_cons.
  - intros t r t'. cbn. rewrite <- bool_decide_or. apply bool_decide_ext. by rewrite elem_of_cons.
  - intros t. cbn. by rewrite bool_decide_eq_true_2.
Qed.
End Reference.
Arguments MkRepository {key conv}.
