(* ===== verification/Primitives.v ===== *)
(** Package [rtt_ros2_primitives_typekit] ([ros2_primitives_typekit.cpp]): the type
    names of the ROS primitives and the conversions between them.

    Integers are [Z] at the width of their type, [float] and [double] the IEEE 754
    numbers of [Float64]; [static_cast] between them is the language's.

    Most of the C++ types of the typekit have a type info before it is loaded, under
    other names ([int] for [int32_t]) and with constructors of RTT's own. [addType] then
    makes the new name an alias of it, which [NamedTypes] has: a type info is identified
    by its C++ type, and names refer to type infos. *)

From Stdlib Require Import Lia SpecFloat.
From S2P Require Import Prelude Float64 RttTypes.
Local Open Scope string_scope.
Local Open Scope list_scope.
Local Open Scope Z_scope.

(** ** Numbers of C++ *)

Inductive number_type :=
| TFloat | TDouble
| TInt8 | TInt16 | TInt32 | TInt64
| TUInt8 | TUInt16 | TUInt32 | TUInt64.
#[export] Instance number_type_eq_dec : EqDecision number_type.
Proof. solve_decision. Defined.

Inductive number :=
| Real (d : spec_float)
| Whole (z : Z).

(** Signedness and width of an integer type. *)
Definition integer_type (t : number_type) : option (bool * Z) :=
  match t with
  | TFloat | TDouble => None
  | TInt8 => Some (true, 8) | TInt16 => Some (true, 16)
  | TInt32 => Some (true, 32) | TInt64 => Some (true, 64)
  | TUInt8 => Some (false, 8) | TUInt16 => Some (false, 16)
  | TUInt32 => Some (false, 32) | TUInt64 => Some (false, 64)
  end.

Definition lowest (s : bool) (w : Z) : Z := if s then - 2 ^ (w - 1) else 0.
Definition highest (s : bool) (w : Z) : Z := if s then 2 ^ (w - 1) - 1 else 2 ^ w - 1.
Definition wrap (s : bool) (w z : Z) : Z := if s then smod w z else umod w z.

(** The values of a type. *)
Definition has_type (t : number_type) (v : number) : bool :=
  match integer_type t, v with
  | Some (s, w), Whole z => (lowest s w <=? z) && (z <=? highest s w)
  | None, Real d => if decide (t = TFloat) then valid32 d else valid d
  | _, _ => false
  end.

(** [static_cast<R>(t)]; [None] is undefined behaviour. *)
Definition static_cast (R : number_type) (t : number) : option number :=
  match integer_type R, t with
  | Some (s, w), Whole z => Some (Whole (wrap s w z))
  | Some (s, w), Real d =>
      z ← truncate d;
      if (lowest s w <=? z) && (z <=? highest s w) then Some (Whole z) else None
  | None, Whole z => Some (Real (if decide (R = TFloat) then float_of_int z else of_int z))
  | None, Real d => Some (Real (if decide (R = TFloat) then to_float d else to_double d))
  end.

(* [typekits/rtt_ros2_primitives_typekit/src/typekit/ros2_primitives_typekit.cpp:86-87] convert *)
Definition convert_number (R : number_type) (t : number) : option number := static_cast R t.

(** ** Strings of a given length *)

Inductive string_error := length_error.

Section Strings.
(** [std::basic_string<CharT>::max_size()] *)
Variable max_size : Z.

(** [size] characters with the value [CharT()], zero; [size] is an [int]. *)
(* [typekits/rtt_ros2_primitives_typekit/src/typekit/ros2_primitives_typekit.cpp:89-98] string_ctor *)
Definition string_ctor (size : Z) : outcome string_error (list Z) :=
  let n := umod 64 size in
  if decide (n <= max_size) then Ok (replicate (Z.to_nat n) 0) else Throw length_error.
End Strings.

(** ** The types of RTT, under their names *)

(** The C++ types of the typekit. *)
Inductive primitive := Number (t : number_type) | Bool | StdString | U16String.
Inductive cxx_primitive := Single (p : primitive) | Vector (p : primitive) | CArray (p : primitive).
#[export] Instance primitive_eq_dec : EqDecision primitive.
Proof. solve_decision. Defined.
#[export] Instance cxx_primitive_eq_dec : EqDecision cxx_primitive.
Proof. solve_decision. Defined.
Abbreviation SingleNumber t := (Single (Number t)).

(** The functions of constructors: those of this typekit, and any other. *)
Inductive primitive_conversion :=
| Convert (T R : number_type)
| StringCtor (wide : bool)
| OtherFunction (id : nat).
#[export] Instance primitive_conversion_eq_dec : EqDecision primitive_conversion.
Proof. solve_decision. Defined.

Abbreviation constructor := (TypeConstructor cxx_primitive primitive_conversion).

(** RTT's type repository with one type info for a C++ type, which may have several
    names. [accepts r a b]: an argument of type [a] takes a value of type [b], for which
    RTT may use the conversions there are. *)
Class NamedTypes := {
  Types : Type;
  type_named : Types -> string -> option cxx_primitive;
  constructors : Types -> cxx_primitive -> list constructor;
  addType : cxx_primitive -> string -> Types -> Types;
  addConstructor : cxx_primitive -> constructor -> Types -> Types;
  accepts : Types -> cxx_primitive -> cxx_primitive -> bool;
  (** the constructor of the first type that an implicit conversion from the second uses *)
  convert : Types -> cxx_primitive -> cxx_primitive -> option primitive_conversion }.

Definition can_convert `{NT : NamedTypes} (r : Types) (from : cxx_primitive) (c : constructor) : bool :=
  match arguments c with
  | [a] => automatic c && accepts r a from
  | _ => false
  end.

(** A name that is free, or belongs to the C++ type already, refers to its type info
    after [addType]; the constructors that type info had stay. (Sequences get
    constructors when they are added, other types do not.) *)
Class NamedTypesLaws (NT : NamedTypes) := {
  addType_name T n r : type_named r n = None \/ type_named r n = Some T ->
    type_named (addType T n r) n = Some T;
  addType_other T n r n' : n' <> n -> type_named (addType T n r) n' = type_named r n';
  addType_constructors T n r p : constructors (addType T n r) (Single p) = constructors r (Single p);
  addConstructor_names T c r n : type_named (addConstructor T c r) n = type_named r n;
  addConstructor_constructors T c r T' :
    constructors (addConstructor T c r) T' =
      if decide (T' = T) then constructors r T ++ [c] else constructors r T';
  convert_first r T from :
    convert r T from = function <$> (snd <$> list_find (fun c => can_convert r from c) (constructors r T));
  accepts_same r T : accepts r T T = true }.

(** ** The plugin *)

(** The name under which the typekit reaches a number type, and that type. *)
Definition type_name (t : number_type) : string :=
  match t with
  | TFloat => "float" | TDouble => "double"
  | TInt8 => "int8" | TInt16 => "int16" | TInt32 => "int32" | TInt64 => "int64"
  | TUInt8 => "uint8" | TUInt16 => "uint16" | TUInt32 => "uint32" | TUInt64 => "uint64"
  end.

Abbreviation registration := (string * constructor)%type.

(** [ti->type(name)->addConstructor(newConstructor(&convert<T, R>, automatic))] for a
    list of [T] and [automatic]. *)
Definition convert_to (name : string) (R : number_type) (l : list (number_type * bool)) : list registration :=
  (fun '(T, automatic) => (name, newConstructor (Convert T R) [SingleNumber T] automatic)) <$> l.

(** The types in the order of their registration: [StdTypeInfo] and
    [StdBasicStringTypeInfo] for a single value, [SequenceTypeInfo], [CArrayTypeInfo]. *)
(* [typekits/rtt_ros2_primitives_typekit/src/typekit/ros2_primitives_typekit.cpp:105-150] loadTypes *)
Definition primitive_types : list (cxx_primitive * string) :=
  [(SingleNumber TFloat, "float32"); (Vector (Number TFloat), "float32[]"); (CArray (Number TFloat), "float32[c]");
   (SingleNumber TDouble, "float64"); (Vector (Number TDouble), "float64[]"); (CArray (Number TDouble), "float64[c]");
   (Vector Bool, "bool[]"); (CArray Bool, "bool[c]");
   (SingleNumber TInt8, "int8"); (Vector (Number TInt8), "int8[]"); (CArray (Number TInt8), "int8[c]");
   (SingleNumber TUInt8, "uint8"); (Vector (Number TUInt8), "uint8[]"); (CArray (Number TUInt8), "uint8[c]");
   (SingleNumber TInt16, "int16"); (Vector (Number TInt16), "int16[]"); (CArray (Number TInt16), "int16[c]");
   (SingleNumber TUInt16, "uint16"); (Vector (Number TUInt16), "uint16[]"); (CArray (Number TUInt16), "uint16[c]");
   (SingleNumber TInt32, "int32"); (Vector (Number TInt32), "int32[]"); (CArray (Number TInt32), "int32[c]");
   (SingleNumber TUInt32, "uint32"); (Vector (Number TUInt32), "uint32[]"); (CArray (Number TUInt32), "uint32[c]");
   (SingleNumber TInt64, "int64"); (Vector (Number TInt64), "int64[]"); (CArray (Number TInt64), "int64[c]");
   (SingleNumber TUInt64, "uint64"); (Vector (Number TUInt64), "uint64[]"); (CArray (Number TUInt64), "uint64[c]");
   (Vector StdString, "string[]"); (CArray StdString, "string[c]");
   (Single U16String, "wstring"); (Vector U16String, "wstring[]"); (CArray U16String, "wstring[c]")].

(** The constructors in the order of their registration. *)
(* [typekits/rtt_ros2_primitives_typekit/src/typekit/ros2_primitives_typekit.cpp:153-256] loadConstructors *)
Definition primitive_constructors : list registration :=
  convert_to "float" TFloat [(TDouble, false); (TInt8, false); (TInt16, false); (TInt32, false);
    (TInt64, false); (TUInt8, false); (TUInt16, false); (TUInt32, false); (TUInt64, false)] ++
  convert_to "double" TDouble [(TFloat, true); (TInt8, false); (TInt16, false); (TInt32, false);
    (TInt64, false); (TUInt8, false); (TUInt16, false); (TUInt32, false); (TUInt64, false)] ++
  convert_to "int8" TInt8 [(TInt16, false); (TInt32, false); (TInt64, false); (TUInt8, false);
    (TUInt16, false); (TUInt32, false); (TUInt64, false)] ++
  convert_to "uint8" TUInt8 [(TInt8, false); (TInt16, false); (TInt32, false); (TInt64, false);
    (TUInt16, false); (TUInt32, false); (TUInt64, false)] ++
  convert_to "int16" TInt16 [(TUInt8, true); (TUInt16, false); (TUInt32, false); (TUInt64, false);
    (TInt8, true); (TInt32, false); (TInt64, false)] ++
  convert_to "uint16" TUInt16 [(TInt8, false); (TInt16, false); (TInt32, false); (TInt64, false);
    (TUInt8, true); (TUInt32, false); (TUInt64, false)] ++
  convert_to "int32" TInt32 [(TUInt8, true); (TUInt16, true); (TUInt32, false); (TUInt64, false);
    (TInt8, true); (TInt16, true); (TInt64, false)] ++
  convert_to "uint32" TUInt32 [(TInt8, false); (TInt16, false); (TInt32, false); (TInt64, false);
    (TUInt8, true); (TUInt16, true); (TUInt64, false)] ++
  convert_to "int64" TInt64 [(TUInt8, true); (TUInt16, true); (TUInt32, true); (TUInt64, false);
    (TInt8, true); (TInt16, true); (TInt32, true)] ++
  convert_to "uint64" TUInt64 [(TInt8, false); (TInt16, false); (TInt32, false); (TInt64, false);
    (TUInt8, true); (TUInt16, true); (TUInt32, true)] ++
  [("string", newConstructor (StringCtor false) [SingleNumber TInt32] false);
   ("wstring", newConstructor (StringCtor true) [SingleNumber TInt32] false)].

Section Plugin.
Context `{NT : NamedTypes}.

(* [typekits/rtt_ros2_primitives_typekit/src/typekit/ros2_primitives_typekit.cpp:105-150] loadTypes *)
Definition primitives_loadTypes (r : Types) : bool * Types :=
  (true, fold_left (fun r '(T, name) => addType T name r) primitive_types r).

(** [ti->type(name)->addConstructor(c)] for each registration; [None]: the name is
    unknown, and a null pointer is dereferenced. *)
Fixpoint add_constructors (l : list registration) (r : Types) : option Types :=
  match l with
  | [] => Some r
  | (name, c) :: l => T ← type_named r name; add_constructors l (addConstructor T c r)
  end.

(* [typekits/rtt_ros2_primitives_typekit/src/typekit/ros2_primitives_typekit.cpp:153-256] loadConstructors *)
Definition primitives_loadConstructors (r : Types) : option (bool * Types) :=
  r ← add_constructors primitive_constructors r; Some (true, r).

(** RTT loads a typekit in this order; [None] is a crash. *)
Definition load_primitives (r : Types) : option Types :=
  snd <$> primitives_loadConstructors (primitives_loadTypes r).2.
End Plugin.

(** ** Conversions keep types, implicit ones keep values *)

Definition is_integer (t : number_type) : bool := bool_decide (is_Some (integer_type t)).

Lemma integer_width (t : number_type) s w : integer_type t = Some (s, w) -> 0 < w.
Proof. by destruct t; intros [= <- <-]. Qed.

Lemma wrap_range (s : bool) (w z : Z) :
  0 < w -> (lowest s w <=? wrap s w z) && (wrap s w z <=? highest s w) = true.
Proof.
  intros Hw. rewrite andb_true_iff, !Z.leb_le. destruct s; cbn.
  - pose proof (smod_in_s w z Hw). unfold in_s in *. lia.
  - pose proof (umod_in_u w z ltac:(lia)). unfold in_u in *. lia.
Qed.

Lemma wrap_id (s : bool) (w z : Z) :
  0 < w -> (lowest s w <=? z) && (z <=? highest s w) = true -> wrap s w z = z.
Proof.
  intros Hw. rewrite andb_true_iff, !Z.leb_le. destruct s; cbn; intros Hz.
  - apply smod_id; [done|]. unfold in_s. lia.
  - apply umod_id. unfold in_u. lia.
Qed.

(** A cast keeps typing unless it goes from a real to an integer type. *)
Lemma static_cast_typed (T R : number_type) (v : number) :
  implb (is_integer R) (is_integer T) = true -> has_type T v = true ->
  exists v', static_cast R v = Some v' /\ has_type R v' = true.
Proof.
  unfold is_integer, has_type, static_cast. intros Hi Hv.
  destruct (integer_type R) as [[s' w']|] eqn:ER.
  - destruct (integer_type T) as [[s w]|]; [|done]. destruct v as [d|z]; [done|].
    eexists. split; [done|]. apply wrap_range. by apply (integer_width R s').
  - destruct v as [d|z]; eexists; (split; [done|]); cbn; destruct (decide (R = TFloat)).
    + apply to_float_valid.
    + apply to_double_valid.
    + apply binary_normalize_valid.
    + apply binary_normalize_valid.
Qed.

(** The range of one integer type is contained in that of another. *)
Definition range_within (T R : number_type) : bool :=
  match integer_type T, integer_type R with
  | Some (s, w), Some (s', w') => (lowest s' w' <=? lowest s w) && (highest s w <=? highest s' w')
  | _, _ => false
  end.

Lemma range_within_lossless (T R : number_type) :
  is_integer T = true -> is_integer R = true ->
  range_within T R = true <-> (forall v, has_type T v = true -> static_cast R v = Some v).
Proof.
  unfold is_integer, range_within, has_type, static_cast. intros HT HR.
  destruct (integer_type T) as [[s w]|] eqn:ET; [|done].
  destruct (integer_type R) as [[s' w']|] eqn:ER; [|done].
  pose proof (integer_width T s w ET) as Hw. pose proof (integer_width R s' w' ER) as Hw'.
  assert (lowest s w <= highest s w) as Hne
    by (pose proof (Z.pow_pos_nonneg 2 (w - 1)); pose proof (Z.pow_pos_nonneg 2 w); destruct s; cbn; lia).
  rewrite andb_true_iff, !Z.leb_le. split.
  - intros Hin [d|z] Hz; [done|]. rewrite wrap_id; [done|done|].
    rewrite andb_true_iff, !Z.leb_le in *. lia.
  - intros Hall.
    assert (forall z, lowest s w <= z <= highest s w -> lowest s' w' <= z <= highest s' w') as Hz.
    { intros z Hz. pose proof (wrap_range s' w' z Hw') as Hr.
      assert (wrap s' w' z = z) as Hid by
        (specialize (Hall (Whole z) ltac:(rewrite andb_true_iff, !Z.leb_le; lia)); by injection Hall).
      rewrite Hid, andb_true_iff, !Z.leb_le in Hr. done. }
    pose proof (Hz (lowest s w)). pose proof (Hz (highest s w)). lia.
Qed.

(** The registered conversion is into the type it is registered for, from a type that
    is an integer if the target is; it is automatic only from [float] to [double] or
    between integers without loss. *)
Definition registration_ok (e : registration) : bool :=
  match function e.2 with
  | Convert T R =>
      bool_decide (e.1 = type_name R /\ arguments e.2 = [SingleNumber T]) && implb (is_integer R) (is_integer T) &&
      implb (automatic e.2) (range_within T R || bool_decide (T = TFloat /\ R = TDouble))
  | StringCtor _ => negb (automatic e.2)
  | OtherFunction _ => false
  end.

Lemma registrations_ok : forallb registration_ok primitive_constructors = true.
Proof. vm_compute. reflexivity. Qed.

(** C24 -- Every conversion between primitive types that the typekit registers turns a value of its source type into a value of its target type: no conversion from a floating-point to an integer type is registered, so no cast is undefined. An automatic conversion, which RTT applies without being asked, keeps the value: between integer types it is unchanged, and from float to double the value can be cast back to what it was. *)
Theorem conversions_well_typed (name : string) (T R : number_type) (auto : bool) (v : number) :
  (name, newConstructor (Convert T R) [SingleNumber T] auto) ∈ primitive_constructors ->
  has_type T v = true ->
  exists v', convert_number R v = Some v' /\ has_type R v' = true /\
    (auto = true -> static_cast T v' = Some v /\ (is_integer T = true -> v' = v)).
Proof.
  intros Hin Hv. pose proof registrations_ok as Hok. rewrite forallb_forall in Hok.
  specialize (Hok _ (proj1 (list_elem_of_In _ _) Hin)). cbn in Hok.
  rewrite !andb_true_iff in Hok. destruct Hok as [[_ Hi] Ha].
  destruct (static_cast_typed T R v Hi Hv) as (v' & Hc & Ht). exists v'. split; [done|]. split; [done|].
  intros ->. cbn in Ha. apply orb_true_iff in Ha as [Hr|[-> ->]%bool_decide_eq_true].
  - assert (is_integer T = true /\ is_integer R = true) as [IT IR].
    { clear -Hr. by destruct T, R. }
    assert (v' = v) as ->.
    { pose proof (proj1 (range_within_lossless T R IT IR) Hr v Hv). congruence. }
    split; [|done]. apply (range_within_lossless T T); try done.
    clear -IT. by destruct T.
  - split; [|done]. unfold has_type in Hv. cbn in Hv. destruct v as [d|]; [|done].
    injection Hc as <-. cbn. by rewrite to_float_to_double.
Qed.

(** ** Which conversions RTT applies implicitly *)

(** Every value of the first type is one of the second. *)
Definition lossless (T R : number_type) : Prop :=
  forall v, has_type T v = true -> static_cast R v = Some v.

Lemma lossless_spec T R : is_integer T = true -> is_integer R = true ->
  range_within T R = true <-> lossless T R.
Proof. apply range_within_lossless. Qed.

Definition the_conversion (T R : number_type) : constructor := newConstructor (Convert T R) [SingleNumber T] true.

(** The constructors of a number type that the typekit adds, in order. *)
Definition added (R : number_type) : list constructor :=
  snd <$> filter (fun e => e.1 = type_name R) primitive_constructors.

(** Whether an implicit conversion from [T] may use a constructor, if arguments take no
    values that do not fit. *)
Definition may_convert (T : number_type) (c : constructor) : bool :=
  automatic c && match arguments c with
                 | [Single (Number T')] => bool_decide (T' = T) || range_within T T'
                 | _ => false
                 end.

Definition integer_types : list number_type :=
  [TInt8; TInt16; TInt32; TInt64; TUInt8; TUInt16; TUInt32; TUInt64].

Lemma integer_types_elem (T : number_type) : is_integer T = true -> In T integer_types.
Proof. intros HT. destruct T; try done; cbn; auto 10. Qed.

Lemma for_integer_pairs (P : number_type -> number_type -> Prop) `{forall T R, Decision (P T R)} T R :
  forallb (fun T => forallb (fun R => bool_decide (T = R) || bool_decide (P T R)) integer_types)
    integer_types = true ->
  is_integer T = true -> is_integer R = true -> T <> R -> P T R.
Proof.
  intros Hall HT HR Hne. rewrite forallb_forall in Hall.
  specialize (Hall T (integer_types_elem T HT)). rewrite forallb_forall in Hall.
  specialize (Hall R (integer_types_elem R HR)).
  rewrite orb_true_iff, !bool_decide_eq_true in Hall. by destruct Hall.
Qed.

(** Of every pair of different integer types, the conversion is automatic exactly if
    it keeps all values, and then none before it in the list is in its way. *)
Lemma added_automatic T R : is_integer T = true -> is_integer R = true -> T <> R ->
  (the_conversion T R ∈ added R <-> range_within T R = true).
Proof.
  apply (for_integer_pairs (fun T R => the_conversion T R ∈ added R <-> range_within T R = true)).
  vm_compute. reflexivity.
Qed.

Definition first_option (T R : number_type) : option constructor :=
  snd <$> list_find (fun c => may_convert T c) (added R).

Lemma first_that_may_convert T R : is_integer T = true -> is_integer R = true -> T <> R ->
  first_option T R = if range_within T R then Some (the_conversion T R) else None.
Proof.
  refine (for_integer_pairs (fun T R => first_option T R =
    if range_within T R then Some (the_conversion T R) else None)
    (H := fun T R => option_eq_dec _ _) T R _). vm_compute. reflexivity.
Qed.

Lemma added_lossless R c : is_integer R = true -> c ∈ added R -> automatic c = true ->
  exists T, c = the_conversion T R /\ is_integer T = true /\ range_within T R = true.
Proof.
  intros HR Hc Ha.
  assert (forallb (fun R => forallb (fun c : constructor => implb (automatic c)
      (existsb (fun T => bool_decide (c = the_conversion T R) && range_within T R) integer_types)) (added R))
      integer_types = true) as H by (vm_compute; reflexivity).
  rewrite forallb_forall in H. specialize (H R (integer_types_elem R HR)).
  rewrite forallb_forall in H. specialize (H c (proj1 (list_elem_of_In _ _) Hc)).
  rewrite Ha in H. cbn [implb] in H. apply existsb_exists in H as (T & HT & [E%bool_decide_eq_true Hr]%andb_true_iff).
  exists T. split_and!; [done| |done]. clear -Hr. by destruct T, R.
Qed.

(** *** Loading *)

(** The names the typekit needs to find, and all it uses, with their types. *)
Definition needed_types : list (cxx_primitive * string) :=
  [(SingleNumber TFloat, "float"); (SingleNumber TDouble, "double"); (Single StdString, "string")].
Definition used_types : list (cxx_primitive * string) := needed_types ++ primitive_types.
Definition type_used (n : string) : cxx_primitive :=
  default (Single Bool) (fst <$> (snd <$> list_find (fun e => e.2 = n) used_types)).

Lemma used_names_nodup : NoDup (used_types.*2).
Proof. apply (bool_decide_unpack _). vm_compute. exact I. Qed.

Lemma type_used_spec T n : (T, n) ∈ used_types -> type_used n = T.
Proof.
  revert T n. assert (Forall (fun e => type_used e.2 = e.1) used_types) as H.
  { apply (bool_decide_unpack _). vm_compute. exact I. }
  intros T n Hin. rewrite Forall_forall in H. exact (H _ Hin).
Qed.

Lemma registrations_known e : e ∈ primitive_constructors -> (type_used e.1, e.1) ∈ used_types.
Proof.
  revert e. apply Forall_forall. apply (bool_decide_unpack _). vm_compute. exact I.
Qed.

Lemma added_for R : added R = snd <$> filter (fun e => type_used e.1 = SingleNumber R) primitive_constructors.
Proof. destruct R; vm_compute; reflexivity. Qed.

Section Loading.
Context {NT : NamedTypes} {NTL : NamedTypesLaws NT}.

Abbreviation add_names := (fold_left (fun r '(T, name) => addType T name r)).

Lemma add_names_other l r n : n ∉ l.*2 -> type_named (add_names l r) n = type_named r n.
Proof.
  revert r. induction l as [|[T m] l IH]; intros r Hn; [done|]. cbn in *.
  apply not_elem_of_cons in Hn as [Hne Hn]. rewrite IH by done. by apply addType_other.
Qed.

Lemma add_names_constructors l r p : constructors (add_names l r) (Single p) = constructors r (Single p).
Proof. revert r. induction l as [|[T m] l IH]; intros r; [done|]. cbn. by rewrite IH, addType_constructors. Qed.

Lemma add_names_names l r : NoDup (l.*2) ->
  (forall T n, (T, n) ∈ l -> type_named r n = None \/ type_named r n = Some T) ->
  forall T n, (T, n) ∈ l -> type_named (add_names l r) n = Some T.
Proof.
  revert r. induction l as [|[T m] l IH]; intros r Hd Hr T' n Hin; [by apply elem_of_nil in Hin|].
  cbn in Hd |- *. apply NoDup_cons in Hd as [Hm Hd]. apply elem_of_cons in Hin as [[= -> ->]|Hin].
  - rewrite add_names_other by done. apply addType_name, Hr. by left.
  - apply IH; [done| |done]. intros T2 n2 H2. rewrite addType_other; [apply Hr; by right|].
    intros ->. apply Hm. by apply (list_elem_of_fmap_2 snd _ (T2, m)).
Qed.

Lemma add_constructors_spec (type_of : string -> cxx_primitive) l r :
  (forall e, e ∈ l -> type_named r e.1 = Some (type_of e.1)) ->
  exists r', add_constructors l r = Some r' /\ (forall n, type_named r' n = type_named r n) /\
    forall T, constructors r' T = constructors r T ++ (snd <$> filter (fun e => type_of e.1 = T) l).
Proof.
  revert r. induction l as [|[n c] l IH]; intros r Hk.
  - exists r. split_and!; [done..|]. intros T. by rewrite app_nil_r.
  - cbn [add_constructors]. rewrite (Hk (n, c) ltac:(by left) : type_named r n = _).
    destruct (IH (addConstructor (type_of n) c r)) as (r' & E & K & C).
    { intros e He. rewrite addConstructor_names. apply Hk. by right. }
    exists r'. split; [exact E|]. split; [intros m; by rewrite K, addConstructor_names|].
    intros T. rewrite C, addConstructor_constructors. destruct (decide (T = type_of n)) as [->|Hne].
    + by rewrite filter_cons_True, <- app_assoc.
    + by rewrite filter_cons_False by (cbn; congruence).
Qed.

Lemma add_constructors_crash l r n c :
  (n, c) ∈ l -> type_named r n = None -> add_constructors l r = None.
Proof.
  revert r. induction l as [|[m c0] l IH]; intros r Hin Hn; [by apply elem_of_nil in Hin|].
  cbn. destruct (type_named r m) as [T|] eqn:E; [|done]. cbn.
  apply elem_of_cons in Hin as [[= <- <-]|Hin]; [congruence|].
  apply IH; [done|]. by rewrite addConstructor_names.
Qed.

(** The three names are known, for their types, and no name of the typekit belongs to
    another C++ type than its own. *)
Definition names_fit (r : Types) : Prop :=
  (forall T n, (T, n) ∈ needed_types -> type_named r n = Some T) /\
  (forall T n, (T, n) ∈ primitive_types -> type_named r n = None \/ type_named r n = Some T).

Lemma load_primitives_spec r : names_fit r ->
  exists r', load_primitives r = Some r' /\
    (forall T n, (T, n) ∈ primitive_types -> type_named r' n = Some T) /\
    (forall n, n ∉ primitive_types.*2 -> type_named r' n = type_named r n) /\
    (forall R, constructors r' (SingleNumber R) = constructors r (SingleNumber R) ++ added R).
Proof.
  intros [Hneed Hown]. unfold load_primitives, primitives_loadTypes, primitives_loadConstructors. cbn [snd].
  pose proof used_names_nodup as Hd. unfold used_types in Hd. rewrite fmap_app in Hd.
  apply NoDup_app in Hd as (_ & Hdisj & Hd).
  set (r1 := add_names primitive_types r).
  assert (forall T n, (T, n) ∈ primitive_types -> type_named r1 n = Some T) as Hp
    by (by apply add_names_names).
  assert (forall n, n ∉ primitive_types.*2 -> type_named r1 n = type_named r n) as Ho
    by (intros n Hn; by apply add_names_other).
  destruct (add_constructors_spec type_used primitive_constructors r1) as (r' & -> & K & C).
  { intros e [He|He]%registrations_known%elem_of_app; [|by apply Hp].
    rewrite Ho; [by apply Hneed|]. apply Hdisj. by apply (list_elem_of_fmap_2 snd _ _ He). }
  exists r'. split; [done|]. split_and!.
  - intros T n H. rewrite K. by apply Hp.
  - intros n H. rewrite K. by apply Ho.
  - intros R. rewrite C, <- added_for. unfold r1. by rewrite add_names_constructors.
Qed.

(** *** The constructor that is used *)

Section Convert.
Variables (r : Types) (before : list constructor) (T R : number_type).
Hypothesis constructors_are : constructors r (SingleNumber R) = before ++ added R.

Lemma convert_before c :
  c ∈ before -> can_convert r (SingleNumber T) c = true ->
  convert r (SingleNumber R) (SingleNumber T) =
    function <$> (snd <$> list_find (fun c => can_convert r (SingleNumber T) c) before).
Proof.
  intros Hc Hcan. rewrite convert_first, constructors_are.
  destruct (list_find _ before) as [[i x]|] eqn:E.
  - by rewrite (list_find_app_l _ _ _ _ _ E).
  - apply list_find_None in E. rewrite Forall_forall in E. destruct (E c Hc). by rewrite Hcan.
Qed.

Hypothesis none_before : forall c, c ∈ before -> can_convert r (SingleNumber T) c = false.

Lemma convert_added :
  convert r (SingleNumber R) (SingleNumber T) =
    function <$> (snd <$> list_find (fun c => can_convert r (SingleNumber T) c) (added R)).
Proof.
  rewrite convert_first, constructors_are, list_find_app_r.
  - by destruct (list_find _ (added R)) as [[]|].
  - apply list_find_None, Forall_forall. intros c Hc. rewrite none_before by done. by intros [].
Qed.

Hypothesis integers : is_integer T = true /\ is_integer R = true /\ T <> R.

Lemma converts_by f : convert r (SingleNumber R) (SingleNumber T) = Some f ->
  exists T', f = Convert T' R /\ is_integer T' = true /\
    accepts r (SingleNumber T') (SingleNumber T) = true /\ lossless T' R.
Proof.
  rewrite convert_added. destruct (list_find _ _) as [[i c]|] eqn:E; [|done]. intros [= <-].
  apply list_find_Some in E as (Hi & Hc & _). apply list_elem_of_lookup_2 in Hi.
  destruct integers as (HT & HR & _). apply Is_true_true in Hc.
  destruct (added_lossless R c HR Hi) as (T' & -> & HT' & Hr).
  { unfold can_convert in Hc. destruct (arguments c) as [|? []]; try done.
    by apply andb_true_iff in Hc as [? _]. }
  exists T'. split_and!; [done..|]. by apply lossless_spec.
Qed.

(** If arguments take no values that do not fit, the direct conversion is used. *)
Lemma converts_directly :
  (forall T', is_integer T' = true -> accepts r (SingleNumber T') (SingleNumber T) = true ->
     T' = T \/ lossless T T') ->
  convert r (SingleNumber R) (SingleNumber T) = if range_within T R then Some (Convert T R) else None.
Proof.
  intros Hacc. rewrite convert_added. destruct integers as (HT & HR & Hne).
  pose proof (first_that_may_convert T R HT HR Hne) as Hf. unfold first_option in Hf.
  assert (forall c, c ∈ added R -> can_convert r (SingleNumber T) c = true -> may_convert T c = true) as Hmay.
  { intros c Hin Hc. destruct (automatic c) eqn:Ha;
      [|unfold can_convert in Hc; rewrite Ha in Hc; by destruct (arguments c) as [|? []]].
    destruct (added_lossless R c HR Hin Ha) as (T' & -> & HT' & _). unfold can_convert in Hc. cbn in Hc.
    unfold may_convert. cbn. rewrite orb_true_iff, bool_decide_eq_true.
    destruct (Hacc T' HT' Hc) as [?|?]; [by left|right]. by apply lossless_spec. }
  destruct (list_find (fun c => may_convert T c) (added R)) as [[i c]|] eqn:E; cbn in Hf.
  - destruct (range_within T R); [|done]. injection Hf as ->.
    apply list_find_Some in E as (Hi & _ & Hj).
    rewrite (proj2 (list_find_Some (fun c => can_convert r (SingleNumber T) c) (added R) i (the_conversion T R)));
      [done|]. split_and!; [done| |].
    + unfold can_convert. cbn. by rewrite accepts_same.
    + intros j c' Hc' Hlt Hcan. apply (Hj j c' Hc' Hlt). apply Is_true_true, Hmay; [by eapply list_elem_of_lookup_2|].
      by apply Is_true_true.
  - destruct (range_within T R); [done|]. apply list_find_None in E. rewrite Forall_forall in E.
    rewrite (proj2 (list_find_None _ _)); [done|]. apply Forall_forall. intros c Hc Hcan.
    apply (E c Hc). apply Is_true_true, Hmay; [done|]. by apply Is_true_true.
Qed.
End Convert.

(** C25 -- What loading the primitives typekit adds to a repository, whatever constructors its types have before, if it knows float, double and string and none of the new names belongs to another C++ type. The names refer to the type info of their C++ type, which may have other names (int32_t is known as int), and every type keeps its constructors, followed by those of the typekit. Between different integer types, an added conversion is automatic exactly if no value is lost. Constructors from before that take the source type have precedence; without them, every implicit conversion between integer types is by one that loses no value, from a type whose argument takes the value; and if arguments take no values that do not fit, RTT converts one integer type to another exactly if no value is lost, by the cast between the two. Without one of the three types, loading dereferences a null pointer. *)
Theorem implicit_iff_lossless (r : Types) :
  (names_fit r ->
   exists r', load_primitives r = Some r' /\
     (forall T n, (T, n) ∈ primitive_types -> type_named r' n = Some T) /\
     (forall n, n ∉ primitive_types.*2 -> type_named r' n = type_named r n) /\
     (forall R, constructors r' (SingleNumber R) = constructors r (SingleNumber R) ++ added R) /\
     forall T R, is_integer T = true -> is_integer R = true -> T <> R ->
       (the_conversion T R ∈ added R <-> lossless T R) /\
       ((exists c, c ∈ constructors r (SingleNumber R) /\ can_convert r' (SingleNumber T) c = true) ->
        convert r' (SingleNumber R) (SingleNumber T) =
          function <$> (snd <$> list_find (fun c => can_convert r' (SingleNumber T) c) (constructors r (SingleNumber R)))) /\
       ((forall c, c ∈ constructors r (SingleNumber R) -> can_convert r' (SingleNumber T) c = false) ->
        (forall f, convert r' (SingleNumber R) (SingleNumber T) = Some f ->
         exists T', f = Convert T' R /\ is_integer T' = true /\
           accepts r' (SingleNumber T') (SingleNumber T) = true /\ lossless T' R) /\
        ((forall T', is_integer T' = true -> accepts r' (SingleNumber T') (SingleNumber T) = true ->
            T' = T \/ lossless T T') ->
         (lossless T R <-> convert r' (SingleNumber R) (SingleNumber T) = Some (Convert T R)) /\
         (lossless T R \/ convert r' (SingleNumber R) (SingleNumber T) = None)))) /\
  (forall n, n ∈ needed_types.*2 -> type_named r n = None -> load_primitives r = None).
Proof.
  split.
  - intros Hfit. destruct (load_primitives_spec r Hfit) as (r' & Hl & Hp & Ho & Hc).
    exists r'. split_and!; [done..|]. intros T R HT HR Hne. split_and!.
    + rewrite added_automatic by done. by apply lossless_spec.
    + intros (c & Hin & Hcan). by eapply convert_before.
    + intros Hnone. split; [intros f; by eapply converts_by|]. intros Hacc.
      rewrite (converts_directly r' _ T R (Hc R) Hnone (conj HT (conj HR Hne)) Hacc).
      pose proof (lossless_spec T R HT HR) as Hr.
      destruct (range_within T R); [split; [tauto|left; tauto]|].
      split; [|by right]. rewrite <- Hr. split; [done|by intros [=]].
  - intros n Hn Hu. unfold load_primitives, primitives_loadTypes, primitives_loadConstructors. cbn [snd].
    assert (exists c, (n, c) ∈ primitive_constructors) as [c Hc].
    { assert (n ∈ primitive_constructors.*1) as ([m c] & -> & H)%list_elem_of_fmap; [|by exists c].
      revert n Hn Hu. intros n Hn _. revert n Hn. apply Forall_forall.
      apply (bool_decide_unpack _). vm_compute. exact I. }
    rewrite (add_constructors_crash _ _ n c Hc); [done|]. rewrite add_names_other; [done|].
    pose proof used_names_nodup as Hd. unfold used_types in Hd. rewrite fmap_app in Hd.
    apply NoDup_app in Hd as (_ & Hdisj & _). by apply Hdisj.
Qed.
End Loading.

(** A string constructed from a size has that many zero characters. A negative size
    becomes a number no string can have and is refused by the string class. *)
Lemma string_ctor_spec (max_size size : Z) :
  2 ^ 31 <= max_size < 2 ^ 63 -> in_s 32 size ->
  string_ctor max_size size =
    if decide (0 <= size) then Ok (replicate (Z.to_nat size) 0) else Throw length_error.
Proof.
  unfold in_s, string_ctor. intros Hm Hs. cbn zeta. destruct (decide (0 <= size)) as [H0|H0].
  - rewrite umod_id by (unfold in_u; lia). by rewrite decide_True by lia.
  - assert (umod 64 size = size + 2 ^ 64) as ->.
    { unfold umod. rewrite <- (Z.mod_add size 1) by lia. rewrite Z.mod_small; lia. }
    by rewrite decide_False by lia.
Qed.

(** ** The theorems at work *)

Module Witnesses.

Lemma conversions_well_typed_witness :
  exists v', convert_number TInt8 (Whole 200) = Some v' /\ has_type TInt8 v' = true /\
             v' = Whole (-56).
Proof.
  destruct (conversions_well_typed "int8" TUInt8 TInt8 false (Whole 200)) as (v' & E & H & _).
  - apply list_elem_of_In. vm_compute. tauto.
  - reflexivity.
  - exists v'. split; [exact E|]. split; [exact H|]. injection E as <-. reflexivity.
Defined.

(** A reference repository: names, and constructors in the order they were added; an
    argument takes values of its own type only. *)
Record ref_repository := MkTypes {
  ref_names : gmap string cxx_primitive;
  ref_constructors : list (cxx_primitive * constructor) }.

Definition ref_can_convert (from : cxx_primitive) (c : constructor) : bool :=
  match arguments c with
  | [a] => automatic c && bool_decide (a = from)
  | _ => false
  end.

Definition ref_named_types : NamedTypes := {|
  Types := ref_repository;
  type_named r n := ref_names r !! n;
  constructors r T := snd <$> filter (fun p => p.1 = T) (ref_constructors r);
  addType T n r := MkTypes (<[n := T]> (ref_names r)) (ref_constructors r);
  addConstructor T c r := MkTypes (ref_names r) (ref_constructors r ++ [(T, c)]);
  accepts _ a b := bool_decide (a = b);
  convert r T from := function <$> (snd <$> list_find
    (fun c => ref_can_convert from c)
    (snd <$> filter (fun p => p.1 = T) (ref_constructors r))) |}.

Lemma ref_named_types_laws : NamedTypesLaws ref_named_types.
Proof.
  split; try done.
  - intros T n r _. cbn. by rewrite lookup_insert_eq.
  - intros T n r n' Hn. cbn. by rewrite lookup_insert_ne.
  - intros T c r T'. cbn. rewrite filter_app, fmap_app. unfold filter at 2. cbn.
    destruct (decide (T' = T)) as [->|Hne]; [by rewrite decide_True|].
    rewrite decide_False by congruence. by rewrite app_nil_r.
  - intros r T. cbn. by rewrite bool_decide_eq_true_2.
Qed.

(** RTT knows these types, under other names, and converts [int] to [uint] implicitly,
    by the cast between them. *)
Definition real_time_typekit : ref_repository :=
  MkTypes (list_to_map [("float", SingleNumber TFloat); ("double", SingleNumber TDouble); ("string", Single StdString);
                        ("int", SingleNumber TInt32); ("uint", SingleNumber TUInt32); ("bool", Single Bool);
                        ("array", Vector (Number TDouble))])
    [(SingleNumber TUInt32, newConstructor (Convert TInt32 TUInt32) [SingleNumber TInt32] true)].

Lemma real_time_names_fit : names_fit (NT := ref_named_types) real_time_typekit.
Proof.
  assert (Forall (fun e => ref_names real_time_typekit !! e.2 = Some e.1) needed_types /\
          Forall (fun e => ref_names real_time_typekit !! e.2 = None \/
                           ref_names real_time_typekit !! e.2 = Some e.1) primitive_types) as [H1 H2].
  { apply (bool_decide_unpack _). vm_compute. exact I. }
  rewrite Forall_forall in H1, H2. split; [intros T n Hin; exact (H1 _ Hin)|intros T n Hin; exact (H2 _ Hin)].
Qed.

(** Afterwards [int32] and [int] are one type. Its values become unsigned ones as
    before, although that may change them; those of [uint] become [int64] without loss. *)
Lemma implicit_iff_lossless_witness :
  exists r', load_primitives (NT := ref_named_types) real_time_typekit = Some r' /\
    ref_names r' !! "int32" = ref_names r' !! "int" /\
    convert (NamedTypes := ref_named_types) r' (SingleNumber TUInt32) (SingleNumber TInt32) = Some (Convert TInt32 TUInt32) /\
    (lossless TUInt32 TInt64 <->
     convert (NamedTypes := ref_named_types) r' (SingleNumber TInt64) (SingleNumber TUInt32) = Some (Convert TUInt32 TInt64)).
Proof.
  destruct (implicit_iff_lossless (NT := ref_named_types) (NTL := ref_named_types_laws) real_time_typekit) as [H _].
  destruct (H real_time_names_fit) as (r' & E & Hp & Ho & _ & Hi).
  exists r'. split; [exact E|]. split; [|split].
  - etrans; [apply (Hp (SingleNumber TInt32) "int32")|symmetry; etrans; [apply (Ho "int")|reflexivity]].
    + apply (bool_decide_unpack _). vm_compute. exact I.
    + apply (bool_decide_unpack _). vm_compute. exact I.
  - destruct (Hi TInt32 TUInt32 eq_refl eq_refl ltac:(discriminate)) as (_ & Hbefore & _).
    rewrite Hbefore; [reflexivity|].
    exists (newConstructor (Convert TInt32 TUInt32) [SingleNumber TInt32] true). split; [left|reflexivity].
  - destruct (Hi TUInt32 TInt64 eq_refl eq_refl ltac:(discriminate)) as (_ & _ & Hnone).
    apply Hnone.
    + intros c Hc. exfalso. revert Hc. change (~ (c ∈ ([] : list constructor))). apply not_elem_of_nil.
    + intros T' _ Ha. left. apply bool_decide_eq_true in Ha. by injection Ha.
Defined.

End Witnesses.
