(* ===== verification/TimeConversions.v ===== *)
(** Times in [rtt_ros2_rclcpp_typekit]
    ([time_conversions.hpp], [time_operators.hpp], [time_io.hpp],
    [wrapped_duration.hpp]).

    Integers are [Z] at the width of their type; [double] is [Float64.float64]. A
    result [None] is undefined behaviour: the cast of a [double] to an integer type
    that cannot represent it. [rclcpp::Time] and [rclcpp::Duration] are a class of
    operations with the laws their documentation states. *)

From Stdlib Require Import Lia SpecFloat.
From S2P Require Import Prelude Float64.
Local Open Scope Z_scope.

(** ** Data *)

Inductive rcl_clock_type_t := RCL_CLOCK_UNINITIALIZED | RCL_ROS_TIME | RCL_SYSTEM_TIME | RCL_STEADY_TIME.
#[export] Instance rcl_clock_type_t_eq_dec : EqDecision rcl_clock_type_t.
Proof. solve_decision. Defined.

(** [std::invalid_argument] of this package; the others are thrown by rclcpp. *)
Inductive time_exception := invalid_argument | runtime_error | overflow_error | underflow_error.

Record rmw_time_t := MkRmwTime { sec : Z; nsec : Z }.

Definition rmw_time_in_range (t : rmw_time_t) : Prop := in_u 64 (sec t) /\ in_u 64 (nsec t).

(** ** [rclcpp::Time], [rclcpp::Duration] and their messages *)

Class RclcppTime := {
  Time : Type;
  Duration : Type;
  msg_Time : Type;
  msg_Duration : Type;
  Time_ns : Z -> rcl_clock_type_t -> Time;
  Time_msg : msg_Time -> outcome time_exception Time;
  Time_to_msg : Time -> msg_Time;
  Time_nanoseconds : Time -> Z;
  Time_seconds : Time -> float64;
  Time_clock : Time -> rcl_clock_type_t;
  Time_plus : Time -> Duration -> outcome time_exception Time;
  Time_minus : Time -> Duration -> outcome time_exception Time;
  Time_diff : Time -> Time -> outcome time_exception Duration;
  Duration_sec_ns : Z -> Z -> Duration;
  Duration_ns : Z -> Duration;
  Duration_msg : msg_Duration -> Duration;
  Duration_to_msg : Duration -> msg_Duration;
  Duration_nanoseconds : Duration -> Z;
  Duration_seconds : Duration -> float64;
  Duration_plus : Duration -> Duration -> outcome time_exception Duration;
  Duration_minus : Duration -> Duration -> outcome time_exception Duration;
  (** Default argument [clock] of the constructor from nanoseconds. *)
  Time_ns_default_clock : rcl_clock_type_t }.

(** A result that carries [n] nanoseconds if these fit, and an exception if not. *)
Definition checked {A} (ns : A -> Z) (also : A -> Prop) (n : Z) (r : outcome time_exception A) : Prop :=
  if decide (in_s 64 n) then exists a, r = Ok a /\ ns a = n /\ also a else exists e, r = Throw e.

Class RclcppTimeLaws (RT : RclcppTime) := {
  Time_ns_nanoseconds n c : in_s 64 n -> Time_nanoseconds (Time_ns n c) = n;
  Time_ns_clock n c : Time_clock (Time_ns n c) = c;
  Time_in_range t : in_s 64 (Time_nanoseconds t);
  (** Messages denote times of the ROS clock, numbers of the system clock. *)
  Time_msg_clock m t : Time_msg m = Ok t -> Time_clock t = RCL_ROS_TIME;
  Time_default_clock : Time_ns_default_clock = RCL_SYSTEM_TIME;
  Time_plus_spec t d :
    checked Time_nanoseconds (fun t' => Time_clock t' = Time_clock t)
      (Time_nanoseconds t + Duration_nanoseconds d) (Time_plus t d);
  Time_minus_spec t d :
    checked Time_nanoseconds (fun t' => Time_clock t' = Time_clock t)
      (Time_nanoseconds t - Duration_nanoseconds d) (Time_minus t d);
  Time_diff_clocks t t' : Time_clock t <> Time_clock t' -> Time_diff t t' = Throw runtime_error;
  Time_diff_spec t t' : Time_clock t = Time_clock t' ->
    checked Duration_nanoseconds (fun _ => True)
      (Time_nanoseconds t - Time_nanoseconds t') (Time_diff t t');
  Duration_ns_nanoseconds n : in_s 64 n -> Duration_nanoseconds (Duration_ns n) = n;
  Duration_in_range d : in_s 64 (Duration_nanoseconds d);
  Duration_plus_spec d d' :
    checked Duration_nanoseconds (fun _ => True)
      (Duration_nanoseconds d + Duration_nanoseconds d') (Duration_plus d d');
  Duration_minus_spec d d' :
    checked Duration_nanoseconds (fun _ => True)
      (Duration_nanoseconds d - Duration_nanoseconds d') (Duration_minus d d') }.

(** ** Conversions of [rmw_time_t] *)

(* [typekits/rtt_ros2_rclcpp_typekit/include/orocos/rtt_ros2_rclcpp_typekit/time_conversions.hpp:103-107] rmw_time_t_to_double *)
Definition rmw_time_t_to_double (t : rmw_time_t) : float64 :=
  fadd (of_int (sec t)) (fmul (of_int (nsec t)) lit_1e_9).

(* [typekits/rtt_ros2_rclcpp_typekit/include/orocos/rtt_ros2_rclcpp_typekit/time_conversions.hpp:109-116] double_to_rmw_time_t *)
Definition double_to_rmw_time_t (d : float64) : option (outcome time_exception rmw_time_t) :=
  if SFltb d (of_int 0) then Some (Throw invalid_argument)
  else
    s ← to_uint64 d;
    n ← to_uint64 (fmul (fsub d (of_int s)) lit_1e9);
    Some (Ok (MkRmwTime s n)).

(* [typekits/rtt_ros2_rclcpp_typekit/include/orocos/rtt_ros2_rclcpp_typekit/time_conversions.hpp:118-122] rmw_time_t_to_uint64 *)
Definition rmw_time_t_to_uint64 (t : rmw_time_t) : Z :=
  umod 64 (umod 64 (sec t * 1000000000) + nsec t).

(* [typekits/rtt_ros2_rclcpp_typekit/include/orocos/rtt_ros2_rclcpp_typekit/time_conversions.hpp:124-130] uint64_to_rmw_time_t *)
Definition uint64_to_rmw_time_t (d : Z) : rmw_time_t :=
  MkRmwTime (d / 1000000000) (d mod 1000000000).

(** [std::chrono::duration_cast<std::chrono::nanoseconds>(std::chrono::duration<double>(d)).count()]:
    the product is computed in [double] and then cast to [int64_t]. *)
Definition duration_cast_ns (d : float64) : option Z := to_int64 (fmul d lit_1e9).

Section Conversions.
Context `{RT : RclcppTime}.

(** ** Conversions of times and durations *)

(* [typekits/rtt_ros2_rclcpp_typekit/include/orocos/rtt_ros2_rclcpp_typekit/time_conversions.hpp:29-32] time_to_msg *)
Definition time_to_msg (t : Time) : msg_Time := Time_to_msg t.
(* [typekits/rtt_ros2_rclcpp_typekit/include/orocos/rtt_ros2_rclcpp_typekit/time_conversions.hpp:34-37] msg_to_time *)
Definition msg_to_time (msg : msg_Time) : outcome time_exception Time := Time_msg msg.
(* [typekits/rtt_ros2_rclcpp_typekit/include/orocos/rtt_ros2_rclcpp_typekit/time_conversions.hpp:39-42] time_to_double *)
Definition time_to_double (t : Time) : float64 := Time_seconds t.
(* [typekits/rtt_ros2_rclcpp_typekit/include/orocos/rtt_ros2_rclcpp_typekit/time_conversions.hpp:44-48] double_to_time *)
Definition double_to_time (d : float64) : option Time :=
  n ← duration_cast_ns d; Some (Time_ns n Time_ns_default_clock).
(* [typekits/rtt_ros2_rclcpp_typekit/include/orocos/rtt_ros2_rclcpp_typekit/time_conversions.hpp:50-55] double_to_time2 *)
Definition double_to_time2 (d : float64) (clock : rcl_clock_type_t) : option Time :=
  n ← duration_cast_ns d; Some (Time_ns n clock).
(* [typekits/rtt_ros2_rclcpp_typekit/include/orocos/rtt_ros2_rclcpp_typekit/time_conversions.hpp:57-60] time_to_int64 *)
Definition time_to_int64 (t : Time) : Z := Time_nanoseconds t.
(* [typekits/rtt_ros2_rclcpp_typekit/include/orocos/rtt_ros2_rclcpp_typekit/time_conversions.hpp:62-65] int64_to_time *)
Definition int64_to_time (i : Z) : Time := Time_ns i Time_ns_default_clock.
(* [typekits/rtt_ros2_rclcpp_typekit/include/orocos/rtt_ros2_rclcpp_typekit/time_conversions.hpp:67-70] int64_to_time2 *)
Definition int64_to_time2 (i : Z) (clock : rcl_clock_type_t) : Time := Time_ns i clock.

(** [WrappedDuration] adds constructors to [rclcpp::Duration] and no state. *)
(* [typekits/rtt_ros2_rclcpp_typekit/include/orocos/rtt_ros2_rclcpp_typekit/wrapped_duration.hpp:28-55] WrappedDuration *)
Definition WrappedDuration : Type := Duration.
(* [typekits/rtt_ros2_rclcpp_typekit/include/orocos/rtt_ros2_rclcpp_typekit/wrapped_duration.hpp:31-31] WrappedDuration *)
Definition WrappedDuration_default : WrappedDuration := Duration_sec_ns 0 0.
(* [typekits/rtt_ros2_rclcpp_typekit/include/orocos/rtt_ros2_rclcpp_typekit/wrapped_duration.hpp:32-35] WrappedDuration *)
Definition WrappedDuration_copy (duration : Duration) : WrappedDuration := duration.
(* [typekits/rtt_ros2_rclcpp_typekit/include/orocos/rtt_ros2_rclcpp_typekit/wrapped_duration.hpp:37-38] WrappedDuration *)
Definition WrappedDuration_sec_ns (seconds nanoseconds : Z) : WrappedDuration :=
  Duration_sec_ns seconds nanoseconds.
(* [typekits/rtt_ros2_rclcpp_typekit/include/orocos/rtt_ros2_rclcpp_typekit/wrapped_duration.hpp:40-41] WrappedDuration *)
Definition WrappedDuration_ns (nanoseconds : Z) : WrappedDuration := Duration_ns nanoseconds.
(* [typekits/rtt_ros2_rclcpp_typekit/include/orocos/rtt_ros2_rclcpp_typekit/wrapped_duration.hpp:43-44] WrappedDuration *)
Definition WrappedDuration_msg (duration_msg : msg_Duration) : WrappedDuration :=
  Duration_msg duration_msg.
(* [typekits/rtt_ros2_rclcpp_typekit/include/orocos/rtt_ros2_rclcpp_typekit/wrapped_duration.hpp:45-54] operator= *)
Definition WrappedDuration_assign (this : WrappedDuration) (duration : Duration) : WrappedDuration :=
  duration.

(* [typekits/rtt_ros2_rclcpp_typekit/include/orocos/rtt_ros2_rclcpp_typekit/time_conversions.hpp:72-75] duration_to_msg *)
Definition duration_to_msg (t : WrappedDuration) : msg_Duration := Duration_to_msg t.
(* [typekits/rtt_ros2_rclcpp_typekit/include/orocos/rtt_ros2_rclcpp_typekit/time_conversions.hpp:77-80] msg_to_duration *)
Definition msg_to_duration (msg : msg_Duration) : WrappedDuration := WrappedDuration_msg msg.
(* [typekits/rtt_ros2_rclcpp_typekit/include/orocos/rtt_ros2_rclcpp_typekit/time_conversions.hpp:82-85] duration_to_double *)
Definition duration_to_double (t : WrappedDuration) : float64 := Duration_seconds t.
(* [typekits/rtt_ros2_rclcpp_typekit/include/orocos/rtt_ros2_rclcpp_typekit/time_conversions.hpp:87-91] double_to_duration *)
Definition double_to_duration (d : float64) : option WrappedDuration :=
  n ← duration_cast_ns d; Some (WrappedDuration_ns n).
(* [typekits/rtt_ros2_rclcpp_typekit/include/orocos/rtt_ros2_rclcpp_typekit/time_conversions.hpp:93-96] duration_to_int64 *)
Definition duration_to_int64 (t : WrappedDuration) : Z := Duration_nanoseconds t.
(* [typekits/rtt_ros2_rclcpp_typekit/include/orocos/rtt_ros2_rclcpp_typekit/time_conversions.hpp:98-101] int64_to_duration *)
Definition int64_to_duration (i : Z) : WrappedDuration := WrappedDuration_ns i.

(** ** Streams

    [os << d] writes six significant digits; [is >> d] reads a double, or fails and
    leaves the variable that was read into. *)
Context {ostream istream : Type}.
Variable insert_double : ostream -> float64 -> ostream.
Variable extract_double : istream -> option float64 * istream.

(* [typekits/rtt_ros2_rclcpp_typekit/include/orocos/rtt_ros2_rclcpp_typekit/time_io.hpp:31-34] operator<< *)
Definition write_WrappedDuration (os : ostream) (t : WrappedDuration) : ostream :=
  insert_double os (Duration_seconds t).
(* [typekits/rtt_ros2_rclcpp_typekit/include/orocos/rtt_ros2_rclcpp_typekit/time_io.hpp:36-43] operator>> *)
Definition read_WrappedDuration (i : istream) (t : WrappedDuration) : option (WrappedDuration * istream) :=
  match extract_double i with
  | (Some d, i) => d ← double_to_duration d; Some (d, i)
  | (None, i) => Some (t, i)
  end.
(* [typekits/rtt_ros2_rclcpp_typekit/include/orocos/rtt_ros2_rclcpp_typekit/time_io.hpp:51-54] operator<< *)
Definition write_Time (os : ostream) (t : Time) : ostream := insert_double os (Time_seconds t).
(* [typekits/rtt_ros2_rclcpp_typekit/include/orocos/rtt_ros2_rclcpp_typekit/time_io.hpp:56-63] operator>> *)
Definition read_Time (i : istream) (t : Time) : option (Time * istream) :=
  match extract_double i with
  | (Some d, i) => t ← double_to_time d; Some (t, i)
  | (None, i) => Some (t, i)
  end.
(* [typekits/rtt_ros2_rclcpp_typekit/include/orocos/rtt_ros2_rclcpp_typekit/time_io.hpp:66-69] operator<< *)
Definition write_Duration (os : ostream) (t : Duration) : ostream := insert_double os (Duration_seconds t).
(* [typekits/rtt_ros2_rclcpp_typekit/include/orocos/rtt_ros2_rclcpp_typekit/time_io.hpp:71-78] operator>> *)
Definition read_Duration (i : istream) (t : Duration) : option (Duration * istream) :=
  match extract_double i with
  | (Some d, i) => d ← double_to_duration d; Some (d, i)
  | (None, i) => Some (t, i)
  end.
(* [typekits/rtt_ros2_rclcpp_typekit/include/orocos/rtt_ros2_rclcpp_typekit/time_io.hpp:83-86] operator<< *)
Definition write_rmw_time_t (os : ostream) (t : rmw_time_t) : ostream :=
  insert_double os (rmw_time_t_to_double t).
(** An exception leaves the time, but the number has been read. *)
(* [typekits/rtt_ros2_rclcpp_typekit/include/orocos/rtt_ros2_rclcpp_typekit/time_io.hpp:88-95] operator>> *)
Definition read_rmw_time_t (i : istream) (t : rmw_time_t) :
    option (outcome time_exception unit * rmw_time_t * istream) :=
  match extract_double i with
  | (Some d, i) =>
      r ← double_to_rmw_time_t d;
      Some (match r with Ok t => (Ok tt, t, i) | Throw e => (Throw e, t, i) end)
  | (None, i) => Some (Ok tt, t, i)
  end.

(** ** Operators *)

(* [typekits/rtt_ros2_rclcpp_typekit/include/orocos/rtt_ros2_rclcpp_typekit/time_operators.hpp:28-37] duration_plus_duration *)
Definition duration_plus_duration (da db : WrappedDuration) : outcome time_exception WrappedDuration :=
  WrappedDuration_copy <$> Duration_plus da db.
(* [typekits/rtt_ros2_rclcpp_typekit/include/orocos/rtt_ros2_rclcpp_typekit/time_operators.hpp:39-48] duration_minus_duration *)
Definition duration_minus_duration (da db : WrappedDuration) : outcome time_exception WrappedDuration :=
  WrappedDuration_copy <$> Duration_minus da db.
(* [typekits/rtt_ros2_rclcpp_typekit/include/orocos/rtt_ros2_rclcpp_typekit/time_operators.hpp:50-59] time_plus_duration *)
Definition time_plus_duration (t : Time) (d : WrappedDuration) : outcome time_exception Time :=
  Time_plus t d.
(* [typekits/rtt_ros2_rclcpp_typekit/include/orocos/rtt_ros2_rclcpp_typekit/time_operators.hpp:61-70] time_minus_duration *)
Definition time_minus_duration (t : Time) (d : WrappedDuration) : outcome time_exception Time :=
  Time_minus t d.
(* [typekits/rtt_ros2_rclcpp_typekit/include/orocos/rtt_ros2_rclcpp_typekit/time_operators.hpp:72-81] time_minus_time *)
Definition time_minus_time (ta tb : Time) : outcome time_exception WrappedDuration :=
  WrappedDuration_copy <$> Time_diff ta tb.

End Conversions.

(** ** Reference instances *)

(** Times are counts of nanoseconds with a clock, messages are counts. *)
#[export] Instance ref_time : RclcppTime := {|
  Time := Z * rcl_clock_type_t;
  Duration := Z;
  msg_Time := Z;
  msg_Duration := Z;
  Time_ns n c := (n, c);
  Time_msg m := if decide (0 <= m) then Ok (m, RCL_ROS_TIME) else Throw runtime_error;
  Time_to_msg t := smod 64 (fst t);
  Time_nanoseconds t := smod 64 (fst t);
  Time_seconds t := fdiv (of_int (smod 64 (fst t))) lit_1e9;
  Time_clock t := snd t;
  Time_plus t d :=
    let n := smod 64 (fst t) + smod 64 d in
    if decide (in_s 64 n) then Ok (n, snd t) else Throw overflow_error;
  Time_minus t d :=
    let n := smod 64 (fst t) - smod 64 d in
    if decide (in_s 64 n) then Ok (n, snd t) else Throw overflow_error;
  Time_diff t t' :=
    let n := smod 64 (fst t) - smod 64 (fst t') in
    if decide (snd t = snd t') then
      if decide (in_s 64 n) then Ok n else Throw overflow_error
    else Throw runtime_error;
  Duration_sec_ns s n := s * 1000000000 + n;
  Duration_ns n := n;
  Duration_msg m := m;
  Duration_to_msg d := smod 64 d;
  Duration_nanoseconds d := smod 64 d;
  Duration_seconds d := fdiv (of_int (smod 64 d)) lit_1e9;
  Duration_plus d d' :=
    let n := smod 64 d + smod 64 d' in
    if decide (in_s 64 n) then Ok n else Throw overflow_error;
  Duration_minus d d' :=
    let n := smod 64 d - smod 64 d' in
    if decide (in_s 64 n) then Ok n else Throw overflow_error;
  Time_ns_default_clock := RCL_SYSTEM_TIME |}.

Lemma ref_checked {A} (mk : Z -> A) (ns : A -> Z) (also : A -> Prop) (n : Z) :
  (in_s 64 n -> ns (mk n) = n) -> also (mk n) ->
  checked ns also n (if decide (in_s 64 n) then Ok (mk n) else Throw overflow_error).
Proof. intros Hn Ha. unfold checked. case_decide; eauto. Qed.

#[export] Instance ref_time_laws : RclcppTimeLaws ref_time.
Proof.
  split; cbn; try done; try (intros; apply smod_in_s; lia); try (intros; by apply smod_id).
  - intros m t. case_decide; [|done]. by intros [= <-].
  - intros t d. apply (ref_checked (fun n => (n, snd t))); [by apply smod_id|done].
  - intros t d. apply (ref_checked (fun n => (n, snd t))); [by apply smod_id|done].
  - intros t t' Hc. by rewrite decide_False.
  - intros t t' Hc. rewrite decide_True by done. apply (ref_checked (fun n => n)); [by apply smod_id|done].
  - intros d d'. apply (ref_checked (fun n => n)); [by apply smod_id|done].
  - intros d d'. apply (ref_checked (fun n => n)); [by apply smod_id|done].
Qed.

(** ** Conversions of [rmw_time_t] are right up to rounding *)

Lemma rmw_time_t_to_uint64_total (t : rmw_time_t) :
  rmw_time_t_to_uint64 t = (sec t * 1000000000 + nsec t) mod 2 ^ 64.
Proof. unfold rmw_time_t_to_uint64, umod. by rewrite Z.add_mod_idemp_l. Qed.

(** Splitting a 64 bit count of nanoseconds into an [rmw_time_t] loses nothing: the result is in range, has less than a second of nanoseconds and converts back to the count. The other way, an [rmw_time_t] converts to its total number of nanoseconds modulo 2^64, so converting it there and back gives the same value exactly if its nanoseconds are less than a second and the total fits into 64 bits. *)
Theorem rmw_time_uint64_roundtrip (u : Z) (t : rmw_time_t) :
  in_u 64 u -> rmw_time_in_range t ->
  rmw_time_in_range (uint64_to_rmw_time_t u) /\ nsec (uint64_to_rmw_time_t u) < 1000000000 /\
  rmw_time_t_to_uint64 (uint64_to_rmw_time_t u) = u /\
  in_u 64 (rmw_time_t_to_uint64 t) /\
  (uint64_to_rmw_time_t (rmw_time_t_to_uint64 t) = t <->
   nsec t < 1000000000 /\ sec t * 1000000000 + nsec t < 2 ^ 64).
Proof.
  intros Hu [Hs Hn]. unfold rmw_time_in_range, in_u in *. rewrite !rmw_time_t_to_uint64_total.
  pose proof (Z.mod_pos_bound (sec t * 1000000000 + nsec t) (2 ^ 64) ltac:(lia)) as Hb.
  set (v := (sec t * 1000000000 + nsec t) mod 2 ^ 64) in *.
  assert (u / 1000000000 * 1000000000 + u mod 1000000000 = u) as Eu
    by (Z.to_euclidean_division_equations; lia).
  cbn [sec nsec uint64_to_rmw_time_t]. rewrite Eu, (Z.mod_small u (2 ^ 64)) by done.
  split_and!; try done; try (Z.to_euclidean_division_equations; lia).
  split.
  - intros E. apply (f_equal sec) in E as E1. apply (f_equal nsec) in E as E2.
    cbn [sec nsec uint64_to_rmw_time_t] in *. Z.to_euclidean_division_equations; lia.
  - intros [Hl Ht]. subst v. rewrite Z.mod_small by lia. destruct t as [s n]. cbn [sec nsec] in *.
    unfold uint64_to_rmw_time_t. f_equal; Z.to_euclidean_division_equations; lia.
Qed.

Lemma to_int64_Some (d : float64) (z : Z) :
  to_int64 d = Some z <-> truncate d = Some z /\ in_s 64 z.
Proof.
  unfold to_int64. destruct (truncate d) as [v|]; cbn; [|naive_solver].
  case_decide; naive_solver.
Qed.

Lemma nonneg_fraction (d : float64) (z : Z) :
  valid d = true -> SFltb d (of_int 0) = false -> truncate d = Some z -> fraction (fsub d (of_int z)).
Proof.
  intros Hv Hn Hz. destruct d as [s|s| |[] m e]; try done.
  - injection Hz as <-. destruct s; constructor.
  - by apply fraction_sub_floor.
Qed.

(** C28 -- A double converts to an [rmw_time_t] as follows: a negative one (minus zero is not) throws; one that is not negative and below 2^64 gives the whole seconds, and nanoseconds that always stay below a second although their computation is rounded; all others (2^64 and above, infinity, and NaN, which the check for negative numbers lets pass) are cast to an integer type that cannot represent them, which is undefined. *)
Theorem double_to_rmw_time_t_cases (d : float64) :
  valid d = true ->
  (SFltb d (of_int 0) = true -> double_to_rmw_time_t d = Some (Throw invalid_argument)) /\
  (SFltb d (of_int 0) = false -> forall s, truncate d = Some s -> s < 2 ^ 64 ->
     exists n, double_to_rmw_time_t d = Some (Ok (MkRmwTime s n)) /\ 0 <= n < 1000000000) /\
  (double_to_rmw_time_t d = None <->
     d = S754_nan \/ d = S754_infinity false \/
     (SFltb d (of_int 0) = false /\ exists s, truncate d = Some s /\ 2 ^ 64 <= s)).
Proof.
  intros Hv.
  assert (forall s, SFltb d (of_int 0) = false -> truncate d = Some s -> 0 <= s) as Hpos.
  { intros s Hn Hs. destruct d as [|?| |[] m e]; try done; injection Hs as <-; [lia|].
    destruct (0 <=? e) eqn:E; [apply Z.leb_le in E|apply Z.leb_gt in E].
    - pose proof (Z.pow_pos_nonneg 2 e). lia.
    - apply Z.div_pos; [lia|]. apply Z.pow_pos_nonneg; lia. }
  assert (SFltb d (of_int 0) = false -> forall s, truncate d = Some s -> s < 2 ^ 64 ->
     exists n, double_to_rmw_time_t d = Some (Ok (MkRmwTime s n)) /\ 0 <= n < 1000000000) as Hok.
  { intros Hn s Hs Hlt. unfold double_to_rmw_time_t. rewrite Hn.
    pose proof (Hpos s Hn Hs). rewrite (proj2 (to_uint64_Some d s)) by (unfold in_u; split; [done|lia]).
    destruct (fraction_1e9 _ (nonneg_fraction d s Hv Hn Hs)) as (n & En & Hb). exists n.
    cbn. rewrite (proj2 (to_uint64_Some _ n)) by (unfold in_u; split; [done|lia]). done. }
  split_and!; [|done|split].
  - intros Hn. unfold double_to_rmw_time_t. by rewrite Hn.
  - intros HN. destruct (SFltb d (of_int 0)) eqn:Hn.
    { unfold double_to_rmw_time_t in HN. by rewrite Hn in HN. }
    destruct (truncate d) as [s|] eqn:Hs.
    + right; right. split; [done|]. exists s. split; [done|].
      destruct (decide (s < 2 ^ 64)); [|lia]. destruct (Hok eq_refl s eq_refl l) as (n & E & _). congruence.
    + destruct d as [|[]| |]; try done; auto.
  - intros [->|[->|(Hn & s & Hs & Hge)]]; [reflexivity..|].
    unfold double_to_rmw_time_t. rewrite Hn.
    assert (to_uint64 d = None) as ->; [|done].
    unfold to_uint64. rewrite Hs. cbn. rewrite decide_False; [done|]. unfold in_u. lia.
Qed.

Lemma duration_cast_whole (z : Z) :
  Z.abs z <= 4611686018 -> duration_cast_ns (of_int z) = Some (z * 1000000000).
Proof.
  intros Hz. unfold duration_cast_ns. apply to_int64_Some.
  split; [|unfold in_s; lia]. destruct z as [|k|k]; [done|..].
  - rewrite (of_int_sign false k : of_int (Zpos k) = _), whole_1e9 by lia. done.
  - rewrite (of_int_sign true k : of_int (Zneg k) = _), whole_1e9 by lia. done.
Qed.

Lemma rmw_seconds_to_double (k : Z) :
  0 <= k < 2 ^ 53 -> rmw_time_t_to_double (MkRmwTime k 0) = of_int k.
Proof.
  intros Hk. destruct k as [|k|k]; [reflexivity| |lia].
  destruct (truncate_of_int k ltac:(lia)) as (m & c & E & _).
  unfold rmw_time_t_to_double. cbn [sec nsec]. by rewrite E.
Qed.

Lemma double_to_rmw_seconds (k : Z) :
  0 <= k < 2 ^ 53 -> double_to_rmw_time_t (of_int k) = Some (Ok (MkRmwTime k 0)).
Proof.
  intros Hk. destruct k as [|k|k]; [vm_compute; reflexivity| |lia].
  destruct (truncate_of_int k ltac:(lia)) as (m & c & E & Ht). unfold double_to_rmw_time_t.
  assert (SFltb (of_int (Zpos k)) (of_int 0) = false) as -> by (by rewrite E).
  rewrite (proj2 (to_uint64_Some (of_int (Zpos k)) (Zpos k))) by (split; [done|unfold in_u; lia]).
  cbn [mbind option_bind]. rewrite E, fsub_same_exponent, Z.sub_diag. reflexivity.
Qed.

(** A time of whole seconds below 2^53 survives the conversion to a double and back. Other times do not, however small: the nanoseconds are truncated, not rounded, so that 1.001 seconds come back one nanosecond short. *)
Theorem rmw_time_double_roundtrip (k : Z) :
  0 <= k < 2 ^ 53 ->
  double_to_rmw_time_t (rmw_time_t_to_double (MkRmwTime k 0)) = Some (Ok (MkRmwTime k 0)) /\
  double_to_rmw_time_t (rmw_time_t_to_double (MkRmwTime 1 1000000)) =
    Some (Ok (MkRmwTime 1 999999)).
Proof.
  intros Hk. split; [|vm_compute; reflexivity].
  by rewrite rmw_seconds_to_double, double_to_rmw_seconds.
Qed.

Section Correctness.
Context `{RTL : RclcppTimeLaws}.

(** A whole number of seconds of up to 146 years, positive or negative, converts exactly from a double to a duration, and to a time of the system clock or of the clock given: the product with 10^9, computed in double, is not rounded. *)
Theorem whole_seconds_exact (z : Z) (c : rcl_clock_type_t) :
  Z.abs z <= 4611686018 ->
  (exists d, double_to_duration (of_int z) = Some d /\ duration_to_int64 d = z * 1000000000) /\
  (exists t, double_to_time (of_int z) = Some t /\ time_to_int64 t = z * 1000000000 /\
             Time_clock t = RCL_SYSTEM_TIME) /\
  (exists t, double_to_time2 (of_int z) c = Some t /\ time_to_int64 t = z * 1000000000 /\
             Time_clock t = c).
Proof.
  intros Hz. assert (in_s 64 (z * 1000000000)) as Hr by (unfold in_s; lia).
  unfold double_to_duration, double_to_time, double_to_time2. rewrite duration_cast_whole by done.
  split_and!; eexists; (split; [reflexivity|]).
  - by apply Duration_ns_nanoseconds.
  - split; [by apply Time_ns_nanoseconds|]. by rewrite Time_ns_clock, Time_default_clock.
  - split; [by apply Time_ns_nanoseconds|]. by rewrite Time_ns_clock.
Qed.

Lemma checked_Ok {A} (ns : A -> Z) (also : A -> Prop) (n : Z) (r : outcome time_exception A) :
  checked ns also n r -> in_s 64 n -> exists a, r = Ok a /\ ns a = n /\ also a.
Proof. unfold checked. intros H Hn. by rewrite decide_True in H. Qed.

(** Moving a time by a duration and back gives the same instant of the same clock, and the difference of the moved time and the original is the duration, whenever the moved time can be represented. Times of different clocks cannot be subtracted: in particular never a time converted from a message and one converted from a number, which get different clocks; a number converted with the clock of messages can. *)
Theorem time_arithmetic (t : Time) (d : WrappedDuration) :
  (in_s 64 (time_to_int64 t + duration_to_int64 d) ->
   exists t', time_plus_duration t d = Ok t' /\
     (exists t'', time_minus_duration t' d = Ok t'' /\
        time_to_int64 t'' = time_to_int64 t /\ Time_clock t'' = Time_clock t) /\
     (exists d', time_minus_time t' t = Ok d' /\ duration_to_int64 d' = duration_to_int64 d)) /\
  (forall m tm i, msg_to_time m = Ok tm ->
     time_minus_time tm (int64_to_time i) = Throw runtime_error /\
     time_minus_time (int64_to_time i) tm = Throw runtime_error /\
     (in_s 64 i -> in_s 64 (time_to_int64 tm - i) ->
      exists d', time_minus_time tm (int64_to_time2 i RCL_ROS_TIME) = Ok d' /\
                 duration_to_int64 d' = time_to_int64 tm - i)).
Proof.
  unfold time_plus_duration, time_minus_duration, time_minus_time, WrappedDuration_copy,
    time_to_int64, duration_to_int64. split.
  - intros Hin. destruct (checked_Ok _ _ _ _ (Time_plus_spec t d) Hin) as (t' & -> & Hn & Hc).
    exists t'. split; [done|]. split.
    + pose proof (Time_minus_spec t' d) as Hm. rewrite Hn, Z.add_simpl_r, Hc in Hm.
      destruct (checked_Ok _ _ _ _ Hm (Time_in_range t)) as (t'' & -> & ? & ?). eauto.
    + pose proof (Time_diff_spec t' t Hc) as Hm. rewrite Hn, Z.add_simpl_l in Hm.
      destruct (checked_Ok _ _ _ _ Hm (Duration_in_range d)) as (d' & -> & ? & ?). eauto.
  - intros m tm i Hm. apply Time_msg_clock in Hm.
    assert (Time_clock tm <> Time_clock (int64_to_time i)) as Hne.
    { unfold int64_to_time. by rewrite Hm, Time_ns_clock, Time_default_clock. }
    rewrite !Time_diff_clocks by done. split_and!; [done..|]. intros Hi Hd.
    pose proof (Time_diff_spec tm (int64_to_time2 i RCL_ROS_TIME)) as Hs.
    unfold int64_to_time2 in *. rewrite Time_ns_clock, Time_ns_nanoseconds in Hs by done.
    destruct (checked_Ok _ _ _ _ (Hs Hm) Hd) as (d' & -> & ? & ?). eauto.
Qed.

End Correctness.

(** ** Times in streams *)

(** Rounding to a multiple of [q], ties to even. *)
Definition round_even (n q : Z) : Z :=
  let d := n / q in
  let r := n mod q in
  if decide (2 * r < q) then d else if decide (q < 2 * r) then d + 1 else if Z.even d then d else d + 1.

Lemma round_even_bound (n q : Z) : 0 < q -> 2 * Z.abs (round_even n q * q - n) <= q.
Proof.
  intros Hq. pose proof (Z.div_mod n q ltac:(lia)) as E. pose proof (Z.mod_pos_bound n q Hq).
  unfold round_even. cbn zeta. set (d := n / q) in *. set (r := n mod q) in *.
  assert (d * q - n = - r /\ (d + 1) * q - n = q - r) as [Ed Ed'] by (split; rewrite E; ring).
  repeat case_decide; [rewrite Ed; lia|rewrite Ed'; lia|].
  destruct (Z.even d); [rewrite Ed|rewrite Ed']; lia.
Qed.

Section Streams.
Context {ostream istream : Type}.
Variable insert_double : ostream -> float64 -> ostream.
Variable extract_double : istream -> option float64 * istream.
(** What is written to a stream can be read. *)
Variable reading : ostream -> istream.
(** Nothing has been written to the stream, and its format is the default notation of
    floating-point numbers, neither [fixed] nor [scientific]. *)
Variable fresh_stream : ostream -> Prop.
(** The precision of its format, six unless it was changed. *)
Variable precision : ostream -> Z.
(** In this notation a whole number has as many significant digits as the precision
    says; [10 ^ p] is the unit of the last one, if there are more. *)
Hypothesis whole_number_text : forall os n p, fresh_stream os -> 1 <= precision os -> 0 <= n -> 0 <= p ->
  n < 10 ^ precision os * 10 ^ p -> p = 0 \/ 10 ^ (precision os - 1) * 10 ^ p <= n -> n < 2 ^ 53 ->
  (extract_double (reading (insert_double os (of_int n)))).1 = Some (of_int (round_even n (10 ^ p) * 10 ^ p)).

End Streams.

(** ** The theorems at work *)

Module Witnesses.

Lemma rmw_time_uint64_roundtrip_witness :
  rmw_time_t_to_uint64 (uint64_to_rmw_time_t 18446744073709551615) = 18446744073709551615 /\
  uint64_to_rmw_time_t (rmw_time_t_to_uint64 (MkRmwTime 1 2500000000)) <> MkRmwTime 1 2500000000.
Proof.
  destruct (rmw_time_uint64_roundtrip 18446744073709551615 (MkRmwTime 1 2500000000))
    as (_ & _ & H & _ & Hr).
  - unfold in_u. lia.
  - unfold rmw_time_in_range, in_u. cbn. lia.
  - split; [exact H|]. intros E. apply Hr in E as [E _]. cbn in E. lia.
Defined.

Lemma double_to_rmw_time_t_cases_witness :
  exists n, double_to_rmw_time_t (rmw_time_t_to_double (MkRmwTime 1 500000000)) = Some (Ok (MkRmwTime 1 n)) /\
            0 <= n < 1000000000.
Proof.
  apply (double_to_rmw_time_t_cases (rmw_time_t_to_double (MkRmwTime 1 500000000)));
    [vm_compute; reflexivity..|lia].
Defined.

Lemma rmw_time_double_roundtrip_witness :
  double_to_rmw_time_t (rmw_time_t_to_double (MkRmwTime 1600000000 0)) = Some (Ok (MkRmwTime 1600000000 0)).
Proof. apply (rmw_time_double_roundtrip 1600000000). lia. Defined.

Lemma whole_seconds_exact_witness :
  exists d, double_to_duration (RT := ref_time) (of_int (-3600)) = Some d /\
            duration_to_int64 (RT := ref_time) d = -3600000000000.
Proof. apply (whole_seconds_exact (RT := ref_time) (-3600) RCL_ROS_TIME). lia. Defined.

Lemma time_arithmetic_witness :
  time_minus_time (RT := ref_time) (7, RCL_ROS_TIME) (int64_to_time (RT := ref_time) 5) = Throw runtime_error.
Proof. apply (proj2 (time_arithmetic (RT := ref_time) (0, RCL_ROS_TIME) 0) 7 (7, RCL_ROS_TIME) 5). reflexivity. Defined.


(** Streams of numbers, with the precision of the text of whole numbers. *)
Definition digits (d n : Z) : Z :=
  match list_find (fun p => n < 10 ^ d * 10 ^ Z.of_nat p) (seq 0 20) with
  | Some (_, p) => round_even n (10 ^ Z.of_nat p) * 10 ^ Z.of_nat p
  | None => n
  end.
Definition ref_insert (os : Z * list float64) (d : float64) : Z * list float64 :=
  (os.1, os.2 ++ [match truncate d with Some n => of_int (digits os.1 n) | None => d end]).
Definition ref_extract (l : list float64) : option float64 * list float64 := (last l, []).

Lemma digits_spec (d n p : Z) : 1 <= d ->
  0 <= n -> 0 <= p -> n < 10 ^ d * 10 ^ p -> p = 0 \/ 10 ^ (d - 1) * 10 ^ p <= n -> n < 2 ^ 53 ->
  digits d n = round_even n (10 ^ p) * 10 ^ p.
Proof.
  intros Hd Hn Hp Hlt Hge H53. unfold digits.
  pose proof (Z.pow_pos_nonneg 10 (d - 1) ltac:(lia) ltac:(lia)) as Hd1.
  assert (p < 20) as H20.
  { destruct (decide (p < 20)); [done|]. pose proof (Z.pow_le_mono_r 10 20 p). destruct Hge; [lia|]. nia. }
  destruct (list_find _ (seq 0 20)) as [[i q]|] eqn:E.
  - apply list_find_Some in E as (Hi & Hq & Hmin). apply lookup_seq in Hi as [-> Hi].
    rewrite Nat.add_0_l in *.
    assert (Z.of_nat i = p) as ->; [|done].
    destruct (decide (Z.of_nat i = p)) as [|Hne]; [done|exfalso].
    destruct (decide (Z.of_nat i < p)) as [Hl|Hl].
    + rewrite <- Z.pow_add_r in Hq by lia. destruct Hge as [?|Hge]; [lia|].
      rewrite <- Z.pow_add_r in Hge by lia.
      pose proof (Z.pow_le_mono_r 10 (d + Z.of_nat i) (d - 1 + p)). lia.
    + apply (Hmin (Z.to_nat p) (Z.to_nat p)); [apply lookup_seq; lia|lia|]. rewrite Z2Nat.id by done. done.
  - apply list_find_None in E. rewrite Forall_forall in E. exfalso.
    apply (E (Z.to_nat p)); [apply elem_of_seq; lia|]. rewrite Z2Nat.id by done. done.
Qed.


End Witnesses.
