(* ===== verification/RclcppTypekit.v ===== *)
(** Package [rtt_ros2_rclcpp_typekit], the plugin ([rtt_ros2_rclcpp_typekit.cpp]): the
    types it registers with their conversions ([ros2_time_type.cpp],
    [ros2_duration_type.cpp], [ros2_parameter_value_type.cpp] and the other type
    info classes), its constructors, operators and constants.

    RTT's repositories are the interface of [RttTypes]. [assert] stops the program in
    a debug build; a loader that stops, or dereferences a null pointer, is [None]. *)

From S2P Require Import Prelude RttTypes.
Local Open Scope string_scope.
Local Open Scope list_scope.

(** ** Types and conversions *)

(** C++ types, known from RTT or from other typekits, and those registered here. *)
Inductive script_type :=
| type_bool | type_int | type_int64 | type_uint64 | type_float | type_double | type_string
| type_byte_array | type_bool_array | type_int64_array | type_int_array | type_float_array
| type_double_array | type_string_array
| type_msg_Time | type_msg_Duration
| type_Duration | type_Time | type_NodeOptions | type_Parameter | type_Parameters | type_ParameterValue
| type_PublisherOptionsBase | type_QoS | type_IntraProcessSetting | type_PublisherEventCallbacks
| type_CallbackGroup | type_Payload | type_rmw_time_t | type_rcl_allocator_t | type_clock_type
| type_history | type_reliability | type_durability | type_liveliness.
#[export] Instance script_type_eq_dec : EqDecision script_type.
Proof. solve_decision. Defined.

(** The functions of [time_conversions.hpp], [parameter_value_conversions.hpp] (for the
    type on the other side) and [ros2_parameter_type.cpp]. *)
Inductive conversion :=
| c_time_to_msg | c_msg_to_time | c_time_to_int64 | c_int64_to_time | c_int64_to_time2
| c_time_to_double | c_double_to_time | c_double_to_time2
| c_duration_to_msg | c_msg_to_duration | c_duration_to_int64 | c_int64_to_duration
| c_duration_to_double | c_double_to_duration
| c_double_to_rmw_time_t | c_rmw_time_t_to_double | c_uint64_to_rmw_time_t | c_rmw_time_t_to_uint64
| c_parameter_value_to (t : script_type) | c_to_parameter_value (t : script_type)
| c_construct1 | c_construct2.
#[export] Instance conversion_eq_dec : EqDecision conversion.
Proof. solve_decision. Defined.

Abbreviation ScriptTypes := (TypeRepository script_type conversion).
Abbreviation constructor := (TypeConstructor script_type conversion).

(** ** Type info objects *)

Section Plugin.
Context `{TR : ScriptTypes}.
Variable ndebug : bool.

(** [assert(ti != nullptr); if (ti != nullptr) ti->addConstructor(c);] *)
Definition add_if_known (t : script_type) (c : constructor) (r : Types) : option Types :=
  if getTypeInfo r t then Some (addConstructor t c r) else if ndebug then Some r else None.

(* [typekits/rtt_ros2_rclcpp_typekit/src/ros2_duration_type.cpp:36-79] installTypeInfoObject *)
Definition DurationTypeInfo_installTypeInfoObject (r : Types) : option (bool * Types) :=
  let r := PrimitiveTypeInfo_installTypeInfoObject type_Duration r in
  r ← add_if_known type_msg_Duration (newConstructor c_duration_to_msg [type_Duration] true) r;
  let r := addConstructor type_Duration (newConstructor c_msg_to_duration [type_msg_Duration] true) r in
  r ← add_if_known type_int64 (newConstructor c_duration_to_int64 [type_Duration] false) r;
  let r := addConstructor type_Duration (newConstructor c_int64_to_duration [type_int64] true) r in
  r ← add_if_known type_double (newConstructor c_duration_to_double [type_Duration] false) r;
  let r := addConstructor type_Duration (newConstructor c_double_to_duration [type_double] true) r in
  Some (false, r).

(* [typekits/rtt_ros2_rclcpp_typekit/src/ros2_time_type.cpp:36-81] installTypeInfoObject *)
Definition TimeTypeInfo_installTypeInfoObject (r : Types) : option (bool * Types) :=
  let r := PrimitiveTypeInfo_installTypeInfoObject type_Time r in
  r ← add_if_known type_msg_Time (newConstructor c_time_to_msg [type_Time] true) r;
  let r := addConstructor type_Time (newConstructor c_msg_to_time [type_msg_Time] true) r in
  r ← add_if_known type_int64 (newConstructor c_time_to_int64 [type_Time] false) r;
  let r := addConstructor type_Time (newConstructor c_int64_to_time [type_int64] true) r in
  let r := addConstructor type_Time (newConstructor c_int64_to_time2 [type_int64; type_clock_type] false) r in
  r ← add_if_known type_double (newConstructor c_time_to_double [type_Time] false) r;
  let r := addConstructor type_Time (newConstructor c_double_to_time [type_double] true) r in
  let r := addConstructor type_Time (newConstructor c_double_to_time2 [type_double; type_clock_type] false) r in
  Some (false, r).

(** One block of the function below: the conversion from a parameter value, if the type
    is known, and the automatic one to it. *)
Definition install_parameter_conversion (t : script_type) (r : Types) : option Types :=
  r ← add_if_known t (newConstructor (c_parameter_value_to t) [type_ParameterValue] false) r;
  Some (addConstructor type_ParameterValue (newConstructor (c_to_parameter_value t) [t] true) r).

(** It also becomes the stream factory of its type (below). *)
(* [typekits/rtt_ros2_rclcpp_typekit/src/ros2_parameter_value_type.cpp:36-164] installTypeInfoObject *)
Definition ParameterValueTypeInfo_installTypeInfoObject (r : Types) : option (bool * Types) :=
  let r := PrimitiveTypeInfo_installTypeInfoObject type_ParameterValue r in
  r ← install_parameter_conversion type_bool r;
  r ← install_parameter_conversion type_int r;
  r ← install_parameter_conversion type_int64 r;
  r ← install_parameter_conversion type_float r;
  r ← install_parameter_conversion type_double r;
  r ← install_parameter_conversion type_string r;
  r ← install_parameter_conversion type_byte_array r;
  r ← install_parameter_conversion type_bool_array r;
  r ← install_parameter_conversion type_bool_array r;
  r ← install_parameter_conversion type_int64_array r;
  r ← install_parameter_conversion type_int_array r;
  r ← install_parameter_conversion type_float_array r;
  r ← install_parameter_conversion type_double_array r;
  r ← install_parameter_conversion type_string_array r;
  Some (false, r).

(* [typekits/rtt_ros2_rclcpp_typekit/src/ros2_parameter_type.cpp:63-80] installTypeInfoObject *)
Definition ParameterTypeInfo_installTypeInfoObject (r : Types) : bool * Types :=
  let r := PrimitiveTypeInfo_installTypeInfoObject type_Parameter r in
  let r := setMemberFactory type_Parameter r in
  let r := addConstructor type_Parameter (newConstructor c_construct1 [type_string] false) r in
  let r := addConstructor type_Parameter (newConstructor c_construct2 [type_string; type_ParameterValue] false) r in
  (false, r).

(* [typekits/rtt_ros2_rclcpp_typekit/src/ros2_node_options_type.cpp:38-51] installTypeInfoObject *)
Definition NodeOptionsTypeInfo_installTypeInfoObject (r : Types) : bool * Types :=
  (false, setMemberFactory type_NodeOptions (PrimitiveTypeInfo_installTypeInfoObject type_NodeOptions r)).
(* [typekits/rtt_ros2_rclcpp_typekit/src/ros2_publisher_options_type.cpp:37-50] installTypeInfoObject *)
Definition PublisherOptionsBaseTypeInfo_installTypeInfoObject (r : Types) : bool * Types :=
  (false, setMemberFactory type_PublisherOptionsBase
            (PrimitiveTypeInfo_installTypeInfoObject type_PublisherOptionsBase r)).
(* [typekits/rtt_ros2_rclcpp_typekit/src/ros2_qos_type.cpp:38-51] installTypeInfoObject *)
Definition QoSTypeInfo_installTypeInfoObject (r : Types) : bool * Types :=
  (false, setMemberFactory type_QoS (PrimitiveTypeInfo_installTypeInfoObject type_QoS r)).

(** ** The plugin *)

(** [addType] has the type info object install itself. The sequence, enumeration and
    primitive type info objects are RTT's own. *)
(* [typekits/rtt_ros2_rclcpp_typekit/src/rtt_ros2_rclcpp_typekit.cpp:45-80] loadTypes *)
Definition rclcpp_loadTypes (r : Types) : option (bool * Types) :=
  '(_, r) ← DurationTypeInfo_installTypeInfoObject (addType type_Duration r);
  '(_, r) ← TimeTypeInfo_installTypeInfoObject (addType type_Time r);
  let '(_, r) := NodeOptionsTypeInfo_installTypeInfoObject (addType type_NodeOptions r) in
  let '(_, r) := ParameterTypeInfo_installTypeInfoObject (addType type_Parameter r) in
  let r := addType type_Parameters r in
  '(_, r) ← ParameterValueTypeInfo_installTypeInfoObject (addType type_ParameterValue r);
  let '(_, r) := PublisherOptionsBaseTypeInfo_installTypeInfoObject (addType type_PublisherOptionsBase r) in
  let '(_, r) := QoSTypeInfo_installTypeInfoObject (addType type_QoS r) in
  let r := addType type_IntraProcessSetting r in
  let r := addType type_PublisherEventCallbacks r in
  let r := addType type_CallbackGroup r in
  let r := addType type_Payload r in
  let r := addType type_rmw_time_t r in
  let r := addType type_rcl_allocator_t r in
  let r := addType type_clock_type r in
  let r := addType type_history r in
  let r := addType type_reliability r in
  let r := addType type_durability r in
  let r := addType type_liveliness r in
  Some (true, r).

(* [typekits/rtt_ros2_rclcpp_typekit/src/rtt_ros2_rclcpp_typekit.cpp:100-113] loadConstructors *)
Definition loadConstructors (r : Types) : option (bool * Types) :=
  r ← add_to_known type_rmw_time_t (newConstructor c_double_to_rmw_time_t [type_double] false) r;
  r ← add_to_known type_double (newConstructor c_rmw_time_t_to_double [type_rmw_time_t] false) r;
  r ← add_to_known type_rmw_time_t (newConstructor c_uint64_to_rmw_time_t [type_uint64] false) r;
  r ← add_to_known type_uint64 (newConstructor c_rmw_time_t_to_uint64 [type_rmw_time_t] false) r;
  Some (true, r).

(** RTT loads a typekit in this order. *)
Definition load_rclcpp (r : Types) : option Types :=
  '(_, r) ← rclcpp_loadTypes r; '(_, r) ← loadConstructors r; Some r.
End Plugin.

(** The stream factory of parameter values: they are written as rclcpp's [to_string]
    gives them, if the data source has one, and cannot be read. *)
Section Streams.
Context {ostream istream ParameterValue : Type}.
Variable put_string : ostream -> string -> ostream.
Variable set_failbit : istream -> istream.
Variable to_string : ParameterValue -> string.

(* [typekits/rtt_ros2_rclcpp_typekit/src/ros2_parameter_value_type.cpp:166-176] write *)
Definition ParameterValueTypeInfo_write (os : ostream) (d : option ParameterValue) : ostream :=
  match d with Some v => put_string os (to_string v) | None => os end.
(* [typekits/rtt_ros2_rclcpp_typekit/src/ros2_parameter_value_type.cpp:178-185] read *)
Definition ParameterValueTypeInfo_read {Out : Type} (i : istream) (out : Out) : istream * Out := (set_failbit i, out).
End Streams.

(** Functors of [time_operators.hpp]. *)
(* [typekits/rtt_ros2_rclcpp_typekit/src/rtt_ros2_rclcpp_typekit.cpp:82-98] loadOperators *)
Definition rclcpp_loadOperators (operators : list (operator script_type)) : bool * list (operator script_type) :=
  (true, operators ++
    [MkOperator "+" [type_Duration; type_Duration] type_Duration;
     MkOperator "-" [type_Duration; type_Duration] type_Duration;
     MkOperator "+" [type_Time; type_Duration] type_Time;
     MkOperator "-" [type_Time; type_Duration] type_Time;
     MkOperator "-" [type_Time; type_Time] type_Duration]).

(** A constant is its name with its type and enumerator. *)
Abbreviation constant := (string * (script_type * string))%type.
Definition addConstant (t : script_type) (name value : string) (globals : list constant) : list constant :=
  globals ++ [(name, (t, value))].
(** Constants named like their enumerators. *)
Definition addConstants (t : script_type) (names : list string) (globals : list constant) : list constant :=
  fold_left (fun g n => addConstant t n n g) names globals.

(* [typekits/rtt_ros2_rclcpp_typekit/src/rtt_ros2_rclcpp_typekit.cpp:115-196] loadGlobals *)
Definition rclcpp_loadGlobals (globals : list constant) : bool * list constant :=
  let globals := addConstant type_IntraProcessSetting "IntraProcessSettingEnable" "Enable" globals in
  let globals := addConstant type_IntraProcessSetting "IntraProcessSettingDisable" "Disable" globals in
  let globals := addConstant type_IntraProcessSetting "IntraProcessSettingNodeDefault" "NodeDefault" globals in
  let globals := addConstants type_clock_type
    ["RCL_CLOCK_UNINITIALIZED"; "RCL_ROS_TIME"; "RCL_SYSTEM_TIME"; "RCL_STEADY_TIME"] globals in
  let globals := addConstants type_reliability
    ["RMW_QOS_POLICY_RELIABILITY_SYSTEM_DEFAULT"; "RMW_QOS_POLICY_RELIABILITY_RELIABLE";
     "RMW_QOS_POLICY_RELIABILITY_BEST_EFFORT"; "RMW_QOS_POLICY_RELIABILITY_UNKNOWN"] globals in
  let globals := addConstants type_history
    ["RMW_QOS_POLICY_HISTORY_SYSTEM_DEFAULT"; "RMW_QOS_POLICY_HISTORY_KEEP_LAST";
     "RMW_QOS_POLICY_HISTORY_KEEP_ALL"; "RMW_QOS_POLICY_HISTORY_UNKNOWN"] globals in
  let globals := addConstants type_durability
    ["RMW_QOS_POLICY_DURABILITY_SYSTEM_DEFAULT"; "RMW_QOS_POLICY_DURABILITY_TRANSIENT_LOCAL";
     "RMW_QOS_POLICY_DURABILITY_VOLATILE"; "RMW_QOS_POLICY_DURABILITY_UNKNOWN"] globals in
  let globals := addConstants type_liveliness
    ["RMW_QOS_POLICY_LIVELINESS_SYSTEM_DEFAULT"; "RMW_QOS_POLICY_LIVELINESS_AUTOMATIC";
     "RMW_QOS_POLICY_LIVELINESS_MANUAL_BY_NODE"; "RMW_QOS_POLICY_LIVELINESS_MANUAL_BY_TOPIC";
     "RMW_QOS_POLICY_LIVELINESS_UNKNOWN"] globals in
  (true, globals).

(** ** What the plugin adds *)

(** The types the conversions are for, which RTT and the typekit of the standard
    messages must have registered before. *)
Definition needed_types : list script_type :=
  [type_bool; type_int; type_int64; type_uint64; type_float; type_double; type_string;
   type_byte_array; type_bool_array; type_int64_array; type_int_array; type_float_array;
   type_double_array; type_string_array; type_msg_Time; type_msg_Duration].

Definition rclcpp_types : list script_type :=
  [type_Duration; type_Time; type_NodeOptions; type_Parameter; type_Parameters; type_ParameterValue;
   type_PublisherOptionsBase; type_QoS; type_IntraProcessSetting; type_PublisherEventCallbacks;
   type_CallbackGroup; type_Payload; type_rmw_time_t; type_rcl_allocator_t; type_clock_type;
   type_history; type_reliability; type_durability; type_liveliness].

(** The calls of the loaders, if all types are there. *)
Definition explicit_to (t : script_type) (f : conversion) (from : script_type) : step script_type conversion :=
  AddConstructor t (newConstructor f [from] false).
Definition automatic_to (t : script_type) (f : conversion) (from : script_type) : step script_type conversion :=
  AddConstructor t (newConstructor f [from] true).

Definition duration_steps : list (step script_type conversion) :=
  [Install type_Duration;
   automatic_to type_msg_Duration c_duration_to_msg type_Duration;
   automatic_to type_Duration c_msg_to_duration type_msg_Duration;
   explicit_to type_int64 c_duration_to_int64 type_Duration;
   automatic_to type_Duration c_int64_to_duration type_int64;
   explicit_to type_double c_duration_to_double type_Duration;
   automatic_to type_Duration c_double_to_duration type_double].

Definition time_steps : list (step script_type conversion) :=
  [Install type_Time;
   automatic_to type_msg_Time c_time_to_msg type_Time;
   automatic_to type_Time c_msg_to_time type_msg_Time;
   explicit_to type_int64 c_time_to_int64 type_Time;
   automatic_to type_Time c_int64_to_time type_int64;
   AddConstructor type_Time (newConstructor c_int64_to_time2 [type_int64; type_clock_type] false);
   explicit_to type_double c_time_to_double type_Time;
   automatic_to type_Time c_double_to_time type_double;
   AddConstructor type_Time (newConstructor c_double_to_time2 [type_double; type_clock_type] false)].

(** The types a parameter value is converted from, in the order of their registration. *)
Definition parameter_types : list script_type :=
  [type_bool; type_int; type_int64; type_float; type_double; type_string; type_byte_array;
   type_bool_array; type_bool_array; type_int64_array; type_int_array; type_float_array;
   type_double_array; type_string_array].

Definition parameter_value_steps : list (step script_type conversion) :=
  Install type_ParameterValue ::
  (t ← parameter_types;
   [explicit_to t (c_parameter_value_to t) type_ParameterValue;
    automatic_to type_ParameterValue (c_to_parameter_value t) t]).

Definition type_steps : list (step script_type conversion) :=
  [AddType type_Duration] ++ duration_steps ++ [AddType type_Time] ++ time_steps ++
  [AddType type_NodeOptions; Install type_NodeOptions; SetMemberFactory type_NodeOptions;
   AddType type_Parameter; Install type_Parameter; SetMemberFactory type_Parameter;
   explicit_to type_Parameter c_construct1 type_string;
   AddConstructor type_Parameter (newConstructor c_construct2 [type_string; type_ParameterValue] false);
   AddType type_Parameters; AddType type_ParameterValue] ++ parameter_value_steps ++
  [AddType type_PublisherOptionsBase; Install type_PublisherOptionsBase; SetMemberFactory type_PublisherOptionsBase;
   AddType type_QoS; Install type_QoS; SetMemberFactory type_QoS] ++
  (AddType <$> [type_IntraProcessSetting; type_PublisherEventCallbacks; type_CallbackGroup; type_Payload;
    type_rmw_time_t; type_rcl_allocator_t; type_clock_type; type_history; type_reliability; type_durability;
    type_liveliness]).
Definition load_steps : list (step script_type conversion) :=
  type_steps ++
  [explicit_to type_rmw_time_t c_double_to_rmw_time_t type_double;
   explicit_to type_double c_rmw_time_t_to_double type_rmw_time_t;
   explicit_to type_rmw_time_t c_uint64_to_rmw_time_t type_uint64;
   explicit_to type_uint64 c_rmw_time_t_to_uint64 type_rmw_time_t].

Section Loading.
Context {TR : ScriptTypes} {TRL : TypeRepositoryLaws TR}.
Variable ndebug : bool.

Definition all_needed (r : Types) : Prop := forall t, t ∈ needed_types -> getTypeInfo r t = true.

Lemma all_needed_run l r : all_needed r -> all_needed (run_steps l r).
Proof. intros H t Ht. by apply run_steps_known, H. Qed.

Lemma add_if_known_Some (t : script_type) (c : constructor) (r : Types) :
  getTypeInfo r t = true -> add_if_known ndebug t c r = Some (addConstructor t c r).
Proof. intros H. unfold add_if_known. by rewrite H. Qed.

Ltac is_needed :=
  rewrite ?addConstructor_known, ?install_known;
  match goal with H : all_needed _ |- _ => apply H; apply (bool_decide_unpack _); vm_compute; exact I end.
Ltac install_step := rewrite add_if_known_Some by is_needed; cbn [mbind option_bind].

Lemma Duration_installs (r : Types) :
  all_needed r -> DurationTypeInfo_installTypeInfoObject ndebug r = Some (false, run_steps duration_steps r).
Proof. intros Hr. unfold DurationTypeInfo_installTypeInfoObject. cbn zeta. by do 3 install_step. Qed.

Lemma Time_installs (r : Types) :
  all_needed r -> TimeTypeInfo_installTypeInfoObject ndebug r = Some (false, run_steps time_steps r).
Proof. intros Hr. unfold TimeTypeInfo_installTypeInfoObject. cbn zeta. by do 3 install_step. Qed.

Lemma parameter_conversion_installs (t : script_type) (r : Types) :
  getTypeInfo r t = true ->
  install_parameter_conversion ndebug t r =
    Some (run_steps [explicit_to t (c_parameter_value_to t) type_ParameterValue;
                     automatic_to type_ParameterValue (c_to_parameter_value t) t] r).
Proof. intros Ht. unfold install_parameter_conversion. by rewrite add_if_known_Some. Qed.

Lemma ParameterValue_installs (r : Types) :
  all_needed r ->
  ParameterValueTypeInfo_installTypeInfoObject ndebug r = Some (false, run_steps parameter_value_steps r).
Proof.
  intros Hr. unfold ParameterValueTypeInfo_installTypeInfoObject. cbn zeta.
  change (PrimitiveTypeInfo_installTypeInfoObject type_ParameterValue r)
    with (run_steps [Install type_ParameterValue] r).
  do 14 (rewrite parameter_conversion_installs
    by (repeat apply run_steps_known; apply Hr; apply (bool_decide_unpack _); vm_compute; exact I);
    cbn [mbind option_bind]).
  by rewrite <- !run_steps_app.
Qed.

Lemma all_needed_grows a r r' : grows a r r' -> all_needed r -> all_needed r'.
Proof. intros Hg H t Ht. by apply (grows_known a r), H. Qed.

(** Calls before a loader do not take types away. *)
Ltac still_needed :=
  repeat match goal with
  | H : all_needed ?r |- all_needed ?r => exact H
  | |- all_needed (run_steps _ _) => apply all_needed_run
  | |- all_needed (addType ?t ?r) => apply (all_needed_grows _ r _ (grows_addType t r))
  | |- all_needed (addConstructor ?t ?c ?r) => apply (all_needed_grows _ r _ (grows_addConstructor t c r))
  | |- all_needed (PrimitiveTypeInfo_installTypeInfoObject ?t ?r) =>
      apply (all_needed_grows _ r _ (grows_install t r))
  | |- all_needed (setMemberFactory ?t ?r) => apply (all_needed_grows _ r _ (grows_setMemberFactory t r))
  end.

Lemma rclcpp_loadTypes_steps (r : Types) :
  all_needed r ->
  exists r', rclcpp_loadTypes ndebug r = Some (true, r') /\ all_needed r' /\
    getTypeInfo r' type_rmw_time_t = true /\
    r' = run_steps type_steps r.
Proof.
  intros Hr. unfold rclcpp_loadTypes.
  rewrite Duration_installs by still_needed. cbn [mbind option_bind].
  rewrite Time_installs by still_needed. cbn [mbind option_bind].
  unfold NodeOptionsTypeInfo_installTypeInfoObject, ParameterTypeInfo_installTypeInfoObject,
    PublisherOptionsBaseTypeInfo_installTypeInfoObject, QoSTypeInfo_installTypeInfoObject. cbn zeta.
  rewrite ParameterValue_installs by still_needed. cbn [mbind option_bind].
  eexists. split_and!; [reflexivity|still_needed|by rewrite !addType_known|].
  unfold type_steps. rewrite !run_steps_app. reflexivity.
Qed.

Lemma load_rclcpp_steps (r : Types) :
  all_needed r -> load_rclcpp ndebug r = Some (run_steps load_steps r).
Proof.
  intros Hr. destruct (rclcpp_loadTypes_steps r Hr) as (r' & E & Hn & Ht & Er).
  unfold load_rclcpp. rewrite E. cbn [mbind option_bind]. unfold loadConstructors, add_to_known.
  assert (getTypeInfo r' type_double = true /\ getTypeInfo r' type_uint64 = true) as [Hd Hu]
    by (split; apply Hn; apply (bool_decide_unpack _); vm_compute; exact I).
  repeat (rewrite ?addConstructor_known, ?Ht, ?Hd, ?Hu; cbn [mbind option_bind]). f_equal.
  unfold load_steps. rewrite run_steps_app, <- Er. reflexivity.
Qed.

(** What the added constructors of a type convert from on their own. *)
Lemma added_conversions (t : script_type) (r r' : Types) (from : script_type) :
  grows (effect_of_steps load_steps) r r' -> constructors r t = [] ->
  convert r' t from =
    first_accepting (automatic_of (registered_for t (new_constructors (effect_of_steps load_steps)))) from.
Proof. intros Hg Hf. destruct (Hg t) as (_ & C & _). by rewrite convert_automatic, C, Hf. Qed.

(** The conversions from a type of this package to the types of other typekits. *)
Definition foreign_constructors : list (script_type * constructor) :=
  filter (fun e => e.1 ∉ rclcpp_types) (new_constructors (effect_of_steps load_steps)).

(** C30 -- Loading the rclcpp typekit after the types it converts from and to registers its nineteen types, with member factories for the four that have members. From then on RTT makes a parameter value, a time or a duration of another value by the first conversion whose argument accepts it: for times and durations the message, then an int64 as nanoseconds, then a double as seconds; for parameter values in the order bool, int, int64, float, double, string and the arrays. The other way, no conversion out of a type of this package is implicit, except to its message. In a debug build, loading stops if the messages of builtin_interfaces are unknown. *)
Theorem rclcpp_typekit_loads (r : Types) :
  (all_needed r -> (forall t, t ∈ rclcpp_types -> constructors r t = []) ->
   exists r', load_rclcpp ndebug r = Some r' /\
     (forall t, getTypeInfo r' t = bool_decide (t ∈ rclcpp_types) || getTypeInfo r t) /\
     (forall t, hasMemberFactory r' t =
        bool_decide (t ∈ [type_NodeOptions; type_Parameter; type_PublisherOptionsBase; type_QoS]) ||
        hasMemberFactory r t) /\
     (forall from,
        convert r' type_Time from =
          first_accepting [(type_msg_Time, c_msg_to_time); (type_int64, c_int64_to_time);
                           (type_double, c_double_to_time)] from /\
        convert r' type_Duration from =
          first_accepting [(type_msg_Duration, c_msg_to_duration); (type_int64, c_int64_to_duration);
                           (type_double, c_double_to_duration)] from /\
        convert r' type_ParameterValue from =
          first_accepting ((fun t => (t, c_to_parameter_value t)) <$> parameter_types) from /\
        convert r' type_Parameter from = None /\ convert r' type_rmw_time_t from = None) /\
     (forall t, t ∉ rclcpp_types ->
        constructors r' t = constructors r t ++ registered_for t foreign_constructors)) /\
  (forall e, e ∈ foreign_constructors -> automatic e.2 = true ->
     e = (type_msg_Duration, newConstructor c_duration_to_msg [type_Duration] true) \/
     e = (type_msg_Time, newConstructor c_time_to_msg [type_Time] true)) /\
  (ndebug = false -> getTypeInfo r type_msg_Duration = false -> load_rclcpp ndebug r = None).
Proof.
  split_and!.
  - intros Hn Hf. pose proof (run_steps_grows load_steps r) as Hg.
    exists (run_steps load_steps r). split; [by apply load_rclcpp_steps|].
    set (r' := run_steps load_steps r) in *. clearbody r'. split_and!.
    + intros t. by destruct (Hg t) as (-> & _).
    + intros t. by destruct (Hg t) as (_ & _ & ->).
    + intros from. rewrite !(added_conversions _ r r' from Hg) by (apply Hf; apply (bool_decide_unpack _); vm_compute; exact I).
      split_and!; reflexivity.
    + intros t Ht. destruct (Hg t) as (_ & -> & _). f_equal. unfold foreign_constructors, registered_for.
      rewrite list_filter_filter. f_equal. apply list_filter_iff. intros [t' c]. cbn. naive_solver.
  - intros e He Ha.
    assert (forallb (fun e : script_type * constructor => negb (automatic e.2) ||
              bool_decide (e ∈ [(type_msg_Duration, newConstructor c_duration_to_msg [type_Duration] true);
                                (type_msg_Time, newConstructor c_time_to_msg [type_Time] true)]))
              foreign_constructors = true) as H by (vm_compute; reflexivity).
    rewrite forallb_forall in H. specialize (H e (proj1 (list_elem_of_In _ _) He)).
    rewrite Ha in H. cbn in H. apply bool_decide_eq_true in H.
    rewrite !elem_of_cons, elem_of_nil in H. tauto.
  - intros -> Hu. unfold load_rclcpp, rclcpp_loadTypes, DurationTypeInfo_installTypeInfoObject, add_if_known.
    by rewrite install_known, addType_known, Hu.
Qed.
End Loading.

(** Operators and constants are unambiguous: an operator is determined by its symbol and
    the types of its operands, a constant by its name; and a constant of an
    enumeration of the middleware is named like its enumerator. *)
Lemma rclcpp_operators_and_constants (ops : list (operator script_type)) (globals : list constant) :
  exists new_ops new_globals,
    rclcpp_loadOperators ops = (true, ops ++ new_ops) /\
    rclcpp_loadGlobals globals = (true, globals ++ new_globals) /\
    NoDup (operator_key <$> new_ops) /\ NoDup (fst <$> new_globals) /\ length new_globals = 24 /\
    forallb (fun o => forallb (fun t => bool_decide (t ∈ rclcpp_types)) (op_type o :: op_operands o)) new_ops = true /\
    forallb (fun c : constant => bool_decide (c.2.1 = type_IntraProcessSetting) || bool_decide (c.1 = c.2.2))
      new_globals = true.
Proof.
  exists (rclcpp_loadOperators []).2, (rclcpp_loadGlobals []).2. split_and!; try (vm_compute; reflexivity).
  - unfold rclcpp_loadGlobals, addConstants, addConstant. cbn [fold_left]. by rewrite <- !app_assoc.
  - apply (bool_decide_unpack _). vm_compute. exact I.
  - apply (bool_decide_unpack _). vm_compute. exact I.
Qed.

(** ** The theorems at work *)

Module Witnesses.

(** A repository that knows the types of RTT and of builtin_interfaces, where RTT takes
    an int64 for a double, and an int for both. *)
Definition ref_script_types : ScriptTypes :=
  ref_types (fun t => bool_decide (t ∈ needed_types))
    (fun a b => bool_decide ((a, b) ∈ [(type_double, type_int64); (type_double, type_int); (type_int64, type_int)])).

Lemma rclcpp_typekit_loads_witness :
  exists r', load_rclcpp (TR := ref_script_types) false (MkRepository [] [] []) = Some r' /\
    convert (TypeRepository := ref_script_types) r' type_Time type_int64 = Some c_int64_to_time /\
    convert (TypeRepository := ref_script_types) r' type_ParameterValue type_int64 =
      Some (c_to_parameter_value type_int64).
Proof.
  destruct (rclcpp_typekit_loads (TR := ref_script_types) (TRL := ref_types_laws _ _) false (MkRepository [] [] []))
    as [H _].
  destruct H as (r' & E & _ & _ & H & _).
  - intros t Ht. cbn. rewrite orb_true_iff, !bool_decide_eq_true. right. exact Ht.
  - reflexivity.
  - exists r'. split; [exact E|]. destruct (H type_int64) as (HT & _ & HP & _).
    split; [rewrite HT; reflexivity|rewrite HP; reflexivity].
Defined.

End Witnesses.
