(* ===== verification/TypekitMembers.v ===== *)
(** Members of the option types of [rtt_ros2_rclcpp_typekit]
    ([ros2_node_options_type.cpp], [ros2_qos_type.cpp],
    [ros2_publisher_options_type.cpp], [ros2_parameter_type.cpp]) and the data source
    they use for objects with getters and setters
    ([rtt_ros2/include/orocos/rtt_ros2/getter_setter_datasource.hpp]).

    RTT reads and writes the members of an object through data sources, which refer
    to the object and may outlive the call that made them. The memory [M] holds the
    objects that are alive, by address; an access to any other address is undefined
    behaviour, [None] below. The types themselves ([rclcpp::NodeOptions], ...) are a
    class of getters and setters per member. *)

From S2P Require Import Prelude.
Local Open Scope string_scope.
Local Open Scope list_scope.

(** ** Objects with members *)

Class Object (field : Type) := {
  object : Type;
  field_type : field -> Type;
  get_field : forall f, object -> field_type f;
  set_field : forall f, object -> field_type f -> object;
  (** [RTT::internal::NA<T>::na()], the default value of a type. *)
  na : forall f, field_type f }.
Arguments object field {_}.

Class ObjectLaws (field : Type) (OB : Object field) := {
  get_set_same f o v : get_field f (set_field f o v) = v;
  get_set_other f g o v : f <> g -> get_field g (set_field f o v) = get_field g o }.

(** What is passed to [getMember]: an assignable data source of the object at an
    address, one that can only be read and yields an object, or another type. *)
Inductive item (O : Type) :=
| AssignableItem (address : nat)
| ReadOnlyItem (value : O)
| OtherItem.
Arguments AssignableItem {O} address.
Arguments ReadOnlyItem {O} value.
Arguments OtherItem {O}.

Section DataSources.
Context {O : Type}.
Abbreviation M := (gmap nat O).

(** The address [adata] of the object, which is a fresh copy for an item that can
    only be read. *)
Definition narrow_item (i : item O) (m : M) : option (nat * M) :=
  match i with
  | AssignableItem a => Some (a, m)
  | ReadOnlyItem o => let a := fresh (dom m) in Some (a, <[a := o]> m)
  | OtherItem => None
  end.

(** The reference [adata] goes out of scope and nothing else holds the copy. *)
Definition release (i : item O) (a : nat) (m : M) : M :=
  match i with ReadOnlyItem _ => delete a m | _ => m end.

(** *** [GetterSetterDataSource<ObjectT, FieldT>] *)

(* [rtt_ros2/include/orocos/rtt_ros2/getter_setter_datasource.hpp:171-176] GetterSetterDataSource::object_ *)
Record GetterSetterDataSource (FieldT : Type) := MkGetterSetter {
  object_ : nat;
  getter_ : O -> FieldT;
  setter_ : O -> FieldT -> O;
  value_ : FieldT }.
Arguments MkGetterSetter {FieldT}.
Arguments object_ {FieldT} _.
Arguments getter_ {FieldT} _ _.
Arguments setter_ {FieldT} _ _ _.
Arguments value_ {FieldT} _.

Context {FieldT : Type}.
Implicit Type this : GetterSetterDataSource FieldT.

Definition set_value_ (v : FieldT) this : GetterSetterDataSource FieldT :=
  MkGetterSetter (object_ this) (getter_ this) (setter_ this) v.

(* [rtt_ros2/include/orocos/rtt_ros2/getter_setter_datasource.hpp:53-67] GetterSetterDataSource *)
Definition GetterSetterDataSource_ctor (object : nat) (getter : O -> FieldT)
    (setter : O -> FieldT -> O) (default_value : FieldT) : GetterSetterDataSource FieldT :=
  MkGetterSetter object getter setter default_value.

(* [rtt_ros2/include/orocos/rtt_ros2/getter_setter_datasource.hpp:75-79] get *)
Definition gs_get this (m : M) : option (FieldT * GetterSetterDataSource FieldT) :=
  o ← m !! object_ this;
  let this := set_value_ (getter_ this o) this in
  Some (value_ this, this).

(* [rtt_ros2/include/orocos/rtt_ros2/getter_setter_datasource.hpp:86-89] value *)
Definition gs_value this : FieldT := value_ this.

(* [rtt_ros2/include/orocos/rtt_ros2/getter_setter_datasource.hpp:97-100] rvalue *)
Definition gs_rvalue this : FieldT := value_ this.

(* [rtt_ros2/include/orocos/rtt_ros2/getter_setter_datasource.hpp:132-136] updated *)
Definition gs_updated this (m : M) : option M :=
  o ← m !! object_ this; Some (<[object_ this := setter_ this o (value_ this)]> m).

(* [rtt_ros2/include/orocos/rtt_ros2/getter_setter_datasource.hpp:105-109] set *)
Definition gs_set this (t : FieldT) (m : M) : option (GetterSetterDataSource FieldT * M) :=
  let this := set_value_ t this in
  m ← gs_updated this m; Some (this, m).

(** A write through the reference [set()] returns changes the cached value alone. *)
(* [rtt_ros2/include/orocos/rtt_ros2/getter_setter_datasource.hpp:115-118] set *)
Definition gs_set_ref this (write : FieldT -> FieldT) : GetterSetterDataSource FieldT :=
  set_value_ (write (value_ this)) this.

(* [rtt_ros2/include/orocos/rtt_ros2/getter_setter_datasource.hpp:120-125] evaluate *)
Definition gs_evaluate this (m : M) : option (bool * GetterSetterDataSource FieldT) :=
  o ← m !! object_ this; Some (true, set_value_ (getter_ this o) this).

(** [default_value] is the default argument, [na]. *)
(* [rtt_ros2/include/orocos/rtt_ros2/getter_setter_datasource.hpp:138-141] clone *)
Definition gs_clone (default_value : FieldT) this : GetterSetterDataSource FieldT :=
  GetterSetterDataSource_ctor (object_ this) (getter_ this) (setter_ this) default_value.

(** A [PartDataSource] on this data source as parent, as a nested member access
    makes it: [set] writes the part in the referenced value, then calls [updated]
    of the parent. *)
Definition nested_set this (write : FieldT -> FieldT) (m : M)
    : option (GetterSetterDataSource FieldT * M) :=
  let this := gs_set_ref this write in
  m ← gs_updated this m; Some (this, m).

(** [copy]: the data sources of this class by their addresses, and RTT's map of the
    copies made so far. [copy_object] is the [copy] of the object's data source with
    this map. [None] is a failed assertion: what the map has is not of this class. *)
Abbreviation DataSources := (gmap nat (GetterSetterDataSource FieldT)).
Variable copy_object : nat -> gmap nat nat -> nat * gmap nat nat.

(* [rtt_ros2/include/orocos/rtt_ros2/getter_setter_datasource.hpp:143-160] copy *)
Definition gs_copy (default_value : FieldT) (address : nat) (replace : gmap nat nat) (h : DataSources) :
    option (nat * gmap nat nat * DataSources) :=
  match replace !! address with
  | Some c => match h !! c with Some _ => Some (c, replace, h) | None => None end
  | None =>
      this ← h !! address;
      let '(object_copy, replace) := copy_object (object_ this) replace in
      let c := fresh (dom h) in
      Some (c, <[address := c]> replace,
            <[c := GetterSetterDataSource_ctor object_copy (getter_ this) (setter_ this) default_value]> h)
  end.

(** A copy is made once per map: the first call makes a new data source with the same
    getter and setter on the copy of the object, and every later call with the same
    map returns it; the original is not touched. *)
Lemma gs_copy_once (default_value : FieldT) (address : nat) (replace : gmap nat nat) (h : DataSources) this :
  h !! address = Some this -> replace !! address = None ->
  exists c replace' h', gs_copy default_value address replace h = Some (c, replace', h') /\
    h !! c = None /\ h' !! address = Some this /\
    h' !! c = Some (MkGetterSetter (copy_object (object_ this) replace).1 (getter_ this) (setter_ this) default_value) /\
    gs_copy default_value address replace' h' = Some (c, replace', h').
Proof.
  intros Hh Hr. unfold gs_copy at 1. rewrite Hr, Hh. cbn.
  destruct (copy_object (object_ this) replace) as [o' r'] eqn:E.
  assert (h !! fresh (dom h) = None) as Hf by (apply not_elem_of_dom, is_fresh).
  do 3 eexists. split; [reflexivity|]. split; [exact Hf|]. split_and!.
  - rewrite lookup_insert_ne; [done|]. intros Heq. by rewrite Heq, Hh in Hf.
  - by rewrite lookup_insert_eq.
  - unfold gs_copy. by rewrite !lookup_insert_eq.
Qed.
End DataSources.

Arguments GetterSetterDataSource O FieldT : clear implicits.
Arguments object_ {O FieldT} _.

(** *** [PartDataSource]: a reference to a member of the object at an address *)

Record PartDataSource (field : Type) := MkPart { referenced : nat; part : field }.
Arguments MkPart {field}.
Arguments referenced {field} _.
Arguments part {field} _.

Section Parts.
Context {field : Type} `{OB : Object field}.
Abbreviation M := (gmap nat (object field)).

Definition part_get (p : PartDataSource field) (m : M) : option (field_type (part p)) :=
  o ← m !! referenced p; Some (get_field (part p) o).
Definition part_set (p : PartDataSource field) (v : field_type (part p)) (m : M) : option M :=
  o ← m !! referenced p; Some (<[referenced p := set_field (part p) o v]> m).
End Parts.

(** ** [rclcpp::NodeOptions] *)

(* [typekits/rtt_ros2_rclcpp_typekit/src/ros2_node_options_type.cpp:57-73] NodeOptionsTypeInfo::getMemberNames *)
Definition NodeOptionsTypeInfo_getMemberNames : list string :=
  ["context"; "arguments"; "parameter_overrides"; "use_global_arguments";
   "use_intra_process_comms"; "start_parameter_services"; "start_parameter_event_publisher";
   "parameter_event_qos"; "parameter_event_publisher_options"; "allow_undeclared_parameters";
   "automatically_declare_parameters_from_overrides"; "allocator"].

Inductive node_option :=
| context | arguments | parameter_overrides | use_global_arguments | use_intra_process_comms
| start_parameter_services | start_parameter_event_publisher | parameter_event_qos
| parameter_event_publisher_options | allow_undeclared_parameters
| automatically_declare_parameters_from_overrides | allocator.
#[export] Instance node_option_eq_dec : EqDecision node_option.
Proof. solve_decision. Defined.

Section NodeOptions.
Context `{OB : Object node_option}.

(* [typekits/rtt_ros2_rclcpp_typekit/src/ros2_node_options_type.cpp:75-245] NodeOptionsTypeInfo::getMember *)
Definition NodeOptionsTypeInfo_getMember (item : item (object node_option)) (part_name : string)
    (m : gmap nat (object node_option))
    : option {f : node_option & GetterSetterDataSource (object node_option) (field_type f)} *
      gmap nat (object node_option) :=
  match narrow_item item m with
  | None => (None, m)
  | Some (adata, m) =>
      let DataSourceT f :=
        (Some (existT f (GetterSetterDataSource_ctor adata (get_field f) (set_field f) (na f))), m) in
      if decide (part_name = "context") then DataSourceT context else
      if decide (part_name = "arguments") then DataSourceT arguments else
      if decide (part_name = "parameter_overrides") then DataSourceT parameter_overrides else
      if decide (part_name = "use_global_arguments") then DataSourceT use_global_arguments else
      if decide (part_name = "use_intra_process_comms") then DataSourceT use_intra_process_comms else
      if decide (part_name = "start_parameter_services") then DataSourceT start_parameter_services else
      if decide (part_name = "start_parameter_event_publisher")
      then DataSourceT start_parameter_event_publisher else
      if decide (part_name = "parameter_event_qos") then DataSourceT parameter_event_qos else
      if decide (part_name = "parameter_event_publisher_options")
      then DataSourceT parameter_event_publisher_options else
      if decide (part_name = "allow_undeclared_parameters")
      then DataSourceT allow_undeclared_parameters else
      if decide (part_name = "automatically_declare_parameters_from_overrides")
      then DataSourceT automatically_declare_parameters_from_overrides else
      if decide (part_name = "allocator") then DataSourceT allocator else
      (None, release item adata m)
  end.
End NodeOptions.

(** ** [rclcpp::QoS] *)

(* [typekits/rtt_ros2_rclcpp_typekit/src/ros2_qos_type.cpp:54-67] QoSTypeInfo::getMemberNames *)
Definition QoSTypeInfo_getMemberNames : list string :=
  ["history"; "depth"; "reliability"; "durability"; "deadline"; "lifespan"; "liveliness";
   "liveliness_lease_duration"; "avoid_ros_namespace_conventions"].

(** The members of [rmw_qos_profile_t]. *)
Inductive qos_member :=
| history | depth | reliability | durability | deadline | lifespan | liveliness
| liveliness_lease_duration | avoid_ros_namespace_conventions.
#[export] Instance qos_member_eq_dec : EqDecision qos_member.
Proof. solve_decision. Defined.

Section QoS.
Context `{OB : Object qos_member}.

(* [typekits/rtt_ros2_rclcpp_typekit/src/ros2_qos_type.cpp:70-131] QoSTypeInfo::getMember *)
Definition QoSTypeInfo_getMember (item : item (object qos_member)) (name : string)
    (m : gmap nat (object qos_member))
    : option (PartDataSource qos_member) * gmap nat (object qos_member) :=
  match narrow_item item m with
  | None => (None, m)
  | Some (adata, m) =>
      let PartDataSource f := (Some (MkPart adata f), release item adata m) in
      if decide (name = "history") then PartDataSource history else
      if decide (name = "depth") then PartDataSource depth else
      if decide (name = "reliability") then PartDataSource reliability else
      if decide (name = "durability") then PartDataSource durability else
      if decide (name = "deadline") then PartDataSource deadline else
      if decide (name = "lifespan") then PartDataSource lifespan else
      if decide (name = "liveliness") then PartDataSource liveliness else
      if decide (name = "liveliness_lease_duration") then PartDataSource liveliness_lease_duration else
      if decide (name = "avoid_ros_namespace_conventions")
      then PartDataSource avoid_ros_namespace_conventions else
      (None, release item adata m)
  end.
End QoS.

(** ** [rclcpp::PublisherOptionsBase] *)

(* [typekits/rtt_ros2_rclcpp_typekit/src/ros2_publisher_options_type.cpp:56-64] PublisherOptionsBaseTypeInfo::getMemberNames *)
Definition PublisherOptionsBaseTypeInfo_getMemberNames : list string :=
  ["use_intra_process_comm"; "event_callbacks"; "callback_group"; "rmw_implementation_payload"].

Inductive publisher_option :=
| use_intra_process_comm | event_callbacks | callback_group | rmw_implementation_payload.
#[export] Instance publisher_option_eq_dec : EqDecision publisher_option.
Proof. solve_decision. Defined.

Section PublisherOptions.
Context `{OB : Object publisher_option}.

(* [typekits/rtt_ros2_rclcpp_typekit/src/ros2_publisher_options_type.cpp:66-114] PublisherOptionsBaseTypeInfo::getMember *)
Definition PublisherOptionsBaseTypeInfo_getMember (item : item (object publisher_option))
    (part_name : string) (m : gmap nat (object publisher_option))
    : option (PartDataSource publisher_option) * gmap nat (object publisher_option) :=
  match narrow_item item m with
  | None => (None, m)
  | Some (adata, m) =>
      let DataSourceT f := (Some (MkPart adata f), release item adata m) in
      if decide (part_name = "use_intra_process_comm") then DataSourceT use_intra_process_comm else
      if decide (part_name = "event_callbacks") then DataSourceT event_callbacks else
      if decide (part_name = "callback_group") then DataSourceT callback_group else
      if decide (part_name = "rmw_implementation_payload") then DataSourceT rmw_implementation_payload else
      (None, release item adata m)
  end.
End PublisherOptions.

(** ** [rclcpp::Parameter] *)

Class ParameterOps := {
  ParameterT : Type;
  ParameterValue : Type;
  Parameter_ctor1 : string -> ParameterT;
  Parameter_ctor2 : string -> ParameterValue -> ParameterT;
  Parameter_type_name : ParameterT -> string;
  Parameter_name : ParameterT -> string;
  Parameter_value : ParameterT -> ParameterValue }.

Section ParameterMembers.
Context `{PO : ParameterOps}.

(* [typekits/rtt_ros2_rclcpp_typekit/src/ros2_parameter_type.cpp:32-35] get_type_name *)
Definition get_type_name (p : ParameterT) : string := Parameter_type_name p.
(* [typekits/rtt_ros2_rclcpp_typekit/src/ros2_parameter_type.cpp:37-40] get_name *)
Definition get_name (p : ParameterT) : string := Parameter_name p.
(* [typekits/rtt_ros2_rclcpp_typekit/src/ros2_parameter_type.cpp:42-45] get_parameter_value *)
Definition get_parameter_value (p : ParameterT) : ParameterValue := Parameter_value p.
(* [typekits/rtt_ros2_rclcpp_typekit/src/ros2_parameter_type.cpp:47-50] construct1 *)
Definition construct1 (name : string) : ParameterT := Parameter_ctor1 name.
(* [typekits/rtt_ros2_rclcpp_typekit/src/ros2_parameter_type.cpp:52-55] construct2 *)
Definition construct2 (name : string) (value : ParameterValue) : ParameterT :=
  Parameter_ctor2 name value.

(** [newFunctorDataSource(&f, {adata})]: evaluates [f] on the object at [argument],
    which it keeps alive. It cannot be assigned. *)
Inductive functor_result := ResultString (s : string) | ResultValue (v : ParameterValue).
Record FunctorDataSource := newFunctorDataSource {
  function_ : ParameterT -> functor_result;
  argument : nat }.

Definition functor_get (d : FunctorDataSource) (m : gmap nat ParameterT) : option functor_result :=
  p ← m !! argument d; Some (function_ d p).

(* [typekits/rtt_ros2_rclcpp_typekit/src/ros2_parameter_type.cpp:83-90] ParameterTypeInfo::getMemberNames *)
Definition ParameterTypeInfo_getMemberNames : list string := ["type_name"; "name"; "value"].

(* [typekits/rtt_ros2_rclcpp_typekit/src/ros2_parameter_type.cpp:93-126] ParameterTypeInfo::getMember *)
Definition ParameterTypeInfo_getMember (item : item ParameterT) (name : string) (m : gmap nat ParameterT)
    : option FunctorDataSource * gmap nat ParameterT :=
  match narrow_item item m with
  | None => (None, m)
  | Some (adata, m) =>
      if decide (name = "type_name")
      then (Some (newFunctorDataSource (ResultString ∘ get_type_name) adata), m) else
      if decide (name = "name")
      then (Some (newFunctorDataSource (ResultString ∘ get_name) adata), m) else
      if decide (name = "value")
      then (Some (newFunctorDataSource (ResultValue ∘ get_parameter_value) adata), m) else
      (None, release item adata m)
  end.
End ParameterMembers.

(** ** The members of node options *)

Section NodeOptionsMembers.
Context `{OL : ObjectLaws node_option}.
Implicit Type m : gmap nat (object node_option).

(** The option a name stands for. *)
Definition option_name (f : node_option) : string :=
  match f with
  | context => "context" | arguments => "arguments"
  | parameter_overrides => "parameter_overrides"
  | use_global_arguments => "use_global_arguments"
  | use_intra_process_comms => "use_intra_process_comms"
  | start_parameter_services => "start_parameter_services"
  | start_parameter_event_publisher => "start_parameter_event_publisher"
  | parameter_event_qos => "parameter_event_qos"
  | parameter_event_publisher_options => "parameter_event_publisher_options"
  | allow_undeclared_parameters => "allow_undeclared_parameters"
  | automatically_declare_parameters_from_overrides => "automatically_declare_parameters_from_overrides"
  | allocator => "allocator"
  end.

(** The data source [getMember] makes for an option of the object at an address. *)
Definition option_source (f : node_option) (address : nat) :
    GetterSetterDataSource (object node_option) (field_type f) :=
  GetterSetterDataSource_ctor address (get_field f) (set_field f) (na f).

Lemma NodeOptions_getMember_known i (f : node_option) m a m' :
  narrow_item i m = Some (a, m') ->
  NodeOptionsTypeInfo_getMember i (option_name f) m = (Some (existT f (option_source f a)), m').
Proof. intros E. unfold NodeOptionsTypeInfo_getMember. rewrite E. by destruct f. Qed.

Lemma NodeOptions_getMember_unknown i (name : string) m :
  name ∉ NodeOptionsTypeInfo_getMemberNames -> (NodeOptionsTypeInfo_getMember i name m).1 = None.
Proof.
  intros Hn. unfold NodeOptionsTypeInfo_getMember. destruct (narrow_item i m) as [[a m']|]; [|done].
  unfold NodeOptionsTypeInfo_getMemberNames in Hn.
  repeat (rewrite not_elem_of_cons in Hn; destruct Hn as [? Hn]; rewrite decide_False by done).
  done.
Qed.

(** Reading and writing through the data source of an option reaches the option. *)
Lemma option_source_get f a m o :
  m !! a = Some o ->
  gs_get (option_source f a) m = Some (get_field f o, set_value_ (get_field f o) (option_source f a)).
Proof. intros E. unfold gs_get. cbn. by rewrite E. Qed.

Lemma option_source_set f a m o v :
  m !! a = Some o ->
  gs_set (option_source f a) v m =
    Some (set_value_ v (option_source f a), <[a := set_field f o v]> m).
Proof. intros E. unfold gs_set, gs_updated. cbn. by rewrite E. Qed.

Lemma NodeOptions_known_names (name : string) :
  name ∈ NodeOptionsTypeInfo_getMemberNames -> exists f, name = option_name f.
Proof.
  unfold NodeOptionsTypeInfo_getMemberNames. rewrite !elem_of_cons, elem_of_nil.
  intros H. repeat (destruct H as [->|H]; [|]); [..|done].
  exact (ex_intro _ context eq_refl). exact (ex_intro _ arguments eq_refl).
  exact (ex_intro _ parameter_overrides eq_refl). exact (ex_intro _ use_global_arguments eq_refl).
  exact (ex_intro _ use_intra_process_comms eq_refl). exact (ex_intro _ start_parameter_services eq_refl).
  exact (ex_intro _ start_parameter_event_publisher eq_refl). exact (ex_intro _ parameter_event_qos eq_refl).
  exact (ex_intro _ parameter_event_publisher_options eq_refl).
  exact (ex_intro _ allow_undeclared_parameters eq_refl).
  exact (ex_intro _ automatically_declare_parameters_from_overrides eq_refl).
  exact (ex_intro _ allocator eq_refl).
Qed.

(** The object at [a] is [o] with option [f] changed to [v]; the rest of the memory
    is as before. *)
Definition option_changed (f : node_option) (v : field_type f) (a : nat)
    (m m' : gmap nat (object node_option)) : Prop :=
  exists o o', m !! a = Some o /\ m' !! a = Some o' /\ get_field f o' = v /\
    (forall g, g <> f -> get_field g o' = get_field g o) /\
    (forall b, b <> a -> m' !! b = m !! b).

Lemma set_field_changed f v a m o :
  m !! a = Some o -> option_changed f v a m (<[a := set_field f o v]> m).
Proof.
  intros E. exists o. eexists. split; [done|]. split; [apply lookup_insert_eq|].
  split; [apply get_set_same|]. split; intros; [by apply get_set_other|by apply lookup_insert_ne].
Qed.

(** The members of node options: exactly the listed names lead to a member. Through the member of an assignable object, reading gives the value of that option and writing changes that option of that object and nothing else. For an object that can only be read, the member works on a copy at a new address that stays alive: a write is read back, and no existing object changes. *)
Theorem node_options_members (i : item (object node_option)) (name : string) (m : gmap nat (object node_option)) :
  ((NodeOptionsTypeInfo_getMember i name m).1 <> None <->
   i <> OtherItem /\ name ∈ NodeOptionsTypeInfo_getMemberNames) /\
  (forall f a o, i = AssignableItem a -> m !! a = Some o ->
   exists d, NodeOptionsTypeInfo_getMember i (option_name f) m = (Some (existT f d), m) /\
     (fst <$> gs_get d m) = Some (get_field f o) /\
     forall v, exists d' m', gs_set d v m = Some (d', m') /\ option_changed f v a m m') /\
  (forall f o, i = ReadOnlyItem o ->
   exists d m1, NodeOptionsTypeInfo_getMember i (option_name f) m = (Some (existT f d), m1) /\
     (fst <$> gs_get d m1) = Some (get_field f o) /\
     forall v, exists d' m2, gs_set d v m1 = Some (d', m2) /\
       (fst <$> gs_get d' m2) = Some v /\ (forall b o', m !! b = Some o' -> m2 !! b = Some o')).
Proof.
  split; [|split].
  - destruct (decide (name ∈ NodeOptionsTypeInfo_getMemberNames)) as [Hin|Hn].
    + destruct (NodeOptions_known_names name Hin) as [f ->].
      destruct i as [a|o|]; [..|split; [done|by intros []]];
        by erewrite NodeOptions_getMember_known by done.
    + rewrite NodeOptions_getMember_unknown by done. split; [done|by intros []].
  - intros f a o -> E. exists (option_source f a).
    erewrite NodeOptions_getMember_known by done. split; [done|].
    erewrite option_source_get by done. split; [done|]. intros v.
    do 2 eexists. split; [by apply option_source_set|]. by apply set_field_changed.
  - intros f o ->. set (a := fresh (dom m)).
    assert (<[a := o]> m !! a = Some o) as Ea by apply lookup_insert_eq.
    exists (option_source f a), (<[a := o]> m).
    erewrite NodeOptions_getMember_known by done. split; [done|].
    erewrite option_source_get by done. split; [done|]. intros v.
    do 2 eexists. split; [by apply option_source_set|]. split.
    + unfold gs_get. cbn. rewrite lookup_insert_eq. cbn. by rewrite get_set_same.
    + intros b o' Eb. assert (b <> a) as Hne.
      { intros ->. apply (is_fresh (dom m)). apply elem_of_dom. by exists o'. }
      by rewrite !lookup_insert_ne.
Qed.

(** C31 -- A nested write (of a member of an option, such as the depth of parameter_event_qos) goes through the value the data source has cached, which only get and evaluate refresh. On a data source nobody has read it replaces the whole option by the default value with the nested member changed, whatever the option was; after evaluate it changes the option's actual value. A clone starts without the cached value again. *)
Theorem nested_write_needs_evaluate (f : node_option) (a : nat) (m : gmap nat (object node_option))
    (o : object node_option) (write : field_type f -> field_type f) :
  m !! a = Some o ->
  (exists d' m', nested_set (option_source f a) write m = Some (d', m') /\
                 option_changed f (write (na f)) a m m') /\
  (exists d d' m', gs_evaluate (option_source f a) m = Some (true, d) /\
     nested_set d write m = Some (d', m') /\ option_changed f (write (get_field f o)) a m m' /\
     gs_clone (na f) d = option_source f a).
Proof.
  intros E. split.
  - unfold nested_set, gs_updated. cbn. rewrite E. cbn. do 2 eexists. split; [done|].
    by apply set_field_changed.
  - unfold gs_evaluate. cbn. rewrite E. cbn. do 3 eexists. split; [done|].
    unfold nested_set, gs_updated. cbn. rewrite E. cbn. split; [done|].
    split; [by apply set_field_changed|done].
Qed.

End NodeOptionsMembers.

(** ** The members of QoS, publisher options and parameters *)

Section PartMembers.
Context `{OL : ObjectLaws field}.
Implicit Type m : gmap nat (object field).

Lemma part_of_assignable (f : field) (a : nat) m (o : object field) :
  m !! a = Some o ->
  part_get (MkPart a f) m = Some (get_field f o) /\
  forall v, part_set (MkPart a f) v m = Some (<[a := set_field f o v]> m).
Proof. intros E. unfold part_get, part_set. cbn. by rewrite E. Qed.

Lemma part_of_copy (f : field) (o : object field) m :
  let a := fresh (dom m) in
  let m' := release (ReadOnlyItem o) a (<[a := o]> m) in
  part_get (MkPart a f) m' = None /\ (forall v, part_set (MkPart a f) v m' = None) /\ m' = m.
Proof.
  intros a m'. assert (m !! a = None) as Ea by (apply not_elem_of_dom, is_fresh).
  assert (m' = m) as -> by (subst m'; cbn; by rewrite delete_insert_id).
  unfold part_get, part_set. cbn. by rewrite Ea.
Qed.
End PartMembers.

(** The members of the three types, by the name RTT uses. *)
Definition qos_name (f : qos_member) : string :=
  match f with
  | history => "history" | depth => "depth" | reliability => "reliability"
  | durability => "durability" | deadline => "deadline" | lifespan => "lifespan"
  | liveliness => "liveliness" | liveliness_lease_duration => "liveliness_lease_duration"
  | avoid_ros_namespace_conventions => "avoid_ros_namespace_conventions"
  end.
Definition publisher_option_name (f : publisher_option) : string :=
  match f with
  | use_intra_process_comm => "use_intra_process_comm" | event_callbacks => "event_callbacks"
  | callback_group => "callback_group" | rmw_implementation_payload => "rmw_implementation_payload"
  end.

Section PartTheorems.
Context `{QL : ObjectLaws qos_member} `{PL : ObjectLaws publisher_option} `{PO : ParameterOps}.

(** [getMember] of a type whose members are parts: the member of an assignable
    object is a part of it; the member of a copy is left without its object. *)
Definition parts_of {field} `{Object field} (name : field -> string)
    (getMember : item (object field) -> string -> gmap nat (object field) ->
       option (PartDataSource field) * gmap nat (object field)) : Prop :=
  forall (f : field) (m : gmap nat (object field)),
  (forall a o, m !! a = Some o ->
     getMember (AssignableItem a) (name f) m = (Some (MkPart a f), m) /\
     part_get (MkPart a f) m = Some (get_field f o) /\
     forall v, exists o', part_set (MkPart a f) v m = Some (<[a := o']> m) /\ get_field f o' = v /\
       forall g, g <> f -> get_field g o' = get_field g o) /\
  (forall o, exists p, getMember (ReadOnlyItem o) (name f) m = (Some p, m) /\
     part_get p m = None /\ forall v, part_set p v m = None).

Lemma parts_of_intro {field} `{OL : ObjectLaws field} (name : field -> string) getMember :
  (forall i f m a m', narrow_item i m = Some (a, m') ->
     getMember i (name f) m = (Some (MkPart a f), release i a m')) ->
  parts_of name getMember.
Proof.
  intros Hg f m. split.
  - intros a o E. erewrite Hg by done. destruct (part_of_assignable f a m o E) as [-> Hs].
    split_and!; [done..|]. intros v. eexists. split; [apply Hs|].
    split; [apply get_set_same|]. intros g Hne. by apply get_set_other.
  - intros o. erewrite Hg by done. destruct (part_of_copy f o m) as (Hget & Hset & Em).
    cbn zeta in *. rewrite Em in *. eauto.
Qed.

(** The member of a parameter that has a name. *)
Definition parameter_member (name : string) (p : ParameterT) : option functor_result :=
  if decide (name = "type_name") then Some (ResultString (get_type_name p))
  else if decide (name = "name") then Some (ResultString (get_name p))
  else if decide (name = "value") then Some (ResultValue (get_parameter_value p))
  else None.

Lemma parameter_member_source i name m a m' :
  narrow_item i m = Some (a, m') ->
  match (ParameterTypeInfo_getMember i name m).1 with
  | Some d => (ParameterTypeInfo_getMember i name m).2 = m' /\
      forall m2 p, m2 !! a = Some p -> functor_get d m2 = parameter_member name p
  | None => forall p, parameter_member name p = None
  end.
Proof.
  intros E. unfold ParameterTypeInfo_getMember, parameter_member. rewrite E.
  repeat (case_decide; [split; [done|]; intros m2 p Hp; unfold functor_get; cbn; by rewrite Hp|]). done.
Qed.

(** Every member that has a name is of this list, for items of the type only. *)
Definition only_members {O D} (names : list string)
    (getMember : item O -> string -> gmap nat O -> option D * gmap nat O) : Prop :=
  forall i name m, is_Some (getMember i name m).1 -> i <> OtherItem /\ name ∈ names.

(** Case analysis on the item, and on the names a [getMember] compares with. *)
Ltac by_name i :=
  destruct i; cbn [narrow_item]; [..|by intros [? [=]]];
  repeat (case_decide; [intros _; split; [done|]; subst; apply (bool_decide_unpack _); vm_compute; exact I|]);
  by intros [? [=]].

(** C32 -- The members of QoS and publisher options are references into the object. For an assignable object, reading and writing the member reads and writes exactly that field. For an object that can only be read, getMember returns a member of a copy that is destroyed when getMember returns, so that every access through the result is undefined. The members of parameters (type_name, name and value) evaluate a function on the object they keep: that of an assignable parameter gives the member the parameter has whenever it is read, that of a parameter that can only be read the one of its copy, which stays alive. Other names, and items of other types, have no members. *)
Theorem part_members_dangle_on_copies :
  parts_of qos_name QoSTypeInfo_getMember /\
  parts_of publisher_option_name PublisherOptionsBaseTypeInfo_getMember /\
  (forall name p m, name ∈ ParameterTypeInfo_getMemberNames ->
     is_Some (parameter_member name p) /\
     (forall a, exists d, ParameterTypeInfo_getMember (AssignableItem a) name m = (Some d, m) /\
        forall m' p', m' !! a = Some p' -> functor_get d m' = parameter_member name p') /\
     (exists d m', ParameterTypeInfo_getMember (ReadOnlyItem p) name m = (Some d, m') /\
        functor_get d m' = parameter_member name p /\ m ⊆ m')) /\
  only_members QoSTypeInfo_getMemberNames QoSTypeInfo_getMember /\
  only_members PublisherOptionsBaseTypeInfo_getMemberNames PublisherOptionsBaseTypeInfo_getMember /\
  only_members ParameterTypeInfo_getMemberNames ParameterTypeInfo_getMember.
Proof.
  split_and!.
  - apply parts_of_intro. intros i f m a m' E. unfold QoSTypeInfo_getMember. rewrite E. by destruct f.
  - apply parts_of_intro. intros i f m a m' E.
    unfold PublisherOptionsBaseTypeInfo_getMember. rewrite E. by destruct f.
  - intros name p m Hn.
    assert (forall p, is_Some (parameter_member name p)) as Hsome.
    { intros q. unfold ParameterTypeInfo_getMemberNames in Hn. rewrite !elem_of_cons, elem_of_nil in Hn.
      by destruct Hn as [->|[->|[->|[]]]]. }
    split_and!; [done| |].
    + intros a. pose proof (parameter_member_source (AssignableItem a) name m a m eq_refl) as H.
      destruct (ParameterTypeInfo_getMember _ name m) as [[d|] m2]; cbn in H.
      * destruct H as [-> H]. by exists d.
      * destruct (Hsome p) as [x Hx]. by rewrite H in Hx.
    + pose proof (parameter_member_source (ReadOnlyItem p) name m _ _ eq_refl) as H.
      destruct (ParameterTypeInfo_getMember _ name m) as [[d|] m2]; cbn in H.
      * destruct H as [-> H]. exists d. eexists. split; [done|]. split; [apply H, lookup_insert_eq|].
        apply insert_subseteq, not_elem_of_dom, is_fresh.
      * destruct (Hsome p) as [x Hx]. by rewrite H in Hx.
  - intros i name m. unfold QoSTypeInfo_getMember. by_name i.
  - intros i name m. unfold PublisherOptionsBaseTypeInfo_getMember. by_name i.
  - intros i name m. unfold ParameterTypeInfo_getMember. by_name i.
Qed.
End PartTheorems.

(** ** Reference instances and the theorems at work *)

Module Reference.

(** An object is the function from its members to numbers. *)
Definition ref_object (field : Type) `{EqDecision field} : Object field := {|
  object := field -> Z;
  field_type _ := Z;
  get_field f o := o f;
  set_field f o v := fun g => if decide (g = f) then v else o g;
  na _ := 0%Z |}.

Lemma ref_object_laws (field : Type) `{EqDecision field} : ObjectLaws field (ref_object field).
Proof.
  split; cbn.
  - intros f o v. by rewrite decide_True.
  - intros f g o v Hne. by rewrite decide_False by congruence.
Qed.

#[export] Instance ref_node_options : Object node_option := ref_object node_option.
#[export] Instance ref_node_options_laws : ObjectLaws node_option ref_node_options :=
  ref_object_laws node_option.
#[export] Instance ref_qos : Object qos_member := ref_object qos_member.
#[export] Instance ref_qos_laws : ObjectLaws qos_member ref_qos := ref_object_laws qos_member.
#[export] Instance ref_publisher_options : Object publisher_option := ref_object publisher_option.
#[export] Instance ref_publisher_options_laws : ObjectLaws publisher_option ref_publisher_options :=
  ref_object_laws publisher_option.
#[export] Instance ref_parameter : ParameterOps := {|
  ParameterT := string * Z;
  ParameterValue := Z;
  Parameter_ctor1 n := (n, 0%Z);
  Parameter_ctor2 n v := (n, v);
  Parameter_type_name _ := "integer";
  Parameter_name := fst;
  Parameter_value := snd |}.

Definition numbered : object node_option := fun f => if decide (f = parameter_event_qos) then 7%Z else 1%Z.

Lemma node_options_members_witness :
  exists d d' m', NodeOptionsTypeInfo_getMember (AssignableItem 3) "parameter_event_qos" {[3 := numbered]} =
      (Some (existT parameter_event_qos d), {[3 := numbered]}) /\
    gs_set d 5%Z {[3 := numbered]} = Some (d', m').
Proof.
  destruct (node_options_members (AssignableItem 3) "parameter_event_qos" {[3 := numbered]}) as (_ & H & _).
  destruct (H parameter_event_qos 3 numbered eq_refl) as (d & E & _ & Hs); [reflexivity|].
  destruct (Hs 5%Z) as (d' & m' & Es & _). exists d, d', m'. split; [exact E|exact Es].
Defined.

Lemma nested_write_needs_evaluate_witness :
  exists d' m', nested_set (option_source parameter_event_qos 3) (fun q => (q + 100)%Z) {[3 := numbered]} =
      Some (d', m') /\
    option_changed parameter_event_qos 100%Z 3 {[3 := numbered]} m'.
Proof.
  exact (proj1 (nested_write_needs_evaluate parameter_event_qos 3 {[3 := numbered]} numbered
                  (fun q => (q + 100)%Z) eq_refl)).
Defined.

Lemma part_members_dangle_on_copies_witness :
  exists p, QoSTypeInfo_getMember (ReadOnlyItem (fun _ => 1%Z)) "depth" ∅ = (Some p, ∅) /\ part_get p ∅ = None.
Proof.
  destruct (part_members_dangle_on_copies (QL := ref_qos_laws) (PL := ref_publisher_options_laws)
              (PO := ref_parameter)) as [H _].
  destruct (proj2 (H depth ∅) (fun _ => 1%Z)) as (p & E & Hp & _).
  exists p. split; [exact E|exact Hp].
Defined.

End Reference.
