(* ===== verification/Params.v ===== *)
(** Package [rtt_ros2_params]: the RTT service ["rosparam"] and its requester
    ([rtt_ros2_params_service.cpp], [rtt_ros2_params_plugin.cpp],
    [rosparam.hpp]), and the conversions between [rclcpp::ParameterValue] and C++
    types it relies on ([rtt_ros2_rclcpp_typekit], parameter_value_conversions.hpp).

    The parameters of a ROS node and the properties of an RTT component are
    interfaces with laws ([NodeParams], [PropertyOps]). *)

From S2P Require Import Prelude RclcppAction RttServices RosNode.
From S2P Require Float64.
Local Open Scope string_scope.
Local Open Scope list_scope.

(** ** Parameter values

    The variant of [rclcpp::ParameterValue] (message [rcl_interfaces/ParameterType]).
    [float] and [double] are types with the two conversions of the language:
    widening is exact, so narrowing undoes it. The instance [ref_floats] below is
    IEEE 754. *)
Class FloatOps := {
  float32 : Type;
  float64 : Type;
  widen : float32 -> float64;
  narrow : float64 -> float32;
  narrow_widen x : narrow (widen x) = x }.

Inductive ParameterValue `{FloatOps} :=
| PARAMETER_NOT_SET
| PARAMETER_BOOL (b : bool)
| PARAMETER_INTEGER (z : Z)
| PARAMETER_DOUBLE (d : float64)
| PARAMETER_STRING (s : string)
| PARAMETER_BYTE_ARRAY (l : list Z)
| PARAMETER_BOOL_ARRAY (l : list bool)
| PARAMETER_INTEGER_ARRAY (l : list Z)
| PARAMETER_DOUBLE_ARRAY (l : list float64)
| PARAMETER_STRING_ARRAY (l : list string).

Section Conversions.
Context {FO : FloatOps}.

(** [ParameterValue::get<T>()]: [Throw] is [ParameterTypeException]. *)
Definition type_error {A} : outcome unit A := Throw tt.

(* [typekits/rtt_ros2_rclcpp_typekit/include/orocos/rtt_ros2_rclcpp_typekit/parameter_value_conversions.hpp:26-29] parameter_value_to_bool *)
Definition parameter_value_to_bool (t : ParameterValue) : outcome unit bool :=
  match t with PARAMETER_BOOL b => Ok b | _ => type_error end.
(* [typekits/rtt_ros2_rclcpp_typekit/include/orocos/rtt_ros2_rclcpp_typekit/parameter_value_conversions.hpp:31-34] bool_to_parameter_value *)
Definition bool_to_parameter_value (bool_value : bool) : ParameterValue := PARAMETER_BOOL bool_value.
(* [typekits/rtt_ros2_rclcpp_typekit/include/orocos/rtt_ros2_rclcpp_typekit/parameter_value_conversions.hpp:36-39] parameter_value_to_int *)
Definition parameter_value_to_int (t : ParameterValue) : outcome unit Z :=
  match t with PARAMETER_INTEGER z => Ok (smod 32 z) | _ => type_error end.
(* [typekits/rtt_ros2_rclcpp_typekit/include/orocos/rtt_ros2_rclcpp_typekit/parameter_value_conversions.hpp:41-44] int_to_parameter_value *)
Definition int_to_parameter_value (int_value : Z) : ParameterValue := PARAMETER_INTEGER int_value.
(* [typekits/rtt_ros2_rclcpp_typekit/include/orocos/rtt_ros2_rclcpp_typekit/parameter_value_conversions.hpp:46-49] parameter_value_to_int64 *)
Definition parameter_value_to_int64 (t : ParameterValue) : outcome unit Z :=
  match t with PARAMETER_INTEGER z => Ok z | _ => type_error end.
(* [typekits/rtt_ros2_rclcpp_typekit/include/orocos/rtt_ros2_rclcpp_typekit/parameter_value_conversions.hpp:51-54] int64_to_parameter_value *)
Definition int64_to_parameter_value (int_value : Z) : ParameterValue := PARAMETER_INTEGER int_value.
(* [typekits/rtt_ros2_rclcpp_typekit/include/orocos/rtt_ros2_rclcpp_typekit/parameter_value_conversions.hpp:56-59] parameter_value_to_float *)
Definition parameter_value_to_float (t : ParameterValue) : outcome unit float32 :=
  match t with PARAMETER_DOUBLE d => Ok (narrow d) | _ => type_error end.
(* [typekits/rtt_ros2_rclcpp_typekit/include/orocos/rtt_ros2_rclcpp_typekit/parameter_value_conversions.hpp:61-64] float_to_parameter_value *)
Definition float_to_parameter_value (float_value : float32) : ParameterValue :=
  PARAMETER_DOUBLE (widen float_value).
(* [typekits/rtt_ros2_rclcpp_typekit/include/orocos/rtt_ros2_rclcpp_typekit/parameter_value_conversions.hpp:66-69] parameter_value_to_double *)
Definition parameter_value_to_double (t : ParameterValue) : outcome unit float64 :=
  match t with PARAMETER_DOUBLE d => Ok d | _ => type_error end.
(* [typekits/rtt_ros2_rclcpp_typekit/include/orocos/rtt_ros2_rclcpp_typekit/parameter_value_conversions.hpp:71-74] double_to_parameter_value *)
Definition double_to_parameter_value (double_value : float64) : ParameterValue :=
  PARAMETER_DOUBLE double_value.
(* [typekits/rtt_ros2_rclcpp_typekit/include/orocos/rtt_ros2_rclcpp_typekit/parameter_value_conversions.hpp:76-79] parameter_value_to_string *)
Definition parameter_value_to_string (t : ParameterValue) : outcome unit string :=
  match t with PARAMETER_STRING s => Ok s | _ => type_error end.
(* [typekits/rtt_ros2_rclcpp_typekit/include/orocos/rtt_ros2_rclcpp_typekit/parameter_value_conversions.hpp:81-84] string_to_parameter_value *)
Definition string_to_parameter_value (string_value : string) : ParameterValue :=
  PARAMETER_STRING string_value.
(* [typekits/rtt_ros2_rclcpp_typekit/include/orocos/rtt_ros2_rclcpp_typekit/parameter_value_conversions.hpp:86-90] parameter_value_to_byte_array *)
Definition parameter_value_to_byte_array (t : ParameterValue) : outcome unit (list Z) :=
  match t with PARAMETER_BYTE_ARRAY l => Ok l | _ => type_error end.
(* [typekits/rtt_ros2_rclcpp_typekit/include/orocos/rtt_ros2_rclcpp_typekit/parameter_value_conversions.hpp:92-96] byte_array_to_parameter_value *)
Definition byte_array_to_parameter_value (byte_array_value : list Z) : ParameterValue :=
  PARAMETER_BYTE_ARRAY byte_array_value.
(* [typekits/rtt_ros2_rclcpp_typekit/include/orocos/rtt_ros2_rclcpp_typekit/parameter_value_conversions.hpp:98-102] parameter_value_to_bool_array *)
Definition parameter_value_to_bool_array (t : ParameterValue) : outcome unit (list bool) :=
  match t with PARAMETER_BOOL_ARRAY l => Ok l | _ => type_error end.
(* [typekits/rtt_ros2_rclcpp_typekit/include/orocos/rtt_ros2_rclcpp_typekit/parameter_value_conversions.hpp:104-108] bool_array_to_parameter_value *)
Definition bool_array_to_parameter_value (byte_array_value : list bool) : ParameterValue :=
  PARAMETER_BOOL_ARRAY byte_array_value.
(* [typekits/rtt_ros2_rclcpp_typekit/include/orocos/rtt_ros2_rclcpp_typekit/parameter_value_conversions.hpp:110-114] parameter_value_to_int64_array *)
Definition parameter_value_to_int64_array (t : ParameterValue) : outcome unit (list Z) :=
  match t with PARAMETER_INTEGER_ARRAY l => Ok l | _ => type_error end.
(* [typekits/rtt_ros2_rclcpp_typekit/include/orocos/rtt_ros2_rclcpp_typekit/parameter_value_conversions.hpp:116-120] int64_array_to_parameter_value *)
Definition int64_array_to_parameter_value (int_array_value : list Z) : ParameterValue :=
  PARAMETER_INTEGER_ARRAY int_array_value.
(* [typekits/rtt_ros2_rclcpp_typekit/include/orocos/rtt_ros2_rclcpp_typekit/parameter_value_conversions.hpp:122-127] parameter_value_to_int_array *)
Definition parameter_value_to_int_array (t : ParameterValue) : outcome unit (list Z) :=
  match t with PARAMETER_INTEGER_ARRAY l => Ok (smod 32 <$> l) | _ => type_error end.
(* [typekits/rtt_ros2_rclcpp_typekit/include/orocos/rtt_ros2_rclcpp_typekit/parameter_value_conversions.hpp:129-133] int_array_to_parameter_value *)
Definition int_array_to_parameter_value (int_array_value : list Z) : ParameterValue :=
  PARAMETER_INTEGER_ARRAY int_array_value.
(* [typekits/rtt_ros2_rclcpp_typekit/include/orocos/rtt_ros2_rclcpp_typekit/parameter_value_conversions.hpp:135-140] parameter_value_to_float_array *)
Definition parameter_value_to_float_array (t : ParameterValue) : outcome unit (list float32) :=
  match t with PARAMETER_DOUBLE_ARRAY l => Ok (narrow <$> l) | _ => type_error end.
(* [typekits/rtt_ros2_rclcpp_typekit/include/orocos/rtt_ros2_rclcpp_typekit/parameter_value_conversions.hpp:142-146] float_array_to_parameter_value *)
Definition float_array_to_parameter_value (float_array_value : list float32) : ParameterValue :=
  PARAMETER_DOUBLE_ARRAY (widen <$> float_array_value).
(* [typekits/rtt_ros2_rclcpp_typekit/include/orocos/rtt_ros2_rclcpp_typekit/parameter_value_conversions.hpp:148-152] parameter_value_to_double_array *)
Definition parameter_value_to_double_array (t : ParameterValue) : outcome unit (list float64) :=
  match t with PARAMETER_DOUBLE_ARRAY l => Ok l | _ => type_error end.
(* [typekits/rtt_ros2_rclcpp_typekit/include/orocos/rtt_ros2_rclcpp_typekit/parameter_value_conversions.hpp:154-158] double_array_to_parameter_value *)
Definition double_array_to_parameter_value (double_array_value : list float64) : ParameterValue :=
  PARAMETER_DOUBLE_ARRAY double_array_value.
(* [typekits/rtt_ros2_rclcpp_typekit/include/orocos/rtt_ros2_rclcpp_typekit/parameter_value_conversions.hpp:160-164] parameter_value_to_string_array *)
Definition parameter_value_to_string_array (t : ParameterValue) : outcome unit (list string) :=
  match t with PARAMETER_STRING_ARRAY l => Ok l | _ => type_error end.
(* [typekits/rtt_ros2_rclcpp_typekit/include/orocos/rtt_ros2_rclcpp_typekit/parameter_value_conversions.hpp:166-170] string_array_to_parameter_value *)
Definition string_array_to_parameter_value (string_array_value : list string) : ParameterValue :=
  PARAMETER_STRING_ARRAY string_array_value.

(** The C++ types with a conversion, and a value of one of them. *)
Inductive cxx_value :=
| CxxBool (b : bool)
| CxxInt (z : Z)
| CxxInt64 (z : Z)
| CxxFloat (f : float32)
| CxxDouble (d : float64)
| CxxString (s : string)
| CxxByteArray (l : list Z)
| CxxBoolArray (l : list bool)
| CxxInt64Array (l : list Z)
| CxxIntArray (l : list Z)
| CxxFloatArray (l : list float32)
| CxxDoubleArray (l : list float64)
| CxxStringArray (l : list string).

(** The values the type of the constructor can hold. *)
Definition cxx_in_range (v : cxx_value) : Prop :=
  match v with
  | CxxInt z => in_s 32 z
  | CxxInt64 z => in_s 64 z
  | CxxByteArray l => Forall (in_u 8) l
  | CxxInt64Array l => Forall (in_s 64) l
  | CxxIntArray l => Forall (in_s 32) l
  | _ => True
  end.

(** The conversion to a parameter value RTT applies on its own (the
    constructors installed with [true]). *)
Definition to_parameter_value (v : cxx_value) : ParameterValue :=
  match v with
  | CxxBool b => bool_to_parameter_value b
  | CxxInt z => int_to_parameter_value z
  | CxxInt64 z => int64_to_parameter_value z
  | CxxFloat f => float_to_parameter_value f
  | CxxDouble d => double_to_parameter_value d
  | CxxString s => string_to_parameter_value s
  | CxxByteArray l => byte_array_to_parameter_value l
  | CxxBoolArray l => bool_array_to_parameter_value l
  | CxxInt64Array l => int64_array_to_parameter_value l
  | CxxIntArray l => int_array_to_parameter_value l
  | CxxFloatArray l => float_array_to_parameter_value l
  | CxxDoubleArray l => double_array_to_parameter_value l
  | CxxStringArray l => string_array_to_parameter_value l
  end.

(** The conversion back to the type of [v]. *)
Definition from_parameter_value_like (v : cxx_value) (t : ParameterValue) : outcome unit cxx_value :=
  match v with
  | CxxBool _ => CxxBool <$> parameter_value_to_bool t
  | CxxInt _ => CxxInt <$> parameter_value_to_int t
  | CxxInt64 _ => CxxInt64 <$> parameter_value_to_int64 t
  | CxxFloat _ => CxxFloat <$> parameter_value_to_float t
  | CxxDouble _ => CxxDouble <$> parameter_value_to_double t
  | CxxString _ => CxxString <$> parameter_value_to_string t
  | CxxByteArray _ => CxxByteArray <$> parameter_value_to_byte_array t
  | CxxBoolArray _ => CxxBoolArray <$> parameter_value_to_bool_array t
  | CxxInt64Array _ => CxxInt64Array <$> parameter_value_to_int64_array t
  | CxxIntArray _ => CxxIntArray <$> parameter_value_to_int_array t
  | CxxFloatArray _ => CxxFloatArray <$> parameter_value_to_float_array t
  | CxxDoubleArray _ => CxxDoubleArray <$> parameter_value_to_double_array t
  | CxxStringArray _ => CxxStringArray <$> parameter_value_to_string_array t
  end.

Lemma smod_list l : Forall (in_s 32) l -> smod 32 <$> l = l.
Proof. induction 1 as [|z l Hz Hl IH]; [done|]. rewrite fmap_cons, IH, smod_id; [done|lia|done]. Qed.

Lemma narrow_list (l : list float32) : narrow <$> (widen <$> l) = l.
Proof. induction l as [|x l IH]; [done|]. rewrite !fmap_cons. by rewrite IH, narrow_widen. Qed.

(** Storing a C++ value as a ROS parameter and reading it back as the same type gives the value, for each of the thirteen types with a conversion. Reading any integer parameter as a 32 bit integer never fails: a value out of range is reduced modulo 2^32, so it is read unchanged exactly if it fits. *)
Theorem parameter_roundtrip (v : cxx_value) (z : Z) :
  cxx_in_range v ->
  from_parameter_value_like v (to_parameter_value v) = Ok v /\
  exists y, parameter_value_to_int (PARAMETER_INTEGER z) = Ok y /\ in_s 32 y /\ (y = z <-> in_s 32 z).
Proof.
  intros Hr. split; [|exists (smod 32 z); split; [done|]; split; [by apply smod_in_s|]; split;
    [intros <-; by apply smod_in_s|by apply smod_id]].
  destruct v; cbn in Hr; try done.
  - cbn. by rewrite smod_id.
  - cbn. by rewrite narrow_widen.
  - trans (Ok (E := unit) (CxxIntArray (smod 32 <$> l))); [done|by rewrite smod_list].
  - trans (Ok (E := unit) (CxxFloatArray (narrow <$> (widen <$> l)))); [done|by rewrite narrow_list].
Qed.
End Conversions.

(** ** The parameters of a node and the properties of a component *)
Inductive param_exn := ParameterNotDeclaredException | OtherException (what : string).

Class NodeParams `{FloatOps} (RC : RclcppOps) := {
  ParamWorld : Type;
  (** [None]: not declared *)
  parameter : ParamWorld -> RclNode -> string -> option ParameterValue;
  (** the value given on the command line or in the node's options *)
  parameter_override : RclNode -> string -> option ParameterValue;
  (** [SetParametersResult::successful] *)
  set_parameter : RclNode -> string -> ParameterValue ->
    ParamWorld -> outcome param_exn bool * ParamWorld;
  declare_parameter : RclNode -> string -> ParameterValue ->
    ParamWorld -> outcome param_exn unit * ParamWorld }.

(** What a parameter is after it was set to [v]: a node undeclares a parameter with a
    value if it is set to no value. *)
Definition assigned `{FloatOps} (v : ParameterValue) (old : option ParameterValue)
    : option ParameterValue :=
  match v, old with
  | PARAMETER_NOT_SET, (None | Some PARAMETER_NOT_SET) => Some PARAMETER_NOT_SET
  | PARAMETER_NOT_SET, Some _ => None
  | _, _ => Some v
  end.

(** [w'] differs from [w] at parameter [n] of node [nd] alone, which is [o]. *)
Definition param_set `{FO : FloatOps} {RC} {NP : NodeParams RC} (w w' : ParamWorld)
    (nd : RclNode) (n : string) (o : option ParameterValue) : Prop :=
  parameter w' nd n = o /\
  forall nd' n', (nd' <> nd \/ n' <> n) -> parameter w' nd' n' = parameter w nd' n'.

(** A parameter that is set has the value set (no value may undeclare it); a failed or throwing call changes
    nothing; a parameter that is declared gets its override if there is one. *)
Class NodeParamsLaws `{FO : FloatOps} {RC} (NP : NodeParams RC) := {
  set_parameter_spec nd n v w :
    match set_parameter nd n v w with
    | (Ok true, w') => param_set w w' nd n (assigned v (parameter w nd n))
    | (_, w') => w' = w
    end;
  declare_parameter_spec nd n v w :
    parameter w nd n = None ->
    match declare_parameter nd n v w with
    | (Ok tt, w') => param_set w w' nd n (Some (default v (parameter_override nd n)))
    | (Throw _, w') => w' = w
    end }.

(** Properties of components: [update_property] is [update] of the data source of
    a property from a parameter value, [property_value] the conversion of a
    property to a parameter value ([None]: there is none). *)
Class PropertyOps `{FloatOps} {RC} (RO : RTTOps RC) := {
  Property : Type;
  PropWorld : Type;
  getProperty : PropWorld -> TaskContext -> string -> option Property;
  update_property : Property -> ParameterValue -> PropWorld -> outcome string bool * PropWorld;
  property_value : PropWorld -> Property -> outcome string (option ParameterValue) }.

(** ** The service *)
Section RosParamService.
Context {FO : FloatOps} {RC : RclcppOps} {RO : RTTOps RC}.

(** The operations every instance offers, and those of a component's instance. *)
Definition base_operations : list string :=
  ["getParameter"; "setParameter"; "declareParameter"; "setOrDeclareParameter"].
Definition owner_operations : list string := ["loadProperty"; "storeProperty"].

Definition add_operations (s : ServicePtr) (ops : list string) (w : RTTWorld) : RTTWorld :=
  fold_left (fun w o => addOperation s o w) ops w.

(* [rtt_ros2_params/src/rtt_ros2_params_service.cpp:32-91] RosParamService *)
Definition RosParamService_ctor (owner : option TaskContext) (w : RTTWorld) : ServicePtr * RTTWorld :=
  let '(this, w) := make_shared_Service "rosparam" w in
  let w := add_operations this base_operations w in
  (this, match owner with
         | Some _ => add_operations this owner_operations w
         | None => w
         end).

(* [rtt_ros2_params/src/rtt_ros2_params_plugin.cpp:29-49] loadGlobalROSService *)
Definition params_loadGlobalROSService (w : RTTWorld) : bool * RTTWorld :=
  let '(ros, w) := provides GlobalService "ros" w in
  let '(params, w) := RosParamService_ctor None w in
  let '(added, w) := addService ros params w in
  (added, w).

(* [rtt_ros2_params/src/rtt_ros2_params_plugin.cpp:51-65] loadROSServiceIntoTaskContext *)
Definition params_loadROSServiceIntoTaskContext (tc : TaskContext) (w : RTTWorld) : bool * RTTWorld :=
  if hasService w (tc_provides tc) "rosparam" then (false, w)
  else
    let '(params, w) := RosParamService_ctor (Some tc) w in
    let '(_, w) := addService (tc_provides tc) params w in
    (true, w).

(* [rtt_ros2_params/src/rtt_ros2_params_plugin.cpp:68-75] loadRTTPlugin *)
Definition params_loadRTTPlugin (tc : option TaskContext) : RTTWorld -> bool * RTTWorld :=
  match tc with
  | None => params_loadGlobalROSService
  | Some tc => params_loadROSServiceIntoTaskContext tc
  end.

Section Operations.
Context {NP : NodeParams RC} {PO : PropertyOps RO}.
Variable rtt : RTTWorld.
Variable getOwner : option TaskContext.

(* [rtt_ros2_params/src/rtt_ros2_params_service.cpp:95-116] getParameter *)
Definition getParameter (name : string) (w : ParamWorld) : ParameterValue :=
  match getNode rtt getOwner with
  | Some rosnode => default PARAMETER_NOT_SET (parameter w rosnode name)
  | None => PARAMETER_NOT_SET
  end.

(** The update both setters end with. *)
(* [rtt_ros2_params/src/rtt_ros2_params_service.cpp:222-237] set_parameter *)
Definition update_parameter (rosnode : RclNode) (name : string) (value : ParameterValue)
    (w : ParamWorld) : outcome string bool * ParamWorld :=
  match set_parameter rosnode name value w with
  | (Ok successful, w) => if successful then (Ok true, w) else (Ok false, w)
  | (Throw ParameterNotDeclaredException, w) => (Ok false, w)
  | (Throw (OtherException e), w) => (Throw e, w)
  end.

(* [rtt_ros2_params/src/rtt_ros2_params_service.cpp:118-154] setParameter *)
Definition setParameter (name : string) (value : ParameterValue) (w : ParamWorld)
    : outcome string bool * ParamWorld :=
  match getNode rtt getOwner with
  | Some rosnode => update_parameter rosnode name value w
  | None => (Ok false, w)
  end.

Definition exn_what (e : param_exn) : string :=
  match e with ParameterNotDeclaredException => "not declared" | OtherException e => e end.

(** [rosnode->declare_parameter(name, value); return true;] *)
Definition declare_new (rosnode : RclNode) (name : string) (value : ParameterValue)
    (w : ParamWorld) : outcome string bool * ParamWorld :=
  match declare_parameter rosnode name value w with
  | (Ok _, w) => (Ok true, w)
  | (Throw e, w) => (Throw (exn_what e), w)
  end.

(* [rtt_ros2_params/src/rtt_ros2_params_service.cpp:156-189] declareParameter *)
Definition declareParameter (name : string) (default_value : ParameterValue) (w : ParamWorld)
    : outcome string bool * ParamWorld :=
  match getNode rtt getOwner with
  | None => (Ok false, w)
  | Some rosnode =>
      match parameter w rosnode name with
      | None => declare_new rosnode name default_value w
      | Some _ => (Ok false, w)
      end
  end.

(* [rtt_ros2_params/src/rtt_ros2_params_service.cpp:191-238] setOrDeclareParameter *)
Definition setOrDeclareParameter (name : string) (value : ParameterValue) (w : ParamWorld)
    : outcome string bool * ParamWorld :=
  match getNode rtt getOwner with
  | None => (Ok false, w)
  | Some rosnode =>
      match parameter w rosnode name with
      | None => declare_new rosnode name value w
      | Some _ => update_parameter rosnode name value w
      end
  end.

(* [rtt_ros2_params/src/rtt_ros2_params_service.cpp:240-313] loadProperty *)
Definition loadProperty (property_name param_name : string) (w : ParamWorld) (p : PropWorld)
    : bool * PropWorld :=
  match getParameter param_name w with
  | PARAMETER_NOT_SET => (false, p)
  | paramvalue =>
      match getOwner with
      | None => (false, p)
      | Some owner =>
          match getProperty p owner property_name with
          | None => (false, p)
          | Some prop =>
              match update_property prop paramvalue p with
              | (Ok converted, p) => (converted, p)
              | (Throw e, p) => (false, p)
              end
          end
      end
  end.

(** [None]: the owner pointer is dereferenced although it is null. *)
(* [rtt_ros2_params/src/rtt_ros2_params_service.cpp:315-368] storeProperty *)
Definition storeProperty (property_name param_name : string) (w : ParamWorld) (p : PropWorld)
    : option (outcome string bool * ParamWorld) :=
  match getOwner with
  | None => None
  | Some owner =>
      Some (match getProperty p owner property_name with
            | None => (Ok false, w)
            | Some prop =>
                match property_value p prop with
                | Ok (Some param_value) => setParameter param_name param_value w
                | Ok None => (Ok false, w)
                | Throw e => (Ok false, w)
                end
            end)
  end.
End Operations.
End RosParamService.

(** ** The requester: the callers it must resolve in the service it connects to *)
Record RosParam := MkRosParam { operation_callers : gset string }.

(* [rtt_ros2_params/include/orocos/rtt_ros2_params/rosparam.hpp:33-49] RosParam *)
Definition RosParam_ctor : RosParam := MkRosParam (list_to_set base_operations).

(** [ServiceRequester::connectTo] succeeds if every caller finds its operation. *)
(* [rtt_ros2_params/include/orocos/rtt_ros2_params/rosparam.hpp:52-60] connectTo *)
Definition connectTo (has_owner : bool) (offered : string -> bool) (this : RosParam) : bool * RosParam :=
  let this := if has_owner then MkRosParam (list_to_set owner_operations ∪ operation_callers this)
              else this in
  (bool_decide (set_Forall (fun o => offered o = true) (operation_callers this)), this).

(** ** What the setters promise *)
Section Setters.
Context {FO : FloatOps} {RC : RclcppOps} {RO : RTTOps RC}.
Context {NP : NodeParams RC} {NL : NodeParamsLaws NP} {PO : PropertyOps RO}.
Variable rtt : RTTWorld.
Variable owner : option TaskContext.

Abbreviation svc_get := (getParameter rtt owner).

Lemma get_assigned v o : default PARAMETER_NOT_SET (assigned v o) = v.
Proof. by destruct v, o as [[]|]. Qed.

Lemma update_parameter_spec nd n v w :
  match update_parameter nd n v w with
  | (Ok true, w') => param_set w w' nd n (assigned v (parameter w nd n))
  | (_, w') => w' = w
  end.
Proof.
  unfold update_parameter. pose proof (set_parameter_spec nd n v w) as Hs.
  destruct (set_parameter nd n v w) as [[[]|[]] w']; exact Hs.
Qed.

Lemma declare_new_spec nd n v w :
  parameter w nd n = None ->
  match declare_new nd n v w with
  | (Ok true, w') => param_set w w' nd n (Some (default v (parameter_override nd n)))
  | (Ok false, _) => False
  | (Throw _, w') => w' = w
  end.
Proof.
  intros Hn. unfold declare_new. pose proof (declare_parameter_spec nd n v w Hn) as Hs.
  destruct (declare_parameter nd n v w) as [[[]|] w']; exact Hs.
Qed.

(** A successful setParameter or setOrDeclareParameter on a declared parameter makes getParameter return exactly the value set, and leaves every other parameter alone; without a node, after a refusal by the node or after an exception, no parameter has changed. Declaring an existing parameter is refused without any change. *)
Theorem set_then_get (n : string) (v : ParameterValue) (w : ParamWorld) :
  (match setParameter rtt owner n v w with
   | (Ok true, w') => exists nd, getNode rtt owner = Some nd /\ svc_get n w' = v /\
       param_set w w' nd n (assigned v (parameter w nd n))
   | (_, w') => w' = w
   end) /\
  (forall nd, getNode rtt owner = Some nd -> is_Some (parameter w nd n) ->
     setOrDeclareParameter rtt owner n v w = setParameter rtt owner n v w /\
     declareParameter rtt owner n v w = (Ok false, w)).
Proof.
  unfold getParameter, setParameter, setOrDeclareParameter, declareParameter.
  destruct (getNode rtt owner) as [nd|]; [|done]. split.
  - pose proof (update_parameter_spec nd n v w) as Hs.
    destruct (update_parameter nd n v w) as [[[]|] w']; try done.
    exists nd. split; [done|]. split; [|done]. by rewrite (proj1 Hs), get_assigned.
  - intros nd' [= ->] [x Hx]. by rewrite Hx.
Qed.

(** C27 -- On a parameter that is not declared, setOrDeclareParameter and declareParameter behave the same: they throw or they return true, and then the parameter holds the override given to the node if there is one. So setOrDeclareParameter can report success although the parameter does not have the value it was asked to set: it has it exactly if there is no override with another value. *)
Theorem set_or_declare_may_not_set (n : string) (v : ParameterValue) (w : ParamWorld) nd :
  getNode rtt owner = Some nd -> parameter w nd n = None ->
  setOrDeclareParameter rtt owner n v w = declareParameter rtt owner n v w /\
  match setOrDeclareParameter rtt owner n v w with
  | (Ok b, w') => b = true /\ (svc_get n w' = v <-> default v (parameter_override nd n) = v)
  | (Throw _, w') => w' = w
  end.
Proof.
  unfold getParameter, setOrDeclareParameter, declareParameter. intros -> Hn. rewrite Hn. split; [done|].
  pose proof (declare_new_spec nd n v w Hn) as Hs.
  destruct (declare_new nd n v w) as [[[]|] w']; try done. split; [done|].
  rewrite (proj1 Hs). done.
Qed.

(** Storing a property into a parameter and loading a property from it go through the declared parameter value: a store that succeeds leaves in the parameter the value the property converts to, and a load reports success exactly if the parameter is set, the component has the property, and the property accepts the parameter's value; in all other cases neither the parameter nor (before the conversion is tried) the property changes. *)
Theorem property_transfer (prop_name param_name : string) (w : ParamWorld) (p : PropWorld) tc :
  owner = Some tc ->
  (match storeProperty rtt owner prop_name param_name w p with
   | None => False
   | Some (Ok true, w') =>
       exists prop v, getProperty p tc prop_name = Some prop /\
         property_value p prop = Ok (Some v) /\ svc_get param_name w' = v
   | Some (_, w') => w' = w
   end) /\
  (loadProperty rtt owner prop_name param_name w p =
   match svc_get param_name w, getProperty p tc prop_name with
   | PARAMETER_NOT_SET, _ | _, None => (false, p)
   | v, Some prop =>
       let '(r, p') := update_property prop v p in (match r with Ok b => b | Throw _ => false end, p')
   end).
Proof.
  intros Ho. unfold storeProperty, loadProperty. rewrite Ho. split.
  - destruct (getProperty p tc prop_name) as [prop|]; [|done].
    destruct (property_value p prop) as [[v|]|e] eqn:Hv; [|done..].
    unfold setParameter, getParameter. rewrite <- Ho.
    destruct (getNode rtt owner) as [nd|]; [|done].
    pose proof (update_parameter_spec nd param_name v w) as Hs.
    destruct (update_parameter nd param_name v w) as [[[]|] w']; try done.
    exists prop, v. by rewrite (proj1 Hs), get_assigned.
  - destruct (getParameter rtt (Some tc) param_name w), (getProperty p tc prop_name) as [prop|];
      try done; by destruct (update_property prop _ p) as [[] p'].
Qed.
End Setters.

(** ** What the service offers *)
Section Offer.
Context {RC : RclcppOps} {RO : RTTOps RC} {RL : RTTLaws RO}.

Lemma add_operations_spec s ops w s' o :
  hasOperation (add_operations s ops w) s' o = bool_decide (s' = s /\ o ∈ ops) || hasOperation w s' o.
Proof.
  revert w. induction ops as [|o1 ops IH]; intros w; simpl.
  - rewrite bool_decide_false; [done|]. by intros [_ ?%not_elem_of_nil].
  - unfold add_operations in *. rewrite IH, addOperation_ops, orb_assoc. f_equal.
    rewrite <- bool_decide_or. apply bool_decide_ext. rewrite elem_of_cons. naive_solver.
Qed.

Lemma add_operations_services s ops w s' n :
  getService (add_operations s ops w) s' n = getService w s' n.
Proof.
  revert w. induction ops as [|o ops IH]; intros w; simpl; [done|].
  unfold add_operations in *. by rewrite IH, addOperation_services.
Qed.

(** The operations of an instance with the given owner beyond [base_operations]. *)
Definition owned_operations (owner : option TaskContext) : list string :=
  match owner with Some _ => owner_operations | None => [] end.

Lemma RosParamService_ctor_spec owner w :
  exists this w', RosParamService_ctor owner w = (this, w') /\
    svc_name this = "rosparam" /\
    (forall s n, getService w' s n = getService w s n) /\
    (forall o, hasOperation w' this o =
       bool_decide (o ∈ base_operations ++ owned_operations owner)).
Proof.
  unfold RosParamService_ctor.
  destruct (make_shared_Service_spec "rosparam" w) as (this & w1 & -> & _ & (Hn & _ & Hfresh) & Hs & Ho).
  exists this. destruct owner as [tc|]; eexists; (split; [reflexivity|]); (split; [done|]); split.
  - intros s n. by rewrite !add_operations_services, Hs.
  - intros o. rewrite !add_operations_spec, Ho, Hfresh, orb_false_r, <- bool_decide_or.
    apply bool_decide_ext. rewrite elem_of_app. naive_solver.
  - intros s n. by rewrite !add_operations_services, Hs.
  - intros o. rewrite !add_operations_spec, Ho, Hfresh, orb_false_r.
    apply bool_decide_ext. rewrite app_nil_r. naive_solver.
Qed.

(** Loading the parameter service into a component adds a service rosparam with all six operations, or changes nothing and reports failure if there is one already; loading it globally puts it below the global service ros, without the two operations that need a component. In both cases a fresh requester connects to the service that was loaded. *)
Theorem rosparam_offer (tc : option TaskContext) (w w' : RTTWorld) (b : bool) :
  params_loadRTTPlugin tc w = (b, w') ->
  let at_service := match tc with Some t => tc_provides t | None => (provides GlobalService "ros" w).1 end in
  b = bool_decide (getService (match tc with Some _ => w | None => (provides GlobalService "ros" w).2 end)
                     at_service "rosparam" = None) /\
  (b = true -> exists s, getService w' at_service "rosparam" = Some s /\
     (forall o, hasOperation w' s o =
        bool_decide (o ∈ base_operations ++ owned_operations tc)) /\
     (connectTo (bool_decide (is_Some tc)) (hasOperation w' s) RosParam_ctor).1 = true) /\
  (forall t, tc = Some t -> b = false -> w' = w).
Proof.
  assert (forall s w', (forall o, hasOperation w' s o =
        bool_decide (o ∈ base_operations ++ owned_operations tc)) ->
     (connectTo (bool_decide (is_Some tc)) (hasOperation w' s) RosParam_ctor).1 = true) as Hconn.
  { intros s v Ho. apply bool_decide_eq_true. intros o Hin. rewrite Ho. apply bool_decide_eq_true.
    destruct tc; cbn in Hin |- *; set_solver. }
  destruct tc as [t|]; cbn [params_loadRTTPlugin].
  - unfold params_loadROSServiceIntoTaskContext. rewrite hasService_spec.
    destruct (getService w (tc_provides t) "rosparam") as [q|] eqn:Hq; [by intros [= <- <-]|].
    destruct (RosParamService_ctor_spec (Some t) w) as (s & w1 & -> & Hn & Hs & Ho). cbn.
    destruct (addService_new w1 (tc_provides t) s) as (w2 & -> & (Hin & _ & Hop)).
    { by rewrite Hn, Hs. }
    intros [= <- <-]. split; [done|]. split; [|done]. intros _. exists s. rewrite Hn in Hin.
    assert (forall o, hasOperation w2 s o = bool_decide (o ∈ base_operations ++ owner_operations)) as Ho2
      by (intros o; by rewrite Hop, Ho).
    split; [done|]. split; [done|]. by apply Hconn.
  - unfold params_loadGlobalROSService. destruct (provides GlobalService "ros" w) as [ros w0]. cbn.
    destruct (RosParamService_ctor_spec None w0) as (s & w1 & -> & Hn & Hs & Ho).
    destruct (getService w0 ros "rosparam") as [q|] eqn:Hq.
    + rewrite (addService_exists w1 ros s q); [|by rewrite Hn, Hs]. by intros [= <- <-].
    + destruct (addService_new w1 ros s) as (w2 & -> & (Hin & _ & Hop)); [by rewrite Hn, Hs|].
      intros [= <- <-]. split; [done|]. split; [|done]. intros _. exists s. rewrite Hn in Hin.
      assert (forall o, hasOperation w2 s o = bool_decide (o ∈ base_operations ++ [])) as Ho2
        by (intros o; by rewrite Hop, Ho).
      split; [done|]. split; [done|]. by apply Hconn.
Qed.
End Offer.

(** ** Witnesses *)
Module Witnesses.
Import RttReference.

(** [float] and [double] of IEEE 754, with the conversions of [Float64]. *)
Definition ieee_float : Type := {f : SpecFloat.spec_float | Float64.valid32 f = true}.
Definition ieee_double : Type := {d : SpecFloat.spec_float | Float64.valid d = true}.
Definition ieee_widen (f : ieee_float) : ieee_double :=
  exist _ (Float64.to_double (proj1_sig f)) (Float64.to_double_valid (proj1_sig f)).
Definition ieee_narrow (d : ieee_double) : ieee_float :=
  exist _ (Float64.to_float (proj1_sig d)) (Float64.to_float_valid (proj1_sig d)).

Lemma ieee_narrow_widen (f : ieee_float) : ieee_narrow (ieee_widen f) = f.
Proof.
  destruct f as [f Hf]. apply (sig_eq_pi _). cbn. by apply Float64.to_float_to_double.
Qed.

#[export] Instance ref_floats : FloatOps := {|
  float32 := ieee_float; float64 := ieee_double; widen := ieee_widen; narrow := ieee_narrow;
  narrow_widen := ieee_narrow_widen |}.

Definition ref_params : Type := nat -> string -> option ParameterValue.
Definition ref_param_set (w : ref_params) (nd : nat) (n : string) (o : option ParameterValue)
    : ref_params :=
  fun nd' n' => if decide (nd' = nd /\ n' = n) then o else w nd' n'.

(** One node option overrides the parameter rate. *)
#[export] Instance ref_node_params : NodeParams ref_rclcpp := {|
  ParamWorld := ref_params;
  parameter := fun w nd n => w nd n;
  parameter_override := fun _ n => if decide (n = "rate") then Some (PARAMETER_INTEGER 50) else None;
  set_parameter := fun nd n v w =>
    match w nd n with
    | Some _ => (Ok true, ref_param_set w nd n (assigned v (w nd n)))
    | None => (Throw ParameterNotDeclaredException, w)
    end;
  declare_parameter := fun nd n v w =>
    (Ok tt, ref_param_set w nd n
              (Some (default v (if decide (n = "rate") then Some (PARAMETER_INTEGER 50) else None)))) |}.

Lemma ref_param_set_spec w nd n o :
  @param_set ref_floats ref_rclcpp ref_node_params w (ref_param_set w nd n o) nd n o.
Proof.
  split; cbn; unfold ref_param_set.
  - by destruct (decide _) as [|[]].
  - intros nd' n' Hne. destruct (decide _) as [[-> ->]|]; [|done]. by destruct Hne.
Qed.

#[export] Instance ref_node_params_laws : NodeParamsLaws ref_node_params.
Proof.
  split; cbn.
  - intros nd n v w. destruct (w nd n) eqn:E; [rewrite <- E; apply ref_param_set_spec|done].
  - intros nd n v w _. apply ref_param_set_spec.
Qed.

(** A component with one integer property, gain. *)
#[export] Instance ref_properties : PropertyOps ref_rtt_ops := {|
  Property := string;
  PropWorld := Z;
  getProperty := fun _ _ n => if decide (n = "gain") then Some n else None;
  update_property := fun _ v p =>
    match parameter_value_to_int v with Ok z => (Ok true, z) | Throw _ => (Throw "bad type", p) end;
  property_value := fun p _ => Ok (Some (int_to_parameter_value p)) |}.

Definition node_world : RTTWorld (RTTOps := ref_rtt_ops) :=
  RefRtt [((RefService 3 "component" None, "mine"), RefService 9 "mine" (Some 42))] [].
Definition some_params : ref_params := fun _ n => if decide (n = "k") then Some (PARAMETER_INTEGER 4) else None.

Lemma parameter_roundtrip_witness :
  from_parameter_value_like (CxxIntArray [1; -2]%Z) (to_parameter_value (CxxIntArray [1; -2]%Z)) =
    Ok (CxxIntArray [1; -2]%Z).
Proof.
  refine (proj1 (parameter_roundtrip (CxxIntArray [1; -2]%Z) 0 _)).
  repeat constructor; vm_compute; congruence.
Defined.

Lemma set_then_get_witness :
  exists w', setParameter (RO := ref_rtt_ops) node_world (Some 2) "k" (PARAMETER_BOOL true) some_params = (Ok true, w') /\
    getParameter (RO := ref_rtt_ops) node_world (Some 2) "k" w' = PARAMETER_BOOL true.
Proof.
  destruct (set_then_get (NL := ref_node_params_laws) (RO := ref_rtt_ops) node_world (Some 2) "k"
              (PARAMETER_BOOL true) some_params) as [(nd & _ & Hg & _) _].
  eexists. split; [reflexivity|exact Hg].
Defined.

Definition integer_of (v : ParameterValue) : Z := match v with PARAMETER_INTEGER z => z | _ => 0%Z end.

Lemma set_or_declare_may_not_set_witness :
  exists w', setOrDeclareParameter (RO := ref_rtt_ops) node_world (Some 2) "rate" (PARAMETER_INTEGER 10) some_params = (Ok true, w') /\
    getParameter (RO := ref_rtt_ops) node_world (Some 2) "rate" w' <> PARAMETER_INTEGER 10.
Proof.
  destruct (set_or_declare_may_not_set (NL := ref_node_params_laws) (RO := ref_rtt_ops) node_world
              (Some 2) "rate" (PARAMETER_INTEGER 10) some_params 42 eq_refl eq_refl) as [_ [_ Hiff]].
  eexists. split; [reflexivity|]. intros Heq. apply Hiff in Heq.
  apply (f_equal integer_of) in Heq. cbn in Heq. discriminate Heq.
Defined.

Lemma property_transfer_witness :
  loadProperty (RO := ref_rtt_ops) (PO := ref_properties) node_world (Some 2) "gain" "k" some_params 0%Z = (true, 4%Z).
Proof.
  rewrite (proj2 (property_transfer (NL := ref_node_params_laws) (PO := ref_properties) node_world (Some 2)
                    "gain" "k" some_params 0%Z 2 eq_refl)).
  vm_compute. reflexivity.
Defined.

Lemma rosparam_offer_witness :
  exists w', params_loadRTTPlugin (RO := ref_rtt_ops) (Some 2) node_world = (true, w') /\
    is_Some (getService w' (RefService 3 "component" None) "rosparam").
Proof.
  eexists. split; [reflexivity|].
  destruct (rosparam_offer (RL := ref_rtt_laws) (Some 2) node_world _ true eq_refl) as (_ & Hok & _).
  destruct (Hok eq_refl) as (s & Hs & _). exists s. exact Hs.
Defined.
End Witnesses.
