(* ===== verification/ParamSessions.v ===== *)
(** Package [rtt_ros2_params]: sequences of requests to the service ["rosparam"] of a
    component.

    What the service promises, without the node: the results the requests have
    returned, with the overrides of the node, tell the value of every parameter and of
    every property. [replay] computes them from the log of a session, and [log_ok] says
    which results are possible. *)

From S2P Require Import Prelude RclcppAction RttServices RosNode Params.
Local Open Scope string_scope.
Local Open Scope list_scope.

Section Sessions.
Context {FO : FloatOps} {RC : RclcppOps} {RO : RTTOps RC}.
Context {NP : NodeParams RC} {PO : PropertyOps RO}.
Variable rtt : RTTWorld.
Variable tc : TaskContext.

(** ** Requests of a session *)

Inductive param_request :=
| ReqGet (name : string)
| ReqSet (name : string) (value : ParameterValue)
| ReqDeclare (name : string) (value : ParameterValue)
| ReqSetOrDeclare (name : string) (value : ParameterValue)
| ReqLoad (property_name param_name : string)
| ReqStore (property_name param_name : string).

Inductive param_result :=
| ResValue (v : ParameterValue)
| ResBool (r : outcome string bool).

Definition handle_param_request (req : param_request) (s : ParamWorld * PropWorld)
    : option (param_result * (ParamWorld * PropWorld)) :=
  let '(w, p) := s in
  match req with
  | ReqGet n => Some (ResValue (getParameter rtt (Some tc) n w), (w, p))
  | ReqSet n v => let '(r, w) := setParameter rtt (Some tc) n v w in Some (ResBool r, (w, p))
  | ReqDeclare n v => let '(r, w) := declareParameter rtt (Some tc) n v w in Some (ResBool r, (w, p))
  | ReqSetOrDeclare n v => let '(r, w) := setOrDeclareParameter rtt (Some tc) n v w in Some (ResBool r, (w, p))
  | ReqLoad pn n => let '(b, p) := loadProperty rtt (Some tc) pn n w p in Some (ResBool (Ok b), (w, p))
  | ReqStore pn n => '(r, w) ← storeProperty rtt (Some tc) pn n w p; Some (ResBool r, (w, p))
  end.

(** The log of a session: its requests with their results. [None] would be an
    undefined access. *)
Fixpoint run_session (reqs : list param_request) (s : ParamWorld * PropWorld)
    : option (list (param_request * param_result) * (ParamWorld * PropWorld)) :=
  match reqs with
  | [] => Some ([], s)
  | req :: reqs =>
      '(r, s) ← handle_param_request req s;
      '(log, s) ← run_session reqs s;
      Some ((req, r) :: log, s)
  end.

(** ** The abstract store *)

Variable overrides : string -> option ParameterValue.

(** The parameters of the node of the component, and its properties. *)
Abbreviation store := ((string -> option ParameterValue) * PropWorld)%type.

Definition get_value (m : string -> option ParameterValue) (n : string) : ParameterValue :=
  default PARAMETER_NOT_SET (m n).

(** The parameter a request writes if it succeeds, and what it is then ([None]: not
    declared). *)
Definition writes (req : param_request) (s : store) : option (string * option ParameterValue) :=
  match req with
  | ReqSet n v => Some (n, assigned v (s.1 n))
  | ReqDeclare n v => Some (n, Some (default v (overrides n)))
  | ReqSetOrDeclare n v =>
      Some (n, match s.1 n with
               | Some x => assigned v (Some x)
               | None => Some (default v (overrides n))
               end)
  | ReqStore pn n =>
      match getProperty s.2 tc pn with
      | Some prop => match property_value s.2 prop with Ok (Some v) => Some (n, assigned v (s.1 n)) | _ => None end
      | None => None
      end
  | ReqGet _ | ReqLoad _ _ => None
  end.

(** The result of loading a property, and the properties after it. *)
Definition load_value (pn : string) (v : ParameterValue) (p : PropWorld) : bool * PropWorld :=
  match v, getProperty p tc pn with
  | PARAMETER_NOT_SET, _ | _, None => (false, p)
  | _, Some prop =>
      match update_property prop v p with (Ok b, p) => (b, p) | (Throw _, p) => (false, p) end
  end.

(** The store after an entry of the log. *)
Definition replay_entry (e : param_request * param_result) (s : store) : store :=
  let '(req, res) := e in
  (match res, writes req s with
   | ResBool (Ok true), Some (n, o) => fun n' => if decide (n' = n) then o else s.1 n'
   | _, _ => s.1
   end,
   match req with
   | ReqLoad pn n => (load_value pn (get_value s.1 n) s.2).2
   | _ => s.2
   end).

Definition replay (log : list (param_request * param_result)) (s : store) : store :=
  fold_left (fun s e => replay_entry e s) log s.

(** The results a request can have. *)
Definition allowed (req : param_request) (res : param_result) (s : store) : Prop :=
  match req with
  | ReqGet n => res = ResValue (get_value s.1 n)
  | ReqSet n v => exists r, res = ResBool r
  | ReqDeclare n v =>
      exists r, res = ResBool r /\ (is_Some (s.1 n) <-> r = Ok false)
  | ReqSetOrDeclare n v => exists r, res = ResBool r /\ (r = Ok false -> is_Some (s.1 n))
  | ReqLoad pn n => res = ResBool (Ok (load_value pn (get_value s.1 n) s.2).1)
  | ReqStore pn n => exists r, res = ResBool r /\ (writes req s = None -> r = Ok false)
  end.

Fixpoint log_ok (log : list (param_request * param_result)) (s : store) : Prop :=
  match log with
  | [] => True
  | (req, res) :: log => allowed req res s /\ log_ok log (replay_entry (req, res) s)
  end.

(** Stores that hold the same values. *)
Definition same_store : relation store := fun s s' => (forall n, s.1 n = s'.1 n) /\ s.2 = s'.2.

#[export] Instance same_store_equivalence : Equivalence same_store.
Proof.
  split.
  - by intros s.
  - intros s s' [H He]. split; [|done]. intros n. by rewrite H.
  - intros s1 s2 s3 [H He] [H' He']. split; [|congruence]. intros n. by rewrite H.
Qed.

#[export] Instance writes_proper req : Proper (same_store ==> eq) (writes req).
Proof. intros [m p] [m' p'] [H He]. cbn in *. subst. destruct req; cbn; rewrite ?H; done. Qed.

#[export] Instance replay_entry_proper e : Proper (same_store ==> same_store) (replay_entry e).
Proof.
  intros s s' Hs. destruct e as [req res]. pose proof (writes_proper req _ _ Hs) as Hw. destruct Hs as [H He].
  split; cbn; rewrite ?Hw, ?He.
  - destruct res as [v|[[]|]]; try done. destruct (writes req s') as [[n v]|]; [|done].
    intros n'. by case_decide.
  - destruct req; try done. unfold get_value. by rewrite H.
Qed.

#[export] Instance allowed_proper req res : Proper (same_store ==> iff) (allowed req res).
Proof.
  intros s s' Hs. pose proof (writes_proper req _ _ Hs) as Hw. destruct Hs as [H He].
  destruct req; cbn [allowed]; unfold get_value; rewrite ?H, ?He, ?Hw; done.
Qed.

#[export] Instance log_ok_proper log : Proper (same_store ==> iff) (log_ok log).
Proof.
  induction log as [|[req res] log IH]; intros s s' Hs; cbn [log_ok]; [done|].
  rewrite (allowed_proper req res s s' Hs). by rewrite (IH _ _ (replay_entry_proper _ _ _ Hs)).
Qed.

#[export] Instance replay_proper log : Proper (same_store ==> same_store) (replay log).
Proof.
  unfold replay. induction log as [|e log IH]; intros s s' Hs; cbn; [done|].
  apply IH. by apply replay_entry_proper.
Qed.
End Sessions.
Arguments ReqGet {FO}.
Arguments ReqSet {FO}.
Arguments ReqDeclare {FO}.
Arguments ReqSetOrDeclare {FO}.
Arguments ReqLoad {FO}.
Arguments ReqStore {FO}.

(** ** The service refines the store *)
Section Refinement.
Context {FO : FloatOps} {RC : RclcppOps} {RO : RTTOps RC}.
Context {NP : NodeParams RC} {NL : NodeParamsLaws NP} {PO : PropertyOps RO}.
Variable rtt : RTTWorld.
Variable tc : TaskContext.
Variable nd : RclNode.
Hypothesis component_node : getNode rtt (Some tc) = Some nd.

Abbreviation overrides := (parameter_override nd).
Abbreviation handle := (handle_param_request rtt tc).

Definition store_of (s : ParamWorld * PropWorld) : (string -> option ParameterValue) * PropWorld :=
  (fun n => parameter s.1 nd n, s.2).

(** The parameters of the other nodes stay. *)
Definition others_kept (w w' : ParamWorld) : Prop :=
  forall nd' n, nd' <> nd -> parameter w' nd' n = parameter w nd' n.

(** The effect of a call that may make parameter [n] to be [o]. *)
Definition may_set (n : string) (o : option ParameterValue) (w : ParamWorld) (r : outcome string bool) (w' : ParamWorld) : Prop :=
  match r with Ok true => param_set w w' nd n o | _ => w' = w end.

Lemma may_set_store n o w r w' :
  may_set n o w r w' ->
  (forall n', parameter w' nd n' =
     match r with Ok true => if decide (n' = n) then o else parameter w nd n' | _ => parameter w nd n' end) /\
  others_kept w w'.
Proof.
  unfold may_set. destruct r as [[]|]; [|by intros ->..]. intros [Hv Ho]. split.
  - intros n'. destruct (decide (n' = n)) as [->|Hn]; [done|]. apply Ho. by right.
  - intros nd' n' Hn. apply Ho. by left.
Qed.

(** An entry of the log is right: its result is possible and its effect is replayed. *)
Definition entry_right (req : param_request) (s : ParamWorld * PropWorld)
    (o : option (param_result * (ParamWorld * PropWorld))) : Prop :=
  exists res s', o = Some (res, s') /\ allowed tc overrides req res (store_of s) /\
    same_store (store_of s') (replay_entry tc overrides (req, res) (store_of s)) /\ others_kept s.1 s'.1.

(** A call that writes as its request says, and leaves the properties alone. *)
Lemma entry_writes req w p r w' n o :
  allowed tc overrides req (ResBool r) (store_of (w, p)) ->
  writes tc overrides req (store_of (w, p)) = Some (n, o) -> may_set n o w r w' ->
  entry_right req (w, p) (Some (ResBool r, (w', p))).
Proof.
  intros Ha Hw [Hs Ho]%may_set_store. exists (ResBool r), (w', p). split; [done|]. split; [done|].
  split; [|exact Ho]. split; cbn [replay_entry fst snd].
  - intros n'. cbn [store_of fst]. rewrite Hw, Hs. by destruct r as [[]|].
  - by destruct req.
Qed.

Lemma update_may_set n v w :
  let '(r, w') := update_parameter nd n v w in may_set n (assigned v (parameter w nd n)) w r w'.
Proof. pose proof (update_parameter_spec nd n v w). by destruct (update_parameter nd n v w) as [[[]|] w']. Qed.

Lemma declare_may_set n v w :
  parameter w nd n = None ->
  let '(r, w') := declare_new nd n v w in may_set n (Some (default v (overrides n))) w r w' /\ r <> Ok false.
Proof.
  intros Hn. pose proof (declare_new_spec nd n v w Hn). by destruct (declare_new nd n v w) as [[[]|] w'].
Qed.

Lemma ReqGet_right n w p : entry_right (ReqGet n) (w, p) (handle (ReqGet n) (w, p)).
Proof.
  cbn. unfold getParameter. rewrite component_node. eexists _, _. split; [reflexivity|].
  split; [done|]. split; [|done]. split; done.
Qed.

Lemma ReqSet_right n v w p : entry_right (ReqSet n v) (w, p) (handle (ReqSet n v) (w, p)).
Proof.
  cbn. unfold setParameter. rewrite component_node. pose proof (update_may_set n v w) as H.
  destruct (update_parameter nd n v w) as [r w'].
  apply (entry_writes _ w p r w' n (assigned v (parameter w nd n))); [by eexists|done|done].
Qed.

Lemma ReqDeclare_right n v w p : entry_right (ReqDeclare n v) (w, p) (handle (ReqDeclare n v) (w, p)).
Proof.
  cbn. unfold declareParameter. rewrite component_node. destruct (parameter w nd n) as [x|] eqn:Hn.
  - apply (entry_writes _ w p (Ok false) w n (Some (default v (overrides n)))); [|done..].
    exists (Ok false). cbn. by rewrite Hn.
  - pose proof (declare_may_set n v w Hn) as H. destruct (declare_new nd n v w) as [r w']. destruct H as [H Hr].
    apply (entry_writes _ w p r w' n (Some (default v (overrides n)))); [|done..].
    exists r. cbn. rewrite Hn. split; [done|]. split; [by intros []|done].
Qed.

Lemma ReqSetOrDeclare_right n v w p :
  entry_right (ReqSetOrDeclare n v) (w, p) (handle (ReqSetOrDeclare n v) (w, p)).
Proof.
  cbn. unfold setOrDeclareParameter. rewrite component_node. destruct (parameter w nd n) as [x|] eqn:Hn.
  - pose proof (update_may_set n v w) as H. destruct (update_parameter nd n v w) as [r w'].
    apply (entry_writes _ w p r w' n (assigned v (parameter w nd n))); [|cbn; by rewrite Hn|done].
    exists r. cbn. by rewrite Hn.
  - pose proof (declare_may_set n v w Hn) as H. destruct (declare_new nd n v w) as [r w']. destruct H as [H Hr].
    apply (entry_writes _ w p r w' n (Some (default v (overrides n)))); [|cbn; by rewrite Hn|done].
    exists r. cbn. by rewrite Hn.
Qed.

Lemma load_value_spec pn n w p :
  loadProperty rtt (Some tc) pn n w p = load_value tc pn (get_value (store_of (w, p)).1 n) p.
Proof.
  unfold loadProperty, getParameter, load_value, get_value. rewrite component_node. cbn.
  destruct (default PARAMETER_NOT_SET (parameter w nd n)), (getProperty p tc pn) as [prop|]; try done;
    by destruct (update_property prop _ p) as [[] p'].
Qed.

Lemma ReqLoad_right pn n w p : entry_right (ReqLoad pn n) (w, p) (handle (ReqLoad pn n) (w, p)).
Proof.
  cbn [handle_param_request]. rewrite load_value_spec.
  destruct (load_value tc pn (get_value (store_of (w, p)).1 n) p) as [b p'] eqn:E.
  exists (ResBool (Ok b)), (w, p'). split; [done|]. cbn [allowed store_of fst snd] in *. rewrite E.
  split; [done|]. split; [|done]. split; cbn [replay_entry fst snd store_of] in *; [by destruct b|by rewrite E].
Qed.

Lemma ReqStore_right pn n w p : entry_right (ReqStore pn n) (w, p) (handle (ReqStore pn n) (w, p)).
Proof.
  cbn. destruct (getProperty p tc pn) as [prop|] eqn:Hp;
    [destruct (property_value p prop) as [[v|]|e] eqn:Hv|]; cbn.
  - unfold setParameter. rewrite component_node. pose proof (update_may_set n v w) as H.
    destruct (update_parameter nd n v w) as [r w']. cbn.
    assert (writes tc overrides (ReqStore pn n) (store_of (w, p)) =
      Some (n, assigned v (parameter w nd n))) as Hw by (cbn; by rewrite Hp, Hv).
    apply (entry_writes _ w p r w' n (assigned v (parameter w nd n))); [|done..]. exists r. split; [done|]. by rewrite Hw.
  - exists (ResBool (Ok false)), (w, p). split; [done|]. split; [by exists (Ok false)|]. by repeat split.
  - exists (ResBool (Ok false)), (w, p). split; [done|]. split; [by exists (Ok false)|]. by repeat split.
  - exists (ResBool (Ok false)), (w, p). split; [done|]. split; [by exists (Ok false)|]. by repeat split.
Qed.

Lemma request_right req s : entry_right req s (handle req s).
Proof.
  destruct s as [w p], req; [apply ReqGet_right|apply ReqSet_right|apply ReqDeclare_right|
    apply ReqSetOrDeclare_right|apply ReqLoad_right|apply ReqStore_right].
Qed.

(** C26 -- The results of a session with the parameter service of a component that has a node determine the parameters and the properties: after any sequence of get, set, declare, set-or-declare, load and store requests, which always come to an end without undefined accesses, every parameter of the node and every property has the value that replaying the log gives, where a request that returned true has written the value asked for (setting a parameter to no value undeclares it), except that a declaration (also one by set-or-declare) writes the override of the node if there is one, and every other request has written nothing. Each result is one the store allows: a get returns the replayed value, declaring fails exactly for declared parameters, loads are determined. Parameters of other nodes are untouched. *)
Theorem session_log_determines_store (reqs : list param_request) (s : ParamWorld * PropWorld) :
  exists log s', run_session rtt tc reqs s = Some (log, s') /\ log.*1 = reqs /\
    log_ok tc overrides log (store_of s) /\
    same_store (store_of s') (replay tc overrides log (store_of s)) /\ others_kept s.1 s'.1.
Proof.
  revert s. induction reqs as [|req reqs IH]; intros s; [by exists [], s|].
  destruct (request_right req s) as (res & s1 & E & Ha & Hs & Ho).
  destruct (IH s1) as (log & s2 & E2 & Hl & Hok & Hs2 & Ho2).
  exists ((req, res) :: log), s2. split; [|split; [by rewrite <- Hl|split; [split|split]]].
  - cbn [run_session]. rewrite E. cbn [mbind option_bind]. by rewrite E2.
  - done.
  - by rewrite <- Hs.
  - cbn [replay fold_left]. rewrite Hs2. apply replay_proper. by rewrite Hs.
  - intros nd' n Hn. by rewrite Ho2, Ho.
Qed.
End Refinement.

(** ** A session *)
Module Witnesses.
Import RttReference Params.Witnesses.

(** The node overrides the parameter rate, and k is declared. *)
Definition session : list (param_request (FO := ref_floats)) :=
  [ReqSetOrDeclare "rate" (PARAMETER_INTEGER 10); ReqGet "rate"; ReqDeclare "k" (PARAMETER_BOOL true);
   ReqSetOrDeclare "k" (PARAMETER_INTEGER 7); ReqLoad "gain" "k"; ReqStore "gain" "rate"].

Definition session_log : list (param_request (FO := ref_floats) * param_result (FO := ref_floats)) :=
  match run_session (RO := ref_rtt_ops) (NP := ref_node_params) (PO := ref_properties) node_world 2 session
          (some_params, 4%Z) with
  | Some (log, _) => log
  | None => []
  end.

Example param_session_results :
  session_log.*2 =
    [ResBool (Ok true); ResValue (PARAMETER_INTEGER 50); ResBool (Ok false); ResBool (Ok true);
     ResBool (Ok true); ResBool (Ok true)].
Proof. reflexivity. Qed.

Lemma session_log_determines_store_witness :
  exists s', run_session (RO := ref_rtt_ops) (NP := ref_node_params) (PO := ref_properties) node_world 2 session
               (some_params, 4%Z) = Some (session_log, s') /\
    parameter (NodeParams := ref_node_params) s'.1 42 "rate" = Some (PARAMETER_INTEGER 7).
Proof.
  destruct (session_log_determines_store (NL := ref_node_params_laws) (RO := ref_rtt_ops) (PO := ref_properties)
              node_world 2 42 eq_refl session (some_params, 4%Z)) as (log & s' & E & _ & _ & [Hs _] & _).
  exists s'. unfold session_log. rewrite E. split; [reflexivity|].
  replace log with session_log in Hs by (unfold session_log; by rewrite E).
  specialize (Hs "rate"). cbn [store_of fst] in Hs. rewrite Hs. reflexivity.
Defined.
End Witnesses.
