(* ===== verification/Services.v ===== *)
(** Package [rtt_ros2_services]: the registry of service types
    ([rtt_ros2_services_registry.cpp], [rtt_ros2_services_registry_plugin.cpp]),
    the proxies between ROS services and RTT operations
    ([rtt_ros2_services_proxy.hpp], [rtt_ros2_services_proxy.cpp]) and the RTT
    service ["rosservice"] that connects them ([rtt_ros2_services_plugin.cpp],
    [rosservice.hpp]).

    Proxies are C++ objects that closures keep a pointer to. A client proxy
    therefore has an identity ([cp_id]), and an operation caller remembers the
    identity of the proxy whose closure it holds; a call through a closure whose
    proxy has been destroyed is undefined ([None]). *)

From S2P Require Import Prelude RclcppAction RttServices RosNode.
Local Open Scope string_scope.
Local Open Scope list_scope.

(** ** The libraries the proxies use

    A ROS service type is a value of [SrvType]; [Caller] and [Operation] are the
    operation callers a component requires and the operations it provides. *)
Class ServiceLib (RC : RclcppOps) := {
  SrvType : Type;
  Request : Type;
  Response : Type;
  Operation : Type;
  Caller : Type;
  Caller_eq_dec :: EqDecision Caller;
  Caller_countable :: Countable Caller;
  (** [OperationCaller<void (Request &, Response &)>(operation)] of a type is [ready()],
      and its call: the response the operation leaves *)
  default_ready : SrvType -> Operation -> bool;
  call_operation : Operation -> Request -> Response -> Response;
  (** the specialisations of [RosServiceServerOperationCallerWrapper] users have given for
      a type, numbered from 1: whether the caller is ready, and their [dispatch] *)
  Special : Type;
  next_variants : SrvType -> list Special;
  special_ready : Special -> Operation -> bool;
  special_dispatch : Special -> Operation -> Request -> Response -> Response;
  (** [operation_caller->setImplementation] accepts the signature of the type *)
  caller_accepts : Caller -> SrvType -> bool;
  create_service : RclNode -> SrvType -> string -> outcome string unit;
  create_client : RclNode -> SrvType -> string -> outcome string unit;
  (** the value of the future of a request; [NestedCalls] models the wait for it *)
  async_send_request : SrvType -> string -> Request -> Response }.

(** ** Factories and their registry *)
Section Registry.
Context {RC : RclcppOps} {SL : ServiceLib RC}.

(* [rtt_ros2_services/include/orocos/rtt_ros2_services/rtt_ros2_services_proxy.hpp:297-332] RosServiceProxyFactoryBase *)
Record RosServiceProxyFactory := MkFactory {
  service_type_ : string;
  factory_srv : SrvType }.

(* [rtt_ros2_services/include/orocos/rtt_ros2_services/rtt_ros2_services_registry.hpp:52-58] factories_ *)
Definition RosServiceRegistry : Type := gmap string RosServiceProxyFactory.

(* [rtt_ros2_services/src/rtt_ros2_services_registry.cpp:30-36] Instance *)
Definition registry_Instance (s_instance : option RosServiceRegistry) : RosServiceRegistry :=
  match s_instance with Some r => r | None => ∅ end.

(* [rtt_ros2_services/src/rtt_ros2_services_registry.cpp:38-41] Release *)
Definition registry_Release (s_instance : option RosServiceRegistry) : option RosServiceRegistry := None.

(* [rtt_ros2_services/src/rtt_ros2_services_registry.cpp:48-66] registerServiceFactory *)
Definition registerServiceFactory (factory : option RosServiceProxyFactory) (this : RosServiceRegistry)
    : bool * RosServiceRegistry :=
  match factory with
  | None => (false, this)
  | Some factory => (true, <[service_type_ factory := factory]> this)
  end.

(* [rtt_ros2_services/src/rtt_ros2_services_registry.cpp:68-72] hasServiceFactory *)
Definition hasServiceFactory (service_type : string) (this : RosServiceRegistry) : bool :=
  bool_decide (is_Some (this !! service_type)).

(* [rtt_ros2_services/src/rtt_ros2_services_registry.cpp:74-86] getServiceFactory *)
Definition getServiceFactory (service_type : string) (this : RosServiceRegistry)
    : option RosServiceProxyFactory := this !! service_type.

(* [rtt_ros2_services/src/rtt_ros2_services_registry.cpp:88-96] listSrvs *)
Definition listSrvs (this : RosServiceRegistry) : list string := (map_to_list this).*1.

(** The global service that offers the operations of the registry, and the registry it keeps. *)
(* [rtt_ros2_services/src/rtt_ros2_services_registry_plugin.cpp:30-46] RosServiceRegistryService *)
Definition RosServiceRegistryService_ctor {RO : RTTOps RC} (this : ServicePtr)
    (s_instance : option RosServiceRegistry) (w : RTTWorld) : RosServiceRegistry * RTTWorld :=
  let instance_ := registry_Instance s_instance in
  let w := addOperation this "registerServiceFactory" w in
  let w := addOperation this "hasServiceFactory" w in
  let w := addOperation this "getServiceFactory" w in
  (instance_, addOperation this "listSrvs" w).

(** ** Proxies *)

(** The variants of the wrapper of a type: number 0, for operations with the default
    signature, and the specialisations. *)
(* [rtt_ros2_services/include/orocos/rtt_ros2_services/rtt_ros2_services_proxy.hpp:78-96] RosServiceServerOperationCallerWrapper *)
Inductive Wrapper := DefaultWrapper (srv : SrvType) | SpecialWrapper (v : Special).

Definition wrappers (srv : SrvType) : list Wrapper :=
  DefaultWrapper srv :: (SpecialWrapper <$> next_variants srv).

Definition wrapper_ready (v : Wrapper) (operation : Operation) : bool :=
  match v with
  | DefaultWrapper srv => default_ready srv operation
  | SpecialWrapper v => special_ready v operation
  end.

(* [rtt_ros2_services/include/orocos/rtt_ros2_services/rtt_ros2_services_proxy.hpp:97-106] dispatch *)
Definition wrapper_dispatch (v : Wrapper) (operation : Operation) (request : Request)
    (response : Response) : Response :=
  match v with
  | DefaultWrapper _ => call_operation operation request response
  | SpecialWrapper v => special_dispatch v operation request response
  end.

(** [connect] of a variant and, if its caller is not ready, of the next one. *)
(* [rtt_ros2_services/include/orocos/rtt_ros2_services/rtt_ros2_services_proxy.hpp:151-186] connect *)
Fixpoint connect_variants (variants : list Wrapper) (operation : Operation) : option (Wrapper * Operation) :=
  match variants with
  | [] => None
  | v :: variants =>
      if wrapper_ready v operation then Some (v, operation) else connect_variants variants operation
  end.

(* [rtt_ros2_services/include/orocos/rtt_ros2_services/rtt_ros2_services_proxy.hpp:188-237] RosServiceServerProxy *)
Record RosServiceServerProxy := MkServerProxy {
  sp_service_name : string;
  sp_srv : SrvType;
  impl_ : option (Wrapper * Operation);
  server_alive : bool }.

(* [rtt_ros2_services/include/orocos/rtt_ros2_services/rtt_ros2_services_proxy.hpp:198-200] RosServiceServerProxy *)
Definition RosServiceServerProxy_ctor (srv : SrvType) (service_name : string) : RosServiceServerProxy :=
  MkServerProxy service_name srv None false.

(* [rtt_ros2_services/include/orocos/rtt_ros2_services/rtt_ros2_services_proxy.hpp:209-229] connect *)
Definition server_connect (node : option RclNode) (operation : Operation) (this : RosServiceServerProxy)
    : outcome string bool * RosServiceServerProxy :=
  match node with
  | None => (Ok false, this)
  | Some node =>
      let impl := connect_variants (wrappers (sp_srv this)) operation in
      let this := MkServerProxy (sp_service_name this) (sp_srv this) impl (server_alive this) in
      match impl with
      | None => (Ok false, this)
      | Some _ =>
          match create_service node (sp_srv this) (sp_service_name this) with
          | Throw e => (Throw e, this)
          | Ok _ => (Ok true, MkServerProxy (sp_service_name this) (sp_srv this) impl true)
          end
      end
  end.

(* [rtt_ros2_services/include/orocos/rtt_ros2_services/rtt_ros2_services_proxy.hpp:125-139] dispatch *)
Definition impl_dispatch (impl : Wrapper * Operation) (request : Request) (response : Response)
    : outcome string Response :=
  let '(v, operation) := impl in
  if negb (wrapper_ready v operation) then Throw "OperationCaller not ready"
  else Ok (wrapper_dispatch v operation request response).

(** A request arrives at the ROS server of a proxy. [None]: [impl_] is null. *)
(* [rtt_ros2_services/include/orocos/rtt_ros2_services/rtt_ros2_services_proxy.hpp:221-226] dispatch *)
Definition server_request (this : RosServiceServerProxy) (request : Request) (response : Response)
    : option (outcome string Response) :=
  match impl_ this with
  | None => None
  | Some impl => Some (impl_dispatch impl request response)
  end.

(* [rtt_ros2_services/include/orocos/rtt_ros2_services/rtt_ros2_services_proxy.hpp:252-294] RosServiceClientProxy *)
Record RosServiceClientProxy := MkClientProxy {
  cp_id : nat;
  cp_service_name : string;
  cp_srv : SrvType;
  client_alive : bool }.

(** Whether the client is created and whether the caller takes the closure. *)
(* [rtt_ros2_services/include/orocos/rtt_ros2_services/rtt_ros2_services_proxy.hpp:265-289] connect *)
Definition client_connect (node : option RclNode) (operation_caller : Caller)
    (implementations : gmap Caller nat) (this : RosServiceClientProxy)
    : outcome string bool * (RosServiceClientProxy * gmap Caller nat) :=
  match node with
  | None => (Ok false, (this, implementations))
  | Some node =>
      match create_client node (cp_srv this) (cp_service_name this) with
      | Throw e => (Throw e, (this, implementations))
      | Ok _ =>
          let this := MkClientProxy (cp_id this) (cp_service_name this) (cp_srv this) true in
          if caller_accepts operation_caller (cp_srv this)
          then (Ok true, (this, <[operation_caller := cp_id this]> implementations))
          else (Ok false, (this, implementations))
      end
  end.

(** The closure the client proxy installs, run on the proxy. *)
(* [rtt_ros2_services/include/orocos/rtt_ros2_services/rtt_ros2_services_proxy.hpp:274-283] func *)
Definition client_closure (this : RosServiceClientProxy) (request : Request) (response : Response) : Response :=
  if negb (client_alive this) then response
  else async_send_request (cp_srv this) (cp_service_name this) request.
End Registry.

(** ** The RTT service ["rosservice"] of a component *)
Section RosServiceService.
Context {RC : RclcppOps} {RO : RTTOps RC} {SL : ServiceLib RC}.

(** The component's interface: the tree of required services, the operation
    callers and operations at its nodes, and [rcpputils::split] at dots. *)
Context {Requester : Type}.
Variable split_uri : string -> list string.
Variable requiresService : Requester -> string -> option Requester.
Variable getOperationCaller : Requester -> string -> option Caller.
Variable getOperation : ServicePtr -> string -> option Operation.
Variable rtt : RTTWorld.
Variable owner : TaskContext.
Variable owner_requires : Requester.

(** [next_id] is above the identity of every proxy created so far; [callers] the
    proxy whose closure an operation caller of the component holds. *)
(* [rtt_ros2_services/src/rtt_ros2_services_plugin.cpp:228-231] server_proxies_ *)
Record RosServiceService := MkRosServiceService {
  rosservice_registry_ : RosServiceRegistry;
  server_proxies_ : gmap string RosServiceServerProxy;
  client_proxies_ : gmap string RosServiceClientProxy;
  callers : gmap Caller nat;
  next_id : nat }.

(** What the constructor leaves in the object, and the operations it adds to the service. *)
(* [rtt_ros2_services/src/rtt_ros2_services_plugin.cpp:70-71] rosservice_registry_ *)
Definition RosServiceService_ctor (s_instance : option RosServiceRegistry) (callers : gmap Caller nat)
    (next_id : nat) : RosServiceService :=
  MkRosServiceService (registry_Instance s_instance) ∅ ∅ callers next_id.

(* [rtt_ros2_services/src/rtt_ros2_services_plugin.cpp:42-72] RosServiceService *)
Definition RosServiceService_operations (this : ServicePtr) (w : RTTWorld) : RTTWorld :=
  let w := addOperation this "connect" w in
  let w := addOperation this "disconnect" w in
  addOperation this "disconnectAll" w.

(** The operation callers of the requester, which are to be found in the service. *)
(* [rtt_ros2_services/include/orocos/rtt_ros2_services/rosservice.hpp:31-40] RosService *)
Definition RosService_ctor : list string := ["connect"; "disconnect"; "disconnectAll"].

Fixpoint walk_requires (required : Requester) (tokens : list string) : option Caller :=
  match tokens with
  | [] => None
  | [name] => getOperationCaller required name
  | token :: tokens =>
      match requiresService required token with
      | Some required => walk_requires required tokens
      | None => None
      end
  end.

(* [rtt_ros2_services/src/rtt_ros2_services_plugin.cpp:80-106] get_owner_operation_caller *)
Definition get_owner_operation_caller (rtt_uri : string) : option Caller :=
  walk_requires owner_requires (split_uri rtt_uri).

Fixpoint walk_provides (provided : ServicePtr) (tokens : list string) : option Operation :=
  match tokens with
  | [] => None
  | [name] => getOperation provided name
  | token :: tokens =>
      match getService rtt provided token with
      | Some provided => walk_provides provided tokens
      | None => None
      end
  end.

(* [rtt_ros2_services/src/rtt_ros2_services_plugin.cpp:109-135] get_owner_operation *)
Definition get_owner_operation (rtt_uri : string) : option Operation :=
  walk_provides (tc_provides owner) (split_uri rtt_uri).

(** The client proxy of a service name, created if there is none. *)
(* [rtt_ros2_services/src/rtt_ros2_services_plugin.cpp:156-165] client_proxies_ *)
Definition client_proxy (srv : SrvType) (name : string) (this : RosServiceService)
    : RosServiceClientProxy * RosServiceService :=
  match client_proxies_ this !! name with
  | Some p => (p, this)
  | None =>
      let p := MkClientProxy (next_id this) name srv false in
      (p, MkRosServiceService (rosservice_registry_ this) (server_proxies_ this)
            (<[name := p]> (client_proxies_ this)) (callers this) (S (next_id this)))
  end.

(* [rtt_ros2_services/src/rtt_ros2_services_plugin.cpp:178-187] server_proxies_ *)
Definition server_proxy (srv : SrvType) (name : string) (this : RosServiceService)
    : RosServiceServerProxy * RosServiceService :=
  match server_proxies_ this !! name with
  | Some p => (p, this)
  | None =>
      let p := RosServiceServerProxy_ctor srv name in
      (p, MkRosServiceService (rosservice_registry_ this) (<[name := p]> (server_proxies_ this))
            (client_proxies_ this) (callers this) (next_id this))
  end.

(** [set_client] and [set_server] write back the proxy that [connect] was called on. *)
Definition set_client (name : string) (p : RosServiceClientProxy) (cs : gmap Caller nat)
    (this : RosServiceService) : RosServiceService :=
  MkRosServiceService (rosservice_registry_ this) (server_proxies_ this)
    (<[name := p]> (client_proxies_ this)) cs (next_id this).
Definition set_server_proxy (name : string) (p : RosServiceServerProxy) (this : RosServiceService)
    : RosServiceService :=
  MkRosServiceService (rosservice_registry_ this) (<[name := p]> (server_proxies_ this))
    (client_proxies_ this) (callers this) (next_id this).

(* [rtt_ros2_services/src/rtt_ros2_services_plugin.cpp:140-199] connect *)
Definition ros_connect (rtt_operation_name ros_service_name ros_service_type : string)
    (this : RosServiceService) : outcome string bool * RosServiceService :=
  match getServiceFactory ros_service_type (rosservice_registry_ this) with
  | None => (Ok false, this)
  | Some factory =>
      match get_owner_operation_caller rtt_operation_name with
      | Some operation_caller =>
          let '(p, this) := client_proxy (factory_srv factory) ros_service_name this in
          let '(r, (p, cs)) := client_connect (getNode rtt (Some owner)) operation_caller (callers this) p in
          (r, set_client ros_service_name p cs this)
      | None =>
          match get_owner_operation rtt_operation_name with
          | Some operation =>
              let '(p, this) := server_proxy (factory_srv factory) ros_service_name this in
              let '(r, p) := server_connect (getNode rtt (Some owner)) operation p in
              (r, set_server_proxy ros_service_name p this)
          | None => (Ok false, this)
          end
      end
  end.

(* [rtt_ros2_services/src/rtt_ros2_services_plugin.cpp:201-219] disconnect *)
Definition ros_disconnect (ros_service_name : string) (this : RosServiceService) : bool * RosServiceService :=
  (bool_decide (is_Some (server_proxies_ this !! ros_service_name)) ||
   bool_decide (is_Some (client_proxies_ this !! ros_service_name)),
   MkRosServiceService (rosservice_registry_ this) (delete ros_service_name (server_proxies_ this))
     (delete ros_service_name (client_proxies_ this)) (callers this) (next_id this)).

(* [rtt_ros2_services/src/rtt_ros2_services_plugin.cpp:221-226] disconnectAll *)
Definition ros_disconnectAll (this : RosServiceService) : RosServiceService :=
  MkRosServiceService (rosservice_registry_ this) ∅ ∅ (callers this) (next_id this).

(* [rtt_ros2_services/src/rtt_ros2_services_plugin.cpp:74-77] RosServiceService *)
Definition RosServiceService_dtor (this : RosServiceService) : RosServiceService := ros_disconnectAll this.

(** The component calls an operation caller it requires: [Some None] if it holds
    no closure of a client proxy, [None] if its proxy has been destroyed. *)
Definition call_caller (c : Caller) (request : Request) (response : Response) (this : RosServiceService)
    : option (option Response) :=
  match callers this !! c with
  | None => Some None
  | Some id =>
      match list_find (fun e : string * RosServiceClientProxy => cp_id e.2 = id)
              (map_to_list (client_proxies_ this)) with
      | Some (_, (_, p)) => Some (Some (client_closure p request response))
      | None => None
      end
  end.

(** A client calls the ROS service [name]: [Some None] if no proxy has a server
    of that name. *)
Definition call_service (name : string) (request : Request) (response : Response)
    (this : RosServiceService) : option (option (outcome string Response)) :=
  match server_proxies_ this !! name with
  | Some p => if server_alive p then Some <$> server_request p request response else Some None
  | None => Some None
  end.
End RosServiceService.

(** The requester finds all its callers in the service. *)
Lemma requester_finds_service {RC : RclcppOps} {RO : RTTOps RC} {RL : RTTLaws RO} (this : ServicePtr) (w : RTTWorld) :
  Forall (fun o => hasOperation (RosServiceService_operations this w) this o = true) RosService_ctor.
Proof.
  unfold RosServiceService_operations, RosService_ctor. rewrite !Forall_cons, !addOperation_ops.
  split_and!; [..|done]; repeat first [rewrite bool_decide_eq_true_2 by done; done | apply orb_true_intro; right].
Qed.

(** ** Registry *)
Section RegistryLaws.
Context {RC : RclcppOps} {SL : ServiceLib RC}.

Lemma registerServiceFactory_lookup f (r : RosServiceRegistry) ty :
  getServiceFactory ty (registerServiceFactory f r).2 =
    match f with
    | Some f => if decide (ty = service_type_ f) then Some f else getServiceFactory ty r
    | None => getServiceFactory ty r
    end.
Proof.
  unfold getServiceFactory. destruct f as [f|]; simpl; [|done]. case_decide as Hd.
  - subst. apply (lookup_insert_eq (M := gmap string)).
  - apply (lookup_insert_ne (M := gmap string)). congruence.
Qed.

(** The registry answers for a service type with the factory registered last for that type, whatever else was registered in between; registering nothing (a null pointer) reports failure and changes nothing, and a type is known exactly if some factory of that type was registered. *)
Theorem registry_last_wins (fs : list (option RosServiceProxyFactory)) (ty : string) :
  let r := fold_left (fun r f => (registerServiceFactory f r).2) fs (registry_Instance None) in
  getServiceFactory ty r =
    last (omap (fun f : option RosServiceProxyFactory =>
                  f ≫= fun f => if decide (service_type_ f = ty) then Some f else None) fs) /\
  (hasServiceFactory ty r = true <-> exists f, Some f ∈ fs /\ service_type_ f = ty) /\
  (registerServiceFactory None r) = (false, r).
Proof.
  intros r. assert (getServiceFactory ty r =
    last (omap (fun f : option RosServiceProxyFactory =>
                  f ≫= fun f => if decide (service_type_ f = ty) then Some f else None) fs)) as Hget.
  { subst r. induction fs as [|f fs IH] using rev_ind; [done|].
    rewrite fold_left_app, omap_app. cbn [fold_left]. rewrite registerServiceFactory_lookup, IH.
    destruct f as [f|]; simpl; [|by rewrite app_nil_r].
    destruct (decide (service_type_ f = ty)) as [<-|Hne]; simpl.
    - rewrite last_snoc. by rewrite decide_True.
    - rewrite app_nil_r. by rewrite decide_False. }
  split; [done|]. split; [|done]. unfold hasServiceFactory.
  rewrite bool_decide_eq_true. unfold getServiceFactory in Hget. rewrite Hget, last_is_Some.
  split.
  - intros Hne. destruct (omap _ fs) as [|x l] eqn:E; [done|].
    assert (x ∈ x :: l) as Hx by left. rewrite <- E in Hx.
    apply list_elem_of_omap in Hx as (f & Hf & Hfx). destruct f as [f|]; [|done]. simpl in Hfx.
    case_decide; [|done]. exists f. split; [done|]. done.
  - intros (f & Hf & Hty) Hnil.
    assert (f ∈ omap (fun f : option RosServiceProxyFactory =>
                  f ≫= fun f => if decide (service_type_ f = ty) then Some f else None) fs) as Hin.
    { apply list_elem_of_omap. exists (Some f). split; [done|]. simpl. by rewrite decide_True. }
    rewrite Hnil in Hin. by apply not_elem_of_nil in Hin.
Qed.

(** *** Variants *)
Lemma connect_variants_Some vs op v op' :
  connect_variants vs op = Some (v, op') ->
  op' = op /\ wrapper_ready v op = true /\
  exists l1 l2, vs = l1 ++ v :: l2 /\ Forall (fun u => wrapper_ready u op = false) l1.
Proof.
  induction vs as [|u vs IH]; [done|]. simpl. destruct (wrapper_ready u op) eqn:Hu.
  - intros [= -> ->]. split; [done|]. split; [done|]. exists [], vs. by split.
  - intros H. destruct (IH H) as (-> & Hv & l1 & l2 & -> & Hl). split; [done|]. split; [done|].
    exists (u :: l1), l2. split; [done|]. by constructor.
Qed.

Lemma connect_variants_None vs op :
  connect_variants vs op = None <-> Forall (fun u => wrapper_ready u op = false) vs.
Proof.
  induction vs as [|u vs IH]; simpl; [split; [constructor|done]|].
  destruct (wrapper_ready u op) eqn:Hu.
  - split; [done|]. intros Hf. apply Forall_cons in Hf as [? _]. congruence.
  - rewrite IH, Forall_cons. naive_solver.
Qed.

(** Connecting a ROS service server to an RTT operation selects the first of the type's operation signatures, in the order of the variants, that fits the operation. The connection succeeds exactly if the component has a node, some variant fits and the server can be created; then each request is answered by that variant of that operation, never with an exception. *)
Theorem server_uses_first_fitting_variant (node : option RclNode) (op : Operation)
    (p : RosServiceServerProxy) (req : Request) (resp : Response) :
  let vs := wrappers (sp_srv p) in
  let '(r, p') := server_connect node op p in
  (r = Ok true <-> (exists nd, node = Some nd /\ create_service nd (sp_srv p) (sp_service_name p) = Ok tt) /\
                   Exists (fun v => wrapper_ready v op = true) vs) /\
  (r = Ok true ->
     server_alive p' = true /\
     exists l1 v l2, vs = l1 ++ v :: l2 /\ Forall (fun u => wrapper_ready u op = false) l1 /\
       wrapper_ready v op = true /\
       server_request p' req resp = Some (Ok (wrapper_dispatch v op req resp))).
Proof.
  intros vs. unfold server_connect. destruct node as [nd|]; [|split; [split; [done|naive_solver]|done]].
  cbn [sp_srv sp_service_name server_alive]. fold vs.
  destruct (connect_variants vs op) as [[v op']|] eqn:Hv.
  - apply connect_variants_Some in Hv as (-> & Hr & l1 & l2 & Hvs & Hl1).
    assert (Exists (fun v => wrapper_ready v op = true) vs) as Hex.
    { rewrite Hvs. apply Exists_app. right. by apply Exists_cons_hd. }
    destruct (create_service nd (sp_srv p) (sp_service_name p)) as [[]|e] eqn:Hc.
    + split; [split; [|done]; eauto|]. intros _. split; [done|].
      exists l1, v, l2. split; [done|]. split; [done|]. split; [done|].
      unfold server_request, impl_dispatch. simpl. by rewrite Hr.
    + split; [|done]. split; [done|]. intros [(nd' & [= <-] & Hok) _]. congruence.
  - apply connect_variants_None in Hv. split; [|done]. split; [done|]. intros [_ Hex].
    apply Exists_exists in Hex as (v & Hin & Hr). rewrite Forall_forall in Hv.
    specialize (Hv v Hin). congruence.
Qed.
End RegistryLaws.

(** ** The life of the proxies of a component *)
Section Proxies.
Context {RC : RclcppOps} {RO : RTTOps RC} {SL : ServiceLib RC} {Requester : Type}.
Variable split_uri : string -> list string.
Variable requiresService : Requester -> string -> option Requester.
Variable getOperationCaller : Requester -> string -> option Caller.
Variable getOperation : ServicePtr -> string -> option Operation.
Variable rtt : RTTWorld.
Variable owner : TaskContext.
Variable owner_requires : Requester.

Abbreviation find_caller := (get_owner_operation_caller split_uri requiresService getOperationCaller owner_requires).
Abbreviation find_operation := (get_owner_operation split_uri getOperation rtt owner).
Abbreviation connect_op := (ros_connect split_uri requiresService getOperationCaller getOperation rtt owner owner_requires).

(** Every closure an operation caller holds belongs to a proxy that exists. *)
Record proxies_wf (t : RosServiceService) : Prop := {
  wf_ids name p : client_proxies_ t !! name = Some p -> cp_id p < next_id t;
  wf_distinct n1 n2 p1 p2 : client_proxies_ t !! n1 = Some p1 -> client_proxies_ t !! n2 = Some p2 ->
    cp_id p1 = cp_id p2 -> n1 = n2;
  wf_callers c id : callers t !! c = Some id ->
    exists name p, client_proxies_ t !! name = Some p /\ cp_id p = id }.

Lemma client_proxy_spec srv name t p t' :
  client_proxy srv name t = (p, t') ->
  proxies_wf t -> proxies_wf t' /\ client_proxies_ t' !! name = Some p /\ callers t' = callers t /\
    server_proxies_ t' = server_proxies_ t /\ rosservice_registry_ t' = rosservice_registry_ t.
Proof.
  unfold client_proxy. destruct (client_proxies_ t !! name) as [q|] eqn:Hq; intros [= <- <-] W; [done|].
  split; [|cbn; by rewrite lookup_insert_eq]. split; cbn.
  - intros n q [[<- <-]|[_ Hn]]%lookup_insert_Some; cbn; [lia|].
    apply (wf_ids _ W) in Hn. lia.
  - intros n1 n2 p1 p2 [[<- <-]|[Hne1 Hn1]]%lookup_insert_Some [[<- <-]|[Hne2 Hn2]]%lookup_insert_Some;
      cbn; intros He; try done.
    + apply (wf_ids _ W) in Hn2. lia.
    + apply (wf_ids _ W) in Hn1. lia.
    + by eapply (wf_distinct _ W).
  - intros c id Hc. destruct (wf_callers _ W c id Hc) as (n & q & Hn & <-). exists n, q.
    split; [|done]. rewrite lookup_insert_ne; [done|]. intros <-. congruence.
Qed.

(** Writing back a proxy of the same identity. *)
Lemma set_client_wf name p p' cs t :
  proxies_wf t -> client_proxies_ t !! name = Some p -> cp_id p' = cp_id p ->
  (forall c id, cs !! c = Some id -> callers t !! c = Some id \/ id = cp_id p) ->
  proxies_wf (set_client name p' cs t).
Proof.
  intros W Hp Hid Hcs. split; cbn.
  - intros n q [[<- <-]|[_ Hn]]%lookup_insert_Some; [rewrite Hid|]; by eapply (wf_ids _ W).
  - intros n1 n2 p1 p2 [[<- <-]|[Hne1 Hn1]]%lookup_insert_Some [[<- <-]|[Hne2 Hn2]]%lookup_insert_Some He;
      try done.
    + by eapply (wf_distinct _ W); [exact Hp|exact Hn2|congruence].
    + by eapply (wf_distinct _ W); [exact Hn1|exact Hp|congruence].
    + by eapply (wf_distinct _ W).
  - intros c id Hc. destruct (Hcs c id Hc) as [Ho| ->].
    + destruct (wf_callers _ W c id Ho) as (n & q & Hn & Hq).
      destruct (decide (n = name)) as [->|Hne].
      * exists name, p'. rewrite lookup_insert_eq. split; [done|]. congruence.
      * exists n, q. by rewrite lookup_insert_ne.
    + exists name, p'. by rewrite lookup_insert_eq.
Qed.

Lemma client_connect_spec node c cs p r p' cs' :
  client_connect node c cs p = (r, (p', cs')) ->
  cp_id p' = cp_id p /\ cp_srv p' = cp_srv p /\
  (forall c' id, cs' !! c' = Some id -> cs !! c' = Some id \/ id = cp_id p) /\
  (r = Ok true -> cs' !! c = Some (cp_id p) /\ client_alive p' = true).
Proof.
  unfold client_connect. destruct node as [nd|]; [|intros [= <- <- <-]; by split_and!; eauto].
  destruct (create_client nd _ _) as [u|e]; [|intros [= <- <- <-]; by split_and!; eauto].
  cbn [cp_srv]. destruct (caller_accepts c (cp_srv p)); intros [= <- <- <-]; cbn; [|by split_and!; eauto].
  split; [done|]. split; [done|]. split.
  - intros c' id [[<- <-]|[_ ?]]%lookup_insert_Some; eauto.
  - intros _. by rewrite lookup_insert_eq.
Qed.

Lemma ros_connect_wf op name ty t : proxies_wf t -> proxies_wf (connect_op op name ty t).2.
Proof.
  intros W. unfold ros_connect. destruct (getServiceFactory _ _) as [f|]; [|done].
  destruct (find_caller op) as [c|].
  - destruct (client_proxy (factory_srv f) name t) as [p t1] eqn:Hp.
    destruct (client_proxy_spec _ _ _ _ _ Hp W) as (W1 & Hl & Hcs & _).
    destruct (client_connect _ c (callers t1) p) as [r [p' cs']] eqn:Hc.
    destruct (client_connect_spec _ _ _ _ _ _ _ Hc) as (Hid & _ & Hcs' & _).
    by eapply set_client_wf.
  - destruct (find_operation op) as [o|]; [|done]. unfold server_proxy.
    destruct (server_proxies_ t !! name); destruct (server_connect _ _ _); destruct W; by split.
Qed.

Lemma call_caller_defined c req resp t : proxies_wf t -> is_Some (call_caller c req resp t).
Proof.
  intros W. unfold call_caller. destruct (callers t !! c) as [id|] eqn:Hc; [|done].
  destruct (list_find _ _) as [[i [n p]]|] eqn:Hf; [done|].
  destruct (wf_callers _ W c id Hc) as (n & p & Hn & Hid).
  apply list_find_None in Hf. rewrite Forall_forall in Hf.
  by destruct (Hf (n, p)); [apply elem_of_map_to_list|].
Qed.

Lemma call_caller_destroyed c id req resp t :
  callers t !! c = Some id -> (forall n p, client_proxies_ t !! n = Some p -> cp_id p <> id) ->
  call_caller c req resp t = None.
Proof.
  intros Hc Hno. unfold call_caller. rewrite Hc.
  destruct (list_find _ _) as [[i [n p]]|] eqn:Hf; [|done].
  apply list_find_Some in Hf as (Hi & Hid & _). cbn in Hid.
  apply list_elem_of_lookup_2, elem_of_map_to_list in Hi. by destruct (Hno n p Hi).
Qed.

(** A sequence of connect requests of a script. *)
Definition connect_all (reqs : list (string * string * string)) (t : RosServiceService) : RosServiceService :=
  fold_left (fun t '(op, name, ty) => (connect_op op name ty t).2) reqs t.

Lemma connect_all_wf reqs t : proxies_wf t -> proxies_wf (connect_all reqs t).
Proof.
  revert t. induction reqs as [|[[op name] ty] reqs IH]; intros t W; simpl; [done|].
  apply IH. by apply ros_connect_wf.
Qed.

Lemma ctor_wf s : proxies_wf (RosServiceService_ctor s ∅ 0).
Proof. split; cbn; intros; by rewrite lookup_empty in *. Qed.

(** As long as only connections are made, in any number and order and whether or not they succeed, calling an operation caller of the component is always well defined: it is unconnected, or the client proxy behind it still exists. But a successful client connection does not survive its own disconnect: after disconnect with that service name (or disconnectAll) the operation caller still holds the closure of the destroyed proxy, and calling it is undefined behaviour. *)
Theorem caller_dangles_after_disconnect (reqs : list (string * string * string)) s op name ty c req resp t :
  let t0 := connect_all reqs (RosServiceService_ctor s ∅ 0) in
  (forall c' req' resp', is_Some (call_caller c' req' resp' t0)) /\
  (find_caller op = Some c -> connect_op op name ty t0 = (Ok true, t) ->
     is_Some (call_caller c req resp t) /\
     (ros_disconnect name t).1 = true /\
     call_caller c req resp (ros_disconnect name t).2 = None /\
     call_caller c req resp (ros_disconnectAll t) = None).
Proof.
  intros t0. assert (proxies_wf t0) as W by (apply connect_all_wf, ctor_wf).
  split; [by intros; apply call_caller_defined|]. intros Hf Hconn.
  pose proof (ros_connect_wf op name ty t0 W) as W'. rewrite Hconn in W'. cbn in W'.
  split; [by apply call_caller_defined|].
  unfold ros_connect in Hconn. destruct (getServiceFactory _ _) as [f|]; [|done].
  rewrite Hf in Hconn. destruct (client_proxy (factory_srv f) name t0) as [p t1] eqn:Hp.
  destruct (client_connect _ c (callers t1) p) as [r [p' cs']] eqn:Hc. injection Hconn as -> <-.
  destruct (client_connect_spec _ _ _ _ _ _ _ Hc) as (Hid & _ & _ & Hok).
  destruct (Hok eq_refl) as [Hcs _]. split; [|split].
  - cbn. rewrite lookup_insert_eq. rewrite orb_comm. done.
  - apply (call_caller_destroyed c (cp_id p)); [done|]. cbn.
    intros n q [Hne Hn]%lookup_delete_Some Hq. apply Hne. symmetry.
    apply (wf_distinct _ W' n name q p'); cbn; [done|apply lookup_insert_eq|congruence].
  - apply (call_caller_destroyed c (cp_id p)); [done|]. cbn. intros n q Hn. by rewrite lookup_empty in Hn.
Qed.

(** C17 -- Reconnecting a served ROS service to an operation none of the signatures fits is refused, but the ROS server of the earlier connection stays advertised while its operation has been dropped: the next request of a client dereferences a null pointer. *)
Theorem failed_reconnect_breaks_server op name ty f o p nd t req resp :
  getServiceFactory ty (rosservice_registry_ t) = Some f ->
  find_caller op = None -> find_operation op = Some o -> getNode rtt (Some owner) = Some nd ->
  server_proxies_ t !! name = Some p -> server_alive p = true ->
  Forall (fun v => wrapper_ready v o = false) (wrappers (sp_srv p)) ->
  exists t', connect_op op name ty t = (Ok false, t') /\ call_service name req resp t' = None.
Proof.
  intros Hf Hc Ho Hn Hp Ha Hv. apply connect_variants_None in Hv.
  unfold ros_connect. rewrite Hf, Hc, Ho. unfold server_proxy. rewrite Hp.
  unfold server_connect. rewrite Hn, Hv. eexists. split; [reflexivity|].
  unfold call_service. cbn. rewrite lookup_insert_eq. cbn. by rewrite Ha.
Qed.

(** Connecting an operation name to a ROS service: an unknown service type is refused without any change; a required operation (an operation caller) takes precedence over a provided one of the same name and never touches the server proxies; a provided operation never touches the client proxies or the callers; a name that is neither is refused without change. A service name that already has a proxy keeps the service type it was first connected with, whatever type is given later. *)
Theorem connect_precedence op name ty t :
  let '(r, t') := connect_op op name ty t in
  rosservice_registry_ t' = rosservice_registry_ t /\
  match getServiceFactory ty (rosservice_registry_ t), find_caller op, find_operation op with
  | None, _, _ => r = Ok false /\ t' = t
  | Some f, Some c, _ =>
      server_proxies_ t' = server_proxies_ t /\
      (exists p', client_proxies_ t' !! name = Some p' /\
         cp_srv p' = match client_proxies_ t !! name with Some p => cp_srv p | None => factory_srv f end) /\
      (forall n, n <> name -> client_proxies_ t' !! n = client_proxies_ t !! n)
  | Some f, None, Some o =>
      client_proxies_ t' = client_proxies_ t /\ callers t' = callers t /\
      (exists p', server_proxies_ t' !! name = Some p' /\
         sp_srv p' = match server_proxies_ t !! name with Some p => sp_srv p | None => factory_srv f end) /\
      (forall n, n <> name -> server_proxies_ t' !! n = server_proxies_ t !! n)
  | Some f, None, None => r = Ok false /\ t' = t
  end.
Proof.
  unfold ros_connect. destruct (getServiceFactory ty _) as [f|]; [|done].
  destruct (find_caller op) as [c|].
  - unfold client_proxy. destruct (client_proxies_ t !! name) as [p|] eqn:Hp.
    + destruct (client_connect _ c (callers t) p) as [r [p' cs']] eqn:Hc.
      destruct (client_connect_spec _ _ _ _ _ _ _ Hc) as (_ & Hs & _). cbn.
      split; [done|]. split; [done|]. split; [exists p'; by rewrite lookup_insert_eq|].
      intros n Hn. by rewrite lookup_insert_ne.
    + set (p := MkClientProxy (next_id t) name (factory_srv f) false).
      destruct (client_connect _ c _ p) as [r [p' cs']] eqn:Hc.
      destruct (client_connect_spec _ _ _ _ _ _ _ Hc) as (_ & Hs & _). cbn.
      split; [done|]. split; [done|]. split; [exists p'; by rewrite lookup_insert_eq|].
      intros n Hn. by rewrite !lookup_insert_ne.
  - destruct (find_operation op) as [o|]; [|done].
    assert (forall nd q, sp_srv (server_connect nd o q).2 = sp_srv q) as Hsrv.
    { intros nd q. unfold server_connect. destruct nd as [nd|]; [|done].
      destruct (connect_variants _ o); [|done]. by destruct (create_service nd _ _). }
    unfold server_proxy. destruct (server_proxies_ t !! name) as [p|] eqn:Hp.
    + specialize (Hsrv (getNode rtt (Some owner)) p). destruct (server_connect _ o p) as [r p']. cbn in *.
      split; [done|]. split; [done|]. split; [done|]. split; [exists p'; by rewrite lookup_insert_eq|].
      intros n Hn. by rewrite lookup_insert_ne.
    + specialize (Hsrv (getNode rtt (Some owner)) (RosServiceServerProxy_ctor (factory_srv f) name)).
      destruct (server_connect _ o _) as [r p']. cbn in *.
      split; [done|]. split; [done|]. split; [done|]. split; [exists p'; by rewrite lookup_insert_eq|].
      intros n Hn. by rewrite !lookup_insert_ne.
Qed.
End Proxies.

(** ** Witnesses *)
Module Witnesses.
Import RttReference.

(** Operations and variants are numbers; operation [n] fits variant [n]. *)
#[export] Instance ref_service_lib : ServiceLib ref_rclcpp := {|
  SrvType := string;
  Request := nat;
  Response := nat;
  Operation := nat;
  Caller := nat;
  default_ready := fun _ op => bool_decide (op = 0);
  call_operation := fun op req resp => req;
  Special := nat;
  next_variants := fun _ => [1; 2];
  special_ready := fun v op => bool_decide (v = op);
  special_dispatch := fun v op req resp => 100 * v + req;
  caller_accepts := fun _ _ => true;
  create_service := fun _ _ _ => Ok tt;
  create_client := fun _ _ _ => Ok tt;
  async_send_request := fun _ _ req => S req |}.

Definition node_world : RTTWorld (RTTOps := ref_rtt_ops) :=
  RefRtt [((RefService 3 "component" None, "mine"), RefService 9 "mine" (Some 42))] [].
Definition callers_of (_ : unit) (n : string) : option nat := if decide (n = "call") then Some 5 else None.
Definition operations_of (_ : ref_service) (n : string) : option nat :=
  if decide (n = "serve") then Some 1 else if decide (n = "other") then Some 9 else None.

Abbreviation wconnect := (ros_connect (RO := ref_rtt_ops) (SL := ref_service_lib) (fun s => [s])
  (fun _ _ => None) callers_of operations_of node_world 2 tt).

Definition types : RosServiceRegistry (SL := ref_service_lib) := {["std_srvs/srv/Empty" := MkFactory (SL := ref_service_lib) "std_srvs/srv/Empty" "Empty"]}.

Lemma server_uses_first_fitting_variant_witness :
  server_request (server_connect (SL := ref_service_lib) (Some 42) 1 (RosServiceServerProxy_ctor (SL := ref_service_lib) "Empty" "/s")).2 7 0 =
    Some (Ok 107).
Proof.
  destruct (server_uses_first_fitting_variant (SL := ref_service_lib) (Some 42) 1
              (RosServiceServerProxy_ctor (SL := ref_service_lib) "Empty" "/s") 7 0) as [_ Hok].
  destruct (Hok eq_refl) as (_ & l1 & v & l2 & _ & _ & Hv & Hr).
  destruct v as [srv|v]; [discriminate Hv|]. apply bool_decide_eq_true in Hv. subst v. exact Hr.
Defined.

Definition served := (wconnect "serve" "/s" "std_srvs/srv/Empty"
  (RosServiceService_ctor (Some types) ∅ 0)).2.

Lemma failed_reconnect_breaks_server_witness :
  call_service "/s" 7 0 served = Some (Some (Ok 107)) /\
  exists t', wconnect "other" "/s" "std_srvs/srv/Empty" served = (Ok false, t') /\
    call_service "/s" 7 0 t' = None.
Proof.
  split; [vm_compute; reflexivity|].
  refine (failed_reconnect_breaks_server (SL := ref_service_lib) (RO := ref_rtt_ops) (fun s => [s]) (fun _ _ => None)
    callers_of operations_of node_world 2 tt "other" "/s" "std_srvs/srv/Empty"
    (MkFactory (SL := ref_service_lib) "std_srvs/srv/Empty" "Empty") 9 (MkServerProxy (SL := ref_service_lib) "/s" "Empty" (Some (SpecialWrapper (SL := ref_service_lib) 1, 1)) true) 42 served 7 0
    _ _ _ _ _ _ _); try (vm_compute; reflexivity).
  repeat constructor.
Defined.

Definition called := (wconnect "call" "/s" "std_srvs/srv/Empty"
  (RosServiceService_ctor (Some types) ∅ 0)).2.

Lemma caller_dangles_after_disconnect_witness :
  call_caller (SL := ref_service_lib) 5 7 0 called = Some (Some 8) /\
  call_caller (SL := ref_service_lib) 5 7 0 (ros_disconnect "/s" called).2 = None.
Proof.
  split; [vm_compute; reflexivity|].
  destruct (caller_dangles_after_disconnect (SL := ref_service_lib) (RO := ref_rtt_ops) (fun s => [s]) (fun _ _ => None)
    callers_of operations_of node_world 2 tt [] (Some types) "call" "/s" "std_srvs/srv/Empty" 5 7 0 called)
    as [_ Hd].
  destruct (Hd eq_refl eq_refl) as (_ & _ & Hn & _). exact Hn.
Defined.
End Witnesses.
