(* ===== verification/ServiceSessions.v ===== *)
(** Package [rtt_ros2_services]: sequences of requests to the service ["rosservice"].

    What the service promises to a component, without proxies and their identities: a
    table of connections by service name. [table] is that state; the operations of
    [Services] refine it, for any sequence of [connect], [disconnect] and
    [disconnectAll], so that it tells after any session which calls are answered, which
    are not connected and which use a destroyed object. *)

From S2P Require Import Prelude RclcppAction RttServices RosNode Services.
Local Open Scope string_scope.

(** ** Requests *)

Inductive service_request :=
| ReqConnect (rtt_operation_name ros_service_name ros_service_type : string)
| ReqDisconnect (ros_service_name : string)
| ReqDisconnectAll.

(** The value of a request: [disconnectAll] has none. *)
Abbreviation request_result := (outcome string bool).

(** Running a list of requests with a function for one. *)
Fixpoint run_requests {S} (step : service_request -> S -> request_result * S)
    (reqs : list service_request) (s : S) : list request_result * S :=
  match reqs with
  | [] => ([], s)
  | req :: reqs =>
      let '(r, s) := step req s in
      let '(rs, s) := run_requests step reqs s in
      (r :: rs, s)
  end.

Section Sessions.
Context {RC : RclcppOps} {RO : RTTOps RC} {SL : ServiceLib RC} {Requester : Type}.
Variable split_uri : string -> list string.
Variable requiresService : Requester -> string -> option Requester.
Variable getOperationCaller : Requester -> string -> option Caller.
Variable getOperation : ServicePtr -> string -> option Operation.
Variable rtt : RTTWorld.
Variable owner : TaskContext.
Variable owner_requires : Requester.

Abbreviation find_caller := (get_owner_operation_caller split_uri requiresService getOperationCaller owner_requires).
Abbreviation find_operation := (get_owner_operation split_uri getOperation rtt owner).
Abbreviation node := (getNode rtt (Some owner)).

(** A request to the service of a component. *)
Definition handle_request (req : service_request) (this : RosServiceService)
    : request_result * RosServiceService :=
  match req with
  | ReqConnect op name ty =>
      ros_connect split_uri requiresService getOperationCaller getOperation rtt owner owner_requires op name ty this
  | ReqDisconnect name => let '(b, this) := ros_disconnect name this in (Ok b, this)
  | ReqDisconnectAll => (Ok true, ros_disconnectAll this)
  end.

(** ** The table *)

(** [table_clients] has the service type of a name and whether its client exists;
    [table_servers] the type, the connected operation and whether a server is
    advertised; [table_callers] the service name an operation caller is connected to,
    [None] if that connection is gone and the caller was not told. *)
Record table := MkTable {
  table_registry : RosServiceRegistry;
  table_servers : gmap string (SrvType * option (Wrapper * Operation) * bool);
  table_clients : gmap string (SrvType * bool);
  table_callers : gmap Caller (option string) }.

Definition spec_connect_client (f : RosServiceProxyFactory) (c : Caller) (name : string) (t : table)
    : request_result * table :=
  let '(srv, alive) := default (factory_srv f, false) (table_clients t !! name) in
  let set alive callers := MkTable (table_registry t) (table_servers t)
                             (<[name := (srv, alive)]> (table_clients t)) callers in
  match node with
  | None => (Ok false, set alive (table_callers t))
  | Some nd =>
      match create_client nd srv name with
      | Throw e => (Throw e, set alive (table_callers t))
      | Ok _ =>
          if caller_accepts c srv then (Ok true, set true (<[c := Some name]> (table_callers t)))
          else (Ok false, set true (table_callers t))
      end
  end.

Definition spec_connect_server (f : RosServiceProxyFactory) (op : Operation) (name : string) (t : table)
    : request_result * table :=
  let '(srv, impl, alive) := default (factory_srv f, None, false) (table_servers t !! name) in
  let set impl alive := MkTable (table_registry t) (<[name := (srv, impl, alive)]> (table_servers t))
                          (table_clients t) (table_callers t) in
  match node with
  | None => (Ok false, set impl alive)
  | Some nd =>
      match find (fun v => wrapper_ready v op) (wrappers srv) with
      | None => (Ok false, set None alive)
      | Some v =>
          match create_service nd srv name with
          | Throw e => (Throw e, set (Some (v, op)) alive)
          | Ok _ => (Ok true, set (Some (v, op)) true)
          end
      end
  end.

(** Connections of callers to a name that is gone. *)
Definition forget (gone : string -> bool) (callers : gmap Caller (option string)) : gmap Caller (option string) :=
  (fun o => match o with Some n => if gone n then None else Some n | None => None end) <$> callers.

Definition spec_request (req : service_request) (t : table) : request_result * table :=
  match req with
  | ReqConnect op name ty =>
      match getServiceFactory ty (table_registry t), find_caller op, find_operation op with
      | None, _, _ => (Ok false, t)
      | Some f, Some c, _ => spec_connect_client f c name t
      | Some f, None, Some o => spec_connect_server f o name t
      | Some f, None, None => (Ok false, t)
      end
  | ReqDisconnect name =>
      (Ok (bool_decide (is_Some (table_servers t !! name)) || bool_decide (is_Some (table_clients t !! name))),
       MkTable (table_registry t) (delete name (table_servers t)) (delete name (table_clients t))
         (forget (fun n => bool_decide (n = name)) (table_callers t)))
  | ReqDisconnectAll => (Ok true, MkTable (table_registry t) ∅ ∅ (forget (fun _ => true) (table_callers t)))
  end.

(** What a call of an operation caller gives: [Some None] if it is not connected,
    [None] if it uses a destroyed object. *)
Definition spec_call (c : Caller) (req : Request) (resp : Response) (t : table) : option (option Response) :=
  match table_callers t !! c with
  | None => Some None
  | Some None => None
  | Some (Some name) =>
      match (table_clients t !! name : option (SrvType * bool)) with
      | Some (srv, alive) => Some (Some (if alive then async_send_request srv name req else resp))
      | None => None
      end
  end.

Definition spec_service (name : string) (req : Request) (resp : Response) (t : table)
    : option (option (outcome string Response)) :=
  match (table_servers t !! name : option (SrvType * option (Wrapper * Operation) * bool)) with
  | Some (_, Some (v, op), true) => Some (Some (impl_dispatch (v, op) req resp))
  | Some (_, None, true) => None
  | _ => Some None
  end.

Definition empty_table (r : RosServiceRegistry) : table := MkTable r ∅ ∅ ∅.

(** ** The table of a service object *)

(** The name whose client proxy has an identity. *)
Definition client_of (m : gmap string RosServiceClientProxy) (id : nat) : option string :=
  fst <$> (snd <$> list_find (fun e : string * RosServiceClientProxy => cp_id e.2 = id) (map_to_list m)).

Definition table_of (this : RosServiceService) : table :=
  MkTable (rosservice_registry_ this)
    ((fun p => (sp_srv p, impl_ p, server_alive p)) <$> server_proxies_ this)
    ((fun p => (cp_srv p, client_alive p)) <$> client_proxies_ this)
    (client_of (client_proxies_ this) <$> callers this).

(** Identities are not used twice, and proxies know their names. *)
Record session_inv (this : RosServiceService) : Prop := {
  si_ids name p : client_proxies_ this !! name = Some p -> cp_id p < next_id this;
  si_distinct n1 n2 p1 p2 : client_proxies_ this !! n1 = Some p1 -> client_proxies_ this !! n2 = Some p2 ->
    cp_id p1 = cp_id p2 -> n1 = n2;
  si_callers c id : callers this !! c = Some id -> id < next_id this;
  si_client_name name p : client_proxies_ this !! name = Some p -> cp_service_name p = name;
  si_server_name name p : server_proxies_ this !! name = Some p -> sp_service_name p = name }.

Definition distinct_ids (m : gmap string RosServiceClientProxy) : Prop :=
  forall n1 n2 p1 p2, m !! n1 = Some p1 -> m !! n2 = Some p2 -> cp_id p1 = cp_id p2 -> n1 = n2.

Lemma client_of_Some m id n :
  distinct_ids m -> client_of m id = Some n <-> exists p, m !! n = Some p /\ cp_id p = id.
Proof.
  intros Hd. unfold client_of. destruct (list_find _ _) as [[i [n' p']]|] eqn:E; cbn.
  - apply list_find_Some in E as (Hi & Hid & _). cbn in Hid.
    apply list_elem_of_lookup_2, elem_of_map_to_list in Hi. split.
    + intros [= <-]. by exists p'.
    + intros (p & Hp & Hpid). f_equal. by apply (Hd n' n p' p); [..|congruence].
  - split; [done|]. intros (p & Hp & Hid). apply list_find_None in E. rewrite Forall_forall in E.
    by destruct (E (n, p)); [apply elem_of_map_to_list|].
Qed.

Lemma client_of_ext m m' id :
  distinct_ids m -> distinct_ids m' ->
  (forall n, (exists p, m !! n = Some p /\ cp_id p = id) <-> (exists p, m' !! n = Some p /\ cp_id p = id)) ->
  client_of m id = client_of m' id.
Proof. intros Hd Hd' H. apply option_eq. intros n. by rewrite !client_of_Some. Qed.

(** ** Each request refines its specification *)

(** The client proxy of a name after a connect request: the old one or a new one, with
    callers [cs]. *)
Definition put_client (name : string) (p : RosServiceClientProxy) (cs : gmap Caller nat) (n : nat)
    (this : RosServiceService) : RosServiceService :=
  MkRosServiceService (rosservice_registry_ this) (server_proxies_ this) (<[name := p]> (client_proxies_ this)) cs n.

Definition known_or_new (name : string) (p : RosServiceClientProxy) (n : nat) (this : RosServiceService) : Prop :=
  cp_service_name p = name /\ cp_id p < n /\ next_id this <= n /\
  ((exists q, client_proxies_ this !! name = Some q /\ cp_id p = cp_id q) \/
   client_proxies_ this !! name = None /\ cp_id p = next_id this).

Lemma put_client_distinct name p n this :
  session_inv this -> known_or_new name p n this -> distinct_ids (<[name := p]> (client_proxies_ this)).
Proof.
  intros I (_ & _ & _ & Hp) n1 n2 p1 p2 [[<- <-]|[Hn1 H1]]%lookup_insert_Some [[<- <-]|[Hn2 H2]]%lookup_insert_Some He;
    [done|..|by apply (si_distinct _ I _ _ _ _ H1 H2)].
  - destruct Hp as [(q & Hq & Hid)|[_ Hid]].
    + apply (si_distinct _ I _ _ _ _ Hq H2). congruence.
    + apply (si_ids _ I) in H2. lia.
  - destruct Hp as [(q & Hq & Hid)|[_ Hid]].
    + apply (si_distinct _ I _ _ _ _ H1 Hq). congruence.
    + apply (si_ids _ I) in H1. lia.
Qed.

Lemma put_client_of name p n this id :
  session_inv this -> known_or_new name p n this -> id < next_id this ->
  client_of (<[name := p]> (client_proxies_ this)) id = client_of (client_proxies_ this) id.
Proof.
  intros I Hk Hid. pose proof (put_client_distinct name p n this I Hk) as Hd.
  destruct Hk as (_ & _ & _ & Hp). apply client_of_ext; [done|exact (si_distinct _ I)|].
  intros n'. destruct (decide (n' = name)) as [->|Hn]; [|by rewrite lookup_insert_ne].
  rewrite lookup_insert_eq. destruct Hp as [(q & -> & He)|[-> He]]; split; intros (x & Hx & Hxi).
  - exists q. injection Hx as <-. by rewrite <- He.
  - exists p. injection Hx as <-. by rewrite He.
  - injection Hx as <-. lia.
  - done.
Qed.

Lemma put_client_inv name p cs n this :
  session_inv this -> known_or_new name p n this -> (forall c id, cs !! c = Some id -> id < n) ->
  session_inv (put_client name p cs n this).
Proof.
  intros I Hk Hc. pose proof (put_client_distinct name p n this I Hk) as Hd.
  destruct Hk as (Hn & Hid & Hle & Hp). split; cbn; [|done|done| |apply (si_server_name _ I)].
  - intros n' q [[<- <-]|[_ Hq]]%lookup_insert_Some; [done|]. apply (si_ids _ I) in Hq. lia.
  - intros n' q [[<- <-]|[_ Hq]]%lookup_insert_Some; [done|]. by apply (si_client_name _ I).
Qed.

Lemma put_client_table name p cs n this :
  session_inv this -> known_or_new name p n this ->
  table_of (put_client name p cs n this) =
    MkTable (table_registry (table_of this)) (table_servers (table_of this))
      (<[name := (cp_srv p, client_alive p)]> (table_clients (table_of this)))
      (client_of (<[name := p]> (client_proxies_ this)) <$> cs).
Proof. intros I Hk. unfold table_of. cbn. f_equal. by rewrite fmap_insert. Qed.

(** The callers it leaves alone, and the one it connects. *)
Lemma put_client_callers name p n this :
  session_inv this -> known_or_new name p n this ->
  client_of (<[name := p]> (client_proxies_ this)) <$> callers this = table_callers (table_of this) /\
  (forall c, client_of (<[name := p]> (client_proxies_ this)) <$> <[c := cp_id p]> (callers this) =
             <[c := Some name]> (table_callers (table_of this))).
Proof.
  intros I Hk.
  assert (client_of (<[name := p]> (client_proxies_ this)) <$> callers this = table_callers (table_of this)) as H.
  { apply map_eq. intros c. cbn. rewrite !lookup_fmap. destruct (callers this !! c) as [id|] eqn:Hc; [|done].
    cbn. f_equal. apply (put_client_of _ _ n); [done..|]. by apply (si_callers _ I c). }
  split; [done|]. intros c. rewrite fmap_insert, H. f_equal.
  apply client_of_Some; [by apply (put_client_distinct _ _ n)|]. exists p. by rewrite lookup_insert_eq.
Qed.

(** The proxy [client_proxy] gives, and what it becomes when it is written back. *)
Lemma client_proxy_cases srv name this :
  session_inv this ->
  let '(p, this1) := client_proxy srv name this in
  known_or_new name p (next_id this1) this /\
  (cp_srv p, client_alive p) = default (srv, false) (table_clients (table_of this) !! name) /\
  callers this1 = callers this /\
  (forall p' cs, set_client name p' cs this1 = put_client name p' cs (next_id this1) this).
Proof.
  intros I. unfold client_proxy. cbn. rewrite lookup_fmap.
  destruct (client_proxies_ this !! name) as [q|] eqn:Hq; cbn; split_and!; try done.
  - split_and!; [by apply (si_client_name _ I)|by apply (si_ids _ I _ _ Hq)|done|left]. by exists q.
  - split_and!; cbn; [done|lia|lia|by right].
  - intros p' cs. unfold set_client, put_client. cbn. by rewrite insert_insert_eq.
Qed.

(** A request does to the service what its specification does to the table. *)
Definition refines (r : request_result * RosServiceService) (sp : request_result * table) : Prop :=
  session_inv r.2 /\ sp = (r.1, table_of r.2).

Lemma put_client_refines name p q n this r :
  session_inv this -> known_or_new name p n this -> cp_id q = cp_id p -> cp_service_name q = cp_service_name p ->
  refines (r, put_client name q (callers this) n this)
    (r, MkTable (table_registry (table_of this)) (table_servers (table_of this))
          (<[name := (cp_srv q, client_alive q)]> (table_clients (table_of this))) (table_callers (table_of this))) /\
  (forall c, refines (r, put_client name q (<[c := cp_id q]> (callers this)) n this)
    (r, MkTable (table_registry (table_of this)) (table_servers (table_of this))
          (<[name := (cp_srv q, client_alive q)]> (table_clients (table_of this)))
          (<[c := Some name]> (table_callers (table_of this))))).
Proof.
  intros I Hk Hid Hname.
  assert (known_or_new name q n this) as Hq by (unfold known_or_new; by rewrite Hid, Hname).
  destruct (put_client_callers name q n this I Hq) as [H1 H2]. destruct Hk as (_ & Hlt & Hle & _).
  split; [|intros c]; (split; cbn [fst snd]; [apply put_client_inv; [done..|]|by rewrite put_client_table, ?H1, ?H2]).
  - intros c id Hc. apply (si_callers _ I) in Hc. lia.
  - intros c' id [[_ <-]|[_ Hc]]%lookup_insert_Some; [lia|]. apply (si_callers _ I) in Hc. lia.
Qed.

Lemma connect_client_refines f c name this :
  session_inv this ->
  refines
    (let '(p, this) := client_proxy (factory_srv f) name this in
     let '(r, (p, cs)) := client_connect node c (callers this) p in
     (r, set_client name p cs this))
    (spec_connect_client f c name (table_of this)).
Proof.
  intros I. pose proof (client_proxy_cases (factory_srv f) name this I) as H.
  destruct (client_proxy (factory_srv f) name this) as [p this1]. destruct H as (Hk & Ht & Hcs & Hset).
  unfold spec_connect_client. rewrite <- Ht, Hcs. unfold client_connect.
  destruct node as [nd|]; [|cbv iota beta; rewrite Hset; by apply (put_client_refines name p p)].
  replace (cp_service_name p) with name by (symmetry; apply Hk).
  destruct (create_client nd (cp_srv p) name) as [[]|e];
    [|cbv iota beta; rewrite Hset; by apply (put_client_refines name p p)].
  cbn [cp_srv cp_id]. set (q := MkClientProxy (cp_id p) name (cp_srv p) true).
  destruct (put_client_refines name p q (next_id this1) this (Ok true) I Hk eq_refl) as [_ H2].
  { symmetry. apply Hk. }
  destruct (put_client_refines name p q (next_id this1) this (Ok false) I Hk eq_refl) as [H1 _].
  { symmetry. apply Hk. }
  destruct (caller_accepts c (cp_srv p)); cbv iota beta zeta; rewrite Hset; [apply H2|apply H1].
Qed.

(** *** Servers *)

Lemma connect_variants_find vs op :
  connect_variants vs op = (fun v => (v, op)) <$> find (fun v => wrapper_ready v op) vs.
Proof. induction vs as [|v vs IH]; cbn; [done|]. by destruct (wrapper_ready v op). Qed.

Lemma set_server_refines name p this this1 r :
  session_inv this -> sp_service_name p = name ->
  (forall p', set_server_proxy name p' this1 =
     MkRosServiceService (rosservice_registry_ this) (<[name := p']> (server_proxies_ this))
       (client_proxies_ this) (callers this) (next_id this)) ->
  refines (r, set_server_proxy name p this1)
    (r, MkTable (table_registry (table_of this))
          (<[name := (sp_srv p, impl_ p, server_alive p)]> (table_servers (table_of this)))
          (table_clients (table_of this)) (table_callers (table_of this))).
Proof.
  intros [] Hn Hset. rewrite Hset. split; cbn [fst snd].
  - split; cbn; try done. intros n q [[<- <-]|[_ Hq]]%lookup_insert_Some; [done|]. by apply si_server_name0.
  - unfold table_of. cbn. by rewrite fmap_insert.
Qed.

Lemma server_proxy_cases srv name this :
  session_inv this ->
  let '(p, this1) := server_proxy srv name this in
  sp_service_name p = name /\
  (sp_srv p, impl_ p, server_alive p) = default (srv, None, false) (table_servers (table_of this) !! name) /\
  (forall p', set_server_proxy name p' this1 =
     MkRosServiceService (rosservice_registry_ this) (<[name := p']> (server_proxies_ this))
       (client_proxies_ this) (callers this) (next_id this)).
Proof.
  intros I. unfold server_proxy. cbn. rewrite lookup_fmap.
  destruct (server_proxies_ this !! name) as [q|] eqn:Hq; cbn; split_and!; try done.
  - by apply (si_server_name _ I).
  - intros p'. unfold set_server_proxy. cbn. by rewrite insert_insert_eq.
Qed.

Lemma connect_server_refines f op name this :
  session_inv this ->
  refines
    (let '(p, this) := server_proxy (factory_srv f) name this in
     let '(r, p) := server_connect node op p in
     (r, set_server_proxy name p this))
    (spec_connect_server f op name (table_of this)).
Proof.
  intros I. pose proof (server_proxy_cases (factory_srv f) name this I) as H.
  destruct (server_proxy (factory_srv f) name this) as [p this1]. destruct H as (Hn & Ht & Hset).
  unfold spec_connect_server. rewrite <- Ht. unfold server_connect.
  destruct node as [nd|]; [|by apply set_server_refines].
  rewrite connect_variants_find.
  destruct (find _ _) as [v|]; cbn; [|by apply (set_server_refines name (MkServerProxy _ _ _ _) this)].
  rewrite Hn. destruct (create_service nd (sp_srv p) name) as [[]|e];
    by apply (set_server_refines name (MkServerProxy _ _ _ _) this).
Qed.

(** *** Disconnecting *)

(** The callers of the names that are kept. *)
Lemma client_of_filtered m m' (gone : string -> bool) id :
  distinct_ids m -> (forall n p, m' !! n = Some p <-> m !! n = Some p /\ gone n = false) ->
  client_of m' id = match client_of m id with Some n => if gone n then None else Some n | None => None end.
Proof.
  intros Hd H. assert (distinct_ids m') as Hd'.
  { intros n1 n2 p1 p2 [H1 _]%H [H2 _]%H. by apply Hd. }
  apply option_eq. intros n. rewrite (client_of_Some m' id n Hd').
  destruct (client_of m id) as [n'|] eqn:E.
  - apply (client_of_Some m id n' Hd) in E as (p' & Hp' & Hid'). split.
    + intros (p & [Hp Hg]%H & Hid). rewrite (Hd n' n p' p) by (done || congruence). by rewrite Hg.
    + destruct (gone n') eqn:Hg; [done|]. intros [= <-]. exists p'. by rewrite H.
  - split; [|done]. intros (p & [Hp _]%H & Hid).
    assert (client_of m id = Some n) by (apply client_of_Some; [done|by exists p]). congruence.
Qed.

Lemma forget_callers m m' (gone : string -> bool) (cs : gmap Caller nat) :
  distinct_ids m -> (forall n p, m' !! n = Some p <-> m !! n = Some p /\ gone n = false) ->
  client_of m' <$> cs = forget gone (client_of m <$> cs).
Proof.
  intros Hd H. unfold forget. rewrite <- map_fmap_compose. apply map_fmap_ext. intros c id _.
  by apply client_of_filtered.
Qed.

Lemma disconnect_refines name this :
  session_inv this ->
  refines (let '(b, this) := ros_disconnect name this in (Ok b, this)) (spec_request (ReqDisconnect name) (table_of this)).
Proof.
  intros I. split; cbn.
  - destruct I. split; cbn; try done.
    + intros n p [_ ?]%lookup_delete_Some. eauto.
    + intros n1 n2 p1 p2 [_ ?]%lookup_delete_Some [_ ?]%lookup_delete_Some. eauto.
    + intros n p [_ ?]%lookup_delete_Some. eauto.
    + intros n p [_ ?]%lookup_delete_Some. eauto.
  - unfold table_of, ros_disconnect. cbn. rewrite !lookup_fmap. f_equal.
    + f_equal. f_equal; apply bool_decide_ext; by rewrite fmap_is_Some.
    + f_equal; [by rewrite fmap_delete..|]. symmetry. apply forget_callers; [exact (si_distinct _ I)|].
      intros n p. rewrite lookup_delete_Some, bool_decide_eq_false. naive_solver.
Qed.

Lemma disconnectAll_refines this :
  session_inv this -> refines (Ok true, ros_disconnectAll this) (spec_request ReqDisconnectAll (table_of this)).
Proof.
  intros I. split; cbn.
  - destruct I. by split.
  - unfold table_of, ros_disconnectAll. cbn. rewrite !fmap_empty. f_equal. f_equal. symmetry.
    apply (forget_callers (client_proxies_ this) ∅ (fun _ => true)); [exact (si_distinct _ I)|].
    intros n p. rewrite lookup_empty. naive_solver.
Qed.

Lemma request_refines req this :
  session_inv this -> refines (handle_request req this) (spec_request req (table_of this)).
Proof.
  intros I. destruct req as [op name ty|name|]; [|by apply disconnect_refines|by apply disconnectAll_refines].
  cbn [handle_request spec_request]. unfold ros_connect.
  change (table_registry (table_of this)) with (rosservice_registry_ this).
  destruct (getServiceFactory ty _) as [f|]; [|by split].
  destruct (find_caller op) as [c|]; [by apply connect_client_refines|].
  destruct (find_operation op) as [o|]; [by apply connect_server_refines|by split].
Qed.

(** ** Calls *)

Lemma client_of_find m id n :
  client_of m id = Some n ->
  exists i p, list_find (fun e : string * RosServiceClientProxy => cp_id e.2 = id) (map_to_list m) = Some (i, (n, p)) /\
    m !! n = Some p.
Proof.
  unfold client_of. destruct (list_find _ _) as [[i [n' p]]|] eqn:E; [|done]. intros [= <-].
  exists i, p. split; [done|]. apply list_find_Some in E as (Hi & _).
  by apply list_elem_of_lookup_2, elem_of_map_to_list in Hi.
Qed.

Lemma client_of_None m id :
  client_of m id = None ->
  list_find (fun e : string * RosServiceClientProxy => cp_id e.2 = id) (map_to_list m) = None.
Proof. unfold client_of. by destruct (list_find _ _) as [[i [n' p]]|]. Qed.

Lemma call_refines c req resp this :
  session_inv this -> call_caller c req resp this = spec_call c req resp (table_of this).
Proof.
  intros I. unfold call_caller, spec_call. cbn. rewrite lookup_fmap.
  destruct (callers this !! c) as [id|]; [|done]. cbn. destruct (client_of _ id) as [n|] eqn:E.
  - apply client_of_find in E as (i & p & -> & Hp). rewrite lookup_fmap, Hp. cbn.
    unfold client_closure. rewrite (si_client_name _ I n p Hp). by destruct (client_alive p).
  - by rewrite (client_of_None _ _ E).
Qed.

Lemma service_refines name req resp this :
  call_service name req resp this = spec_service name req resp (table_of this).
Proof.
  unfold call_service, spec_service, server_request. cbn. rewrite lookup_fmap.
  destruct (server_proxies_ this !! name) as [p|]; [|done]. cbn.
  by destruct (impl_ p) as [[v op]|], (server_alive p).
Qed.

(** A connected name has a client. *)
Lemma connected_name c name this :
  session_inv this -> table_callers (table_of this) !! c = Some (Some name) ->
  is_Some (table_clients (table_of this) !! name).
Proof.
  intros I. cbn. rewrite !lookup_fmap, fmap_is_Some. destruct (callers this !! c) as [id|]; [|done]. cbn.
  intros [= (i & p & _ & Hp)%client_of_find]. by exists p.
Qed.

Lemma run_refines reqs this :
  session_inv this ->
  let '(rs, this') := run_requests handle_request reqs this in
  session_inv this' /\ run_requests spec_request reqs (table_of this) = (rs, table_of this').
Proof.
  revert this. induction reqs as [|req reqs IH]; intros this I; cbn; [done|].
  destruct (request_refines req this I) as [I1 ->]. destruct (handle_request req this) as [r this1].
  specialize (IH this1 I1). destruct (run_requests handle_request reqs this1) as [rs this2].
  destruct IH as [I2 H2]. split; [done|]. cbn [fst snd]. by rewrite H2.
Qed.

Lemma fresh_session s : session_inv (RosServiceService_ctor s ∅ 0).
Proof. split; cbn; intros; by rewrite lookup_empty in *. Qed.

(** C15 -- The service of a component is a table of connections by name: after any sequence of connect, disconnect and disconnectAll requests, successful or not, each request has returned what the table says, and so does every call: a ROS request is answered by the operation connected last, or hits a server whose operation has been dropped; an operation caller reaches the service it was connected to last, with the type that was given when the name was first used. A call is undefined behaviour exactly if the name the caller was connected to has been disconnected since. *)
Theorem sessions_refine_table (reqs : list service_request) (s : option RosServiceRegistry) :
  let '(rs, this) := run_requests handle_request reqs (RosServiceService_ctor s ∅ 0) in
  run_requests spec_request reqs (empty_table (registry_Instance s)) = (rs, table_of this) /\
  (forall name req resp, call_service name req resp this = spec_service name req resp (table_of this)) /\
  (forall c req resp, call_caller c req resp this = spec_call c req resp (table_of this) /\
     (call_caller c req resp this = None <-> table_callers (table_of this) !! c = Some None)).
Proof.
  pose proof (run_refines reqs _ (fresh_session s)) as H.
  replace (table_of (RosServiceService_ctor s ∅ 0)) with (empty_table (registry_Instance s)) in H
    by (unfold table_of, empty_table; cbn; by rewrite !fmap_empty).
  destruct (run_requests handle_request reqs _) as [rs this]. destruct H as [I H].
  split; [done|]. split; [intros; apply service_refines|]. intros c req resp.
  rewrite (call_refines c req resp this I). split; [done|]. unfold spec_call.
  destruct (table_callers (table_of this) !! c) as [[name|]|] eqn:E; [|done|done].
  apply (connected_name _ _ _ I) in E as [[srv alive] E]. by rewrite E.
Qed.
End Sessions.

(** ** A session *)
Module Witnesses.
Import RttReference Services.Witnesses.

Abbreviation handle := (handle_request (RO := ref_rtt_ops) (SL := ref_service_lib) (fun s => [s])
  (fun _ _ => None) callers_of operations_of node_world 2 tt).

(** An operation is served and then reconnected to one that does not fit; a caller is
    connected, its service disconnected, and connected again. *)
Definition session : list service_request :=
  [ReqConnect "serve" "/s" "std_srvs/srv/Empty"; ReqConnect "other" "/s" "std_srvs/srv/Empty";
   ReqConnect "call" "/c" "std_srvs/srv/Empty"; ReqDisconnect "/c"].

Example session_results :
  let '(rs, this) := run_requests handle session (RosServiceService_ctor (Some types) ∅ 0) in
  rs = [Ok true; Ok false; Ok true; Ok true] /\ call_service "/s" 7 0 this = None /\
  call_caller (SL := ref_service_lib) 5 7 0 this = None /\
  call_caller (SL := ref_service_lib) 5 7 0 (handle (ReqConnect "call" "/d" "std_srvs/srv/Empty") this).2 =
    Some (Some 8).
Proof. vm_compute. repeat split. Qed.
End Witnesses.
