(* ===== verification/NestedCalls.v ===== *)
(** Package [rtt_ros2_services]: calls of ROS services while the executor of the node
    is at work ([rtt_ros2_services_proxy.hpp]).

    The closure a client proxy installs sends the request and waits for the future of
    its response. The response is taken by the executor, in a callback of the node, and
    so are the requests that arrive at servers. The proxies create their servers and
    clients without a callback group, so they all are in the default group of the node,
    of which [rclcpp] executes one callback at a time, whatever the number of threads of
    the executor.

    The callback of a server calls the operation through an operation caller. A
    [ClientThread] operation runs in the callback; for an [OwnThread] operation the
    caller sends a message to the engine of the component that owns it and waits until
    the thread of that component, which takes messages only while it is not busy, has
    executed it.

    [node_system] is a node with its default group and the components whose threads
    call operation callers connected to ROS services or execute operations; what the
    servers at the other side answer, and when, is not determined. *)

From S2P Require Import Prelude.
Local Open Scope list_scope.

Section NestedCalls.
Context {Request Response : Type}.

(** The body of an operation or a hook, as far as ROS services are concerned: it
    returns, or calls an operation caller that is connected to a ROS service and goes on
    with the response. *)
Inductive op_body :=
| Return (response : Response)
| CallService (name : string) (request : Request) (k : Response -> op_body).

(** A thread that runs such a body, or waits in it for the future of a request. *)
Inductive op_thread :=
| Executing (b : op_body)
| WaitingFor (id : nat) (k : Response -> op_body).

(** The thread that executes an operation: the one that calls it, or that of the
    component that owns it. *)
Inductive execution_thread := ClientThread | OwnThread (owner : nat).

(** What the wait set of the default group offers. *)
Inductive ready_entity :=
| ReadyRequest (request : Request)
| ReadyResponse (id : nat) (response : Response).

(** The callback of a request: the operation runs in it; or it is a message in the
    engine of its owner; or its owner is at work on it. *)
Inductive callback :=
| InExecutor (t : op_thread)
| SentTo (owner : nat) (b : op_body)
| AwaitsOwner (owner : nat).

(** The thread of a component: without work, in code of its own, or in an operation the
    executor waits for. *)
Inductive component :=
| Free
| Runs (t : op_thread)
| Serves (t : op_thread).

(** [serve] is the operation the servers of the node dispatch to. *)
Variable serve : Request -> op_body * execution_thread.

Record node_system := MkNodeSystem {
  ready_ : list ready_entity;
  group_ : option callback;  (** the callback of the default group that is executed *)
  components : gmap nat component;
  sent_ : list nat;  (** requests sent and not yet answered by the other side *)
  futures_ : gmap nat Response;  (** the futures that have a value *)
  next_request : nat;
  answered : list Response  (** what the servers of the node have responded *) }.

Definition comp (s : node_system) (i : nat) : component := default Free (components s !! i).

Definition set_group (g : option callback) (s : node_system) : node_system :=
  MkNodeSystem (ready_ s) g (components s) (sent_ s) (futures_ s) (next_request s) (answered s).
Definition set_comp (i : nat) (c : component) (s : node_system) : node_system :=
  MkNodeSystem (ready_ s) (group_ s) (<[i := c]> (components s)) (sent_ s) (futures_ s)
    (next_request s) (answered s).

(** The next step of a thread that runs a body: [async_send_request], [result_future.get()];
    [None] if it is blocked in the latter or the body has returned. *)
(* [rtt_ros2_services/include/orocos/rtt_ros2_services/rtt_ros2_services_proxy.hpp:281-282] async_send_request *)
Definition call_step (t : op_thread) (s : node_system) : option (op_thread * node_system) :=
  match t with
  | Executing (Return _) => None
  | Executing (CallService name request k) =>
      Some (WaitingFor (next_request s) k,
            MkNodeSystem (ready_ s) (group_ s) (components s) (next_request s :: sent_ s)
              (futures_ s) (S (next_request s)) (answered s))
  | WaitingFor id k =>
      match futures_ s !! id with
      | Some response => Some (Executing (k response), s)
      | None => None
      end
  end.

(** The executor takes an entity of the idle group: the promise of a response is
    fulfilled, a request is dispatched to the operation. *)
(* [rtt_ros2_services/include/orocos/rtt_ros2_services/rtt_ros2_services_proxy.hpp:221-226] dispatch *)
Definition execute_entity (e : ready_entity) (rest : list ready_entity) (s : node_system) : node_system :=
  match e with
  | ReadyRequest request =>
      let call := match serve request with
                  | (b, ClientThread) => InExecutor (Executing b)
                  | (b, OwnThread owner) => SentTo owner b
                  end in
      MkNodeSystem rest (Some call) (components s) (sent_ s) (futures_ s)
        (next_request s) (answered s)
  | ReadyResponse id response =>
      MkNodeSystem rest None (components s) (sent_ s) (<[id := response]> (futures_ s))
        (next_request s) (answered s)
  end.

(** The callback of a request returns, and the response is sent. *)
Definition end_callback (response : Response) (s : node_system) : node_system :=
  MkNodeSystem (ready_ s) None (components s) (sent_ s) (futures_ s) (next_request s)
    (answered s ++ [response]).

(** What the threads of the process do. *)
Inductive internal_step : node_system -> node_system -> Prop :=
| Execute e l1 l2 s : group_ s = None -> ready_ s = l1 ++ e :: l2 ->
    internal_step s (execute_entity e (l1 ++ l2) s)
| CallbackMoves t t' s s' : group_ s = Some (InExecutor t) -> call_step t s = Some (t', s') ->
    internal_step s (set_group (Some (InExecutor t')) s')
| CallbackReturns response s : group_ s = Some (InExecutor (Executing (Return response))) ->
    internal_step s (end_callback response s)
| OwnerTakes i b s : group_ s = Some (SentTo i b) -> comp s i = Free ->
    internal_step s (set_group (Some (AwaitsOwner i)) (set_comp i (Serves (Executing b)) s))
| OwnerReturns i response s : group_ s = Some (AwaitsOwner i) ->
    comp s i = Serves (Executing (Return response)) ->
    internal_step s (end_callback response (set_comp i Free s))
| ComponentMoves i t t' s s' : comp s i = Runs t -> call_step t s = Some (t', s') ->
    internal_step s (set_comp i (Runs t') s')
| OperationMoves i t t' s s' : comp s i = Serves t -> call_step t s = Some (t', s') ->
    internal_step s (set_comp i (Serves t') s')
| ComponentEnds i response s : comp s i = Runs (Executing (Return response)) ->
    internal_step s (set_comp i Free s).

(** With what comes from outside, and the work the components begin. *)
Inductive node_step : node_system -> node_system -> Prop :=
| Internal s s' : internal_step s s' -> node_step s s'
| RequestArrives request s :
    node_step s (MkNodeSystem (ready_ s ++ [ReadyRequest request]) (group_ s) (components s) (sent_ s)
                   (futures_ s) (next_request s) (answered s))
| ResponseArrives id response l1 l2 s : sent_ s = l1 ++ id :: l2 ->
    node_step s (MkNodeSystem (ready_ s ++ [ReadyResponse id response]) (group_ s) (components s)
                   (l1 ++ l2) (futures_ s) (next_request s) (answered s))
| ComponentStarts i b s : comp s i = Free -> node_step s (set_comp i (Runs (Executing b)) s).

(** A node nothing has happened to. *)
Definition fresh_node : node_system := MkNodeSystem [] None ∅ [] ∅ 0 [].

Definition node_reachable : node_system -> Prop := rtc node_step fresh_node.

Lemma comp_set i c s j : comp (set_comp i c s) j = if decide (j = i) then c else comp s j.
Proof.
  unfold comp, set_comp. cbn. case_decide as Hd.
  - subst. by rewrite lookup_insert_eq.
  - by rewrite lookup_insert_ne.
Qed.

(** ** The invariant *)

Definition ready_ids (l : list ready_entity) : list nat :=
  omap (fun e => match e with ReadyResponse id _ => Some id | ReadyRequest _ => None end) l.

(** The response to request [id] has not been given up on. *)
Definition on_its_way (id : nat) (s : node_system) : Prop :=
  id ∈ sent_ s \/ id ∈ ready_ids (ready_ s) \/ is_Some (futures_ s !! id).

(** The threads of a state. *)
Definition thread_of (c : component) : option op_thread :=
  match c with Free => None | Runs t | Serves t => Some t end.
Definition callback_thread (g : option callback) : option op_thread :=
  match g with Some (InExecutor t) => Some t | _ => None end.
Definition is_thread (t : op_thread) (s : node_system) : Prop :=
  (exists i, thread_of (comp s i) = Some t) \/ callback_thread (group_ s) = Some t.

Definition waits_for (t : op_thread) (id : nat) : Prop := exists k, t = WaitingFor id k.

Record node_inv (s : node_system) : Prop := {
  ni_fresh id : on_its_way id s -> id < next_request s;
  ni_waiting t id : is_thread t s -> waits_for t id -> on_its_way id s;
  ni_serves i t : comp s i = Serves t -> group_ s = Some (AwaitsOwner i);
  ni_awaits i : group_ s = Some (AwaitsOwner i) -> exists t, comp s i = Serves t }.

(** Steps of a thread lose no response. *)
Lemma call_step_keeps t t' s s' :
  call_step t s = Some (t', s') ->
  (forall id, on_its_way id s -> on_its_way id s') /\
  (forall id, on_its_way id s' -> on_its_way id s \/ id = next_request s /\ next_request s' = S id) /\
  next_request s <= next_request s' /\
  (forall id, waits_for t' id -> on_its_way id s') /\
  group_ s' = group_ s /\ components s' = components s /\ futures_ s' = futures_ s /\
  answered s' = answered s.
Proof.
  unfold on_its_way. destruct t as [[r|n r k]|i k]; cbn; [done| |].
  - intros [= <- <-]. cbn. split_and!; [set_solver|set_solver|lia| |done..].
    intros id (k' & [= <- _]). set_solver.
  - destruct (futures_ s !! i); [|done]. intros [= <- <-].
    split_and!; [tauto|tauto|done| |done..]. by intros id (k' & [=]).
Qed.

Lemma call_step_comp t t' s s' i : call_step t s = Some (t', s') -> comp s' i = comp s i.
Proof. intros Hc. unfold comp. by destruct (call_step_keeps _ _ _ _ Hc) as (_ & _ & _ & _ & _ & -> & _). Qed.

Lemma ready_ids_app l1 l2 : ready_ids (l1 ++ l2) = ready_ids l1 ++ ready_ids l2.
Proof. apply omap_app. Qed.

Lemma execute_on_its_way e l1 l2 s id :
  ready_ s = l1 ++ e :: l2 -> (on_its_way id (execute_entity e (l1 ++ l2) s) <-> on_its_way id s).
Proof.
  intros Hr. unfold on_its_way. rewrite Hr, ready_ids_app.
  destruct e as [r|i r]; cbn; rewrite ready_ids_app; [done|].
  rewrite lookup_insert_is_Some, !elem_of_app, elem_of_cons.
  destruct (decide (i = id)); naive_solver.
Qed.

(** The requests on their way after a step, and the new threads. *)
Lemma inv_transfer s s' :
  node_inv s ->
  (forall id, on_its_way id s -> on_its_way id s') ->
  (forall id, on_its_way id s' -> id < next_request s') ->
  (forall t, is_thread t s' -> is_thread t s \/ forall id, waits_for t id -> on_its_way id s') ->
  (forall i t, comp s' i = Serves t -> group_ s' = Some (AwaitsOwner i)) ->
  (forall i, group_ s' = Some (AwaitsOwner i) -> exists t, comp s' i = Serves t) ->
  node_inv s'.
Proof.
  intros [Hf Hw _ _] Hk Hn Ht H1 H2. split; [done| |done|done]. intros t id H Hid.
  destruct (Ht t H) as [Hold|Hnew]; [|auto]. by eapply Hk, Hw.
Qed.

(** A thread moves: everything else is as it was. *)
Lemma moves_inv t t' s s' s2 :
  node_inv s -> call_step t s = Some (t', s') ->
  ready_ s2 = ready_ s' -> sent_ s2 = sent_ s' -> futures_ s2 = futures_ s' ->
  next_request s2 = next_request s' ->
  (forall u, is_thread u s2 -> u = t' \/ is_thread u s) ->
  (forall i u, comp s2 i = Serves u -> group_ s2 = Some (AwaitsOwner i)) ->
  (forall i, group_ s2 = Some (AwaitsOwner i) -> exists u, comp s2 i = Serves u) ->
  node_inv s2.
Proof.
  intros I Hc Hr Hs Hf Hn Hu H1 H2.
  destruct (call_step_keeps _ _ _ _ Hc) as (Hk & Hback & Hle & Hw & _).
  assert (forall id, on_its_way id s2 <-> on_its_way id s') as He
    by (intros id; unfold on_its_way; by rewrite Hr, Hs, Hf).
  apply (inv_transfer s); [done| | | |done|done].
  - intros id Hid. by apply He, Hk.
  - intros id Hid%He. rewrite Hn. destruct (Hback id Hid) as [H|[_ ->]]; [|lia].
    apply (ni_fresh _ I) in H. lia.
  - intros u H. destruct (Hu u H) as [-> |?]; [right|by left]. intros id Hid. by apply He, Hw.
Qed.

(** Threads after one component has changed. *)
Lemma is_thread_set_comp i c s t :
  is_thread t (set_comp i c s) -> thread_of c = Some t \/ is_thread t s.
Proof.
  intros [[j Hj]|Hg]; [|by right; right]. rewrite comp_set in Hj.
  case_decide; [by left|right; left]. by exists j.
Qed.

(** A new thread waits for nothing. *)
Lemma executing_waits b id (P : Prop) : waits_for (Executing b) id -> P.
Proof. by intros (k & [=]). Qed.

Lemma execute_inv e l1 l2 s :
  node_inv s -> group_ s = None -> ready_ s = l1 ++ e :: l2 -> node_inv (execute_entity e (l1 ++ l2) s).
Proof.
  intros I Hg Hr. pose proof (fun id => execute_on_its_way e l1 l2 s id Hr) as He.
  assert (forall i t, comp s i <> Serves t) as Hno.
  { intros i t Hi. apply (ni_serves _ I) in Hi. congruence. }
  apply (inv_transfer s); [done|intros id; apply He| | | |].
  - intros id Hid%He. apply (ni_fresh _ I) in Hid. by destruct e.
  - intros t [Ht|Ht]; [left; left; by destruct e|].
    destruct e as [r|]; [|done]. cbn in Ht. destruct (serve r) as [b []]; [|done].
    cbn in Ht. injection Ht as <-. right. intros id. by apply executing_waits.
  - intros i t Hi. exfalso. apply (Hno i t). by destruct e.
  - intros i Hi. destruct e as [r|]; [|done]. cbn in Hi. by destruct (serve r) as [b []].
Qed.

Lemma internal_step_inv s s' : internal_step s s' -> node_inv s -> node_inv s'.
Proof.
  intros Hst I. destruct Hst as [e l1 l2 s Hg Hr|t t' s s' Hg Hc|r s Hg|i b s Hg Hi|i r s Hg Hi
    |i t t' s s' Hi Hc|i t t' s s' Hi Hc|i r s Hi].
  - by apply execute_inv.
  - pose proof (fun j => call_step_comp _ _ _ _ j Hc) as Hcomp.
    eapply (moves_inv t t' s s'); [done..| | |].
    + intros u [[j Hj]|Hu]; [right; left; exists j; by rewrite <- Hcomp|left]. by injection Hu as <-.
    + intros j u Hj. change (comp s' j = Serves u) in Hj. rewrite Hcomp in Hj.
      apply (ni_serves _ I) in Hj. congruence.
    + by intros j [=].
  - apply (inv_transfer s); [done|done|apply (ni_fresh _ I)| | |by intros j [=]].
    + intros t [Ht|[=]]. left. by left.
    + intros j t Hj. apply (ni_serves _ I) in Hj. congruence.
  - apply (inv_transfer s); [done|done|apply (ni_fresh _ I)| | |].
    + intros t [[j Hj]|[=]]. change (thread_of (comp (set_comp i (Serves (Executing b)) s) j) = Some t) in Hj.
      rewrite comp_set in Hj. case_decide; [right|left; left; by exists j].
      injection Hj as <-. intros id. by apply executing_waits.
    + intros j t Hj. change (comp (set_comp i (Serves (Executing b)) s) j = Serves t) in Hj.
      rewrite comp_set in Hj. case_decide; [by subst|]. apply (ni_serves _ I) in Hj. congruence.
    + intros j [= <-]. exists (Executing b).
      change (comp (set_comp i (Serves (Executing b)) s) i = Serves (Executing b)).
      rewrite comp_set. by case_decide.
  - apply (inv_transfer s); [done|done|apply (ni_fresh _ I)| | |by intros j [=]].
    + intros t [[j Hj]|[=]]. change (thread_of (comp (set_comp i Free s) j) = Some t) in Hj.
      rewrite comp_set in Hj. case_decide; [done|]. left. left. by exists j.
    + intros j t Hj. change (comp (set_comp i Free s) j = Serves t) in Hj.
      rewrite comp_set in Hj. case_decide; [done|]. apply (ni_serves _ I) in Hj. congruence.
  - pose proof (fun j => call_step_comp _ _ _ _ j Hc) as Hcomp.
    destruct (call_step_keeps _ _ _ _ Hc) as (_ & _ & _ & _ & Hg & _).
    eapply (moves_inv t t' s s'); [done..| | |].
    + intros u [[= <-]|[[j Hj]|Hu]]%is_thread_set_comp; [by left|right; left|right; right].
      * exists j. by rewrite <- Hcomp.
      * by rewrite <- Hg.
    + intros j u. rewrite comp_set. case_decide; [done|]. rewrite Hcomp. cbn. rewrite Hg. apply (ni_serves _ I).
    + intros j. cbn. rewrite Hg. intros [u Hu]%(ni_awaits _ I). exists u. rewrite comp_set, Hcomp.
      case_decide; [congruence|done].
  - pose proof (fun j => call_step_comp _ _ _ _ j Hc) as Hcomp.
    destruct (call_step_keeps _ _ _ _ Hc) as (_ & _ & _ & _ & Hg & _).
    eapply (moves_inv t t' s s'); [done..| | |].
    + intros u [[= <-]|[[j Hj]|Hu]]%is_thread_set_comp; [by left|right; left|right; right].
      * exists j. by rewrite <- Hcomp.
      * by rewrite <- Hg.
    + intros j u. rewrite comp_set, Hcomp. cbn. rewrite Hg.
      case_decide; [intros _; subst; by apply (ni_serves _ I _ t)|apply (ni_serves _ I)].
    + intros j. cbn. rewrite Hg. intros [u Hu]%(ni_awaits _ I). rewrite comp_set, Hcomp.
      case_decide; by eexists.
  - apply (inv_transfer s); [done|done|apply (ni_fresh _ I)| | |].
    + intros t [[=]|Ht]%is_thread_set_comp. by left.
    + intros j t. rewrite comp_set. case_decide; [done|]. apply (ni_serves _ I).
    + intros j [u Hu]%(ni_awaits _ I). exists u. rewrite comp_set. case_decide; [congruence|done].
Qed.

Lemma node_step_inv s s' : node_step s s' -> node_inv s -> node_inv s'.
Proof.
  intros Hst I. destruct Hst as [s s' Hst|req s|id r l1 l2 s Hs|i b s Hi].
  - by eapply internal_step_inv.
  - assert (forall i, on_its_way i (MkNodeSystem (ready_ s ++ [ReadyRequest req]) (group_ s)
      (components s) (sent_ s) (futures_ s) (next_request s) (answered s)) <-> on_its_way i s) as He.
    { intros i. unfold on_its_way. cbn. rewrite ready_ids_app. cbn. set_solver. }
    apply (inv_transfer s); [done|intros i; apply He| |intros t Ht; by left|apply (ni_serves _ I)|apply (ni_awaits _ I)].
    intros i Hid%He. by apply (ni_fresh _ I).
  - assert (forall i, on_its_way i (MkNodeSystem (ready_ s ++ [ReadyResponse id r]) (group_ s)
      (components s) (l1 ++ l2) (futures_ s) (next_request s) (answered s)) <-> on_its_way i s) as He.
    { intros i. unfold on_its_way. cbn. rewrite Hs, ready_ids_app. cbn. set_solver. }
    apply (inv_transfer s); [done|intros i; apply He| |intros t Ht; by left|apply (ni_serves _ I)|apply (ni_awaits _ I)].
    intros i Hid%He. by apply (ni_fresh _ I).
  - apply (inv_transfer s); [done|done|apply (ni_fresh _ I)| | |].
    + intros t [[= <-]|Ht]%is_thread_set_comp; [right|by left]. intros id. by apply executing_waits.
    + intros j t. rewrite comp_set. case_decide; [done|]. apply (ni_serves _ I).
    + intros j [u Hu]%(ni_awaits _ I). exists u. rewrite comp_set. case_decide; [congruence|done].
Qed.

Lemma node_reachable_inv s : node_reachable s -> node_inv s.
Proof.
  apply (rtc_ind_r node_inv).
  - assert (forall i, comp fresh_node i = Free) as Hfree.
    { intros i. unfold comp. cbn. by rewrite lookup_empty. }
    split; unfold on_its_way; cbn.
    + intros id. rewrite lookup_empty. intros [?|[?|[? [=]]]]; set_solver.
    + intros t id [[i Hi]|[=]]. by rewrite Hfree in Hi.
    + intros i t. by rewrite Hfree.
    + by intros i [=].
  - intros s1 s2 _ Hst Hi. by eapply node_step_inv.
Qed.

(** ** A callback that comes to its end *)

(** The thread of the component takes a message now, or after its code has returned. *)
Definition can_serve (s : node_system) (i : nat) : Prop :=
  comp s i = Free \/ exists response, comp s i = Runs (Executing (Return response)).

(** The callback that is executed calls no ROS service anymore, and does not wait for a
    component that does. *)
Definition callback_ends (s : node_system) : Prop :=
  match group_ s with
  | None => True
  | Some (InExecutor t) => exists response, t = Executing (Return response)
  | Some (SentTo i b) => (exists response, b = Return response) /\ can_serve s i
  | Some (AwaitsOwner i) => exists response, comp s i = Serves (Executing (Return response))
  end.

(** No operation that serves a request calls a ROS service, and no component that owns
    one is at work in code that does. *)
Definition calm (s : node_system) : Prop :=
  (forall request, exists response, (serve request).1 = Return response) /\
  (forall request i, (serve request).2 = OwnThread i -> can_serve s i) /\
  callback_ends s.

(** What the executor and the owners leave as it was. *)
Record kept (s s' : node_system) : Prop := {
  kept_sent : sent_ s' = sent_ s;
  kept_futures id : is_Some (futures_ s !! id) -> is_Some (futures_ s' !! id);
  kept_waiting i id k : comp s i = Runs (WaitingFor id k) -> comp s' i = Runs (WaitingFor id k);
  kept_serves i : can_serve s i -> can_serve s' i }.

Lemma kept_same s : kept s s.
Proof. by split. Qed.
Lemma kept_compose s1 s2 s3 : kept s1 s2 -> kept s2 s3 -> kept s1 s3.
Proof. intros [] []. split; [congruence|auto..]. Qed.

(** A component that becomes free. *)
Lemma kept_free i s :
  (forall id k, comp s i <> Runs (WaitingFor id k)) -> kept s (set_comp i Free s).
Proof.
  intros Hi. split; [done|done|intros j id k Hj|intros j Hj].
  - rewrite comp_set. case_decide; [|done]. subst. by destruct (Hi id k).
  - unfold can_serve. rewrite comp_set. case_decide; [by left|exact Hj].
Qed.

Lemma owner_becomes_free s i :
  can_serve s i -> exists s1, rtc internal_step s s1 /\ comp s1 i = Free /\
    ready_ s1 = ready_ s /\ group_ s1 = group_ s /\ kept s s1.
Proof.
  intros [Hi|[r Hi]].
  - exists s. split_and!; [done..|apply kept_same].
  - exists (set_comp i Free s). split_and!; [|rewrite comp_set; by case_decide|done|done|].
    + apply rtc_once. by eapply ComponentEnds.
    + apply kept_free. intros id k. by rewrite Hi.
Qed.

Lemma callback_finishes s :
  callback_ends s -> exists s1, rtc internal_step s s1 /\ group_ s1 = None /\
    ready_ s1 = ready_ s /\ kept s s1.
Proof.
  assert (forall s i r, group_ s = Some (AwaitsOwner i) -> comp s i = Serves (Executing (Return r)) ->
    exists s1, rtc internal_step s s1 /\ group_ s1 = None /\ ready_ s1 = ready_ s /\ kept s s1) as Hawaits.
  { clear s. intros s i r Hg Hi. exists (end_callback r (set_comp i Free s)).
    split_and!; [apply rtc_once; by apply OwnerReturns|done|done|].
    destruct (kept_free i s) as [? ? ? ?]; [intros id k; by rewrite Hi|]. by split. }
  unfold callback_ends. destruct (group_ s) as [[t|i b|i]|] eqn:Hg.
  - intros [r ->]. exists (end_callback r s). split_and!; [apply rtc_once; by apply CallbackReturns|done|done|].
    by split.
  - intros [[r ->] Hi]. destruct (owner_becomes_free s i Hi) as (s1 & Hrun & Hfree & Hr & Hg1 & Hk).
    set (s2 := set_group (Some (AwaitsOwner i)) (set_comp i (Serves (Executing (Return r))) s1)).
    assert (comp s2 i = Serves (Executing (Return r))) as Hs2
      by (change (comp (set_comp i (Serves (Executing (Return r))) s1) i = Serves (Executing (Return r)));
          rewrite comp_set; by case_decide).
    exists (end_callback r (set_comp i Free s2)). split_and!; [|done|done|].
    + etrans; [exact Hrun|]. eapply rtc_l; [by apply (OwnerTakes i (Return r)); [rewrite Hg1|]|].
      apply rtc_once. by apply OwnerReturns.
    + apply (kept_compose _ s1); [done|]. split; [done|done| |].
      * intros j id k Hj. change (comp (set_comp i Free s2) j = Runs (WaitingFor id k)).
        rewrite comp_set. case_decide as Hd; [congruence|].
        change (comp (set_comp i (Serves (Executing (Return r))) s1) j = Runs (WaitingFor id k)).
        rewrite comp_set. by case_decide.
      * intros j Hj. change (can_serve (set_comp i Free s2) j).
        unfold can_serve. rewrite comp_set. case_decide as Hd; [by left|].
        change (can_serve (set_comp i (Serves (Executing (Return r))) s1) j).
        unfold can_serve. rewrite comp_set. by case_decide.
  - intros [r Hi]. by apply (Hawaits s i r).
  - intros _. exists s. split_and!; [done..|apply kept_same].
Qed.

(** The executor and the owners take all that is ready. *)
Lemma executor_finishes s :
  calm s -> exists s', rtc internal_step s s' /\ ready_ s' = [] /\ group_ s' = None /\ kept s s' /\
    forall id, id ∈ ready_ids (ready_ s) -> is_Some (futures_ s' !! id).
Proof.
  remember (ready_ s) as l eqn:Hl. revert s Hl. induction l as [|e l IH]; intros s Hl (Hret & Hown & Hend).
  all: destruct (callback_finishes s Hend) as (s1 & Hrun & Hg & Hr & Hk).
  { exists s1. split_and!; [done|congruence|done|done|]. intros id. cbn. set_solver. }
  assert (internal_step s1 (execute_entity e l s1)) as Hstep.
  { apply (Execute e [] l); [done|]. by rewrite Hr, <- Hl. }
  assert (kept s1 (execute_entity e l s1)) as Hk1.
  { destruct e as [req|id r]; [by split|]. split; [done| |done|done].
    intros i Hi. cbn. rewrite lookup_insert_is_Some. destruct (decide (id = i)); auto. }
  pose proof (kept_compose _ _ _ Hk Hk1) as Hk2.
  destruct (IH (execute_entity e l s1)) as (s' & Hrun' & H1 & H2 & H3 & H4).
  - by destruct e.
  - split_and!; [done|intros req i Hi; apply (kept_serves _ _ Hk2); eauto|].
    destruct e as [req|id r]; [|exact I]. unfold callback_ends. cbn.
    destruct (Hret req) as [r Hb]. pose proof (Hown req) as Ho. destruct (serve req) as [b [|i]]; cbn in *.
    + exists r. by rewrite Hb.
    + split; [by exists r|]. apply (kept_serves _ _ Hk1), (kept_serves _ _ Hk). eauto.
  - exists s'. split_and!; [|done|done|by apply (kept_compose _ _ _ Hk2)|].
    + etrans; [exact Hrun|]. by eapply rtc_l.
    + intros i Hi. destruct e as [req|id r]; [by apply H4|]. cbn in Hi. apply elem_of_cons in Hi as [-> |Hi].
      * apply (kept_futures _ _ H3). cbn. rewrite lookup_insert_eq. by eexists.
      * by apply H4.
Qed.

(** ** A callback that never returns *)

(** The thread the callback depends on: its own, or that of the owner of the operation,
    which has to end what it does before it takes the message. *)
Definition depends_on (s : node_system) : option op_thread :=
  match group_ s with
  | None => None
  | Some (InExecutor t) => Some t
  | Some (SentTo i _) => match comp s i with Runs t => Some t | _ => None end
  | Some (AwaitsOwner i) => match comp s i with Serves t => Some t | _ => None end
  end.

(** That thread waits for the response to request [id], which has not been taken. *)
Definition blocked_on (s : node_system) (id : nat) : Prop :=
  futures_ s !! id = None /\ exists k, depends_on s = Some (WaitingFor id k).

(** What stays: the callback, the futures, what has been answered, and every thread that
    waits for a future without a value. *)
Record stays (s s' : node_system) : Prop := {
  stays_group : group_ s' = group_ s;
  stays_futures : futures_ s' = futures_ s;
  stays_answered : answered s' = answered s;
  stays_waiting i j k : thread_of (comp s i) = Some (WaitingFor j k) -> futures_ s !! j = None ->
    comp s' i = comp s i }.

Lemma stays_trans s1 s2 s3 : stays s1 s2 -> stays s2 s3 -> stays s1 s3.
Proof.
  intros [? Hf ? Hw] [? ? ? Hw2]. split; [congruence..|]. intros i j k Hi Hj.
  rewrite (Hw2 i j k); [by eapply Hw|by rewrite (Hw i j k)|by rewrite Hf].
Qed.

Lemma blocked_stays s s' id : blocked_on s id -> stays s s' -> blocked_on s' id.
Proof.
  intros [Hn [k Hd]] [Hg Hf _ Hw]. split; [by rewrite Hf|]. exists k. revert Hd. unfold depends_on.
  rewrite Hg. destruct (group_ s) as [[t|i b|i]|]; [done| | |done]; intros Hd.
  all: rewrite (Hw i id k); [done| |done]; by destruct (comp s i).
Qed.

(** A component that moves does not wait for a future without a value. *)
Lemma component_moves_stays i c t t' s s' :
  thread_of (comp s i) = Some t -> call_step t s = Some (t', s') -> stays s (set_comp i c s').
Proof.
  intros Hi Hc. pose proof (fun j => call_step_comp _ _ _ _ j Hc) as Hcomp.
  destruct (call_step_keeps _ _ _ _ Hc) as (_ & _ & _ & _ & Hg & _ & Hf & Ha).
  split; [done..|]. intros j id k Hj Hn. rewrite comp_set, Hcomp. case_decide; [|done].
  subst. rewrite Hi in Hj. injection Hj as ->. cbn in Hc. by rewrite Hn in Hc.
Qed.

(** Likewise one that has nothing to do, or comes to an end. *)
Lemma component_changes_stays i c s :
  (forall id k, thread_of (comp s i) <> Some (WaitingFor id k)) -> stays s (set_comp i c s).
Proof.
  intros Hi. split; [done..|]. intros j id k Hj _. rewrite comp_set. case_decide; [|done].
  subst. by destruct (Hi id k).
Qed.

Lemma blocked_step s s' id : blocked_on s id -> node_step s s' -> stays s s'.
Proof.
  intros [Hn [k Hd]] Hst. unfold depends_on in Hd.
  destruct Hst as [s s' Hst|req s|j r l1 l2 s Hs|i b s Hi]; [|by split|by split|].
  - destruct Hst as [e l1 l2 s Hg Hr|t t' s s' Hg Hc|r s Hg|i b s Hg Hi|i r s Hg Hi
      |i t t' s s' Hi Hc|i t t' s s' Hi Hc|i r s Hi].
    + by rewrite Hg in Hd.
    + rewrite Hg in Hd. injection Hd as ->. cbn in Hc. by rewrite Hn in Hc.
    + by rewrite Hg in Hd.
    + by rewrite Hg, Hi in Hd.
    + by rewrite Hg, Hi in Hd.
    + eapply component_moves_stays; [|done]. by rewrite Hi.
    + eapply component_moves_stays; [|done]. by rewrite Hi.
    + apply component_changes_stays. intros j k'. by rewrite Hi.
  - apply component_changes_stays. intros j k'. by rewrite Hi.
Qed.

Lemma blocked_forever s s' id : blocked_on s id -> rtc node_step s s' -> stays s s'.
Proof.
  intros Hb. apply (rtc_ind_r (stays s)); [by split|].
  intros s1 s2 _ Hst Hs. apply (stays_trans _ s1); [done|].
  eapply blocked_step; [by eapply blocked_stays|done].
Qed.

(** A thread that cannot move has returned, or waits for a future without a value. *)
Lemma call_step_None t s :
  call_step t s = None ->
  (exists response, t = Executing (Return response)) \/
  exists id k, t = WaitingFor id k /\ futures_ s !! id = None.
Proof.
  destruct t as [[r|n r k]|id k]; cbn; [by left; exists r|done|].
  destruct (futures_ s !! id) eqn:Hf; [done|]. intros _. right. by exists id, k.
Qed.

(** If nothing moves anymore, the callback is blocked or there is none. *)
Lemma nothing_moves s :
  node_inv s -> (forall s', ~ internal_step s s') ->
  (exists id, blocked_on s id) \/
  (ready_ s = [] /\ group_ s = None /\
   forall i id k, thread_of (comp s i) = Some (WaitingFor id k) -> id ∈ sent_ s).
Proof.
  intros I Hno. unfold blocked_on, depends_on. destruct (group_ s) as [[t|i b|i]|] eqn:Hg.
  - left. destruct (call_step t s) as [[t' s']|] eqn:Hc; [by destruct (Hno _ (CallbackMoves t t' s s' Hg Hc))|].
    destruct (call_step_None _ _ Hc) as [[r ->]|(id & k & -> & Hf)]; [by destruct (Hno _ (CallbackReturns r s Hg))|].
    exists id. split; [done|by exists k].
  - left. destruct (comp s i) as [|t|t] eqn:Hi.
    + by destruct (Hno _ (OwnerTakes i b s Hg Hi)).
    + destruct (call_step t s) as [[t' s']|] eqn:Hc; [by destruct (Hno _ (ComponentMoves i t t' s s' Hi Hc))|].
      destruct (call_step_None _ _ Hc) as [[r ->]|(id & k & -> & Hf)]; [by destruct (Hno _ (ComponentEnds i r s Hi))|].
      exists id. split; [done|by exists k].
    + apply (ni_serves _ I) in Hi. congruence.
  - left. destruct (ni_awaits _ I i Hg) as [t Hi]. rewrite Hi.
    destruct (call_step t s) as [[t' s']|] eqn:Hc; [by destruct (Hno _ (OperationMoves i t t' s s' Hi Hc))|].
    destruct (call_step_None _ _ Hc) as [[r ->]|(id & k & -> & Hf)]; [by destruct (Hno _ (OwnerReturns i r s Hg Hi))|].
    exists id. split; [done|by exists k].
  - right. assert (ready_ s = []) as Hr.
    { destruct (ready_ s) as [|e l] eqn:Hr; [done|]. by destruct (Hno _ (Execute e [] l s Hg Hr)). }
    split_and!; [done|done|]. intros i id k Hi.
    destruct (ni_waiting _ I (WaitingFor id k) id) as [?|[Hid|[r Hf]]];
      [by left; exists i|by exists k|done|rewrite Hr in Hid; cbn in Hid; set_solver|].
    destruct (comp s i) as [|t|t] eqn:Hc; [done| |apply (ni_serves _ I) in Hc; congruence].
    injection Hi as ->. destruct (Hno (set_comp i (Runs (Executing (k r))) s)).
    apply (ComponentMoves i (WaitingFor id k) _ s); [done|]. cbn. by rewrite Hf.
Qed.

(** A thread the callback depends on, and that calls a ROS service. *)
Lemma service_call_blocks s name request k :
  node_inv s -> depends_on s = Some (Executing (CallService name request k)) ->
  exists s1, internal_step s s1 /\ answered s1 = answered s /\ blocked_on s1 (next_request s).
Proof.
  intros I Hd.
  assert (futures_ s !! next_request s = None) as Hnone.
  { apply eq_None_not_Some. intros Hf. enough (next_request s < next_request s) by lia.
    apply (ni_fresh _ I). by right; right. }
  pose (s1 := (call_step (Executing (CallService name request k)) s)). cbn in s1.
  unfold depends_on in Hd. destruct (group_ s) as [[t|i b|i]|] eqn:Hg; [| | |done].
  - injection Hd as ->. eexists. split; [by eapply CallbackMoves|]. split; [done|].
    split; [exact Hnone|]. by exists k.
  - destruct (comp s i) as [|t|] eqn:Hi; [done| |done]. injection Hd as ->.
    eexists. split; [by eapply ComponentMoves|]. split; [done|]. split; [exact Hnone|].
    exists k. unfold depends_on. cbn [set_comp group_]. rewrite Hg, comp_set. by case_decide.
  - destruct (comp s i) as [| |t] eqn:Hi; [done|done|]. injection Hd as ->.
    eexists. split; [by eapply OperationMoves|]. split; [done|]. split; [exact Hnone|].
    exists k. unfold depends_on. cbn [set_comp group_]. rewrite Hg, comp_set. by case_decide.
Qed.

(** A request for an operation whose owner waits. *)
Lemma dispatch_blocks s request l1 l2 b i id k :
  group_ s = None -> ready_ s = l1 ++ ReadyRequest request :: l2 ->
  serve request = (b, OwnThread i) -> comp s i = Runs (WaitingFor id k) -> futures_ s !! id = None ->
  exists s1, internal_step s s1 /\ answered s1 = answered s /\ blocked_on s1 id.
Proof.
  intros Hg Hr Hs Hi Hf. eexists. split; [by apply (Execute (ReadyRequest request) l1 l2)|].
  split; [done|]. split; [done|]. exists k. unfold depends_on, execute_entity. rewrite Hs. cbn [group_].
  change (match comp s i with Runs t => Some t | _ => None end = Some (WaitingFor id k)). by rewrite Hi.
Qed.

(** ** The theorem *)

(** C16 -- When a callback that serves a request returns, and when it never does. (1) If
    no operation that serves a request calls a ROS service itself, and no component that
    owns one is at work in code that does, the threads of the process can bring the node
    to rest, and a component that waits in a call can go on, unless its request is not
    answered yet. (2) If they can do nothing anymore, the node is at rest, or the callback
    of its group is blocked: the thread it depends on waits for a response the executor
    has not taken. (3) That comes about when that thread calls a ROS service: the
    operation, in the callback or in its owner's thread, or the owner before it takes the
    operation; (4) and without nested calls when a request for an [OwnThread] operation is
    dispatched while the owner waits in a call. (5) A blocked callback never returns:
    whatever arrives, the response included, and whatever the components do, the node
    answers no request anymore, and no component whose call was waiting goes on. *)
Theorem service_calls_return_or_block (s : node_system) :
  node_reachable s ->
  (calm s ->
   exists s', rtc internal_step s s' /\ ready_ s' = [] /\ group_ s' = None /\
     forall i id k, comp s i = Runs (WaitingFor id k) ->
       id ∈ sent_ s \/
       comp s' i = Runs (WaitingFor id k) /\
       exists response s2, internal_step s' s2 /\ comp s2 i = Runs (Executing (k response))) /\
  ((forall s', ~ internal_step s s') ->
   (exists id, blocked_on s id) \/
   (ready_ s = [] /\ group_ s = None /\
    forall i id k, thread_of (comp s i) = Some (WaitingFor id k) -> id ∈ sent_ s)) /\
  (forall name request k, depends_on s = Some (Executing (CallService name request k)) ->
   exists s1, internal_step s s1 /\ answered s1 = answered s /\ blocked_on s1 (next_request s)) /\
  (forall request l1 l2 b i id k,
   group_ s = None -> ready_ s = l1 ++ ReadyRequest request :: l2 ->
   serve request = (b, OwnThread i) -> comp s i = Runs (WaitingFor id k) -> futures_ s !! id = None ->
   exists s1, internal_step s s1 /\ answered s1 = answered s /\ blocked_on s1 id) /\
  (forall id, blocked_on s id -> forall s2, rtc node_step s s2 ->
     blocked_on s2 id /\ group_ s2 = group_ s /\ answered s2 = answered s /\
     forall i j k, thread_of (comp s i) = Some (WaitingFor j k) -> futures_ s !! j = None ->
       comp s2 i = comp s i).
Proof.
  intros I%node_reachable_inv. split_and!.
  - intros Hc. destruct (executor_finishes s Hc) as (s' & Hrun & Hr & Hg & Hk & Hids).
    exists s'. split_and!; [done..|]. intros i id k Hi.
    destruct (ni_waiting _ I (WaitingFor id k) id) as [Hs|Hs];
      [left; exists i; by rewrite Hi|by exists k|by left|right].
    assert (is_Some (futures_ s' !! id)) as [r Hf]
      by (destruct Hs as [Hid|Hf]; [by apply Hids|by apply (kept_futures _ _ Hk)]).
    apply (kept_waiting _ _ Hk) in Hi. split; [done|].
    exists r, (set_comp i (Runs (Executing (k r))) s'). split.
    + apply (ComponentMoves i (WaitingFor id k) _ s'); [done|]. cbn. by rewrite Hf.
    + rewrite comp_set. by case_decide.
  - by apply nothing_moves.
  - intros name request k. by apply service_call_blocks.
  - intros *. by apply dispatch_blocks.
  - intros id Hb s2 Hrun. pose proof (blocked_forever _ _ _ Hb Hrun) as Hs.
    split_and!; [by eapply blocked_stays|apply Hs..].
Qed.
End NestedCalls.

(** ** Components that call a service, one of which owns an operation *)
Module NestedWitness.

Abbreviation body := (op_body (Request := nat) (Response := nat)).
Abbreviation system := (node_system (Request := nat) (Response := nat)).

(** Request 0 is answered in the executor and the other ones by component 5; no
    operation calls a service. *)
Definition serve (request : nat) : body * execution_thread :=
  match request with
  | 0 => (Return 100, ClientThread)
  | _ => (Return 200, OwnThread 5)
  end.

(** The operation needs another service. *)
Definition serve_nested (request : nat) : body * execution_thread :=
  (CallService "/other" request (fun response => Return (S response)), ClientThread).

(** Component [i] has called a service; its response and a request have arrived. *)
Definition calling (i request : nat) : system :=
  MkNodeSystem [ReadyResponse 0 42; ReadyRequest request] None
    (<[i := Runs (WaitingFor 0 Return)]> ∅) [] ∅ 1 [].

Lemma calling_reachable serve i request : node_reachable serve (calling i request).
Proof.
  eapply rtc_l; [apply (ComponentStarts serve i (CallService "/x" 1 Return)); by unfold comp; cbn; rewrite lookup_empty|].
  eapply rtc_l; [apply Internal; eapply (ComponentMoves serve i (Executing (CallService "/x" 1 Return)));
                 [by rewrite comp_set, decide_True|reflexivity]|].
  eapply rtc_l; [apply (ResponseArrives serve 0 42 [] []); reflexivity|].
  eapply rtc_l; [apply (RequestArrives serve request)|].
  unfold set_comp, calling. cbn. rewrite insert_insert_eq. apply rtc_refl.
Qed.

(** The request has been taken first. *)
Definition dispatched (serve : nat -> body * execution_thread) (i request : nat) : system :=
  execute_entity serve (ReadyRequest request) [ReadyResponse 0 42] (calling i request).

Lemma dispatched_reachable serve i request : node_reachable serve (dispatched serve i request).
Proof.
  eapply rtc_r; [apply (calling_reachable serve i request)|]. apply Internal.
  by apply (Execute serve (ReadyRequest request) [ReadyResponse 0 42] []).
Qed.

(** The request is for the operation of component 5. If that has called a service,
    neither call ever returns, although no operation calls a service; if it is
    component 4, its call returns. Nor does the callback of a nested call return. *)
Lemma service_calls_return_or_block_witness :
  (forall s2, rtc (node_step serve) (dispatched serve 5 1) s2 ->
     answered s2 = [] /\ comp s2 5 = Runs (WaitingFor 0 Return)) /\
  (exists s' response s2, rtc (internal_step serve) (calling 4 1) s' /\ ready_ s' = [] /\
     internal_step serve s' s2 /\ comp s2 4 = Runs (Executing (Return response))) /\
  (exists s1, internal_step serve_nested (dispatched serve_nested 4 1) s1 /\ blocked_on s1 1).
Proof.
  split_and!.
  - intros s2 Hrun.
    destruct (service_calls_return_or_block serve _ (dispatched_reachable serve 5 1)) as (_ & _ & _ & _ & Hb).
    destruct (Hb 0) with (s2 := s2) as (_ & _ & Ha & Hw); [|exact Hrun|].
    { split; [reflexivity|]. by exists Return. }
    split; [exact Ha|]. exact (Hw 5 0 Return eq_refl eq_refl).
  - destruct (service_calls_return_or_block serve _ (calling_reachable serve 4 1)) as [Hc _].
    destruct Hc as (s' & Hrun & Hr & _ & Hw).
    { split_and!; [|intros [|r] i [= <-]; by left|exact I].
      intros [|r]; by eexists. }
    destruct (Hw 4 0 Return eq_refl) as [[]%not_elem_of_nil|(_ & r & s2 & Hst & H2)].
    exists s', r, s2. by split_and!.
  - destruct (service_calls_return_or_block serve_nested _ (dispatched_reachable serve_nested 4 1)) as (_ & _ & Hd & _).
    destruct (Hd "/other" 1 (fun response => Return (S response)) eq_refl) as (s1 & Hst & _ & Hb).
    by exists s1.
Defined.
End NestedWitness.
