(* ===== verification/Topics.v ===== *)
(** Package [rtt_ros2_topics]: topic names, connection policies and the creation
    of streams ([utilities.hpp], [rostopic.hpp], [ros_type_transporter.hpp], the
    constructors in [ros_publisher.hpp] and [ros_subscription.hpp],
    [rtt_ros2_topics_plugin.cpp]). What a publisher then does is in [Publisher].

    Characters are those of the "C" locale. [RTT::ConnPolicy] is the record of
    the fields the package reads or writes. *)

From Stdlib Require Import Ascii.
From S2P Require Import Prelude RclcppAction RttServices RosNode.
Local Open Scope string_scope.
Local Open Scope list_scope.

(** ** Topic names *)
Definition isupper (c : ascii) : bool := ((65 <=? nat_of_ascii c) && (nat_of_ascii c <=? 90))%nat.
Definition tolower (c : ascii) : ascii := if isupper c then ascii_of_nat (nat_of_ascii c + 32)%nat else c.

Definition underscore : ascii := "_"%char.

(** The loop that inserts, on the characters of the string; [fuel] bounds the
    number of turns, [length str] is enough. *)
(* [rtt_ros2_topics/include/orocos/rtt_ros2_topics/utilities.hpp:33-38] insert *)
Fixpoint insert_underscores (fuel i : nat) (str : list ascii) : list ascii :=
  match fuel with
  | 0 => str
  | S fuel =>
      match str !! i with
      | None => str
      | Some c =>
          if isupper c then insert_underscores fuel (i + 2) (take i str ++ underscore :: drop i str)
          else insert_underscores fuel (i + 1) str
      end
  end.

(* [rtt_ros2_topics/include/orocos/rtt_ros2_topics/utilities.hpp:30-46] convert_camel_case_to_lower_case_underscore *)
Definition convert_camel_case_to_lower_case_underscore (str : string) : string :=
  let chars := String.list_ascii_of_string str in
  String.string_of_list_ascii (tolower <$> insert_underscores (length chars) 1 chars).

(** ** Connection policies *)
Inductive conn_type := UNBUFFERED | DATA | BUFFER | CIRCULAR_BUFFER.
#[export] Instance conn_type_eq_dec : EqDecision conn_type.
Proof. solve_decision. Defined.

Record ConnPolicy := MkConnPolicy {
  cp_type : conn_type;
  cp_size : Z;
  cp_init : bool;
  cp_pull : bool;
  cp_transport : Z;
  cp_name_id : string }.

(** [ConnPolicy::data()] and [ConnPolicy::buffer(size)]: push connections over
    RTT's own transport, with a data object or a buffer of the given size. *)
Class ConnPolicyLib := {
  policy_data : ConnPolicy;
  policy_buffer : Z -> ConnPolicy;
  policy_data_spec : cp_type policy_data = DATA /\ cp_pull policy_data = false;
  policy_buffer_spec n :
    cp_type (policy_buffer n) = BUFFER /\ cp_pull (policy_buffer n) = false /\ cp_size (policy_buffer n) = n }.

(* [rtt_ros2_topics/include/orocos/rtt_ros2_topics/protocol_id.h:19-21] ORO_ROS2_PROTOCOL_ID *)
Definition ORO_ROS2_PROTOCOL_ID : Z := 32.

Section Policies.
Context {CP : ConnPolicyLib}.

(** The three assignments the functions share. *)
Definition set_stream (p : ConnPolicy) (latch : bool) (topic : string) : ConnPolicy :=
  MkConnPolicy (cp_type p) (cp_size p) latch (cp_pull p) ORO_ROS2_PROTOCOL_ID topic.

(* [rtt_ros2_topics/include/orocos/rtt_ros2_topics/rostopic.hpp:38-45] topic *)
Definition topic (name : string) (latch : bool) : ConnPolicy := set_stream policy_data latch name.

(* [rtt_ros2_topics/include/orocos/rtt_ros2_topics/rostopic.hpp:54-57] topicLatched *)
Definition topicLatched (name : string) : ConnPolicy := topic name true.

(* [rtt_ros2_topics/include/orocos/rtt_ros2_topics/rostopic.hpp:68-75] topicBuffered *)
Definition topicBuffered (name : string) (size : Z) (latch : bool) : ConnPolicy :=
  set_stream (policy_buffer size) latch name.

(* [rtt_ros2_topics/include/orocos/rtt_ros2_topics/rostopic.hpp:90-99] topicDirect *)
Definition topicDirect (name : string) (size : Z) (latch : bool) : ConnPolicy :=
  let policy := set_stream (policy_buffer size) latch name in
  MkConnPolicy UNBUFFERED (cp_size policy) (cp_init policy) (cp_pull policy) (cp_transport policy)
    (cp_name_id policy).
End Policies.

(* [rtt_ros2_topics/include/orocos/rtt_ros2_topics/utilities.hpp:48-63] find_topic *)
Definition find_topic (port_name : string) (policy : ConnPolicy) : outcome string string :=
  let topic := cp_name_id policy in
  let topic := if bool_decide (topic = "") then convert_camel_case_to_lower_case_underscore port_name
               else topic in
  if bool_decide (topic = "") then Throw "policy.name_id cannot be empty for an unnamed port"
  else Ok topic.

(** ** Streams *)
Record QoS := MkQoS { qos_depth : Z; qos_transient_local : bool }.

Section Streams.
Context {RC : RclcppOps} {RO : RTTOps RC}.

(** [node->create_publisher], [node->create_subscription] and
    [ConnFactory::buildDataStorage], which may give no storage. *)
Context {Publisher Subscription Storage : Type}.
Variable create_publisher : RclNode -> string -> QoS -> outcome string Publisher.
Variable create_subscription : RclNode -> string -> QoS -> outcome string Subscription.
Variable buildDataStorage : ConnPolicy -> option Storage.

(** A port: its name and, if its interface belongs to one, its component. *)
Record port := MkPort { port_name : string; port_owner : option TaskContext }.

(** [rclcpp::QoS(std::max(1, policy.size))], latched if [policy.init]. *)
(* [rtt_ros2_topics/include/orocos/rtt_ros2_topics/ros_publisher.hpp:67-68] qos *)
Definition qos_of (policy : ConnPolicy) : QoS := MkQoS (Z.max 1 (cp_size policy)) (cp_init policy).

(* [rtt_ros2_topics/include/orocos/rtt_ros2_topics/ros_publisher.hpp:44-72] RosPublisherChannelElement *)
Definition RosPublisherChannelElement_ctor (p : port) (policy : ConnPolicy) (node : RclNode)
    : outcome string Publisher :=
  topic ← find_topic (port_name p) policy;
  create_publisher node topic (qos_of policy).

(* [rtt_ros2_topics/include/orocos/rtt_ros2_topics/ros_subscription.hpp:40-62] RosSubscriptionChannelElement *)
Definition RosSubscriptionChannelElement_ctor (p : port) (policy : ConnPolicy) (node : RclNode)
    : outcome string Subscription :=
  topic ← find_topic (port_name p) policy;
  create_subscription node topic (qos_of policy).

(** The head of the channel that is returned. *)
Inductive stream :=
| NoStream
| DirectPublisher (p : Publisher)
| BufferedPublisher (s : Storage) (p : Publisher)
| SubscriptionStream (s : Subscription).

(* [rtt_ros2_topics/include/orocos/rtt_ros2_topics/ros_type_transporter.hpp:41-100] createStream *)
Definition createStream (rtt : RTTWorld) (p : port) (policy : ConnPolicy) (is_sender : bool)
    : outcome string stream :=
  if cp_pull policy then Ok NoStream
  else
    match getNode rtt (port_owner p) with
    | None => Ok NoStream
    | Some node =>
        if is_sender then
          channel ← RosPublisherChannelElement_ctor p policy node;
          if bool_decide (cp_type policy = UNBUFFERED) then mret (DirectPublisher channel)
          else
            match buildDataStorage policy with
            | None => mret NoStream
            | Some buf => mret (BufferedPublisher buf channel)
            end
        else
          channel ← RosSubscriptionChannelElement_ctor p policy node;
          mret (SubscriptionStream channel)
    end.

(* [rtt_ros2_topics/src/rtt_ros2_topics_plugin.cpp:25-60] loadGlobalROSService *)
Definition topics_loadGlobalROSService (w : RTTWorld) : RTTWorld :=
  let '(ros, w) := provides GlobalService "ros" w in
  let w := addOperation ros "topic" w in
  let w := addOperation ros "topicLatched" w in
  let w := addOperation ros "topicBuffered" w in
  addOperation ros "topicDirect" w.

(* [rtt_ros2_topics/src/rtt_ros2_topics_plugin.cpp:63-69] loadRTTPlugin *)
Definition topics_loadRTTPlugin (tc : option TaskContext) (w : RTTWorld) : bool * RTTWorld :=
  match tc with
  | Some _ => (false, w)
  | None => (true, topics_loadGlobalROSService w)
  end.
End Streams.

(** ** Queues of the middleware

    [rclcpp::QoS(depth)] is KEEP_LAST: a queue of that depth, in which a new message
    takes the place of the oldest one when it is full. *)
Definition depth_of (policy : ConnPolicy) : nat := Z.to_nat (qos_depth (qos_of policy)).

Definition keep_last {A} (depth : nat) (l : list A) : list A := drop (length l - depth) l.
#[global] Arguments keep_last : simpl never.

Lemma depth_of_pos policy : (1 <= depth_of policy)%nat.
Proof. unfold depth_of, qos_of. cbn. lia. Qed.

Section KeepLast.
Context {A : Type}.
Implicit Types l : list A.

Lemma keep_last_fits n l : (length l <= n)%nat -> keep_last n l = l.
Proof. intros H. unfold keep_last. by replace (length l - n)%nat with 0%nat by lia. Qed.

Lemma keep_last_length n l : (length (keep_last n l) <= n)%nat.
Proof. unfold keep_last. rewrite length_drop. lia. Qed.

Lemma keep_last_length_le n l : (length (keep_last n l) <= length l)%nat.
Proof. unfold keep_last. rewrite length_drop. lia. Qed.

Lemma keep_last_split n l : l = take (length l - n) l ++ keep_last n l.
Proof. unfold keep_last. by rewrite take_drop. Qed.

Lemma keep_last_sublist n l : sublist (keep_last n l) l.
Proof. rewrite (keep_last_split n l) at 2. by apply sublist_inserts_l. Qed.

(** The newest message stays. *)
Lemma keep_last_last n l : (1 <= n)%nat -> last (keep_last n l) = last l.
Proof.
  intros Hn. destruct l as [|x l _] using rev_ind; [done|]. unfold keep_last.
  rewrite length_app. cbn. rewrite drop_app_le by lia. by rewrite !last_snoc.
Qed.
End KeepLast.

(** ** The conversion of names *)

(** An underscore before each capital of a list. *)
Definition underscored (l : list ascii) : list ascii :=
  l ≫= (fun c => if isupper c then [underscore; c] else [c]).

Lemma insert_underscores_spec fuel pre rest :
  length rest <= fuel ->
  insert_underscores fuel (length pre) (pre ++ rest) = pre ++ underscored rest.
Proof.
  revert pre rest. induction fuel as [|fuel IH]; intros pre rest Hf.
  - destruct rest; [|simpl in Hf; lia]. done.
  - cbn [insert_underscores]. destruct rest as [|c rest].
    + rewrite app_nil_r, lookup_ge_None_2 by lia. by rewrite app_nil_r.
    + rewrite list_lookup_middle by done. simpl in Hf. unfold underscored. simpl.
      destruct (isupper c).
      * rewrite take_app_length, drop_app_length.
        replace (pre ++ underscore :: c :: rest) with ((pre ++ [underscore; c]) ++ rest)
          by (by rewrite <- app_assoc).
        replace (length pre + 2) with (length (pre ++ [underscore; c])) by (by rewrite length_app).
        rewrite IH by lia. by rewrite <- app_assoc.
      * replace (pre ++ c :: rest) with ((pre ++ [c]) ++ rest) by (by rewrite <- app_assoc).
        replace (length pre + 1) with (length (pre ++ [c])) by (by rewrite length_app).
        rewrite IH by lia. by rewrite <- app_assoc.
Qed.

(** The whole conversion, without a loop. *)
Definition snake (l : list ascii) : list ascii :=
  match l with [] => [] | c :: l => tolower <$> (c :: underscored l) end.

Lemma convert_snake s :
  convert_camel_case_to_lower_case_underscore s = String.string_of_list_ascii (snake (String.list_ascii_of_string s)).
Proof.
  unfold convert_camel_case_to_lower_case_underscore. f_equal.
  destruct (String.list_ascii_of_string s) as [|c l]; [done|]. unfold snake. f_equal.
  apply (insert_underscores_spec _ [c] l). simpl. lia.
Qed.

Lemma isupper_tolower c : isupper (tolower c) = false.
Proof. destruct c as [[] [] [] [] [] [] [] []]; reflexivity. Qed.

Lemma snake_lower l : Forall (fun c => isupper c = false) (snake l).
Proof.
  destruct l as [|c l]; [constructor|]. unfold snake. apply Forall_fmap, Forall_forall.
  intros x _. apply isupper_tolower.
Qed.

Lemma tolower_id c : isupper c = false -> tolower c = c.
Proof. unfold tolower. by intros ->. Qed.

Lemma snake_id l : Forall (fun c => isupper c = false) l -> snake l = l.
Proof.
  destruct 1 as [|c l Hc Hl]; [done|]. unfold snake. rewrite fmap_cons, tolower_id by done. f_equal.
  induction Hl as [|d l Hd Hl IH]; [done|]. unfold underscored. simpl. rewrite Hd. simpl.
  rewrite tolower_id by done. f_equal. exact IH.
Qed.

Lemma to_of_list l : String.list_ascii_of_string (String.string_of_list_ascii l) = l.
Proof. induction l as [|c l IH]; [done|]. cbn. f_equal. exact IH. Qed.

(** The name conversion puts an underscore before every capital but a leading one and turns capitals into lower case, in one pass (the loop that inserts into the string it scans ends and does exactly this): its result has no capitals, converting again changes nothing, a name without capitals is kept, and only the empty name gives the empty name. *)
Theorem camel_case_conversion (s : string) :
  let r := convert_camel_case_to_lower_case_underscore s in
  r = String.string_of_list_ascii (snake (String.list_ascii_of_string s)) /\
  Forall (fun c => isupper c = false) (String.list_ascii_of_string r) /\
  convert_camel_case_to_lower_case_underscore r = r /\
  (Forall (fun c => isupper c = false) (String.list_ascii_of_string s) -> String.list_ascii_of_string r = String.list_ascii_of_string s) /\
  (r = "" <-> s = "").
Proof.
  intros r. subst r. rewrite !convert_snake, !to_of_list. split; [done|].
  split; [apply snake_lower|]. split; [by rewrite (snake_id _ (snake_lower _))|].
  split; [apply snake_id|]. destruct s as [|c s]; split; intros H; try done.
Qed.

(** ** Streams *)
Section StreamLaws.
Context {RC : RclcppOps} {RO : RTTOps RC} {CP : ConnPolicyLib}.
Context {Publisher Subscription Storage : Type}.
Variable create_publisher : RclNode -> string -> QoS -> outcome string Publisher.
Variable create_subscription : RclNode -> string -> QoS -> outcome string Subscription.
Variable buildDataStorage : ConnPolicy -> option Storage.

(** The topic of a stream: the name of the policy, else the converted port name. *)
Definition topic_of (p : port) (policy : ConnPolicy) : string :=
  if bool_decide (cp_name_id policy = "")
  then String.string_of_list_ascii (snake (String.list_ascii_of_string (port_name p))) else cp_name_id policy.

Lemma find_topic_spec (p : port) policy :
  find_topic (port_name p) policy =
    if bool_decide (topic_of p policy = "") then Throw "policy.name_id cannot be empty for an unnamed port"
    else Ok (topic_of p policy).
Proof. unfold find_topic, topic_of. by rewrite convert_snake. Qed.

(** A stream for a port on a ROS topic: pull connections and ports without a ROS node get none; a port without a name and a policy without a topic throw; otherwise the publisher or subscription is created on the policy's topic (or the port name in lower case with underscores), with the queue depth of the policy but at least 1, and latched as the policy says. A sender is connected through the storage of its policy, or directly if the policy is unbuffered, and gets no stream if no storage could be built. *)
Theorem stream_creation (rtt : RTTWorld) (p : port) (policy : ConnPolicy) (is_sender : bool) :
  createStream create_publisher create_subscription buildDataStorage rtt p policy is_sender =
    match cp_pull policy, getNode rtt (port_owner p) with
    | true, _ | _, None => Ok NoStream
    | false, Some node =>
        if bool_decide (topic_of p policy = "")
        then Throw "policy.name_id cannot be empty for an unnamed port"
        else
          let qos := MkQoS (Z.max 1 (cp_size policy)) (cp_init policy) in
          if is_sender then
            match create_publisher node (topic_of p policy) qos, cp_type policy, buildDataStorage policy with
            | Throw e, _, _ => Throw e
            | Ok pub, UNBUFFERED, _ => Ok (DirectPublisher pub)
            | Ok pub, _, None => Ok NoStream
            | Ok pub, _, Some buf => Ok (BufferedPublisher buf pub)
            end
          else SubscriptionStream <$> create_subscription node (topic_of p policy) qos
    end.
Proof.
  unfold createStream, RosPublisherChannelElement_ctor, RosSubscriptionChannelElement_ctor.
  destruct (cp_pull policy); [done|]. destruct (getNode rtt (port_owner p)) as [node|]; [|done].
  rewrite find_topic_spec. destruct (bool_decide (topic_of p policy = "")); [by destruct is_sender|].
  destruct is_sender; cbn; unfold qos_of.
  - destruct (create_publisher node _ _) as [pub|e]; [|done]. cbn.
    destruct (cp_type policy); cbn; destruct (buildDataStorage policy); done.
  - by destruct (create_subscription node _ _).
Qed.

(** The policies the operations topic, topicLatched, topicBuffered and topicDirect return all select the ROS transport, push and the given topic, with the latching and buffer size asked for, and differ in the buffering alone. Contrary to its documentation the policy of topicDirect is not refused for an input port: it creates a subscription exactly like a buffered policy of the same size. *)
Theorem topic_policies (name : string) (size : Z) (latch : bool) (rtt : RTTWorld) (p : port) (policy : ConnPolicy) :
  (policy ∈ [topic name latch; topicBuffered name size latch; topicDirect name size latch] ->
   cp_transport policy = ORO_ROS2_PROTOCOL_ID /\ cp_pull policy = false /\ cp_name_id policy = name /\
   cp_init policy = latch) /\
  topicLatched name = topic name true /\
  cp_type (topic name latch) = DATA /\ cp_type (topicBuffered name size latch) = BUFFER /\
  cp_type (topicDirect name size latch) = UNBUFFERED /\
  cp_size (topicBuffered name size latch) = size /\ cp_size (topicDirect name size latch) = size /\
  createStream create_publisher create_subscription buildDataStorage rtt p (topicDirect name size latch) false =
  createStream create_publisher create_subscription buildDataStorage rtt p (topicBuffered name size latch) false.
Proof.
  destruct policy_data_spec as [Hd Hdp]. destruct (policy_buffer_spec size) as (Hb & Hbp & Hbs).
  split.
  - intros Hin. rewrite !elem_of_cons, elem_of_nil in Hin.
    destruct Hin as [->|[->|[->|[]]]]; cbn; rewrite ?Hdp, ?Hbp; done.
  - cbn. rewrite Hd, Hb, Hbs. done.
Qed.
End StreamLaws.

(** ** Witnesses *)
Module Witnesses.
#[export] Instance ref_policies : ConnPolicyLib := {|
  policy_data := MkConnPolicy DATA 0 false false 0 "";
  policy_buffer := fun n => MkConnPolicy BUFFER n false false 0 "";
  policy_data_spec := conj eq_refl eq_refl;
  policy_buffer_spec := fun n => conj eq_refl (conj eq_refl eq_refl) |}.

Example convert_JointState :
  convert_camel_case_to_lower_case_underscore "JointStateABC" = "joint_state_a_b_c".
Proof. reflexivity. Qed.

Lemma topic_policies_witness :
  cp_transport (topicDirect "/scan" 10 true) = 32%Z.
Proof.
  refine (proj1 (proj1 (topic_policies (RO := RttReference.ref_rtt_ops) (Publisher := nat) (Subscription := nat)
    (Storage := nat) (fun _ _ _ => Ok 1) (fun _ _ _ => Ok 2) (fun _ => None) "/scan" 10 true
    (RttReference.RefRtt [] []) (MkPort "p" None) (topicDirect "/scan" 10 true)) _)).
  do 2 right. left.
Defined.
End Witnesses.
