(* ===== verification/Publisher.v ===== *)
(** Package [rtt_ros2_topics]: the life of a publishing stream ([waitable.hpp],
    the methods of [ros_publisher.hpp] and [ros_subscription.hpp]).

    Three threads meet here: the RTT component that writes into the storage of
    the port and then signals the channel, the executor of [rclcpp] that waits for
    the guard condition and executes the waitable, and the thread that destroys
    the channel and calls [cancel]. A step is one access to the shared state
    ([has_work_], the guard condition, the storage, [func_]). [execute_mutex_] is
    held from [run] to the end of [func_], so [cancel] is not possible in between.

    The storage is RTT's; [push b x] is its content after writing [x], which drops
    samples or not ([push_sublist]). *)

From S2P Require Import Prelude.
Local Open Scope list_scope.

Section Publisher.
Context {T : Type}.
Variable push : list T -> T -> list T.
(** [publisher_->can_loan_messages()] *)
Variable can_loan_messages : bool.

(** The component that writes: it has pushed a sample and not yet called
    [trigger], or is between the two actions of [trigger]. *)
Inductive writer_pc := WIdle | WWritten | WTriggering.

(** The executor: blocked in the wait, woken, about to execute the waitable,
    inside [func_], or in the [trigger] of [execute] (before and after
    [has_work_ = true]). *)
Inductive executor_pc := EWaiting | EWoken | EReady | ERunning | ERetrigger | ERetriggering.

(* [rtt_ros2_topics/include/orocos/rtt_ros2_topics/waitable.hpp:160-165] has_work_ *)
Record state := MkState {
  storage : list T;
  func_ : bool;  (** [func_] is not empty *)
  has_work_ : bool;
  guard : bool;  (** the guard condition is triggered *)
  writer : writer_pc;
  executor : executor_pc;
  written : list T;  (** every sample written, in order *)
  published : list T  (** every sample published, in order *) }.

(* [rtt_ros2_topics/include/orocos/rtt_ros2_topics/waitable.hpp:41-55] Waitable *)
Definition Waitable_ctor : state := MkState [] true false false WIdle EWaiting [] [].

(** The two actions of [trigger]. *)
(* [rtt_ros2_topics/include/orocos/rtt_ros2_topics/waitable.hpp:71-73] trigger *)
Definition trigger_work (s : state) : state :=
  MkState (storage s) (func_ s) true (guard s) (writer s) (executor s) (written s) (published s).
(* [rtt_ros2_topics/include/orocos/rtt_ros2_topics/waitable.hpp:77-81] rcl_trigger_guard_condition *)
Definition trigger_guard (s : state) : state :=
  MkState (storage s) (func_ s) (has_work_ s) true (writer s) (executor s) (written s) (published s).

Definition set_writer (pc : writer_pc) (s : state) : state :=
  MkState (storage s) (func_ s) (has_work_ s) (guard s) pc (executor s) (written s) (published s).
Definition set_executor (pc : executor_pc) (s : state) : state :=
  MkState (storage s) (func_ s) (has_work_ s) (guard s) (writer s) pc (written s) (published s).

(** Writing into the storage of the port: what the component does before [signal]. *)
Definition do_write (x : T) (s : state) : state :=
  MkState (push (storage s) x) (func_ s) (has_work_ s) (guard s) WWritten (executor s)
    (written s ++ [x]) (published s).

(* [rtt_ros2_topics/include/orocos/rtt_ros2_topics/waitable.hpp:104-107] is_ready *)
Definition is_ready (s : state) : bool := has_work_ s.

(** The beginning of [execute], under the lock. *)
(* [rtt_ros2_topics/include/orocos/rtt_ros2_topics/waitable.hpp:119-124] execute *)
Definition execute_begin (s : state) : state :=
  if negb (func_ s) then set_executor EWaiting s
  else MkState (storage s) (func_ s) false (guard s) (writer s) ERunning (written s) (published s).

(** One turn of [publish]: with a valid message (always, if messages are not
    loaned) a sample is read and published, or the loop ends. *)
(* [rtt_ros2_topics/include/orocos/rtt_ros2_topics/ros_publisher.hpp:112-158] publish *)
Definition publish_turn (message_is_valid : bool) (s : state) : state :=
  if can_loan_messages && negb message_is_valid then set_executor ERetrigger s
  else
    match storage s with
    | [] => set_executor EWaiting s
    | x :: b =>
        MkState b (func_ s) (has_work_ s) (guard s) (writer s) (executor s) (written s)
          (published s ++ [x])
    end.

(* [rtt_ros2_topics/include/orocos/rtt_ros2_topics/waitable.hpp:87-91] cancel *)
Definition cancel (s : state) : state :=
  MkState (storage s) false (has_work_ s) (guard s) (writer s) (executor s) (written s) (published s).

(** [execute_mutex_] is free. *)
Definition unlocked (pc : executor_pc) : bool :=
  match pc with EWaiting | EWoken | EReady => true | _ => false end.

Inductive step : state -> state -> Prop :=
| StepWrite x s : writer s = WIdle -> step s (do_write x s)
| StepSignal s : writer s = WWritten -> step s (set_writer WTriggering (trigger_work s))
| StepSignalGuard s : writer s = WTriggering -> step s (set_writer WIdle (trigger_guard s))
| StepWait s : executor s = EWaiting -> guard s = true ->
    step s (MkState (storage s) (func_ s) (has_work_ s) false (writer s) EWoken (written s) (published s))
| StepOtherWork s : executor s = EWaiting -> guard s = false -> step s (set_executor EWoken s)
| StepCheck s : executor s = EWoken ->
    step s (set_executor (if is_ready s then EReady else EWaiting) s)
| StepExecute s : executor s = EReady -> step s (execute_begin s)
| StepPublish valid s : executor s = ERunning -> step s (publish_turn valid s)
| StepRetrigger s : executor s = ERetrigger -> step s (set_executor ERetriggering (trigger_work s))
| StepRetriggerGuard s : executor s = ERetriggering -> step s (set_executor EWaiting (trigger_guard s))
| StepCancel s : unlocked (executor s) = true -> step s (cancel s).

Definition reachable (s : state) : Prop := rtc step Waitable_ctor s.

(** *** Direct writes and subscriptions *)

(** [write] of an unbuffered stream publishes in the thread of the writer. *)
(* [rtt_ros2_topics/include/orocos/rtt_ros2_topics/ros_publisher.hpp:100-104] write *)
Definition direct_write (sample : T) (s : state) : state :=
  MkState (storage s) (func_ s) (has_work_ s) (guard s) (writer s) (executor s)
    (written s ++ [sample]) (published s ++ [sample]).

(** [signal] of the channel, both actions of [trigger]. *)
(* [rtt_ros2_topics/include/orocos/rtt_ros2_topics/ros_publisher.hpp:106-110] signal *)
Definition signal (s : state) : bool * state := (true, trigger_guard (trigger_work s)).

(** *** What the waitable offers to other executors

    An executor of events installs a callback instead of waiting. The waitable keeps
    it, and [trigger], above, does not call it. *)
Record waitable_events (Callback : Type) := MkEvents { on_ready_callback_ : option Callback }.
Arguments MkEvents {Callback}.

(* [rtt_ros2_topics/include/orocos/rtt_ros2_topics/waitable.hpp:130-134] set_on_ready_callback *)
Definition set_on_ready_callback {Callback} (callback : Callback) (w : waitable_events Callback) :=
  MkEvents (Some callback).
(* [rtt_ros2_topics/include/orocos/rtt_ros2_topics/waitable.hpp:136-140] clear_on_ready_callback *)
Definition clear_on_ready_callback {Callback} (w : waitable_events Callback) : waitable_events Callback :=
  MkEvents None.
(* [rtt_ros2_topics/include/orocos/rtt_ros2_topics/waitable.hpp:142-149] set_on_new_event_callback *)
Definition set_on_new_event_callback {Callback} (callback : Callback) (w : waitable_events Callback) := w.
(** A null pointer. *)
(* [rtt_ros2_topics/include/orocos/rtt_ros2_topics/waitable.hpp:109-112] take_data *)
Definition take_data {Data} : option Data := None.
(* [rtt_ros2_topics/include/orocos/rtt_ros2_topics/waitable.hpp:114-117] take_data_by_entity_id *)
Definition take_data_by_entity_id {Data} (id : Z) : option Data := None.
(* [rtt_ros2_topics/include/orocos/rtt_ros2_topics/waitable.hpp:93-96] get_number_of_ready_guard_conditions *)
Definition get_number_of_ready_guard_conditions : Z := 1.
(** The wait set gets the one guard condition. *)
(* [rtt_ros2_topics/include/orocos/rtt_ros2_topics/waitable.hpp:98-102] add_to_wait_set *)
Definition add_to_wait_set {Guard} (rcl_guard_condition_ : Guard) (wait_set : list Guard) : list Guard :=
  wait_set ++ [rcl_guard_condition_].

(** The destructor of the channel: the node forgets the waitable, then [cancel] waits
    for a running execution ([StepCancel]). *)
(* [rtt_ros2_topics/include/orocos/rtt_ros2_topics/ros_publisher.hpp:74-78] RosPublisherChannelElement *)
Definition RosPublisherChannelElement_dtor {Waitable} `{EqDecision Waitable} (waitable_ : Waitable)
    (waitables : list Waitable) (s : state) : option (list Waitable * state) :=
  if unlocked (executor s) then Some (filter (fun w => w <> waitable_) waitables, cancel s) else None.

(** ** No lost samples, no lost wake-ups *)

(** Every step keeps: what was published, followed by what is stored, is what
    was written in the same order, possibly without samples the storage dropped;
    a sample in the storage is announced by [has_work_] or about to be; announced
    work is noticed by the executor. The two announcements concern a stream that
    is not canceled; inside [func_] the stream is not canceled. *)
Record inv (s : state) : Prop := {
  inv_order : sublist (published s ++ storage s) (written s);
  inv_work : func_ s = true -> storage s <> [] ->
    has_work_ s = true \/ writer s = WWritten \/ executor s = ERunning \/ executor s = ERetrigger;
  inv_wake : func_ s = true -> has_work_ s = true ->
    guard s = true \/ writer s = WTriggering \/ executor s = EWoken \/ executor s = EReady \/
    executor s = ERetriggering;
  inv_locked : unlocked (executor s) = false -> func_ s = true }.

Section Invariant.
Hypothesis push_sublist : forall b x, sublist (push b x) (b ++ [x]).

Lemma write_order b x p w : sublist (p ++ b) w -> sublist (p ++ push b x) (w ++ [x]).
Proof.
  intros H. trans (p ++ (b ++ [x])).
  - apply sublist_app; [done|apply push_sublist].
  - rewrite app_assoc. by apply sublist_app.
Qed.

Lemma publish_turn_inv valid s : inv s -> executor s = ERunning -> inv (publish_turn valid s).
Proof.
  intros [Ho Hw Hk Hl] He. unfold publish_turn.
  assert (func_ s = true) as Hf by (apply Hl; by rewrite He).
  destruct (can_loan_messages && negb valid).
  - split; cbn; auto. intros _ Hwork. destruct (Hk Hf Hwork) as [|[|[|[|]]]]; auto; congruence.
  - destruct (storage s) as [|x b] eqn:Hs; split; cbn; rewrite ?Hs in *; auto.
    + intros _ Hwork. destruct (Hk Hf Hwork) as [|[|[|[|]]]]; auto; congruence.
    + by rewrite <- app_assoc.
Qed.

(** Program counters that cannot be equal, and hypotheses that apply. *)
Ltac solve_pc :=
  first [done | solve [auto] |
    intros; repeat match goal with E : executor ?s = _, H : context [executor ?s] |- _ => rewrite E in H end;
    cbn in *; try done; auto; repeat match goal with H : ?P -> _, HP : ?P |- _ => specialize (H HP) end;
    intuition congruence].

Lemma step_inv s s' : inv s -> step s s' -> inv s'.
Proof.
  intros I Hst. destruct Hst as [x s Hw|s Hw|s Hw|s He Hg|s He Hg|s He|s He|valid s He|s He|s He|s Hu];
    try (by apply publish_turn_inv); destruct I as [Ho Hwk Hk Hl]; unfold execute_begin, cancel in *.
  - split; cbn; [by apply write_order|by auto|solve_pc|by auto].
  - split; cbn; solve_pc.
  - split; cbn; solve_pc.
  - split; cbn; solve_pc.
  - split; cbn; solve_pc.
  - unfold is_ready. destruct (has_work_ s) eqn:E; split; cbn; solve_pc.
  - destruct (func_ s) eqn:Hf; split; cbn; solve_pc.
  - split; cbn; solve_pc.
  - split; cbn; solve_pc.
  - split; cbn; solve_pc.
Qed.

Lemma publisher_reachable_inv s : reachable s -> inv s.
Proof.
  apply (rtc_ind_r inv); [by split|]. intros s1 s2 _ Hstep I. by eapply step_inv.
Qed.

(** With a buffer that keeps every sample nothing is dropped. *)
Definition all_kept (s : state) : Prop := published s ++ storage s = written s.

Lemma step_all_kept s s' :
  (forall b x, push b x = b ++ [x]) -> all_kept s -> step s s' -> all_kept s'.
Proof.
  unfold all_kept. intros Hp Hk Hst.
  destruct Hst as [x s|s|s|s|s|s|s|valid s|s|s|s]; cbn; auto.
  - by rewrite Hp, app_assoc, Hk.
  - unfold execute_begin. by destruct (func_ s).
  - unfold publish_turn. destruct (can_loan_messages && negb valid); cbn; [done|].
    destruct (storage s) as [|y b] eqn:Hs; cbn; [by rewrite Hs|]. by rewrite <- app_assoc.
Qed.

Lemma reachable_all_kept s :
  (forall b x, push b x = b ++ [x]) -> reachable s -> all_kept s.
Proof.
  intros Hp. apply (rtc_ind_r all_kept); [done|]. intros s1 s2 _ Hst Hs. by eapply step_all_kept.
Qed.

(** A sample in the storage wakes an executor that waits. *)
Lemma inv_guard s :
  inv s -> func_ s = true -> storage s <> [] -> writer s = WIdle -> executor s = EWaiting ->
  guard s = true.
Proof.
  intros [_ Hwk Hk _] Hf Hs Hw He. destruct (Hwk Hf Hs) as [Hwork|[|[|]]]; try congruence.
  destruct (Hk Hf Hwork) as [|[|[|[|]]]]; congruence.
Qed.

(** ** The executor alone *)

(** What the executor does next while no other thread moves and messages can be
    loaned; [None] when it is blocked in the wait. *)
Definition executor_next (s : state) : option state :=
  match executor s with
  | EWaiting =>
      if guard s then Some (MkState (storage s) (func_ s) (has_work_ s) false (writer s) EWoken
                              (written s) (published s))
      else None
  | EWoken => Some (set_executor (if is_ready s then EReady else EWaiting) s)
  | EReady => Some (execute_begin s)
  | ERunning => Some (publish_turn true s)
  | ERetrigger => Some (set_executor ERetriggering (trigger_work s))
  | ERetriggering => Some (set_executor EWaiting (trigger_guard s))
  end.

Fixpoint run_executor (n : nat) (s : state) : option state :=
  match n with
  | 0 => Some s
  | S n => s' ← executor_next s; run_executor n s'
  end.

Lemma executor_next_step s s' : executor_next s = Some s' -> step s s'.
Proof.
  unfold executor_next. destruct (executor s) eqn:E.
  - destruct (guard s) eqn:G; [|done]. intros [= <-]. by constructor.
  - intros [= <-]. by constructor.
  - intros [= <-]. by constructor.
  - intros [= <-]. by constructor.
  - intros [= <-]. by constructor.
  - intros [= <-]. by constructor.
Qed.

(** The executor can empty the storage. *)
Definition drains (s : state) : Prop :=
  exists n s', run_executor n s = Some s' /\ storage s' = [] /\ published s' = published s ++ storage s.

Lemma drains_next s s1 :
  executor_next s = Some s1 -> published s1 ++ storage s1 = published s ++ storage s ->
  drains s1 -> drains s.
Proof.
  intros Hn He (n & s' & Hr & Hs & Hp). exists (S n), s'. split; [cbn; by rewrite Hn|].
  split; [done|]. by rewrite Hp, He.
Qed.

Lemma drains_running s : executor s = ERunning -> drains s.
Proof.
  remember (storage s) as b eqn:Hb. revert s Hb. induction b as [|x b IH]; intros s Hb He.
  - exists 0, s. by rewrite <- Hb, app_nil_r.
  - set (s1 := publish_turn true s).
    assert (s1 = MkState b (func_ s) (has_work_ s) (guard s) (writer s) (executor s) (written s)
                   (published s ++ [x])) as Hs1.
    { subst s1. unfold publish_turn. by rewrite andb_false_r, <- Hb. }
    apply (drains_next s s1).
    + unfold executor_next. by rewrite He.
    + rewrite Hs1, <- Hb. cbn. by rewrite <- app_assoc.
    + apply IH; by rewrite Hs1.
Qed.

Lemma drains_ready s : executor s = EReady -> func_ s = true -> drains s.
Proof.
  intros He Hf. eapply drains_next; [unfold executor_next; by rewrite He| |].
  - unfold execute_begin. by rewrite Hf.
  - apply drains_running. unfold execute_begin. by rewrite Hf.
Qed.

Lemma drains_woken s : executor s = EWoken -> func_ s = true -> has_work_ s = true -> drains s.
Proof.
  intros He Hf Hw. eapply drains_next; [unfold executor_next; by rewrite He|done|].
  apply drains_ready; [|done]. cbn. unfold is_ready. by rewrite Hw.
Qed.

Lemma drains_waiting s :
  executor s = EWaiting -> func_ s = true -> has_work_ s = true -> guard s = true -> drains s.
Proof.
  intros He Hf Hw Hg. eapply drains_next; [unfold executor_next; by rewrite He, Hg|done|].
  by apply drains_woken.
Qed.

Lemma drains_retriggering s :
  executor s = ERetriggering -> func_ s = true -> has_work_ s = true -> drains s.
Proof.
  intros He Hf Hw. eapply drains_next; [unfold executor_next; by rewrite He|done|].
  by apply drains_waiting.
Qed.

Lemma inv_drains s : inv s -> func_ s = true -> writer s = WIdle -> drains s.
Proof.
  intros [_ Hwk Hk _] Hf Hi. destruct (storage s) as [|x b] eqn:Hs.
  { exists 0, s. by rewrite Hs, app_nil_r. }
  assert (storage s <> []) as Hne by (by rewrite Hs). rewrite <- Hs in Hwk.
  destruct (executor s) eqn:He.
  - destruct (Hwk Hf Hne) as [Hw|[|[|]]]; try congruence.
    destruct (Hk Hf Hw) as [Hg|[|[|[|]]]]; try congruence. by apply drains_waiting.
  - destruct (Hwk Hf Hne) as [Hw|[|[|]]]; try congruence. by apply drains_woken.
  - by apply drains_ready.
  - by apply drains_running.
  - eapply drains_next; [unfold executor_next; by rewrite He|done|]. by apply drains_retriggering.
  - destruct (Hwk Hf Hne) as [Hw|[|[|]]]; try congruence. by apply drains_retriggering.
Qed.

(** ** The theorems *)

(** C11 -- However the writing component, the executor and a cancellation interleave: the samples published so far followed by those in the storage are samples that were written, each at most once and in the order of writing, and all of them if the storage keeps every sample. No wake-up is lost: if a stream that is not canceled holds a sample, its writer has returned from signal and the executor is blocked in its wait, the guard condition that ends the wait is triggered. *)
Theorem no_lost_wakeup (s : state) :
  reachable s ->
  sublist (published s ++ storage s) (written s) /\
  ((forall b x, push b x = b ++ [x]) -> published s ++ storage s = written s) /\
  (func_ s = true -> storage s <> [] -> writer s = WIdle -> executor s = EWaiting -> guard s = true).
Proof.
  intros Hr. pose proof (publisher_reachable_inv s Hr) as Hi. split; [apply Hi|].
  split; [intros Hp; by apply reachable_all_kept|by apply inv_guard].
Qed.

(** Once the writer has returned from signal, the executor on its own publishes everything that is stored: from every reachable state of a stream that is not canceled, finitely many executor steps empty the storage and append exactly its samples, in order, to what was published. *)
Theorem executor_drains (s : state) :
  reachable s -> func_ s = true -> writer s = WIdle ->
  exists n s', run_executor n s = Some s' /\ storage s' = [] /\
    published s' = published s ++ storage s.
Proof. intros Hr Hf Hw. by apply inv_drains; [apply publisher_reachable_inv|..]. Qed.

(** C13 -- After cancel has returned the function of the waitable is not called anymore: whatever the threads do afterwards, nothing is published by the stream, and the executor is never inside the function again. *)
Theorem cancel_is_final (s s' : state) :
  reachable s -> unlocked (executor s) = true -> rtc step (cancel s) s' ->
  published s' = published s /\ unlocked (executor s') = true.
Proof.
  intros _ Hu Hrun.
  enough (func_ s' = false /\ unlocked (executor s') = true /\ published s' = published s) by tauto.
  revert s' Hrun. apply rtc_ind_r; [by split_and!|].
  intros s1 s2 _ Hst (Hf & Hl & Hp).
  destruct Hst as [x t|t|t|t Ht|t Ht|t Ht|t Ht|v t Ht|t Ht|t Ht|t]; cbn; auto;
    try (rewrite Ht in Hl; discriminate Hl).
  - by destruct (is_ready t).
  - unfold execute_begin. by rewrite Hf.
Qed.
End Invariant.
End Publisher.

(** ** Witnesses: one sample through a stream that keeps every sample *)
Module Witnesses.
Definition keep (b : list nat) (x : nat) : list nat := b ++ [x].

Lemma keep_sublist b x : sublist (keep b x) (b ++ [x]).
Proof. done. Qed.

(** Samples 7 and 8 were written; the executor is blocked. *)
Definition two_written : state (T := nat) :=
  MkState [7; 8] true true true WIdle EWaiting [7; 8] [].

Lemma two_written_reachable : reachable keep false two_written.
Proof.
  eapply rtc_l; [apply (StepWrite keep false 7); reflexivity|].
  eapply rtc_l; [apply StepSignal; reflexivity|]. eapply rtc_l; [apply StepSignalGuard; reflexivity|].
  eapply rtc_l; [apply (StepWrite keep false 8); reflexivity|].
  eapply rtc_l; [apply StepSignal; reflexivity|]. eapply rtc_l; [apply StepSignalGuard; reflexivity|].
  apply rtc_refl.
Qed.

Lemma no_lost_wakeup_witness :
  published two_written ++ storage two_written = [7; 8] /\ guard two_written = true.
Proof.
  destruct (no_lost_wakeup keep false keep_sublist two_written two_written_reachable) as (_ & Hk & Hg).
  split; [exact (Hk (fun _ _ => eq_refl))|]. apply Hg; [reflexivity|discriminate|reflexivity|reflexivity].
Defined.

Lemma executor_drains_witness :
  exists n s', run_executor false n two_written = Some s' /\ published s' = [7; 8].
Proof.
  destruct (executor_drains keep false keep_sublist two_written two_written_reachable eq_refl eq_refl)
    as (n & s' & Hr & _ & Hp).
  exists n, s'. exact (conj Hr Hp).
Defined.

Lemma cancel_is_final_witness :
  published (cancel two_written) = [].
Proof.
  exact (proj1 (cancel_is_final keep false two_written _ two_written_reachable eq_refl (rtc_refl _ _))).
Defined.
End Witnesses.
