(* ===== verification/Subscription.v ===== *)
(** Package [rtt_ros2_topics]: the life of a subscribing stream
    ([ros_subscription.hpp]).

    The executor of [rclcpp] takes a message from the middleware for a subscription it
    holds a reference to, and then calls the callback, which is a method of the channel
    element. Another thread may destroy the element, which gives up its own reference
    to the subscription and waits for nobody. A step is one of these actions; a call of
    a method of a destroyed element is the state [Crashed].

    The middleware keeps the messages that were received and not yet taken in a queue
    of the depth the constructor asks for ([Topics.qos_of]); when it is full, a new
    message takes the place of the oldest one. *)

From S2P Require Import Prelude RclcppAction RttServices RosNode Topics.
Local Open Scope list_scope.

Section Subscription.
Context {T : Type}.
(** The policy the stream was created with. *)
Variable policy : ConnPolicy.

(** The executor: idle, or between taking a message and the end of the callback. *)
Inductive executor_state := Idle | Taken (msg : T).

Record system := MkSystem {
  alive : bool;  (** the channel element exists, and with it its reference [subscription_] *)
  middleware : list T;  (** received and not yet taken *)
  executor_ : executor_state;
  channel : list T;  (** what [write] passed on to the port, in order *)
  arrived : list T;  (** every message that arrived while there was a subscription *)
  overrun : nat  (** how many of them were replaced in the queue *) }.

Inductive subscription_state := Running (s : system) | Crashed.

(** The element right after its construction. *)
Definition created : system := MkSystem true [] Idle [] [] 0.

(** A message arrives at the queue of the subscription. *)
Definition arrive (x : T) (s : system) : system :=
  let queue := middleware s ++ [x] in
  MkSystem (alive s) (keep_last (depth_of policy) queue) (executor_ s) (channel s) (arrived s ++ [x])
    (overrun s + (length queue - depth_of policy)).

(** [write] of the message into the channel. *)
(* [rtt_ros2_topics/include/orocos/rtt_ros2_topics/ros_subscription.hpp:66-69] callback *)
Definition callback (msg : T) (s : system) : subscription_state :=
  if alive s
  then Running (MkSystem (alive s) (middleware s) Idle (channel s ++ [msg]) (arrived s) (overrun s))
  else Crashed.

(** The destructor is the default one: [subscription_] is released. A subscription
    nobody else holds is gone with its messages. *)
(* [rtt_ros2_topics/include/orocos/rtt_ros2_topics/ros_subscription.hpp:64-64] RosSubscriptionChannelElement *)
Definition RosSubscriptionChannelElement_dtor (s : system) : system :=
  MkSystem false [] (executor_ s) (channel s) (arrived s) (overrun s).

(** The executor finds a subscription only while its owner keeps it. *)
Inductive subscription_step : subscription_state -> subscription_state -> Prop :=
| Arrive x s : alive s = true -> subscription_step (Running s) (Running (arrive x s))
| Take x l s : alive s = true -> executor_ s = Idle -> middleware s = x :: l ->
    subscription_step (Running s)
      (Running (MkSystem (alive s) l (Taken x) (channel s) (arrived s) (overrun s)))
| Call x s : executor_ s = Taken x -> subscription_step (Running s) (callback x s)
| Destroy s : alive s = true -> subscription_step (Running s) (Running (RosSubscriptionChannelElement_dtor s)).

Definition subscription_reachable : subscription_state -> Prop := rtc subscription_step (Running created).

(** The message the executor holds. *)
Definition in_hand (e : executor_state) : list T := match e with Idle => [] | Taken x => [x] end.

(** The messages the subscription has dealt with. *)
Definition seen (s : system) : list T := channel s ++ in_hand (executor_ s).

(** While the element exists, the queue holds the newest messages that arrived, and [seen]
    are messages that arrived before them, without those that were replaced in the queue;
    the last of these is in [seen] when the queue is empty. *)
Record received (s : system) (before : list T) : Prop := {
  received_all : arrived s = before ++ middleware s;
  received_order : sublist (seen s) before;
  received_overrun : length before = length (seen s) + overrun s;
  received_newest : middleware s = [] -> last (seen s) = last before;
  received_depth : length (middleware s) <= depth_of policy }.

Definition delivered (st : subscription_state) : Prop :=
  match st with
  | Running s =>
      if alive s then exists before, received s before else sublist (seen s) (arrived s)
  | Crashed => True
  end.

Lemma arrive_received x s before :
  received s before ->
  received (arrive x s)
    (before ++ take (length (middleware s ++ [x]) - depth_of policy) (middleware s ++ [x])).
Proof.
  intros [Ha Ho Hl Hn Hd]. pose proof (depth_of_pos policy) as Hp. split; unfold seen; cbn.
  - rewrite Ha, <- app_assoc, <- app_assoc. f_equal. apply keep_last_split.
  - by apply sublist_inserts_r.
  - unfold seen in Hl. rewrite !length_app, length_take, !length_app in *. cbn. lia.
  - intros E. apply (f_equal last) in E. rewrite keep_last_last, last_snoc in E by done. done.
  - apply keep_last_length.
Qed.

Lemma step_delivered st st' : subscription_step st st' -> delivered st -> delivered st'.
Proof.
  intros Hs. destruct Hs as [x s Ha|x l s Ha He Hm|x s He|s Ha]; cbn.
  - rewrite Ha. intros (before & R). by eexists; apply arrive_received.
  - rewrite Ha. intros (before & [Hall Ho Hl Hn Hd]). exists (before ++ [x]).
    unfold seen in *. rewrite He, app_nil_r in *. rewrite Hm in *. split; cbn.
    + rewrite Hall. by rewrite <- app_assoc.
    + by apply sublist_app.
    + unfold seen. cbn. rewrite !length_app. cbn. lia.
    + intros _. unfold seen. cbn. by rewrite !last_snoc.
    + cbn in Hd. lia.
  - unfold callback. destruct (alive s) eqn:Ha; cbn; [|done].
    intros (before & [Hall Ho Hl Hn Hd]). exists before.
    unfold seen in *. rewrite He in *. cbn in *. by split; unfold seen; cbn; rewrite ?app_nil_r.
  - rewrite Ha. intros (before & [Hall Ho _ _ _]). unfold seen in *. cbn. rewrite Hall.
    by apply sublist_inserts_r.
Qed.

Lemma reachable_delivered st : subscription_reachable st -> delivered st.
Proof.
  apply (rtc_ind_r delivered).
  - exists []. split; cbn; [done..|lia].
  - intros s1 s2 _ Hst Hd. by eapply step_delivered.
Qed.

(** Destruction while the executor is not at work. *)
Inductive synchronised_step : subscription_state -> subscription_state -> Prop :=
| Synchronised st st' : subscription_step st st' ->
    (forall s, st = Running s -> executor_ s <> Idle -> st' <> Running (RosSubscriptionChannelElement_dtor s)) ->
    synchronised_step st st'.

Definition synchronised_safe (st : subscription_state) : Prop :=
  match st with Running s => alive s = true \/ executor_ s = Idle | Crashed => False end.

Lemma synchronised_step_safe st st' :
  synchronised_step st st' -> synchronised_safe st -> synchronised_safe st'.
Proof.
  intros [a b Hs Hd]. destruct Hs as [x s Ha|x l s Ha He Hm|x s He|s Ha]; cbn; intros H.
  - by left.
  - by left.
  - unfold callback. destruct H as [Ha|Hi]; [|congruence]. rewrite Ha. cbn. by left.
  - destruct (executor_ s) eqn:He; [by right|]. exfalso. by apply (Hd s eq_refl); [rewrite He|].
Qed.

(** A message is taken and the element destroyed before the callback. *)
Lemma crash_reachable (x : T) : subscription_reachable Crashed.
Proof.
  eapply rtc_l; [by apply (Arrive x)|]. eapply rtc_l.
  { apply (Take x []); [done|done|]. exact (keep_last_fits _ [x] (depth_of_pos policy)). }
  eapply rtc_l; [by apply Destroy|]. eapply rtc_l; [by apply (Call x)|]. apply rtc_refl.
Qed.

Lemma received_same_length {A} (l1 l2 : list A) : sublist l1 l2 -> length l1 = length l2 -> l1 = l2.
Proof.
  intros Hs. induction Hs as [|x l1 l2 Hs IH|x l1 l2 Hs IH]; intros Hl; [done|..]; cbn in Hl.
  - f_equal. apply IH. lia.
  - apply sublist_length in Hs. lia.
Qed.

(** C14 -- In every reachable state the port has been given messages that arrived, in the order of their arrival and each at most once. While the stream exists, the middleware holds the newest messages that arrived, at most the depth the stream was created with; the newest message is always in the queue, with the executor or the last one the port was given; and as long as the queue has never overflowed, no message is missing. But the destruction of the stream does not wait for the executor: if it comes between the moment the executor takes a message and its call of the callback, the callback runs on the destroyed channel element, while a destruction at a moment when the executor is not at work never leads there. Publishing streams are protected from this by cancel; subscribing streams have no such protection. *)
Theorem subscription_callback_race (x : T) :
  (forall s, subscription_reachable (Running s) -> sublist (channel s) (arrived s)) /\
  (forall s, subscription_reachable (Running s) -> alive s = true ->
     middleware s `suffix_of` arrived s /\ length (middleware s) <= depth_of policy /\
     last (channel s ++ in_hand (executor_ s) ++ middleware s) = last (arrived s) /\
     (overrun s = 0 -> arrived s = channel s ++ in_hand (executor_ s) ++ middleware s)) /\
  subscription_reachable Crashed /\
  ~ rtc synchronised_step (Running created) Crashed.
Proof.
  split_and!.
  - intros s Hr. pose proof (reachable_delivered _ Hr) as Hd. cbn in Hd.
    assert (sublist (channel s) (seen s)) as Hc by (by apply sublist_inserts_r).
    destruct (alive s); [|by trans (seen s)]. destruct Hd as (before & [Hall Ho _ _ _]).
    rewrite Hall. apply sublist_inserts_r. by trans (seen s).
  - intros s Hr Ha. pose proof (reachable_delivered _ Hr) as Hd. cbn in Hd. rewrite Ha in Hd.
    destruct Hd as (before & [Hall Ho Hl Hn Hd]). rewrite app_assoc. fold (seen s).
    split_and!; [by exists before|done| |].
    + rewrite Hall. destruct (middleware s) as [|y l]; [rewrite !app_nil_r; auto|].
      by rewrite !last_app_cons.
    + intros E. rewrite Hall. rewrite (received_same_length _ _ Ho); [done|lia].
  - by apply (crash_reachable x).
  - intros Hr. assert (synchronised_safe (Running created)) as H0 by (by left).
    change (synchronised_safe Crashed). revert H0. induction Hr; eauto using synchronised_step_safe.
Qed.
End Subscription.
