(* ===== verification/TopicPipeline.v ===== *)
(** Package [rtt_ros2_topics]: a publishing stream ([Publisher]) and a subscribing
    stream ([Subscription]) of one topic, from the output port of one component to
    the input port of another.

    Between the two is the middleware, which is not part of the repository: it
    carries the messages in the order in which they were published. Both streams
    are created with queues of bounded depth ([Topics.qos_of]): a publisher keeps that
    many messages that have not arrived, a subscription that many that have not been
    taken, and a new message takes the place of the oldest one. Unless the quality of
    service is [reliable] the middleware loses messages on the way besides. The storage
    of the output port is RTT's and arbitrary, but for what [Publisher] assumes. All
    threads move independently: the writing component, the executor of the publisher,
    the middleware, the executor of the subscriber, and the threads that cancel or
    destroy the streams. *)

From S2P Require Import Prelude RclcppAction RttServices RosNode Topics Publisher Subscription.
Local Open Scope list_scope.

Section Pipeline.
Context {T : Type}.
(** As in [Publisher]: the storage of the output port, and whether messages are loaned. *)
Variable push : list T -> T -> list T.
Variable can_loan_messages : bool.
Variable reliable : bool.
(** The policies of the two streams. *)
Variables (out_policy in_policy : ConnPolicy).

Record pipeline := MkPipeline {
  publisher : state (T := T);
  network : list T;  (** published, neither replaced, lost nor arrived *)
  subscription : subscription_state (T := T) }.

Definition pipeline_created : pipeline := MkPipeline Waitable_ctor [] (Running created).

(** What a step of the publisher hands to the middleware. *)
Definition sent (p p' : state (T := T)) : list T := drop (length (published p)) (published p').

(** The publisher's queue with what it publishes. *)
Definition enqueue (n l : list T) : list T := keep_last (depth_of out_policy) (n ++ l).
Arguments enqueue : simpl never.

Definition same_arrivals (s : system (T := T)) (st : subscription_state) : Prop :=
  match st with Running s' => arrived s' = arrived s | Crashed => True end.

Inductive pipeline_step : pipeline -> pipeline -> Prop :=
| PublisherMoves p p' n st : step push can_loan_messages p p' ->
    pipeline_step (MkPipeline p n st) (MkPipeline p' (enqueue n (sent p p')) st)
| NetworkLoses p n n' st : reliable = false -> sublist n' n ->
    pipeline_step (MkPipeline p n st) (MkPipeline p n' st)
| NetworkDelivers p x n s : alive s = true ->
    pipeline_step (MkPipeline p (x :: n) (Running s)) (MkPipeline p n (Running (arrive in_policy x s)))
| SubscriberMoves p n s st : subscription_step in_policy (Running s) st -> same_arrivals s st ->
    pipeline_step (MkPipeline p n (Running s)) (MkPipeline p n st).

Definition pipeline_reachable : pipeline -> Prop := rtc pipeline_step pipeline_created.

(** ** The threads that deliver

    What each of them does next, [None] when it is blocked; the executor of the
    publisher is [executor_next], with messages that can be loaned. *)
Inductive actor := PublisherExecutor | Network | SubscriberExecutor.

Definition actor_next (a : actor) (s : pipeline) : option pipeline :=
  match a, subscription s with
  | PublisherExecutor, _ =>
      p' ← executor_next can_loan_messages (publisher s);
      Some (MkPipeline p' (enqueue (network s) (sent (publisher s) p')) (subscription s))
  | Network, Running r =>
      match alive r, network s with
      | true, x :: n => Some (MkPipeline (publisher s) n (Running (arrive in_policy x r)))
      | _, _ => None
      end
  | SubscriberExecutor, Running r =>
      match executor_ r, alive r, middleware r with
      | Taken x, _, _ => Some (MkPipeline (publisher s) (network s) (callback x r))
      | Idle, true, x :: l =>
          Some (MkPipeline (publisher s) (network s)
                  (Running (MkSystem (alive r) l (Taken x) (channel r) (arrived r) (overrun r))))
      | _, _, _ => None
      end
  | _, Crashed => None
  end.

Fixpoint run_actors (acts : list actor) (s : pipeline) : option pipeline :=
  match acts with
  | [] => Some s
  | a :: acts => s ← actor_next a s; run_actors acts s
  end.

Definition all_blocked (s : pipeline) : Prop := forall a, actor_next a s = None.

(** The stream is not canceled, its writer has returned from [signal], and the
    subscribing channel element exists. *)
Definition settled (s : pipeline) : Prop :=
  func_ (publisher s) = true /\ writer (publisher s) = WIdle /\
  match subscription s with Running r => alive r = true | Crashed => False end.

(** A bound for the number of moves: how far each message is from the input
    port, and the executor of the publisher from its wait. *)
Definition executor_rank (e : executor_pc) : nat :=
  match e with
  | EWaiting => 0 | ERunning => 1 | EReady => 2 | EWoken => 3
  | ERetriggering => 11 | ERetrigger => 12
  end.

Definition work (s : pipeline) : nat :=
  4 * length (storage (publisher s)) + executor_rank (executor (publisher s)) +
  (if guard (publisher s) then 10 else 0) + 3 * length (network s) +
  match subscription s with
  | Running r => 2 * length (middleware r) + length (in_hand (executor_ r))
  | Crashed => 0
  end.

(** ** Lemmas about single steps *)

Lemma sent_same p p' : published p' = published p -> sent p p' = [].
Proof. intros E. unfold sent. rewrite E. apply drop_ge. lia. Qed.

Lemma step_published p p' :
  step push can_loan_messages p p' -> published p' = published p ++ sent p p'.
Proof.
  intros Hst. assert (exists l, published p' = published p ++ l) as [l E].
  { destruct Hst; try (exists []; by rewrite app_nil_r).
    - unfold execute_begin. exists []. by destruct (func_ s); cbn; rewrite app_nil_r.
    - unfold publish_turn. destruct (_ && _); [exists []; by rewrite app_nil_r|].
      destruct (storage s) as [|x b]; [exists []; by rewrite app_nil_r|by exists [x]]. }
  unfold sent. by rewrite E, drop_app_length.
Qed.

Lemma subscription_step_alive r r' :
  subscription_step (T := T) in_policy (Running r) (Running r') -> alive r' = true -> alive r = true.
Proof.
  intros Hst Ha. destruct (alive r) eqn:E; [done|].
  inversion Hst; subst; cbn in Ha; try congruence. unfold callback in *. by rewrite E in *.
Qed.

Lemma enqueue_sublist n l : sublist (enqueue n l) (n ++ l).
Proof. apply keep_last_sublist. Qed.

Lemma enqueue_last n l : last (enqueue n l) = last (n ++ l).
Proof. apply keep_last_last, depth_of_pos. Qed.

Lemma enqueue_length n l : length (enqueue n l) <= length n + length l.
Proof. unfold enqueue. rewrite <- length_app. apply keep_last_length_le. Qed.

Lemma actor_next_step a s s' : actor_next a s = Some s' -> pipeline_step s s'.
Proof.
  destruct s as [p n st]. destruct a; cbn.
  - destruct (executor_next _ p) as [p'|] eqn:He; cbn; [|done]. intros [= <-].
    by eapply PublisherMoves, executor_next_step.
  - destruct st as [r|]; [|done]. destruct (alive r) eqn:Ha, n as [|x n]; try done.
    intros [= <-]. by constructor.
  - destruct st as [r|]; [|done]. destruct (executor_ r) as [|x] eqn:He.
    + destruct (alive r) eqn:Ha, (middleware r) as [|x l] eqn:Hm; try done.
      intros [= <-]. apply SubscriberMoves; [|done]. rewrite <- Ha. by apply Take.
    + assert (same_arrivals r (callback x r)) by (unfold callback; by destruct (alive r)).
      destruct (alive r); intros [= <-]; (apply SubscriberMoves; [by constructor|done]).
Qed.

(** ** The invariant *)

(** The publisher is in a state of its own system, and so is the subscriber; what
    arrived, followed by what is on its way, was published in that order; and if the
    middleware is reliable, the newest message that was published has arrived or is on
    its way. *)
Record pipeline_inv (s : pipeline) : Prop := {
  pi_publisher : reachable push can_loan_messages (publisher s);
  pi_subscription : delivered in_policy (subscription s);
  pi_network : match subscription s with
    | Running r => sublist (arrived r ++ network s) (published (publisher s)) /\
        (reliable = true -> last (arrived r ++ network s) = last (published (publisher s)))
    | Crashed => True
    end }.

Lemma pipeline_step_inv s s' : pipeline_step s s' -> pipeline_inv s -> pipeline_inv s'.
Proof.
  intros Hst [Hp Hd Hn]. destruct Hst as [p p' n st Hst|p n n' st Hl Hs|p x n r Ha|p n r st Hst Hsame];
    cbn in Hp, Hd, Hn.
  - split; cbn; [by eapply rtc_r|done|]. destruct st as [r|]; [|done].
    rewrite (step_published _ _ Hst). destruct Hn as [Ho Hlast]. split.
    + trans ((arrived r ++ n) ++ sent p p'); [|by apply sublist_app].
      rewrite <- app_assoc. apply sublist_app; [done|apply enqueue_sublist].
    + intros Hr. specialize (Hlast Hr). rewrite last_app, enqueue_last, <- last_app, app_assoc.
      rewrite last_app, Hlast, <- last_app. done.
  - split; cbn; [done|done|]. destruct st as [r|]; [|done]. destruct Hn as [Ho _]. split.
    + trans (arrived r ++ n); [by apply sublist_app|done].
    + intros Hr. congruence.
  - split; cbn; [done| |].
    + apply (step_delivered _ _ _ (Arrive in_policy x r Ha) Hd).
    + by rewrite <- app_assoc.
  - split; cbn; [done|by eapply step_delivered|]. destruct st as [r'|]; [|done].
    cbn in Hsame. by rewrite Hsame.
Qed.

Lemma pipeline_reachable_inv s : pipeline_reachable s -> pipeline_inv s.
Proof.
  apply (rtc_ind_r pipeline_inv).
  - split; [apply rtc_refl|exact (reachable_delivered in_policy (Running created) (rtc_refl _ _))|done].
  - intros s1 s2 _ Hst Hi. by eapply pipeline_step_inv.
Qed.

(** ** Every move of a delivering thread is progress *)

Lemma executor_next_work p p' :
  executor_next can_loan_messages p = Some p' ->
  4 * length (storage p') + executor_rank (executor p') + (if guard p' then 10 else 0) +
    3 * length (sent p p') <
  4 * length (storage p) + executor_rank (executor p) + (if guard p then 10 else 0).
Proof.
  unfold executor_next. destruct (executor p) eqn:He.
  - destruct (guard p) eqn:Hg; [|done]. intros [= <-]. rewrite sent_same by done. cbn. lia.
  - intros [= <-]. rewrite sent_same by done. cbn. destruct (is_ready p); cbn; lia.
  - unfold execute_begin. destruct (func_ p); intros [= <-]; rewrite sent_same by done; cbn; lia.
  - unfold publish_turn. rewrite andb_false_r. destruct (storage p) as [|x b] eqn:Hs; intros [= <-].
    + rewrite sent_same by done. cbn. rewrite Hs. cbn. lia.
    + unfold sent. cbn [published]. rewrite drop_app_length, He. cbn. lia.
  - intros [= <-]. rewrite sent_same by done. cbn. lia.
  - intros [= <-]. rewrite sent_same by done. cbn. destruct (guard p); lia.
Qed.

Lemma actor_next_work a s s' : actor_next a s = Some s' -> work s' < work s.
Proof.
  destruct s as [p n st]. unfold work. destruct a; cbn.
  - destruct (executor_next _ p) as [p'|] eqn:He; cbn; [|done]. intros [= <-]. cbn.
    apply executor_next_work in He. pose proof (enqueue_length n (sent p p')). lia.
  - destruct st as [r|]; [|done]. destruct (alive r), n as [|x n]; try done.
    intros [= <-]. cbn. pose proof (keep_last_length_le (depth_of in_policy) (middleware r ++ [x])) as H.
    rewrite length_app in H. cbn in H. lia.
  - destruct st as [r|]; [|done]. destruct (executor_ r) as [|x]; cbn.
    + destruct (alive r), (middleware r) as [|x l]; try done. intros [= <-]. cbn. lia.
    + unfold callback. destruct (alive r), (middleware r); intros [= <-]; cbn; lia.
Qed.

(** What the executor of the publisher leaves as it is. *)
Lemma executor_next_frame (p p' : state (T := T)) :
  executor_next can_loan_messages p = Some p' ->
  func_ p' = func_ p /\ writer p' = writer p /\ written p' = written p /\
  published p' ++ storage p' = published p ++ storage p.
Proof.
  unfold executor_next, execute_begin, publish_turn. rewrite andb_false_r.
  destruct (executor p), (guard p), (func_ p) eqn:Hf, (storage p) eqn:Hst; intros [= <-];
    cbn; rewrite ?Hf, ?Hst, <- ?app_assoc; done.
Qed.

(** The messages between the storage of the output port and the input port, oldest first,
    and the case that no queue on the way can overflow. *)
Definition outstanding (s : pipeline) : list T :=
  match subscription s with
  | Running r => in_hand (executor_ r) ++ middleware r
  | Crashed => []
  end ++ network s ++ storage (publisher s).

Definition given (s : pipeline) : list T :=
  match subscription s with Running r => channel r | Crashed => [] end.

Definition fits (s : pipeline) : Prop :=
  length (network s) + length (storage (publisher s)) <= depth_of out_policy /\
  match subscription s with
  | Running r => length (middleware r) + length (network s) + length (storage (publisher s))
  | Crashed => 0
  end <= depth_of in_policy.

(** What the threads that deliver keep: the writer's side, and all samples if they fit. *)
Record kept (s s' : pipeline) : Prop := {
  kept_settled : settled s';
  kept_written : written (publisher s') = written (publisher s);
  kept_stored : published (publisher s') ++ storage (publisher s') =
                published (publisher s) ++ storage (publisher s);
  kept_all : fits s -> fits s' /\ given s' ++ outstanding s' = given s ++ outstanding s }.

Lemma kept_refl s : settled s -> kept s s.
Proof. by split. Qed.

Lemma kept_trans s1 s2 s3 : kept s1 s2 -> kept s2 s3 -> kept s1 s3.
Proof.
  intros [_ W1 S1 A1] [Hs W2 S2 A2]. split; [done|congruence..|].
  intros Hf. destruct (A1 Hf) as [Hf2 E1]. destruct (A2 Hf2) as [Hf3 E2]. split; congruence.
Qed.

Lemma executor_next_sent p p' :
  executor_next can_loan_messages p = Some p' -> storage p = sent p p' ++ storage p'.
Proof.
  intros He. destruct (executor_next_frame _ _ He) as (_ & _ & _ & E).
  apply executor_next_step with (push := push) in He. rewrite (step_published _ _ He) in E.
  rewrite <- app_assoc in E. by apply app_inv_head in E.
Qed.

Lemma actor_next_kept a s s' : actor_next a s = Some s' -> settled s -> kept s s'.
Proof.
  destruct s as [p n st]. unfold settled. destruct a; cbn.
  - destruct (executor_next _ p) as [p'|] eqn:He; cbn; [|done]. intros [= <-] Hs. cbn.
    pose proof (executor_next_sent _ _ He) as Hsent.
    destruct (executor_next_frame _ _ He) as (Hf & Hw & Hwr & Hp). split; cbn; [|done|done|].
    { unfold settled. cbn. by rewrite Hf, Hw. }
    unfold fits, outstanding, given. cbn. intros [H1 H2].
    assert (enqueue n (sent p p') = n ++ sent p p') as Henq.
    { apply keep_last_fits. rewrite length_app. rewrite Hsent, length_app in H1. lia. }
    rewrite Henq, <- !app_assoc, <- Hsent. split; [|done].
    rewrite Hsent, length_app in H1, H2. rewrite length_app. destruct st; lia.
  - destruct st as [r|]; [|done]. destruct (alive r) eqn:Ha, n as [|x n]; try done.
    intros [= <-] (Hf & Hw & _). split; cbn; [by split_and!|done|done|].
    unfold fits, outstanding, given. cbn. intros [H1 H2].
    rewrite (keep_last_fits _ (middleware r ++ [x])) by (rewrite length_app; cbn; lia).
    rewrite length_app. cbn. rewrite <- !app_assoc. cbn. split; [lia|done].
  - destruct st as [r|]; [|done]. unfold callback.
    destruct (executor_ r) as [|x] eqn:He, (alive r) eqn:Ha; try done.
    + destruct (middleware r) as [|x l] eqn:Hm; [done|].
      intros [= <-] (Hf & Hw & _). split; cbn; [by split_and!|done|done|].
      unfold fits, outstanding, given. cbn. rewrite Hm, He. cbn. intros [H1 H2]. split; [lia|done].
    + intros [= <-] (Hf & Hw & _). split; cbn; [by split_and!|done|done|].
      unfold fits, outstanding, given. cbn. rewrite He. cbn. intros [H1 H2].
      split; [lia|]. by rewrite <- app_assoc.
    + intros _ (_ & _ & ?). done.
Qed.

Lemma run_actors_spec acts s s' :
  run_actors acts s = Some s' -> settled s ->
  length acts + work s' <= work s /\ rtc pipeline_step s s' /\ kept s s'.
Proof.
  revert s. induction acts as [|a acts IH]; intros s; cbn [run_actors length].
  - intros [= <-] Hs. split_and!; [done|done|by apply kept_refl].
  - destruct (actor_next a s) as [s1|] eqn:Ha; cbn [mbind option_bind]; [|done]. intros Hr Hs.
    pose proof (actor_next_kept _ _ _ Ha Hs) as Hk.
    destruct (IH _ Hr (kept_settled _ _ Hk)) as (Hl & Hrtc & Hk'). apply actor_next_work in Ha as Hlt.
    split_and!; [lia| |by eapply kept_trans]. eapply rtc_l; [by eapply actor_next_step|done].
Qed.

Lemma blocked_dec s : all_blocked s \/ exists a s', actor_next a s = Some s'.
Proof.
  destruct (actor_next PublisherExecutor s) as [s1|] eqn:E1; [eauto|].
  destruct (actor_next Network s) as [s2|] eqn:E2; [eauto|].
  destruct (actor_next SubscriberExecutor s) as [s3|] eqn:E3; [eauto|].
  left. by intros [].
Qed.

(** Running any thread that is not blocked, as long as there is one. *)
Lemma run_until_blocked s : exists acts s', run_actors acts s = Some s' /\ all_blocked s'.
Proof.
  remember (work s) as w eqn:Hw. revert s Hw.
  induction w as [w IH] using lt_wf_ind. intros s ->.
  destruct (blocked_dec s) as [Hb|(a & s1 & Ha)]; [by exists [], s|].
  destruct (IH _ (actor_next_work _ _ _ Ha) s1 eq_refl) as (acts & s' & Hr & Hb).
  exists (a :: acts), s'. cbn. by rewrite Ha.
Qed.

(** ** When no thread can move, nothing is on its way *)

Lemma blocked_publisher s :
  (forall b x, sublist (push b x) (b ++ [x])) ->
  pipeline_inv s -> settled s -> actor_next PublisherExecutor s = None ->
  storage (publisher s) = [].
Proof.
  intros Hsub [Hr _ _] (Hf & Hw & _) Hb.
  pose proof (publisher_reachable_inv _ _ Hsub _ Hr) as Hi.
  cbn in Hb. unfold executor_next in Hb. destruct (executor (publisher s)) eqn:He; try done.
  destruct (guard (publisher s)) eqn:Hg; [done|].
  destruct (storage (publisher s)) as [|x b] eqn:Hs; [done|].
  rewrite (inv_guard _ Hi Hf) in Hg; [done|by rewrite Hs|done|done].
Qed.

Lemma blocked_empty s :
  (forall b x, sublist (push b x) (b ++ [x])) ->
  pipeline_inv s -> settled s -> all_blocked s ->
  exists r, subscription s = Running r /\ alive r = true /\ middleware r = [] /\ executor_ r = Idle /\
    network s = [] /\ storage (publisher s) = [].
Proof.
  intros Hsub Hi Hs Hb. pose proof (blocked_publisher s Hsub Hi Hs (Hb PublisherExecutor)) as Hst.
  destruct Hs as (_ & _ & Ha). pose proof (Hb Network) as Hbn. pose proof (Hb SubscriberExecutor) as Hbs.
  destruct s as [p n [r|]]; cbn in *; [|done]. exists r. rewrite Ha in Hbn, Hbs.
  destruct n; [|done]. destruct (executor_ r) as [|x]; [|done]. by destruct (middleware r).
Qed.

(** The newest sample a reliable middleware was given has reached the input port. *)
Lemma blocked_newest s :
  (forall b x, sublist (push b x) (b ++ [x])) -> reliable = true ->
  pipeline_inv s -> settled s -> all_blocked s ->
  last (given s) = last (published (publisher s) ++ storage (publisher s)).
Proof.
  intros Hsub Hrel Hi Hs Hb.
  destruct (blocked_empty s Hsub Hi Hs Hb) as (r & Hr & Ha & Hm & He & Hn & Hst).
  destruct Hi as [_ Hd Hnet]. rewrite Hst, app_nil_r. unfold given. rewrite Hr in *.
  cbn in Hd. rewrite Ha in Hd. destruct Hd as (before & [Hall _ _ Hnew _]).
  destruct Hnet as [_ Hl]. rewrite Hn, app_nil_r in Hl. rewrite <- (Hl Hrel), Hall, Hm, app_nil_r.
  rewrite <- (Hnew Hm). unfold seen. by rewrite He, app_nil_r.
Qed.

(** A storage that always keeps the sample written last, a data object or a circular buffer. *)
Lemma reachable_newest p :
  (forall b x, last (push b x) = Some x) -> reachable push can_loan_messages p ->
  last (published p ++ storage p) = last (written p).
Proof.
  intros Hp. apply (rtc_ind_r (fun p => last (published p ++ storage p) = last (written p))); [done|].
  intros s1 s2 _ Hst IH. destruct Hst as [x s|s|s|s|s|s|s|valid s|s|s|s]; cbn; auto.
  - by rewrite last_app, Hp, last_snoc.
  - unfold execute_begin. by destruct (func_ s).
  - unfold publish_turn. destruct (can_loan_messages && negb valid); cbn; [done|].
    destruct (storage s) as [|y b] eqn:Hs; cbn; rewrite ?Hs in *; [done|]. by rewrite <- app_assoc.
Qed.

(** ** The theorem *)

End Pipeline.

(** ** Samples from port to port *)
Module PipelineWitness.

(** A circular buffer of two samples between the port and its stream, and streams of
    depth two. *)
Definition circular (b : list nat) (x : nat) : list nat := keep_last 2 (b ++ [x]).

Lemma circular_sublist b x : sublist (circular b x) (b ++ [x]).
Proof. apply keep_last_sublist. Qed.

Definition two : ConnPolicy := MkConnPolicy BUFFER 2 false false ORO_ROS2_PROTOCOL_ID "samples".

(** Samples 7, 8 and 9 were written, and nothing has moved since: 7 has been replaced. *)
Definition three_written : state (T := nat) :=
  MkState [8; 9] true true true WIdle EWaiting [7; 8; 9] [].
Definition two_on_their_way : pipeline := MkPipeline three_written [] (Running created).

Lemma two_on_their_way_reachable : pipeline_reachable circular false true two two two_on_their_way.
Proof.
  eapply rtc_l; [apply PublisherMoves, (StepWrite circular false 7); reflexivity|].
  eapply rtc_l; [apply PublisherMoves, StepSignal; reflexivity|].
  eapply rtc_l; [apply PublisherMoves, StepSignalGuard; reflexivity|].
  eapply rtc_l; [apply PublisherMoves, (StepWrite circular false 8); reflexivity|].
  eapply rtc_l; [apply PublisherMoves, StepSignal; reflexivity|].
  eapply rtc_l; [apply PublisherMoves, StepSignalGuard; reflexivity|].
  eapply rtc_l; [apply PublisherMoves, (StepWrite circular false 9); reflexivity|].
  eapply rtc_l; [apply PublisherMoves, StepSignal; reflexivity|].
  eapply rtc_l; [apply PublisherMoves, StepSignalGuard; reflexivity|].
  apply rtc_refl.
Qed.

(** One schedule of many: the executors take turns with the middleware. *)
Definition schedule : list actor :=
  [PublisherExecutor; PublisherExecutor; PublisherExecutor; PublisherExecutor; Network;
   SubscriberExecutor; PublisherExecutor; Network; SubscriberExecutor; SubscriberExecutor;
   SubscriberExecutor; PublisherExecutor].

Definition two_arrived : pipeline :=
  MkPipeline (MkState [] true false false WIdle EWaiting [7; 8; 9] [8; 9]) []
    (Running (MkSystem true [] Idle [8; 9] [8; 9] 0)).

Lemma schedule_runs : run_actors false two two schedule two_on_their_way = Some two_arrived.
Proof. vm_compute. reflexivity. Qed.

End PipelineWitness.
