(* ===== verification/Introspection.v ===== *)
(** Package [rtt_ros2_idl]
    ([src/rtt_ros2_idl/include/orocos/rtt_ros2_idl/RosIntrospectionTypeInfo.hpp]):
    access to the members of a ROS message through the tables of
    [rosidl_typesupport_introspection_cpp].

    The table of a message is a C array, the list [members_]. A pointer into it is
    a position; the position one past the end is a valid pointer that must not be
    read, which the operations below say with [None]. *)

From Stdlib Require Import Ascii.
From S2P Require Import Prelude.
Local Open Scope string_scope.
Local Open Scope list_scope.

(** ** The introspection tables *)

(** [rosidl_typesupport_introspection_cpp::ROS_TYPE_*]; any other number is [RosTypeOther]. *)
Inductive ros_type :=
| ROS_TYPE_FLOAT | ROS_TYPE_DOUBLE | ROS_TYPE_LONG_DOUBLE | ROS_TYPE_CHAR | ROS_TYPE_WCHAR
| ROS_TYPE_BOOLEAN | ROS_TYPE_OCTET | ROS_TYPE_UINT8 | ROS_TYPE_INT8 | ROS_TYPE_UINT16
| ROS_TYPE_INT16 | ROS_TYPE_UINT32 | ROS_TYPE_INT32 | ROS_TYPE_UINT64 | ROS_TYPE_INT64
| ROS_TYPE_STRING | ROS_TYPE_WSTRING | ROS_TYPE_MESSAGE | RosTypeOther (id : Z).

(** [members_] of a nested message: its namespace and name; [None]: null. *)
Record MessageMember := MkMember {
  name_ : string;
  type_id_ : ros_type;
  nested_ : option (string * string);
  is_array_ : bool;
  array_size_ : Z;
  is_upper_bound_ : bool;
  offset_ : Z }.

(** The C++ value types the switch names. *)
Inductive cxx_type :=
| T_float | T_double | T_long_double | T_char | T_bool | T_unsigned_char | T_uint8 | T_int8
| T_uint16 | T_int16 | T_uint32 | T_int32 | T_uint64 | T_int64 | T_string | T_u16string.

(** What is looked up in RTT's type repository: a C++ type, or a name. *)
Inductive type_key :=
| KeyValue (t : cxx_type)
| KeyVector (t : cxx_type)
| KeyCArray (t : cxx_type)
| KeyName (n : string).

(** [std::regex_replace(s, std::regex("::"), "/")] *)
Fixpoint replace_separator (s : string) : string :=
  match s with
  | String ":" (String ":" s) => String "/" (replace_separator s)
  | String c s => String c (replace_separator s)
  | EmptyString => ""
  end.

Section Introspection.
Context {TypeInfo : Type}.
Variable getTypeInfo : type_key -> option TypeInfo.

(* [rtt_ros2_idl/include/orocos/rtt_ros2_idl/RosIntrospectionTypeInfo.hpp:35-46] findMessageMember *)
Definition findMessageMember (rosidl_message_members : option (list MessageMember)) (name : string)
    : option nat :=
  match rosidl_message_members with
  | None => None
  | Some members =>
      match list_find (fun m => name_ m = name) members with
      | Some (i, _) => Some i
      | None => Some (length members)
      end
  end.

(* [rtt_ros2_idl/include/orocos/rtt_ros2_idl/RosIntrospectionTypeInfo.hpp:48-71] findTypeInfoByValueType *)
Definition findTypeInfoByValueType (t : cxx_type) (m : MessageMember) : option TypeInfo :=
  if is_array_ m then
    if bool_decide (array_size_ m = 0%Z) then getTypeInfo (KeyVector t)
    else if negb (is_upper_bound_ m) then getTypeInfo (KeyCArray t)
    else getTypeInfo (KeyVector t)
  else getTypeInfo (KeyValue t).

(* [rtt_ros2_idl/include/orocos/rtt_ros2_idl/RosIntrospectionTypeInfo.hpp:73-96] findTypeInfoByName *)
Definition findTypeInfoByName (name : string) (m : MessageMember) : option TypeInfo :=
  if is_array_ m then
    if bool_decide (array_size_ m = 0%Z) then getTypeInfo (KeyName (name +:+ "[]"))
    else if negb (is_upper_bound_ m) then getTypeInfo (KeyName (name +:+ "[c]"))
    else getTypeInfo (KeyName (name +:+ "[]"))
  else getTypeInfo (KeyName name).

(* [rtt_ros2_idl/include/orocos/rtt_ros2_idl/RosIntrospectionTypeInfo.hpp:98-195] findTypeInfo *)
Definition findTypeInfo (m : MessageMember) : option TypeInfo :=
  match type_id_ m with
  | ROS_TYPE_FLOAT => findTypeInfoByValueType T_float m
  | ROS_TYPE_DOUBLE => findTypeInfoByValueType T_double m
  | ROS_TYPE_LONG_DOUBLE => findTypeInfoByValueType T_long_double m
  | ROS_TYPE_CHAR => findTypeInfoByValueType T_char m
  | ROS_TYPE_WCHAR => findTypeInfoByValueType T_uint16 m
  | ROS_TYPE_BOOLEAN => findTypeInfoByValueType T_bool m
  | ROS_TYPE_OCTET => findTypeInfoByValueType T_unsigned_char m
  | ROS_TYPE_UINT8 => findTypeInfoByValueType T_uint8 m
  | ROS_TYPE_INT8 => findTypeInfoByValueType T_int8 m
  | ROS_TYPE_UINT16 => findTypeInfoByValueType T_uint16 m
  | ROS_TYPE_INT16 => findTypeInfoByValueType T_int16 m
  | ROS_TYPE_UINT32 => findTypeInfoByValueType T_uint32 m
  | ROS_TYPE_INT32 => findTypeInfoByValueType T_int32 m
  | ROS_TYPE_UINT64 => findTypeInfoByValueType T_uint64 m
  | ROS_TYPE_INT64 => findTypeInfoByValueType T_int64 m
  | ROS_TYPE_STRING => findTypeInfoByValueType T_string m
  | ROS_TYPE_WSTRING => findTypeInfoByValueType T_u16string m
  | ROS_TYPE_MESSAGE =>
      match nested_ m with
      | Some (message_namespace, message_name) =>
          findTypeInfoByName ("/" +:+ replace_separator message_namespace +:+ "/" +:+ message_name) m
      | None => None
      end
  | RosTypeOther _ => None
  end.

(** A data source handed to [getMember]: one that can be assigned, with the
    address of its value; one that can only be read; one of another type. *)
Inductive item :=
| AssignableItem (address : Z)
| ReadOnlyItem
| OtherItem.

(** Where a part points to: into the item, or into the copy that [getMember]
    made of it and that is destroyed when it returns. *)
Inductive part_base := InItem (address : Z) | InDestroyedCopy.

Record part := MkPart {
  part_type : TypeInfo;
  part_base_ : part_base;
  part_offset : Z;
  part_size : Z }.

(** [None] is undefined behaviour: the member past the end is read, or the null
    [adata] of an item of another type is dereferenced. *)
(* [rtt_ros2_idl/include/orocos/rtt_ros2_idl/RosIntrospectionTypeInfo.hpp:278-310] getMember *)
Definition getMember (members : option (list MessageMember)) (i : item) (name : string)
    : option (option part) :=
  match findMessageMember members name with
  | None => Some None
  | Some position =>
      match default [] members !! position with
      | None => None
      | Some m =>
          match findTypeInfo m with
          | None => Some None
          | Some ti =>
              match i with
              | AssignableItem address =>
                  Some (Some (MkPart ti (InItem address) (offset_ m) (smod 32 (array_size_ m))))
              | ReadOnlyItem =>
                  Some (Some (MkPart ti InDestroyedCopy (offset_ m) (smod 32 (array_size_ m))))
              | OtherItem => None
              end
          end
      end
  end.

(* [rtt_ros2_idl/include/orocos/rtt_ros2_idl/RosIntrospectionTypeInfo.hpp:243-254] getMemberNames *)
Definition getMemberNames (members : option (list MessageMember)) : list string :=
  match members with
  | None => []
  | Some members => name_ <$> members
  end.

(* [rtt_ros2_idl/include/orocos/rtt_ros2_idl/RosIntrospectionTypeInfo.hpp:263-268] getMember *)
Definition getMember_by_id (i : item) : option part := None.

(* [rtt_ros2_idl/include/orocos/rtt_ros2_idl/RosIntrospectionTypeInfo.hpp:312-315] resize *)
Definition resize (i : item) (size : Z) : bool := false.

(** Whether the type installs a member factory. *)
(* [rtt_ros2_idl/include/orocos/rtt_ros2_idl/RosIntrospectionTypeInfo.hpp:226-241] installTypeInfoObject *)
Definition installs_member_factory (members : option (list MessageMember)) : bool :=
  bool_decide (is_Some members).

(** ** Theorems *)

(** The key a member's type is looked up by, as the message definition has it. *)
Definition array_key (value vector carray : type_key) (m : MessageMember) : type_key :=
  if is_array_ m then
    if bool_decide (array_size_ m <> 0%Z /\ is_upper_bound_ m = false) then carray else vector
  else value.

Lemma findTypeInfoByValueType_key t m :
  findTypeInfoByValueType t m = getTypeInfo (array_key (KeyValue t) (KeyVector t) (KeyCArray t) m).
Proof.
  unfold findTypeInfoByValueType, array_key. destruct (is_array_ m); [|done].
  destruct (decide (array_size_ m = 0%Z)) as [E|E];
    [rewrite (bool_decide_true _ E)|rewrite (bool_decide_false _ E)].
  - rewrite bool_decide_false; [done|]. by intros [? _].
  - destruct (is_upper_bound_ m); simpl.
    + rewrite bool_decide_false; [done|]. by intros [_ ?].
    + by rewrite bool_decide_true.
Qed.

Lemma findTypeInfoByName_key n m :
  findTypeInfoByName n m =
    getTypeInfo (array_key (KeyName n) (KeyName (n +:+ "[]")) (KeyName (n +:+ "[c]")) m).
Proof.
  unfold findTypeInfoByName, array_key. destruct (is_array_ m); [|done].
  destruct (decide (array_size_ m = 0%Z)) as [E|E];
    [rewrite (bool_decide_true _ E)|rewrite (bool_decide_false _ E)].
  - rewrite bool_decide_false; [done|]. by intros [? _].
  - destruct (is_upper_bound_ m); simpl.
    + rewrite bool_decide_false; [done|]. by intros [_ ?].
    + by rewrite bool_decide_true.
Qed.

Lemma list_find_first (members : list MessageMember) name :
  match list_find (fun m => name_ m = name) members with
  | Some (i, m) => members !! i = Some m /\ name_ m = name /\
                   (forall j m', j < i -> members !! j = Some m' -> name_ m' <> name)
  | None => name ∉ name_ <$> members
  end.
Proof.
  destruct (list_find _ members) as [[i m]|] eqn:E.
  - apply list_find_Some in E as (Hi & Hn & Hj). split; [done|]. split; [done|].
    intros j m' Hlt Hm'. by eapply Hj.
  - apply list_find_None in E. rewrite list_elem_of_fmap. intros (m & Hn & Hin).
    rewrite Forall_forall in E. by destruct (E m Hin).
Qed.

(** C33 -- Member access by name: every name that getMemberNames lists leads to the first member of that name, and for an assignable message of a known member type to a part of exactly that member (its offset, its array size, the type info its definition selects). For a name the message does not have, the documented null result is not returned: the search yields the position past the end of the table, which is read. And for a message that can only be read the part that is returned refers to a copy that no longer exists. *)
Theorem member_access (members : list MessageMember) (name : string) (address : Z) :
  (name ∈ getMemberNames (Some members) ->
   exists i m, findMessageMember (Some members) name = Some i /\ members !! i = Some m /\ name_ m = name /\
     (forall j m', j < i -> members !! j = Some m' -> name_ m' <> name) /\
     match findTypeInfo m with
     | None => forall it, getMember (Some members) it name = Some None
     | Some ti =>
         getMember (Some members) (AssignableItem address) name =
           Some (Some (MkPart ti (InItem address) (offset_ m) (smod 32 (array_size_ m)))) /\
         getMember (Some members) ReadOnlyItem name =
           Some (Some (MkPart ti InDestroyedCopy (offset_ m) (smod 32 (array_size_ m))))
     end) /\
  (name ∉ getMemberNames (Some members) ->
   findMessageMember (Some members) name = Some (length members) /\
   forall it, getMember (Some members) it name = None) /\
  getMember None (AssignableItem address) name = Some None.
Proof.
  pose proof (list_find_first members name) as Hf. unfold getMember. cbn.
  destruct (list_find (fun m => name_ m = name) members) as [[i m]|] eqn:E; split_and!; try done.
  - intros _. destruct Hf as (Hi & Hn & Hj). exists i, m. split_and!; try done.
    rewrite Hi. by destruct (findTypeInfo m).
  - destruct Hf as (Hi & Hn & _). intros Hnot. destruct Hnot. rewrite <- Hn.
    apply list_elem_of_fmap_2. by eapply list_elem_of_lookup_2.
  - intros _. split; [done|]. intros it. by rewrite lookup_ge_None_2.
Qed.

(** The type of a member is looked up under the C++ type of its field (wide characters as 16 bit numbers) or, for a nested message, under the slash-separated ROS name of the message type; dynamic and bounded arrays as vectors, arrays of fixed size as C arrays; fields of unknown kind have no type. *)
Theorem member_type_lookup (m : MessageMember) (ns msg : string) :
  (type_id_ m = ROS_TYPE_MESSAGE -> nested_ m = Some (ns, msg) ->
   let n := "/" +:+ replace_separator ns +:+ "/" +:+ msg in
   findTypeInfo m = getTypeInfo (array_key (KeyName n) (KeyName (n +:+ "[]")) (KeyName (n +:+ "[c]")) m)) /\
  (type_id_ m = ROS_TYPE_MESSAGE -> nested_ m = None -> findTypeInfo m = None) /\
  (forall id, type_id_ m = RosTypeOther id -> findTypeInfo m = None) /\
  (type_id_ m <> ROS_TYPE_MESSAGE -> (forall id, type_id_ m <> RosTypeOther id) ->
   exists t, findTypeInfo m = getTypeInfo (array_key (KeyValue t) (KeyVector t) (KeyCArray t) m) /\
     (type_id_ m = ROS_TYPE_WCHAR -> t = T_uint16)).
Proof.
  unfold findTypeInfo. destruct (type_id_ m) eqn:E; split_and!; try done;
    try (intros _ Hid; by destruct (Hid id));
    try (intros; eexists; split; [apply findTypeInfoByValueType_key|congruence]).
  - intros _ ->. apply findTypeInfoByName_key.
  - by intros _ ->.
Qed.
End Introspection.

(** ** Witnesses: a message with a header and a bounded array *)
Module Witnesses.
Definition joint_state : list MessageMember :=
  [MkMember "header" ROS_TYPE_MESSAGE (Some ("std_msgs::msg", "Header")) false 0 false 0;
   MkMember "position" ROS_TYPE_DOUBLE None true 6 true 40].
Definition typekit (k : type_key) : option string :=
  match k with
  | KeyName n => if decide (n = "/std_msgs/msg/Header") then Some n else None
  | KeyVector T_double => Some "array"
  | _ => None
  end.

Lemma member_access_witness :
  getMember typekit (Some joint_state) (AssignableItem 1000) "velocity" = None /\
  exists i m, findMessageMember (Some joint_state) "position" = Some i /\ joint_state !! i = Some m /\ offset_ m = 40%Z.
Proof.
  destruct (member_access typekit joint_state "velocity" 1000) as (_ & Hnot & _).
  destruct (member_access typekit joint_state "position" 1000) as (Hin & _ & _).
  split.
  - refine (proj2 (Hnot _) _). vm_compute. intros H.
    apply elem_of_cons in H as [H|H]; [discriminate H|]. apply list_elem_of_singleton in H. discriminate H.
  - destruct Hin as (i & m & Hf & Hm & Hn & _); [right; left|]. exists i, m. split; [exact Hf|].
    split; [exact Hm|]. vm_compute in Hf. injection Hf as <-. vm_compute in Hm. injection Hm as <-. reflexivity.
Defined.

Lemma member_type_lookup_witness :
  findTypeInfo typekit (MkMember "header" ROS_TYPE_MESSAGE (Some ("std_msgs::msg", "Header")) false 0 false 0) =
    Some "/std_msgs/msg/Header".
Proof.
  rewrite (proj1 (member_type_lookup typekit
    (MkMember "header" ROS_TYPE_MESSAGE (Some ("std_msgs::msg", "Header")) false 0 false 0)
    "std_msgs::msg" "Header") eq_refl eq_refl).
  vm_compute. reflexivity.
Defined.
End Witnesses.
