(* ===== verification/KdlProperties.v ===== *)
(** Package [kdl_typekit]: conversion of KDL values to and from RTT property bags
    ([src/typekits/kdl_typekit/src/motionproperties.cpp],
    [src/typekits/kdl_typekit/src/kinfamproperties.cpp]), and package [kdl_msgs]:
    conversion to and from ROS messages ([include/kdl_msgs/conversions.hpp]).

    A property bag is its type and its properties in the order of insertion; names
    may repeat, and looking a name up finds the first. [D] is [double]. KDL's own
    functions are operations of two classes: the conversions between rotations and
    angles, and joints and segments. The package is built with
    [ROTATION_PROPERTIES_RPY] ([CMakeLists.txt:11]): rotations are decomposed into roll,
    pitch and yaw; bags with Euler angles or with the nine numbers of the matrix are
    still composed. *)

From S2P Require Import Prelude.
From stdpp Require Import pretty.
Local Open Scope string_scope.
Local Open Scope list_scope.

(** ** Property bags *)
Section Bags.
Context {D : Type}.

#[warnings="-register-all"]
Inductive property :=
| PDouble (d : D)
| PInt (n : Z)
| PString (s : string)
| PBag (ty : string) (items : list (string * property)).

Record bag := MkBag { getType : string; items : list (string * property) }.

Definition empty_bag : bag := MkBag "" [].
Definition setType (ty : string) (b : bag) : bag := MkBag ty (items b).
(** [ownProperty] and [add] append. *)
Definition add_prop (name : string) (p : property) (b : bag) : bag :=
  MkBag (getType b) (items b ++ [(name, p)]).
Definition PSub (b : bag) : property := PBag (getType b) (items b).

(** [bag.find(name)] *)
Definition find_prop (name : string) (b : bag) : option property :=
  snd <$> (snd <$> list_find (fun e : string * property => e.1 = name) (items b)).

(** The casts of the property that was found. *)
Definition get_double (name : string) (b : bag) : option D :=
  match find_prop name b with Some (PDouble d) => Some d | _ => None end.
Definition get_string (name : string) (b : bag) : option string :=
  match find_prop name b with Some (PString s) => Some s | _ => None end.
Definition get_bag (name : string) (b : bag) : option bag :=
  match find_prop name b with Some (PBag ty l) => Some (MkBag ty l) | _ => None end.

Lemma find_prop_first name p b : find_prop name (MkBag (getType b) ((name, p) :: items b)) = Some p.
Proof. unfold find_prop. cbn. by rewrite decide_True. Qed.

Lemma find_prop_app_l name b l : is_Some (find_prop name b) ->
  find_prop name (MkBag (getType b) (items b ++ l)) = find_prop name b.
Proof.
  unfold find_prop. cbn. intros [p Hp].
  destruct (list_find _ (items b)) as [[i e]|] eqn:E; [|done].
  by rewrite (list_find_app_l _ _ _ _ _ E).
Qed.
End Bags.
Arguments property : clear implicits.
Arguments bag : clear implicits.

(** ** Geometric types *)
Section Types.
Context {D : Type}.

Record Vector := MkVector { vx : D; vy : D; vz : D }.
(** [r(i,j)], row by row; the constructor of KDL takes the rows. *)
Record Rotation := MkRotation {
  r00 : D; r01 : D; r02 : D;
  r10 : D; r11 : D; r12 : D;
  r20 : D; r21 : D; r22 : D }.
Record Twist := MkTwist { vel : Vector; rot : Vector }.
Record Wrench := MkWrench { force : Vector; torque : Vector }.
Record Frame := MkFrame { frame_M : Rotation; frame_p : Vector }.
End Types.

(** [Rotation::RPY], [Rotation::EulerZYX], [GetRPY] and [GetEulerZYX]. *)
Class KdlAngles (D : Type) := {
  RPY : D -> D -> D -> Rotation (D := D);
  EulerZYX : D -> D -> D -> Rotation (D := D);
  GetRPY : Rotation (D := D) -> D * D * D;
  GetEulerZYX : Rotation (D := D) -> D * D * D }.

Inductive JointType := RotX | RotY | RotZ | TransX | TransY | TransZ | NoJoint.

(** Joints and segments: [Joint(Joint::RotX)] and so on; [Segment(joint, frame)], whose
    name and inertia are the defaults of its other arguments. *)
Class KdlSegments (D : Type) := {
  Joint : Type;
  Segment : Type;
  RigidBodyInertia : Type;
  Joint_of : JointType -> Joint;
  getTypeName : Joint -> string;
  Segment_of : Joint -> Frame (D := D) -> Segment;
  getJoint : Segment -> Joint;
  getFrameToTip : Segment -> Frame (D := D);
  getName : Segment -> string;
  getInertia : Segment -> RigidBodyInertia;
  default_name : string;
  default_inertia : RigidBodyInertia;
  (** what a new [Property<Joint>], [Property<Frame>] and [Property<Segment>] hold *)
  default_joint : Joint;
  default_frame : Frame (D := D);
  default_segment : Segment }.

Class KdlSegmentsLaws {D} (KS : KdlSegments D) := {
  getJoint_of j f : getJoint (Segment_of j f) = j;
  getName_of j f : getName (Segment_of j f) = default_name;
  getInertia_of j f : getInertia (Segment_of j f) = default_inertia }.

Section Kdl.
Context {D : Type} {KA : KdlAngles D}.
Abbreviation Vector := (Vector (D := D)).
Abbreviation Rotation := (Rotation (D := D)).
Abbreviation Twist := (Twist (D := D)).
Abbreviation Wrench := (Wrench (D := D)).
Abbreviation Frame := (Frame (D := D)).

(** *** Vectors *)
(* [typekits/kdl_typekit/src/motionproperties.cpp:91-100] VectorDecomposer *)
Definition VectorDecomposer (v : Vector) : bag D :=
  add_prop "Z" (PDouble (vz v)) (add_prop "Y" (PDouble (vy v)) (add_prop "X" (PDouble (vx v))
    (MkBag "KDL.Vector" []))).

(** The value and whether [res] was set; [res] is returned as it is left. *)
(* [typekits/kdl_typekit/src/motionproperties.cpp:102-126] VectorComposer *)
Definition VectorComposer (b : bag D) (res : Vector) : bool * Vector :=
  if bool_decide (getType b = "MotCon::Vector") || bool_decide (getType b = "KDL.Vector") then
    match get_double "X" b, get_double "Y" b, get_double "Z" b with
    | Some x, Some y, Some z => (true, MkVector x y z)
    | _, _, _ => (false, res)
    end
  else (false, res).

(* [typekits/kdl_typekit/src/motionproperties.cpp:370-375] decomposeProperty *)
Definition decompose_Vector (v : Vector) (targetbag : bag D) : bag D := VectorDecomposer v.
(* [typekits/kdl_typekit/src/motionproperties.cpp:377-381] composeProperty *)
Definition compose_Vector (b : bag D) (v : Vector) : bool * Vector := VectorComposer b v.

(** *** Rotations *)
Definition is_rotation (b : bag D) : bool :=
  bool_decide (getType b = "KDL.Rotation") || bool_decide (getType b = "MotCon::Rotation").

(* [typekits/kdl_typekit/src/motionproperties.cpp:173-194] RotationDecomposer *)
Definition RotationDecomposer (r : Rotation) : bag D :=
  MkBag "KDL.Rotation"
    [("X_x", PDouble (r00 r)); ("X_y", PDouble (r10 r)); ("X_z", PDouble (r20 r));
     ("Y_x", PDouble (r01 r)); ("Y_y", PDouble (r11 r)); ("Y_z", PDouble (r21 r));
     ("Z_x", PDouble (r02 r)); ("Z_y", PDouble (r12 r)); ("Z_z", PDouble (r22 r))].

(* [typekits/kdl_typekit/src/motionproperties.cpp:196-224] RotationComposer *)
Definition RotationComposer (b : bag D) (res : Rotation) : bool * Rotation :=
  if is_rotation b then
    match get_double "X_x" b, get_double "X_y" b, get_double "X_z" b,
          get_double "Y_x" b, get_double "Y_y" b, get_double "Y_z" b,
          get_double "Z_x" b, get_double "Z_y" b, get_double "Z_z" b with
    | Some X_x, Some X_y, Some X_z, Some Y_x, Some Y_y, Some Y_z, Some Z_x, Some Z_y, Some Z_z =>
        (true, MkRotation X_x Y_x Z_x X_y Y_y Z_y X_z Y_z Z_z)
    | _, _, _, _, _, _, _, _, _ => (false, res)
    end
  else (false, res).

(** A name and, if it is not there, the deprecated one. *)
Definition get_double_or (name old : string) (b : bag D) : option D :=
  match get_double name b with Some d => Some d | None => get_double old b end.

(* [typekits/kdl_typekit/src/motionproperties.cpp:271-300] EulerZYXComposer *)
Definition EulerZYXComposer (b : bag D) (res : Rotation) : bool * Rotation :=
  if is_rotation b then
    match get_double_or "alpha" "Z" b, get_double_or "beta" "Y" b, get_double_or "gamma" "X" b with
    | Some a, Some bt, Some g => (true, EulerZYX a bt g)
    | _, _, _ => (false, res)
    end
  else (false, res).

(* [typekits/kdl_typekit/src/motionproperties.cpp:346-367] RPYComposer *)
Definition RPYComposer (b : bag D) (res : Rotation) : bool * Rotation :=
  if is_rotation b then
    match get_double "R" b, get_double "P" b, get_double "Y" b with
    | Some r, Some p, Some y => (true, RPY r p y)
    | _, _, _ => (false, res)
    end
  else (false, res).

(* [typekits/kdl_typekit/src/motionproperties.cpp:259-269] EulerZYXDecomposer *)
Definition EulerZYXDecomposer (r : Rotation) : bag D :=
  let '(a, b, g) := GetEulerZYX r in
  MkBag "KDL.Rotation" [("alpha", PDouble a); ("beta", PDouble b); ("gamma", PDouble g)].
(* [typekits/kdl_typekit/src/motionproperties.cpp:334-344] RPYDecomposer *)
Definition RPYDecomposer (r : Rotation) : bag D :=
  let '(roll, p, y) := GetRPY r in
  MkBag "KDL.Rotation" [("R", PDouble roll); ("P", PDouble p); ("Y", PDouble y)].

(** [ROTATION_PROPERTIES_RPY] is defined. *)
(* [typekits/kdl_typekit/src/motionproperties.cpp:383-396] decomposeProperty *)
Definition decompose_Rotation (r : Rotation) (targetbag : bag D) : bag D := RPYDecomposer r.

(** [a.getResult(r) || b.getResult(r)] *)
Definition or_compose (a b : Rotation -> bool * Rotation) (r : Rotation) : bool * Rotation :=
  let '(ok, r) := a r in if ok : bool then (true, r) else b r.

(* [typekits/kdl_typekit/src/motionproperties.cpp:398-413] composeProperty *)
Definition compose_Rotation (b : bag D) (r : Rotation) : bool * Rotation :=
  or_compose (RPYComposer b) (or_compose (EulerZYXComposer b) (RotationComposer b)) r.

(** *** Twists and wrenches *)
(* [typekits/kdl_typekit/src/motionproperties.cpp:415-424] decomposeProperty *)
Definition decompose_Twist (t : Twist) (targetbag : bag D) : bag D :=
  add_prop "rot" (PSub (VectorDecomposer (rot t)))
    (add_prop "vel" (PSub (VectorDecomposer (vel t))) (setType "KDL.Twist" targetbag)).

(* [typekits/kdl_typekit/src/motionproperties.cpp:426-457] composeProperty *)
Definition compose_Twist (b : bag D) (t : Twist) : bool * Twist :=
  if bool_decide (getType b = "KDL.Twist") || bool_decide (getType b = "MotCon::Twist") then
    match get_bag "vel" b, get_bag "rot" b with
    | Some vel_bag, Some rot_bag =>
        let '(ok, v) := VectorComposer vel_bag (vel t) in
        if ok : bool then
          let '(ok, r) := VectorComposer rot_bag (rot t) in (ok, MkTwist v r)
        else (false, MkTwist v (rot t))
    | _, _ => (false, t)
    end
  else (false, t).

(* [typekits/kdl_typekit/src/motionproperties.cpp:459-469] decomposeProperty *)
Definition decompose_Wrench (w : Wrench) (targetbag : bag D) : bag D :=
  add_prop "torque" (PSub (VectorDecomposer (torque w)))
    (add_prop "force" (PSub (VectorDecomposer (force w))) (setType "KDL.Wrench" targetbag)).

(* [typekits/kdl_typekit/src/motionproperties.cpp:471-503] composeProperty *)
Definition compose_Wrench (b : bag D) (w : Wrench) : bool * Wrench :=
  if bool_decide (getType b = "KDL.Wrench") || bool_decide (getType b = "Motcon::Wrench") then
    match get_bag "force" b, get_bag "torque" b with
    | Some force_bag, Some torque_bag =>
        let '(ok, f) := VectorComposer force_bag (force w) in
        if ok : bool then
          let '(ok, t) := VectorComposer torque_bag (torque w) in (ok, MkWrench f t)
        else (false, MkWrench f (torque w))
    | _, _ => (false, w)
    end
  else (false, w).

(** *** Frames *)
(* [typekits/kdl_typekit/src/motionproperties.cpp:505-523] decomposeProperty *)
Definition decompose_Frame (f : Frame) (targetbag : bag D) : bag D :=
  add_prop "M" (PSub (RPYDecomposer (frame_M f)))
    (add_prop "p" (PSub (VectorDecomposer (frame_p f))) (setType "KDL.Frame" targetbag)).

(* [typekits/kdl_typekit/src/motionproperties.cpp:525-576] composeProperty *)
Definition compose_Frame (f_bag : bag D) (f : Frame) : bool * Frame :=
  if bool_decide (getType f_bag = "KDL.Frame") || bool_decide (getType f_bag = "MotCon::Frame") then
    match get_bag "p" f_bag, get_bag "M" f_bag with
    | Some p_bag, Some M_bag =>
        let '(ok, p) := VectorComposer p_bag (frame_p f) in
        if ok : bool then
          let '(ok, M) := or_compose (RPYComposer M_bag)
                            (or_compose (EulerZYXComposer M_bag) (RotationComposer M_bag)) (frame_M f) in
          (ok, MkFrame M p)
        else (false, MkFrame (frame_M f) p)
    | _, _ => (false, f)
    end
  else (false, f).

(** *** Joints, segments and chains *)
Context {KS : KdlSegments D}.

(** A chain is the list of its segments. *)
Definition Chain : Type := list Segment.

(* [typekits/kdl_typekit/src/kinfamproperties.cpp:51-55] decomposeProperty *)
Definition decompose_Joint (joint : Joint) (targetbag : bag D) : bag D :=
  add_prop "Type" (PString (getTypeName joint)) (setType "KDL.Joint" targetbag).

Definition joint_names : list (string * JointType) :=
  [("RotX", RotX); ("RotY", RotY); ("RotZ", RotZ); ("TransX", TransX); ("TransY", TransY);
   ("TransZ", TransZ); ("None", NoJoint)].

(* [typekits/kdl_typekit/src/kinfamproperties.cpp:57-89] composeProperty *)
Definition compose_Joint (b : bag D) (joint : Joint) : bool * Joint :=
  if bool_decide (getType b = "KDL.Joint") then
    match get_string "Type" b with
    | None => (false, joint)
    | Some type_name =>
        match list_find (fun e : string * JointType => e.1 = type_name) joint_names with
        | Some (_, (_, ty)) => (true, Joint_of ty)
        | None => (false, joint)
        end
    end
  else (false, joint).

(* [typekits/kdl_typekit/src/kinfamproperties.cpp:91-100] decomposeProperty *)
Definition decompose_Segment (segment : Segment) (targetbag : bag D) : bag D :=
  let targetbag := setType "KDL.Segment" targetbag in
  let targetbag := add_prop "joint" (PSub (decompose_Joint (getJoint segment) empty_bag)) targetbag in
  add_prop "frame" (PSub (decompose_Frame (getFrameToTip segment) empty_bag)) targetbag.

(** The results of the two inner compositions are ignored: a part that cannot be
    composed stays at its default. *)
(* [typekits/kdl_typekit/src/kinfamproperties.cpp:102-120] composeProperty *)
Definition compose_Segment (b : bag D) (segment : Segment) : bool * Segment :=
  if bool_decide (getType b = "KDL.Segment") then
    match get_bag "joint" b, get_bag "frame" b with
    | Some joint_bag, Some frame_bag =>
        let '(_, joint) := compose_Joint joint_bag default_joint in
        let '(_, frame) := compose_Frame frame_bag default_frame in
        (true, Segment_of joint frame)
    | _, _ => (false, segment)
    end
  else (false, segment).

(** The loop of [decomposeProperty]: [segment_bag] is declared outside of it. *)
Fixpoint decompose_segments (chain : Chain) (segment_bag targetbag : bag D) : bag D :=
  match chain with
  | [] => targetbag
  | s :: chain =>
      let segment_bag := decompose_Segment s segment_bag in
      decompose_segments chain segment_bag (add_prop "Segment" (PSub segment_bag) targetbag)
  end.

(* [typekits/kdl_typekit/src/kinfamproperties.cpp:122-130] decomposeProperty *)
Definition decompose_Chain (chain : Chain) (targetbag : bag D) : bag D :=
  decompose_segments chain empty_bag (setType "KDL.Chain" targetbag).

(** A property that is not a bag cannot be composed and leaves the default. *)
Fixpoint compose_segments (l : list (string * property D)) (chain_new : Chain) : Chain :=
  match l with
  | [] => chain_new
  | (_, p) :: l =>
      let segment := match p with
                     | PBag ty sub => (compose_Segment (MkBag ty sub) default_segment).2
                     | _ => default_segment
                     end in
      compose_segments l (chain_new ++ [segment])
  end.

(* [typekits/kdl_typekit/src/kinfamproperties.cpp:132-150] composeProperty *)
Definition compose_Chain (b : bag D) (chain : Chain) : bool * Chain :=
  if bool_decide (getType b = "KDL.Chain") then (true, compose_segments (items b) [])
  else (false, chain).

(** *** Arrays of joint values and Jacobians; a matrix is the list of its rows *)
Variable zero : D.

(** [composeType] of an element into a new [Property<double>]. *)
Definition element (p : property D) : D := match p with PDouble d => d | _ => zero end.

(* [typekits/kdl_typekit/src/kinfamproperties.cpp:152-160] decomposeProperty *)
Definition decompose_JntArray (data : list D) (targetbag : bag D) : bag D :=
  let targetbag := setType "KDL.JntArray" targetbag in
  MkBag (getType targetbag)
    (items targetbag ++ imap (fun i d => ("Element" +:+ pretty i, PDouble d)) data).

(* [typekits/kdl_typekit/src/kinfamproperties.cpp:162-178] composeProperty *)
Definition compose_JntArray (b : bag D) (jntarray : list D) : bool * list D :=
  if bool_decide (getType b = "KDL.JntArray") then (true, (fun e => element e.2) <$> items b)
  else (false, jntarray).

(* [typekits/kdl_typekit/src/kinfamproperties.cpp:180-190] decomposeProperty *)
Definition decompose_Jacobian (rows : list (list D)) (targetbag : bag D) : bag D :=
  let targetbag := setType "KDL.Jacobian" targetbag in
  MkBag (getType targetbag)
    (items targetbag ++
     concat (imap (fun i row =>
       imap (fun j d => ("Element (" +:+ pretty i +:+ "," +:+ pretty j +:+ ")", PDouble d)) row) rows)).

(* [typekits/kdl_typekit/src/kinfamproperties.cpp:192-212] composeProperty *)
Definition compose_Jacobian (b : bag D) (rows : list (list D)) : bool * list (list D) :=
  if bool_decide (getType b = "KDL.Jacobian") then
    let columns := length (items b) / 6 in
    (true, (fun i => (fun j =>
              match items b !! (columns * i + j) with Some e => element e.2 | None => zero end)
            <$> seq 0 columns) <$> seq 0 6)
  else (false, rows).

(** ** Messages of [kdl_msgs] *)
Record MsgVector := MkMsgVector { m_x : D; m_y : D; m_z : D }.
(** [data], nine numbers *)
Definition MsgRotation : Type := list D.
Record MsgFrame := MkMsgFrame { m_M : MsgRotation; m_p : MsgVector }.
Record MsgTwist := MkMsgTwist { linear : MsgVector; angular : MsgVector }.
Record MsgWrench := MkMsgWrench { m_force : MsgVector; m_torque : MsgVector }.

(* [typekits/kdl_msgs/include/kdl_msgs/conversions.hpp:35-38] fromMsg *)
Definition fromMsg_Vector (m : MsgVector) : Vector := MkVector (m_x m) (m_y m) (m_z m).
(* [typekits/kdl_msgs/include/kdl_msgs/conversions.hpp:39-50] toMsg *)
Definition toMsg_Vector (v : Vector) : MsgVector := MkMsgVector (vx v) (vy v) (vz v).
(** [None]: the message does not have nine numbers, which its type excludes. *)
(* [typekits/kdl_msgs/include/kdl_msgs/conversions.hpp:53-58] fromMsg *)
Definition fromMsg_Rotation (m : MsgRotation) : option Rotation :=
  match m with
  | [a0; a1; a2; a3; a4; a5; a6; a7; a8] => Some (MkRotation a0 a1 a2 a3 a4 a5 a6 a7 a8)
  | _ => None
  end.
(* [typekits/kdl_msgs/include/kdl_msgs/conversions.hpp:59-68] toMsg *)
Definition toMsg_Rotation (r : Rotation) : MsgRotation :=
  [r00 r; r01 r; r02 r; r10 r; r11 r; r12 r; r20 r; r21 r; r22 r].
(* [typekits/kdl_msgs/include/kdl_msgs/conversions.hpp:71-74] fromMsg *)
Definition fromMsg_Frame (m : MsgFrame) : option Frame :=
  M ← fromMsg_Rotation (m_M m); mret (MkFrame M (fromMsg_Vector (m_p m))).
(* [typekits/kdl_msgs/include/kdl_msgs/conversions.hpp:75-85] toMsg *)
Definition toMsg_Frame (f : Frame) : MsgFrame :=
  MkMsgFrame (toMsg_Rotation (frame_M f)) (toMsg_Vector (frame_p f)).
(* [typekits/kdl_msgs/include/kdl_msgs/conversions.hpp:88-91] fromMsg *)
Definition fromMsg_Twist (m : MsgTwist) : Twist :=
  MkTwist (fromMsg_Vector (linear m)) (fromMsg_Vector (angular m)).
(* [typekits/kdl_msgs/include/kdl_msgs/conversions.hpp:92-102] toMsg *)
Definition toMsg_Twist (t : Twist) : MsgTwist :=
  MkMsgTwist (toMsg_Vector (vel t)) (toMsg_Vector (rot t)).
(* [typekits/kdl_msgs/include/kdl_msgs/conversions.hpp:105-108] fromMsg *)
Definition fromMsg_Wrench (m : MsgWrench) : Wrench :=
  MkWrench (fromMsg_Vector (m_force m)) (fromMsg_Vector (m_torque m)).
(* [typekits/kdl_msgs/include/kdl_msgs/conversions.hpp:109-119] toMsg *)
Definition toMsg_Wrench (w : Wrench) : MsgWrench :=
  MkMsgWrench (toMsg_Vector (force w)) (toMsg_Vector (torque w)).
End Kdl.

(** ** Round trips *)
Section RoundTrips.
Context {D : Type} {KA : KdlAngles D}.
Variable zero : D.

(** What comes back of a rotation that is written as roll, pitch and yaw. *)
Definition rotation_image (r : Rotation (D := D)) : Rotation (D := D) := let '(roll, p, y) := GetRPY r in RPY roll p y.
Definition frame_image (f : Frame (D := D)) : Frame (D := D) := MkFrame (rotation_image (frame_M f)) (frame_p f).

Lemma VectorComposer_decomposed (v v' : Vector (D := D)) : VectorComposer (VectorDecomposer v) v' = (true, v).
Proof. by destruct v. Qed.

Lemma compose_Rotation_decomposed (r r' : Rotation (D := D)) b :
  compose_Rotation (decompose_Rotation r b) r' = (true, rotation_image r).
Proof. unfold decompose_Rotation, RPYDecomposer, rotation_image. by destruct (GetRPY r) as [[]]. Qed.

(** The bag of a frame, with any bag for its rotation. *)
Lemma compose_Frame_of (v : Vector (D := D)) (M_bag : bag D) (f' : Frame (D := D)) :
  compose_Frame (MkBag "KDL.Frame" [("p", PSub (VectorDecomposer v)); ("M", PSub M_bag)]) f' =
    let '(ok, M) := compose_Rotation M_bag (frame_M f') in (ok, MkFrame M v).
Proof. destruct v, M_bag. reflexivity. Qed.

Lemma compose_Frame_decomposed (f f' : Frame (D := D)) :
  compose_Frame (decompose_Frame f empty_bag) f' = (true, frame_image f).
Proof.
  change (decompose_Frame f empty_bag) with
    (MkBag "KDL.Frame" [("p", PSub (VectorDecomposer (frame_p f))); ("M", PSub (RPYDecomposer (frame_M f)))]).
  rewrite compose_Frame_of. fold (decompose_Rotation (frame_M f) empty_bag). by rewrite compose_Rotation_decomposed.
Qed.

(** *** Legacy type names, in a bag and in the bags in it *)

Definition legacy_name (ty : string) : string :=
  if decide (ty = "KDL.Vector") then "MotCon::Vector"
  else if decide (ty = "KDL.Rotation") then "MotCon::Rotation"
  else if decide (ty = "KDL.Twist") then "MotCon::Twist"
  else if decide (ty = "KDL.Wrench") then "MotCon::Wrench"
  else if decide (ty = "KDL.Frame") then "MotCon::Frame"
  else ty.

Fixpoint legacy_property (p : property D) : property D :=
  match p with
  | PBag ty l => PBag (legacy_name ty) (map (fun e => (e.1, legacy_property e.2)) l)
  | p => p
  end.
Definition legacy (b : bag D) : bag D :=
  MkBag (legacy_name (getType b)) (map (fun e => (e.1, legacy_property e.2)) (items b)).

Lemma find_legacy n (b : bag D) : find_prop n (legacy b) = legacy_property <$> find_prop n b.
Proof.
  unfold find_prop, legacy. cbn [items]. induction (items b) as [|[m p] l IH]; [done|].
  cbn [map list_find fst snd]. destruct (decide (m = n)); [done|].
  destruct (list_find _ l) as [[i e]|], (list_find _ (map _ l)) as [[i' e']|]; done.
Qed.

Lemma get_double_legacy n (b : bag D) : get_double n (legacy b) = get_double n b.
Proof. unfold get_double. rewrite find_legacy. by destruct (find_prop n b) as [[]|]. Qed.

Lemma get_bag_legacy n (b : bag D) : get_bag n (legacy b) = legacy <$> get_bag n b.
Proof. unfold get_bag. rewrite find_legacy. by destruct (find_prop n b) as [[]|]. Qed.

(** A type that is accepted under both names is accepted as before. *)
Ltac same_types :=
  cbn [getType legacy]; unfold legacy_name;
  repeat match goal with
         | |- context [decide (?ty = ?n)] => destruct (decide (ty = n)) as [->|_]; [reflexivity|]
         end; reflexivity.

Lemma VectorComposer_legacy (b : bag D) v : VectorComposer (legacy b) v = VectorComposer b v.
Proof.
  unfold VectorComposer. rewrite !get_double_legacy.
  replace (bool_decide (getType (legacy b) = "MotCon::Vector") || bool_decide (getType (legacy b) = "KDL.Vector"))
    with (bool_decide (getType b = "MotCon::Vector") || bool_decide (getType b = "KDL.Vector")) by same_types.
  done.
Qed.

Lemma is_rotation_legacy (b : bag D) : is_rotation (legacy b) = is_rotation b.
Proof. unfold is_rotation. same_types. Qed.

Lemma compose_Rotation_legacy (b : bag D) r : compose_Rotation (legacy b) r = compose_Rotation b r.
Proof.
  unfold compose_Rotation, or_compose, RPYComposer, EulerZYXComposer, RotationComposer, get_double_or.
  by rewrite is_rotation_legacy, !get_double_legacy.
Qed.

Lemma compose_Twist_legacy (b : bag D) t : compose_Twist (legacy b) t = compose_Twist b t.
Proof.
  unfold compose_Twist. rewrite !get_bag_legacy.
  replace (bool_decide (getType (legacy b) = "KDL.Twist") || bool_decide (getType (legacy b) = "MotCon::Twist"))
    with (bool_decide (getType b = "KDL.Twist") || bool_decide (getType b = "MotCon::Twist")) by same_types.
  destruct (get_bag "vel" b), (get_bag "rot" b); cbn; by rewrite ?VectorComposer_legacy.
Qed.

Lemma compose_Frame_legacy (b : bag D) f : compose_Frame (legacy b) f = compose_Frame b f.
Proof.
  unfold compose_Frame. rewrite !get_bag_legacy.
  replace (bool_decide (getType (legacy b) = "KDL.Frame") || bool_decide (getType (legacy b) = "MotCon::Frame"))
    with (bool_decide (getType b = "KDL.Frame") || bool_decide (getType b = "MotCon::Frame")) by same_types.
  destruct (get_bag "p" b) as [bp|], (get_bag "M" b) as [bM|]; cbn [fmap option_fmap option_map]; [|done..].
  rewrite VectorComposer_legacy. destruct (VectorComposer bp (frame_p f)) as [[] v]; [|done].
  pose proof (compose_Rotation_legacy bM (frame_M f)) as H. unfold compose_Rotation in H. by rewrite H.
Qed.

(** C35 -- What comes back of a vector, twist, wrench, rotation or frame that is decomposed into a property bag and composed, whatever the target held before. Vectors, twists and wrenches come back exactly. Rotations, also those of frames, are written as roll, pitch and yaw: what comes back is the rotation KDL makes of the angles it took from the rotation. Bags that hold a rotation as Euler angles or as its nine numbers are still composed, the latter to exactly that matrix, and none of the three formats is mistaken for another. Bags with the legacy type names MotCon::X, on the outside and on the bags in them, are composed like those named KDL.X, whatever they hold, except wrenches: a bag of type MotCon::Wrench is refused, because the code compares with the misspelt name Motcon::Wrench. *)
Theorem geometry_bag_roundtrip (v v' : Vector (D := D)) (r r' : Rotation (D := D)) (t t' : Twist (D := D)) (w w' : Wrench (D := D))
    (f f' : Frame (D := D)) (b : bag D) :
  compose_Vector (decompose_Vector v empty_bag) v' = (true, v) /\
  compose_Twist (decompose_Twist t empty_bag) t' = (true, t) /\
  compose_Wrench (decompose_Wrench w empty_bag) w' = (true, w) /\
  compose_Rotation (decompose_Rotation r empty_bag) r' = (true, rotation_image r) /\
  compose_Frame (decompose_Frame f empty_bag) f' = (true, MkFrame (rotation_image (frame_M f)) (frame_p f)) /\
  compose_Rotation (EulerZYXDecomposer r) r' = (true, let '(a, bt, g) := GetEulerZYX r in EulerZYX a bt g) /\
  compose_Rotation (RotationDecomposer r) r' = (true, r) /\
  compose_Frame (MkBag "KDL.Frame" [("p", PSub (VectorDecomposer (frame_p f)));
                                    ("M", PSub (RotationDecomposer (frame_M f)))]) f' = (true, f) /\
  compose_Vector (legacy b) v' = compose_Vector b v' /\
  compose_Rotation (legacy b) r' = compose_Rotation b r' /\
  compose_Twist (legacy b) t' = compose_Twist b t' /\
  compose_Frame (legacy b) f' = compose_Frame b f' /\
  compose_Wrench (legacy (decompose_Wrench w empty_bag)) w' = (false, w') /\
  compose_Wrench (setType "Motcon::Wrench" (legacy (decompose_Wrench w empty_bag))) w' = (true, w).
Proof.
  split_and!.
  - apply VectorComposer_decomposed.
  - by destruct t as [[] []].
  - by destruct w as [[] []].
  - apply compose_Rotation_decomposed.
  - apply compose_Frame_decomposed.
  - unfold EulerZYXDecomposer. by destruct (GetEulerZYX r) as [[]].
  - by destruct r.
  - rewrite compose_Frame_of. by destruct f as [[] []].
  - apply VectorComposer_legacy.
  - apply compose_Rotation_legacy.
  - apply compose_Twist_legacy.
  - apply compose_Frame_legacy.
  - by destruct w as [[] []].
  - by destruct w as [[] []].
Qed.

(** Converting a KDL vector, rotation, frame, twist or wrench to its ROS message and back gives the same value, and converting a message to KDL and back gives the same message. *)
Theorem message_roundtrip (v : Vector (D := D)) (r : Rotation (D := D)) (f : Frame (D := D)) (t : Twist (D := D)) (w : Wrench (D := D))
    (mv : MsgVector (D := D)) (mr : MsgRotation (D := D)) (mf : MsgFrame (D := D)) (mt : MsgTwist (D := D)) (mw : MsgWrench (D := D)) :
  (fromMsg_Vector (toMsg_Vector v) = v /\ toMsg_Vector (fromMsg_Vector mv) = mv) /\
  (fromMsg_Rotation (toMsg_Rotation r) = Some r /\
   (length mr = 9 -> toMsg_Rotation <$> fromMsg_Rotation mr = Some mr)) /\
  (fromMsg_Frame (toMsg_Frame f) = Some f /\
   (length (m_M mf) = 9 -> toMsg_Frame <$> fromMsg_Frame mf = Some mf)) /\
  (fromMsg_Twist (toMsg_Twist t) = t /\ toMsg_Twist (fromMsg_Twist mt) = mt) /\
  (fromMsg_Wrench (toMsg_Wrench w) = w /\ toMsg_Wrench (fromMsg_Wrench mw) = mw).
Proof.
  assert (forall l : MsgRotation (D := D), length l = 9 -> toMsg_Rotation <$> fromMsg_Rotation l = Some l) as Hrot.
  { intros l Hl. do 9 (destruct l as [|? l]; [discriminate Hl|]). by destruct l. }
  split_and!; try (by destruct v); try (by destruct mv); try (by destruct r); try (by apply Hrot).
  - by destruct f as [[] []].
  - destruct mf as [M [x y z]]. cbn [m_M]. intros Hl. specialize (Hrot M Hl).
    unfold fromMsg_Frame. cbn [m_M m_p]. destruct (fromMsg_Rotation M) as [R|]; [|done].
    cbn in Hrot. injection Hrot as <-. reflexivity.
  - by destruct t as [[] []].
  - by destruct mt as [[] []].
  - by destruct w as [[] []].
  - by destruct mw as [[] []].
Qed.

(** *** Arrays *)
Lemma lookup_concat {A} (l : list (list A)) n i j :
  Forall (fun r => length r = n) l -> j < n ->
  concat l !! (n * i + j) = l !! i ≫= (fun r => r !! j).
Proof.
  intros Hl. revert i. induction Hl as [|r l Hr Hl IH]; intros i Hj; [done|].
  destruct i as [|i]; cbn [concat].
  - rewrite Nat.mul_0_r, Nat.add_0_l, lookup_app_l by lia. done.
  - replace (n * S i + j) with (length r + (n * i + j)) by lia.
    rewrite lookup_app_r by lia. replace (length r + (n * i + j) - length r) with (n * i + j) by lia.
    by apply IH.
Qed.

Lemma length_concat_uniform {A} (l : list (list A)) n :
  Forall (fun r => length r = n) l -> length (concat l) = n * length l.
Proof.
  induction 1 as [|r l Hr Hl IH]; cbn; [lia|]. rewrite length_app, IH. lia.
Qed.

(** A list read back by position. *)
Lemma seq_lookup {A} (l : list A) (g : nat -> A) :
  (forall i x, l !! i = Some x -> g i = x) -> g <$> seq 0 (length l) = l.
Proof.
  intros Hg. apply list_eq. intros i. rewrite list_lookup_fmap.
  destruct (l !! i) as [x|] eqn:Hi.
  - pose proof (lookup_lt_Some _ _ _ Hi). rewrite lookup_seq_lt by done. cbn. by rewrite (Hg i x Hi).
  - apply lookup_ge_None in Hi. by rewrite lookup_seq_ge.
Qed.

(** An array of joint values of any size, and a Jacobian of six rows and any number of columns, that was decomposed into a property bag is composed back to the same values in the same positions. *)
Theorem array_bag_roundtrip (data data' : list D) (rows rows' : list (list D)) (columns : nat) :
  compose_JntArray zero (decompose_JntArray data empty_bag) data' = (true, data) /\
  (length rows = 6 -> Forall (fun r => length r = columns) rows ->
   compose_Jacobian zero (decompose_Jacobian rows empty_bag) rows' = (true, rows)).
Proof.
  split.
  - unfold compose_JntArray, decompose_JntArray. cbn [getType setType items empty_bag app].
    rewrite bool_decide_true by done. f_equal. apply list_eq. intros i.
    rewrite list_lookup_fmap, list_lookup_imap. by destruct (data !! i).
  - intros Hlen Hrows. unfold compose_Jacobian, decompose_Jacobian. cbn [getType setType items empty_bag app].
    rewrite bool_decide_true by done. cbv zeta.
    set (named := imap _ rows).
    assert (Forall (fun r : list (string * property D) => length r = columns) named) as Hnamed.
    { apply Forall_lookup. intros i r. subst named. rewrite list_lookup_imap.
      destruct (rows !! i) as [row|] eqn:Hi; [|done]. cbn. intros [= <-]. rewrite length_imap.
      by eapply Forall_lookup_1 in Hrows. }
    assert (length named = 6) as Hln by (subst named; by rewrite length_imap).
    rewrite (length_concat_uniform _ _ Hnamed), Hln, Nat.div_mul by lia. f_equal.
    rewrite <- Hlen. apply seq_lookup. intros i row Hi.
    assert (length row = columns) as <- by (by eapply Forall_lookup_1 in Hrows).
    apply seq_lookup. intros j d Hj.
    rewrite lookup_concat; [|done|by eapply lookup_lt_Some].
    subst named. rewrite list_lookup_imap, Hi. cbn. rewrite list_lookup_imap, Hj. done.
Qed.

(** *** Chains *)
Context {KS : KdlSegments D} {KL : KdlSegmentsLaws KS}.

(** What comes back of a joint: only its kind is written, and only the seven kinds with
    an axis of the frame, or none, are read. *)
Definition joint_image (j : Joint) : Joint :=
  match list_find (fun e : string * JointType => e.1 = getTypeName j) joint_names with
  | Some (_, (_, ty)) => Joint_of ty
  | None => default_joint
  end.
Definition segment_image (s : Segment) : Segment :=
  Segment_of (joint_image (getJoint s)) (frame_image (getFrameToTip s)).

Lemma compose_Joint_decomposed (j : Joint) :
  (compose_Joint (decompose_Joint j empty_bag) default_joint).2 = joint_image j.
Proof.
  unfold compose_Joint, joint_image.
  change (get_string "Type" (decompose_Joint j empty_bag)) with (Some (getTypeName j)).
  rewrite bool_decide_true by done. by destruct (list_find _ joint_names) as [[i [n ty]]|].
Qed.

(** The first two properties of a segment bag decide what it composes to. *)
Lemma compose_Segment_first (s s' : Segment) rest :
  let b := decompose_Segment s empty_bag in
  compose_Segment (MkBag "KDL.Segment" (items b ++ rest)) s' = (true, segment_image s).
Proof.
  intros b. subst b.
  pose proof (compose_Joint_decomposed (getJoint s)) as HJ.
  pose proof (compose_Frame_decomposed (getFrameToTip s) default_frame) as HF.
  unfold compose_Segment. rewrite bool_decide_true by done.
  change (get_bag "joint" (MkBag "KDL.Segment" (items (decompose_Segment s empty_bag) ++ rest)))
    with (Some (decompose_Joint (getJoint s) empty_bag)).
  change (get_bag "frame" (MkBag "KDL.Segment" (items (decompose_Segment s empty_bag) ++ rest)))
    with (Some (decompose_Frame (getFrameToTip s) empty_bag)).
  cbv iota beta. rewrite HF. destruct (compose_Joint _ default_joint) as [ok j]. cbn in HJ. by rewrite HJ.
Qed.

Lemma decompose_Segment_items (s : Segment) b :
  exists more, decompose_Segment s b = MkBag "KDL.Segment" (items b ++ more).
Proof. eexists. unfold decompose_Segment, add_prop, setType. cbn [items getType]. by rewrite <- app_assoc. Qed.

Lemma compose_segments_snoc l (p : property D) a :
  compose_segments (l ++ [("Segment", p)]) a = compose_segments [("Segment", p)] (compose_segments l a).
Proof. revert a. induction l as [|[n q] l IH]; intros a; [done|]. cbn [app compose_segments]. apply IH. Qed.

Lemma compose_decomposed_segments (s : Segment) chain sb tb acc :
  (exists rest, sb = MkBag "KDL.Segment" (items (decompose_Segment s empty_bag) ++ rest)) ->
  compose_segments (items (decompose_segments chain sb tb)) acc =
  compose_segments (items tb) acc ++ replicate (length chain) (segment_image s).
Proof.
  revert sb tb acc. induction chain as [|x chain IH]; intros sb tb acc [rest ->]; cbn [decompose_segments].
  - by rewrite app_nil_r.
  - destruct (decompose_Segment_items x (MkBag "KDL.Segment"
      (items (decompose_Segment s empty_bag) ++ rest))) as [more Hm].
    rewrite Hm. cbn [items]. rewrite <- app_assoc. rewrite IH; [|exists (rest ++ more); reflexivity].
    unfold add_prop. cbn [items]. rewrite compose_segments_snoc. unfold PSub. cbn [getType items compose_segments].
    rewrite (compose_Segment_first s _ (rest ++ more)). cbn [snd].
    rewrite <- app_assoc. done.
Qed.

Lemma decompose_segments_type c sb tb : getType (decompose_segments c sb tb) = getType tb.
Proof. revert sb tb. induction c as [|x c IH]; intros sb tb; [done|]. cbn [decompose_segments]. by rewrite IH. Qed.

(** C34 -- What comes back of segments and chains that are decomposed into property bags and composed, for every segment. A segment comes back with the default name and inertia of KDL, whatever it had; of its joint only the kind is kept, with a new joint of one of the seven kinds that the code knows, and the default joint for any other kind; the rotation of its frame comes back through roll, pitch and yaw, the position exactly. Of a chain only the number of segments comes back, and the first segment: because the bag of a segment is reused for the next one without being cleared, every segment of the composed chain is a copy of what comes back of the first. *)
Theorem chain_bag_roundtrip_copies_first (s s' : Segment) (chain chain' : Chain) :
  let back := Segment_of (joint_image (getJoint s))
                (MkFrame (rotation_image (frame_M (getFrameToTip s))) (frame_p (getFrameToTip s))) in
  compose_Segment (decompose_Segment s empty_bag) s' = (true, back) /\
  getJoint back = joint_image (getJoint s) /\ getName back = default_name /\ getInertia back = default_inertia /\
  (forall n ty, (n, ty) ∈ joint_names -> getTypeName (getJoint s) = n -> getJoint back = Joint_of ty) /\
  (getTypeName (getJoint s) ∉ joint_names.*1 -> getJoint back = default_joint) /\
  compose_Chain (decompose_Chain (s :: chain) empty_bag) chain' = (true, replicate (S (length chain)) back) /\
  compose_Chain (decompose_Chain [] empty_bag) chain' = (true, []).
Proof.
  intros back. change back with (segment_image s). unfold segment_image. rewrite getJoint_of, getName_of, getInertia_of.
  fold (segment_image s). split_and!; [|done..| | | |done].
  - pose proof (compose_Segment_first s s' []) as H. cbv zeta in H. by rewrite app_nil_r in H.
  - intros n ty Hin Hn. unfold joint_image. rewrite Hn. unfold joint_names in Hin. rewrite !elem_of_cons in Hin.
    repeat (destruct Hin as [[= -> ->]|Hin]; [reflexivity|]). by apply not_elem_of_nil in Hin.
  - intros Hn. unfold joint_image.
    destruct (list_find _ joint_names) as [[i [n ty]]|] eqn:E; [|done].
    apply list_find_Some in E as (Hi & Hk & _). destruct Hn. rewrite <- Hk.
    apply list_elem_of_fmap_2. by eapply list_elem_of_lookup_2.
  - unfold compose_Chain, decompose_Chain. rewrite decompose_segments_type, bool_decide_true by done.
    f_equal. cbn [decompose_segments].
    rewrite (compose_decomposed_segments s); [|exists []; by rewrite app_nil_r].
    unfold add_prop. cbn [items setType empty_bag app compose_segments PSub].
    pose proof (compose_Segment_first s default_segment []) as H.
    cbv zeta in H. rewrite app_nil_r in H. unfold PSub. cbn [items compose_segments].
    change (MkBag (getType (decompose_Segment s empty_bag)) (items (decompose_Segment s empty_bag)))
      with (MkBag "KDL.Segment" (items (decompose_Segment s empty_bag))).
    by rewrite H.
Qed.
End RoundTrips.

(** ** Witnesses: numbers for doubles, kinds for joints *)
Module Witnesses.
#[export] Instance JointType_eq_dec : EqDecision JointType.
Proof. solve_decision. Defined.

(** Angles that do not determine the rotation: three of its numbers. *)
#[export] Instance ref_angles : KdlAngles nat := {|
  RPY a b c := MkRotation a 0 0 0 b 0 0 0 c;
  EulerZYX a b c := MkRotation c 0 0 0 b 0 0 0 a;
  GetRPY r := (r00 r, r11 r, r22 r);
  GetEulerZYX r := (r22 r, r11 r, r00 r) |}.

Definition name_of (j : JointType) : string :=
  match list_find (fun e : string * JointType => e.2 = j) joint_names with
  | Some (_, (n, _)) => n
  | None => ""
  end.
Definition frame1 : Frame (D := nat) := MkFrame (MkRotation 1 0 0 0 1 0 0 0 1) (MkVector 4 5 6).

(** A joint is a kind (none: an axis of its own) with its name, a segment has all four parts. *)
#[export] Instance ref_segments : KdlSegments nat := {|
  Joint := option JointType * string;
  Segment := (option JointType * string) * Frame (D := nat) * string * nat;
  RigidBodyInertia := nat;
  Joint_of ty := (Some ty, "NoName");
  getTypeName j := match j.1 with Some ty => name_of ty | None => "RotAxis" end;
  Segment_of j f := (j, f, "NoName", 0);
  getJoint s := s.1.1.1;
  getFrameToTip s := s.1.1.2;
  getName s := s.1.2;
  getInertia s := s.2;
  default_name := "NoName";
  default_inertia := 0;
  default_joint := (Some NoJoint, "NoName");
  default_frame := frame1;
  default_segment := ((Some NoJoint, "NoName"), frame1, "NoName", 0) |}.

Lemma ref_segments_laws : KdlSegmentsLaws ref_segments.
Proof. by split. Qed.

Definition seg (j : option JointType) (x : nat) : Segment (KdlSegments := ref_segments) :=
  ((j, "joint"), MkFrame (frame_M frame1) (MkVector x 0 0), "link", 7).

Lemma message_roundtrip_witness :
  toMsg_Rotation <$> fromMsg_Rotation [1; 2; 3; 4; 5; 6; 7; 8; 9] = Some [1; 2; 3; 4; 5; 6; 7; 8; 9].
Proof.
  destruct (message_roundtrip (MkVector 1 2 3) (frame_M frame1) frame1
    (MkTwist (MkVector 1 2 3) (MkVector 4 5 6)) (MkWrench (MkVector 1 2 3) (MkVector 4 5 6))
    (MkMsgVector 1 2 3) [1; 2; 3; 4; 5; 6; 7; 8; 9] (toMsg_Frame frame1)
    (MkMsgTwist (MkMsgVector 1 2 3) (MkMsgVector 4 5 6)) (MkMsgWrench (MkMsgVector 1 2 3) (MkMsgVector 4 5 6)))
    as (_ & [_ Hr] & _).
  exact (Hr eq_refl).
Defined.

Lemma array_bag_roundtrip_witness :
  compose_Jacobian 0 (decompose_Jacobian [[1; 2]; [3; 4]; [5; 6]; [7; 8]; [9; 10]; [11; 12]] empty_bag) [] =
    (true, [[1; 2]; [3; 4]; [5; 6]; [7; 8]; [9; 10]; [11; 12]]).
Proof.
  refine (proj2 (array_bag_roundtrip 0 [1; 2] [] [[1; 2]; [3; 4]; [5; 6]; [7; 8]; [9; 10]; [11; 12]] [] 2) _ _);
    [reflexivity|repeat constructor].
Defined.

(** Two different segments come back as two segments without their names and inertia;
    a joint with an axis of its own comes back as none. *)
Lemma chain_bag_roundtrip_copies_first_witness :
  compose_Chain (decompose_Chain [seg (Some RotX) 1; seg (Some TransZ) 2] empty_bag) [] =
    (true, replicate 2 (((Some RotX, "NoName"), MkFrame (frame_M frame1) (MkVector 1 0 0), "NoName", 0)
                        : Segment (KdlSegments := ref_segments))) /\
  compose_Segment (decompose_Segment (seg None 3) empty_bag) (seg None 4) =
    (true, ((Some NoJoint, "NoName"), MkFrame (frame_M frame1) (MkVector 3 0 0), "NoName", 0)).
Proof.
  split.
  - destruct (chain_bag_roundtrip_copies_first (KL := ref_segments_laws) (seg (Some RotX) 1) (seg None 0)
                [seg (Some TransZ) 2] []) as (_ & _ & _ & _ & _ & _ & H & _). exact H.
  - destruct (chain_bag_roundtrip_copies_first (KL := ref_segments_laws) (seg None 3) (seg None 4) [] []) as [H _].
    exact H.
Defined.

(** A rotation that is not what KDL makes of its angles does not come back. *)
Example rotation_changes :
  let r : Rotation (D := nat) := MkRotation 1 2 3 4 5 6 7 8 9 in
  compose_Rotation (decompose_Rotation r empty_bag) r = (true, MkRotation 1 0 0 0 5 0 0 0 9).
Proof. reflexivity. Qed.
End Witnesses.
