(* ===== verification/KdlTransports.v ===== *)
(** Package [kdl_typekit], transports: KDL values as CORBA sequences of doubles
    ([include/.../transports/corba/CorbaKDLConversion.hpp]) and in boost archives for
    message queues ([src/mqueue/kdl_mqueue.cpp]).

    A template specialised for a type is a class with instances. An Eigen matrix of
    dynamic size is its dimensions and its memory, column by column. Reading or writing
    outside of a buffer, assigning a matrix to one whose fixed dimensions differ and
    casting a number to a type that cannot hold it are undefined: [None] in the CORBA
    part, [Undefined] in the message queue part. Allocation succeeds. *)

From Stdlib Require Import Lia SpecFloat.
From Stdlib Require Init.Byte.
From coqutil Require Word.LittleEndianList Byte.
From S2P Require Import Prelude Float64 KdlProperties.
Local Open Scope string_scope.
Local Open Scope list_scope.
Local Open Scope Z_scope.

(** ** Values *)

Section Values.
Context {D : Type}.

Record Matrix := MkMatrix { rows : Z; cols : Z; data : list D }.

(** The shape of every matrix object: [r] rows and [c] columns where these are fixed. *)
Definition shaped (r c : option Z) (m : Matrix) : Prop :=
  0 <= rows m /\ 0 <= cols m /\ Z.of_nat (length (data m)) = rows m * cols m /\
  (forall n, r = Some n -> rows m = n) /\ (forall n, c = Some n -> cols m = n).

(** [Rotation::data], [Vector::data] *)
Definition Vector_data (v : Vector (D := D)) : list D := [vx v; vy v; vz v].
Definition set_Vector_data (l : list D) (v : Vector (D := D)) : Vector :=
  match l with [x; y; z] => MkVector x y z | _ => v end.
Definition Rotation_data (r : Rotation (D := D)) : list D :=
  [r00 r; r01 r; r02 r; r10 r; r11 r; r12 r; r20 r; r21 r; r22 r].
Definition set_Rotation_data (l : list D) (r : Rotation (D := D)) : Rotation :=
  match l with
  | [a; b; c; d; e; f; g; h; i] => MkRotation a b c d e f g h i
  | _ => r
  end.

(** Arguments of a fixed-size read that succeeded. *)
Lemma set_Vector_data_id (v v' : Vector) : set_Vector_data (Vector_data v) v' = v.
Proof. by destruct v. Qed.
Lemma set_Rotation_data_id (r r' : Rotation) : set_Rotation_data (Rotation_data r) r' = r.
Proof. by destruct r. Qed.
End Values.
Arguments Matrix : clear implicits.

(** ** CORBA *)

Module Corba.

Abbreviation double := spec_float.
(** [KDL::Corba::DoubleSequence], with [operator[]] unchecked. *)
Abbreviation DoubleSequence := (list double).

(** [CORBA::Any]: [<<=] replaces what it holds, [>>=] finds it if its type fits. *)
Class CorbaAny := {
  Any : Type;
  new_any : Any;
  insert : DoubleSequence -> Any -> Any;
  extract : Any -> option DoubleSequence }.
Class CorbaAnyLaws (CA : CorbaAny) := {
  extract_insert s a : extract (insert s a) = Some s;
  extract_new : extract new_any = None }.

(** [length(n)]: new elements are zero. *)
Definition set_length (n : Z) (cb : DoubleSequence) : DoubleSequence :=
  take (Z.to_nat n) cb ++ replicate (Z.to_nat n - length cb) (of_int 0).
(** [cb[i] = x], and the assignment of [l] to a map of the buffer from [i] on. *)
Definition set_at (i : nat) (x : double) (cb : DoubleSequence) : option DoubleSequence :=
  if decide (i < length cb)%nat then Some (<[i := x]> cb) else None.
Definition write_map (i : nat) (l : list double) (cb : DoubleSequence) : option DoubleSequence :=
  if decide (i + length l <= length cb)%nat
  then Some (take i cb ++ l ++ drop (i + length l) cb) else None.
(** A matrix mapped on the buffer from [i] on. *)
Definition read_map (i : nat) (r c : Z) (cb : DoubleSequence) : option (Matrix double) :=
  if decide (Z.of_nat i + r * c <= Z.of_nat (length cb))
  then Some (MkMatrix r c (take (Z.to_nat (r * c)) (drop i cb))) else None.

Section Conversions.
Context `{CA : CorbaAny}.

(** The template [AnyConversion<T>]. *)
Class AnyConversion (T : Type) := {
  toAny : T -> option DoubleSequence;
  updateAny : T -> Any -> option (bool * Any);
  update : Any -> T -> option (bool * T);
  createAny : T -> option Any;
  toCorbaType : DoubleSequence -> T -> option (bool * DoubleSequence);
  toStdType : T -> DoubleSequence -> option (bool * T) }.

(** The members written in the same way in every specialisation; [toAny] and
    [toCorbaType] are defined by one another, in the one or the other direction. *)
Definition conversion {T} (any : T -> option DoubleSequence)
    (corba : DoubleSequence -> T -> option (bool * DoubleSequence))
    (std : T -> DoubleSequence -> option (bool * T)) : AnyConversion T := {|
  toAny := any;
  updateAny t a := s ← any t; Some (true, insert s a);
  update a _value :=
    match extract a with
    | Some result => std _value result
    | None => Some (false, _value)
    end;
  createAny t := s ← any t; Some (insert s new_any);
  toCorbaType := corba;
  toStdType := std |}.
Definition by_toAny {T} (any : T -> option DoubleSequence) (std : T -> DoubleSequence -> option (bool * T)) :=
  conversion any (fun cb tp => s ← any tp; Some (true, s)) std.
Definition by_toCorbaType {T} (corba : DoubleSequence -> T -> option (bool * DoubleSequence))
    (std : T -> DoubleSequence -> option (bool * T)) :=
  conversion (fun tp => snd <$> corba [] tp) corba std.

(* [typekits/kdl_typekit/include/orocos/kdl_typekit/transports/corba/CorbaKDLConversion.hpp:15-64] AnyConversion *)
Definition AnyConversion_Vector : AnyConversion (Vector (D := double)) := by_toAny
  (fun orig => Some [vx orig; vy orig; vz orig])
  (fun tp cb => x ← cb !! 0%nat; y ← cb !! 1%nat; z ← cb !! 2%nat; Some (true, MkVector x y z)).

(* [typekits/kdl_typekit/include/orocos/kdl_typekit/transports/corba/CorbaKDLConversion.hpp:66-118] AnyConversion *)
Definition AnyConversion_Rotation : AnyConversion (Rotation (D := double)) := by_toAny
  (fun orig => Some [r00 orig; r01 orig; r02 orig; r10 orig; r11 orig; r12 orig; r20 orig; r21 orig; r22 orig])
  (fun tp cb =>
     a ← cb !! 0%nat; b ← cb !! 1%nat; c ← cb !! 2%nat;
     d ← cb !! 3%nat; e ← cb !! 4%nat; f ← cb !! 5%nat;
     g ← cb !! 6%nat; h ← cb !! 7%nat; i ← cb !! 8%nat;
     Some (true, MkRotation a b c d e f g h i)).

(* [typekits/kdl_typekit/include/orocos/kdl_typekit/transports/corba/CorbaKDLConversion.hpp:120-185] AnyConversion *)
Definition AnyConversion_Frame : AnyConversion (Frame (D := double)) := by_toAny
  (fun orig =>
     let p := frame_p orig in let M := frame_M orig in
     Some [vx p; vy p; vz p; r00 M; r01 M; r02 M; r10 M; r11 M; r12 M; r20 M; r21 M; r22 M])
  (fun tp cb =>
     x ← cb !! 0%nat; y ← cb !! 1%nat; z ← cb !! 2%nat;
     a ← cb !! 3%nat; b ← cb !! 4%nat; c ← cb !! 5%nat;
     d ← cb !! 6%nat; e ← cb !! 7%nat; f ← cb !! 8%nat;
     g ← cb !! 9%nat; h ← cb !! 10%nat; i ← cb !! 11%nat;
     Some (true, MkFrame (MkRotation a b c d e f g h i) (MkVector x y z))).

(* [typekits/kdl_typekit/include/orocos/kdl_typekit/transports/corba/CorbaKDLConversion.hpp:187-241] AnyConversion *)
Definition AnyConversion_Wrench : AnyConversion (Wrench (D := double)) := by_toAny
  (fun orig =>
     let f := force orig in let t := torque orig in Some [vx f; vy f; vz f; vx t; vy t; vz t])
  (fun tp cb =>
     x ← cb !! 0%nat; y ← cb !! 1%nat; z ← cb !! 2%nat;
     x' ← cb !! 3%nat; y' ← cb !! 4%nat; z' ← cb !! 5%nat;
     Some (true, MkWrench (MkVector x y z) (MkVector x' y' z'))).

(* [typekits/kdl_typekit/include/orocos/kdl_typekit/transports/corba/CorbaKDLConversion.hpp:243-297] AnyConversion *)
Definition AnyConversion_Twist : AnyConversion (Twist (D := double)) := by_toAny
  (fun orig =>
     let v := vel orig in let r := rot orig in Some [vx v; vy v; vz v; vx r; vy r; vz r])
  (fun tp cb =>
     x ← cb !! 0%nat; y ← cb !! 1%nat; z ← cb !! 2%nat;
     x' ← cb !! 3%nat; y' ← cb !! 4%nat; z' ← cb !! 5%nat;
     Some (true, MkTwist (MkVector x y z) (MkVector x' y' z'))).

(** A Jacobian has six rows. [resize] takes an [unsigned int]; the assignment of the
    mapped matrix then sets the number of columns again. *)
(* [typekits/kdl_typekit/include/orocos/kdl_typekit/transports/corba/CorbaKDLConversion.hpp:298-357] AnyConversion *)
Definition AnyConversion_Jacobian : AnyConversion (Matrix double) := by_toCorbaType
  (fun cb tp =>
     let r := umod 64 (rows tp) in
     let c := umod 64 (cols tp) in
     let cb := set_length (umod 32 (Z.of_nat (length (data tp)) + 2)) cb in
     cb ← set_at 0 (of_int r) cb;
     cb ← set_at 1 (of_int c) cb;
     cb ← write_map 2 (data tp) cb;
     Some (true, cb))
  (fun tp cb =>
     if decide (length cb < 2)%nat then Some (false, tp)
     else
       r ← cb !! 0%nat; r ← to_uint64 r;
       c ← cb !! 1%nat; c ← to_uint64 c;
       m ← read_map 2 r c cb;
       if decide (rows m = 6) then Some (true, m) else None).

(* [typekits/kdl_typekit/include/orocos/kdl_typekit/transports/corba/CorbaKDLConversion.hpp:359-401] AnyConversion *)
Definition AnyConversion_JntArray : AnyConversion (list double) := by_toCorbaType
  (fun cb tp =>
     let cb := set_length (umod 32 (Z.of_nat (length tp))) cb in
     if decide (length cb = length tp) then cb ← write_map 0 tp cb; Some (true, cb) else None)
  (fun tp cb => Some (true, cb)).

End Conversions.
Arguments AnyConversion {CA} T.
#[export] Existing Instances AnyConversion_Vector AnyConversion_Rotation AnyConversion_Frame
  AnyConversion_Wrench AnyConversion_Twist AnyConversion_Jacobian AnyConversion_JntArray.

(** *** Sequences *)

Lemma length_set_length n cb : 0 <= n -> Z.of_nat (length (set_length n cb)) = n.
Proof. intros Hn. unfold set_length. rewrite length_app, length_take, length_replicate. lia. Qed.

Lemma write_map_all (l cb : DoubleSequence) :
  length cb = length l -> write_map 0 l cb = Some l.
Proof.
  intros Hl. unfold write_map. rewrite decide_True by lia.
  by rewrite take_0, drop_ge, app_nil_r by lia.
Qed.

Lemma write_header (a b : double) (l cb : DoubleSequence) :
  length cb = S (S (length l)) ->
  (cb ← set_at 0 a cb; cb ← set_at 1 b cb; write_map 2 l cb) = Some (a :: b :: l).
Proof.
  destruct cb as [|a' [|b' cb]]; intros [= Hl].
  change (write_map 2 l (a :: b :: cb) = Some (a :: b :: l)). unfold write_map.
  rewrite decide_True by (cbn; lia). cbn [take drop app Nat.add].
  by rewrite drop_ge, app_nil_r by lia.
Qed.

Section RoundTrip.
Context `{CAL : CorbaAnyLaws}.

(** What sending and receiving a value promises, whatever the receiver held before. *)
Definition corba_carries {T} {C : AnyConversion T} (t : T) : Prop :=
  exists s, toAny t = Some s /\
  forall t0 a cb,
    toCorbaType cb t = Some (true, s) /\ toStdType t0 s = Some (true, t) /\
    (exists a', createAny t = Some a' /\ update a' t0 = Some (true, t)) /\
    (exists a', updateAny t a = Some (true, a') /\ update a' t0 = Some (true, t)).

Lemma by_toAny_carries {T} any std (t : T) s :
  any t = Some s -> (forall t0, std t0 s = Some (true, t)) ->
  corba_carries (C := by_toAny any std) t.
Proof.
  intros E Hs. exists s. split; [done|]. intros t0 a cb. cbn. rewrite E. cbn.
  split_and!; [done|apply Hs|..]; (eexists; split; [done|]; by rewrite extract_insert).
Qed.

Lemma by_toCorbaType_carries {T} corba std (t : T) s :
  (forall cb, corba cb t = Some (true, s)) -> (forall t0, std t0 s = Some (true, t)) ->
  corba_carries (C := by_toCorbaType corba std) t.
Proof.
  intros E Hs. exists s. split; [cbn; by rewrite E|]. intros t0 a cb. cbn. rewrite !E. cbn.
  split_and!; [done|apply Hs|..]; (eexists; split; [done|]; by rewrite extract_insert).
Qed.

Lemma Jacobian_sent (jac : Matrix double) cb :
  shaped (Some 6) None jac -> Z.of_nat (length (data jac)) + 2 < 2 ^ 32 ->
  toCorbaType cb jac = Some (true, of_int 6 :: of_int (cols jac) :: data jac).
Proof.
  intros (Hr & Hc & Hl & H6 & _) Hn. specialize (H6 6 eq_refl). cbn.
  rewrite (umod_id 32) by (unfold in_u; lia). rewrite !(umod_id 64) by (unfold in_u; nia).
  pose proof (write_header (of_int (rows jac)) (of_int (cols jac)) (data jac)
    (set_length (Z.of_nat (length (data jac)) + 2) cb)) as W.
  pose proof (length_set_length (Z.of_nat (length (data jac)) + 2) cb ltac:(lia)).
  specialize (W ltac:(lia)). rewrite H6 in *.
  destruct (set_at 0 _ _) as [cb1|]; [cbn in *|done].
  destruct (set_at 1 _ _) as [cb2|]; [cbn in *|done]. by rewrite W.
Qed.

Lemma Jacobian_received (jac jac0 : Matrix double) :
  shaped (Some 6) None jac -> Z.of_nat (length (data jac)) + 2 < 2 ^ 32 ->
  toStdType jac0 (of_int 6 :: of_int (cols jac) :: data jac) = Some (true, jac).
Proof.
  intros (Hr & Hc & Hl & H6 & _) Hn. specialize (H6 6 eq_refl). cbn [toStdType].
  destruct jac as [r c l]. cbn [rows cols data] in *. subst r.
  unfold AnyConversion_Jacobian, by_toCorbaType, conversion. cbn [toStdType length lookup list_lookup].
  rewrite decide_False by lia. cbn [mbind option_bind].
  rewrite (to_uint64_of_int 6), (to_uint64_of_int c) by lia. cbn [mbind option_bind].
  unfold read_map. cbn [length drop]. rewrite drop_0, decide_True by lia. cbn [mbind option_bind].
  rewrite decide_True by done. by rewrite take_ge by lia.
Qed.

Lemma JntArray_sent (q : list double) cb :
  Z.of_nat (length q) < 2 ^ 32 -> toCorbaType cb q = Some (true, q).
Proof.
  intros Hn. cbn. rewrite umod_id by (unfold in_u; lia).
  pose proof (length_set_length (Z.of_nat (length q)) cb ltac:(lia)).
  rewrite decide_True by lia. by rewrite write_map_all by lia.
Qed.

(** C36 -- A vector, rotation, frame, wrench or twist, a Jacobian and an array of joint values that are sent as a sequence of doubles in a CORBA Any (a new one or one that is reused) or as the sequence itself arrive with exactly the same numbers in the same positions, whatever the receiving value and the reused sequence held before; a Jacobian must have less than 2^32 - 2 and an array less than 2^32 elements, since the length of a sequence is a 32-bit number. *)
Theorem corba_roundtrip (v : Vector) (r : Rotation) (f : Frame) (w : Wrench) (t : Twist)
    (jac : Matrix double) (q : list double) :
  shaped (Some 6) None jac -> Z.of_nat (length (data jac)) + 2 < 2 ^ 32 ->
  Z.of_nat (length q) < 2 ^ 32 ->
  corba_carries v /\ corba_carries r /\ corba_carries f /\ corba_carries w /\ corba_carries t /\
  corba_carries jac /\ corba_carries q.
Proof.
  intros Hj Hn Hq. split_and!.
  1-5: eapply by_toAny_carries; [done|].
  - by destruct v.
  - by destruct r.
  - by destruct f as [[] []].
  - by destruct w as [[] []].
  - by destruct t as [[] []].
  - eapply by_toCorbaType_carries; intros.
    + by apply Jacobian_sent.
    + by apply (Jacobian_received jac t0).
  - eapply by_toCorbaType_carries; intros; [by apply JntArray_sent|done].
Qed.

(** A received value is complete under a condition, without which the read is undefined. *)
Definition read_if {T} (P : Prop) (o : option (bool * T)) : Prop :=
  (P -> exists x, o = Some (true, x)) /\ (~ P -> o = None).

(** A chain of unchecked reads at fixed positions needs a long enough sequence. *)
Ltac fixed_reads s :=
  do 12 (try destruct s as [|? s]); cbn;
  (split; [solve [intros _; by eexists|intros ?; lia]|solve [done|intros []; lia]]).

(** C37 -- What a receiver does with an arbitrary Any: if it does not hold a sequence of doubles, the update fails and the value stays as it is. If it does, vector, rotation, frame, wrench and twist are read at fixed positions without a check of the length: the update succeeds for sequences of at least 3, 9, 12, 6 and 6 numbers and is undefined for shorter ones. A Jacobian is refused without two numbers of header; then the header is believed: unless it says six rows and as many columns as the sequence has numbers for, the update is undefined. An array takes any sequence. *)
Theorem corba_update_cases (a : Any) :
  (extract a = None ->
     (forall v : Vector, update a v = Some (false, v)) /\ (forall r : Rotation, update a r = Some (false, r)) /\
     (forall f : Frame, update a f = Some (false, f)) /\ (forall w : Wrench, update a w = Some (false, w)) /\
     (forall t : Twist, update a t = Some (false, t)) /\ (forall j : Matrix double, update a j = Some (false, j)) /\
     (forall q : list double, update a q = Some (false, q))) /\
  (forall s, extract a = Some s ->
     (forall v : Vector, read_if (3 <= length s)%nat (update a v)) /\
     (forall r : Rotation, read_if (9 <= length s)%nat (update a r)) /\
     (forall f : Frame, read_if (12 <= length s)%nat (update a f)) /\
     (forall w : Wrench, read_if (6 <= length s)%nat (update a w)) /\
     (forall t : Twist, read_if (6 <= length s)%nat (update a t)) /\
     (forall j : Matrix double, (length s < 2)%nat -> update a j = Some (false, j)) /\
     (forall (j : Matrix double) r c rest, s = r :: c :: rest ->
        read_if (to_uint64 r = Some 6 /\
                 exists n, to_uint64 c = Some n /\ 6 * n <= Z.of_nat (length rest)) (update a j)) /\
     (forall q : list double, update a q = Some (true, s))).
Proof.
  split.
  - intros E. cbn. rewrite !E. done.
  - intros s E. unfold update. cbn -[read_map]. rewrite !E. split_and!.
    1-5: intros _; fixed_reads s.
    + intros j Hs. by rewrite decide_True.
    + intros j r c rest ->. rewrite decide_False by (cbn; lia). cbn -[read_map].
      destruct (to_uint64 r) as [r'|]; [|by split; [intros [[=] _]|]].
      destruct (to_uint64 c) as [c'|]; [|by split; [intros (_ & ? & [=] & _)|]].
      unfold read_map. cbn. destruct (decide _) as [Hm|Hm]; cbn.
      * destruct (decide (r' = 6)) as [->|Hr]; split; intros Hp.
        -- by eexists.
        -- destruct Hp. split; [done|]. exists c'. split; [done|]. lia.
        -- by destruct Hp as [[= ->] _].
        -- done.
      * split; [|done]. intros ([= ->] & n & [= ->] & Hn). lia.
    + done.
Qed.
End RoundTrip.
End Corba.

(** ** Message queues *)

Module Mqueue.

Inductive status := Done | Exception | Undefined.

Section Serialization.
Context {D : Type}.

(** A boost archive, for saving or for loading: [ar & x] returns what [x] holds
    afterwards. An archive that is loaded from throws when it ends too early. *)
Class Archive := {
  Ar : Type;
  is_saving : bool;
  amp_int : Z -> Ar -> status * Z * Ar;
  amp_array : list D -> Ar -> status * list D * Ar }.

(** The value of an [int] or [double] that was not initialised. *)
Variable garbage_int : Z.
Variable garbage : D.

Section OneArchive.
Context {A : Archive}.

(** [serialize(ar, g, version)]: how it ends, and what [g] and the archive are then. *)
Definition Serializer (T : Type) : Type := T -> Ar -> status * T * Ar.

Definition then_ {T} (s1 s2 : Serializer T) : Serializer T := fun g ar =>
  let '(st, g, ar) := s1 g ar in
  match st with Done => s2 g ar | _ => (st, g, ar) end.
(** The same on a part of an object. *)
Definition on {T F} (get : T -> F) (set : F -> T -> T) (s : Serializer F) : Serializer T := fun g ar =>
  let '(st, x, ar) := s (get g) ar in (st, set x g, ar).

Definition on_Vector_data : Serializer (Vector (D := D)) := on Vector_data set_Vector_data amp_array.
Definition on_Rotation_data : Serializer (Rotation (D := D)) := on Rotation_data set_Rotation_data amp_array.

(** [rows * cols] of two [int]s, which must not overflow, and then the elements. *)
(* [typekits/kdl_typekit/src/mqueue/kdl_mqueue.cpp:33-44] save *)
Definition save (g : Matrix D) (ar : Ar) : status * Matrix D * Ar :=
  let r := smod 32 (rows g) in
  let c := smod 32 (cols g) in
  let '(st, _, ar) := amp_int r ar in
  match st with
  | Done =>
      let '(st, _, ar) := amp_int c ar in
      match st with
      | Done =>
          if decide (in_s 32 (r * c) /\ 0 <= r * c <= Z.of_nat (length (data g))) then
            let '(st, _, ar) := amp_array (take (Z.to_nat (r * c)) (data g)) ar in (st, g, ar)
          else (Undefined, g, ar)
      | _ => (st, g, ar)
      end
  | _ => (st, g, ar)
  end.

(** [Matrix<S, Rows_, Cols_>::resize] keeps the memory if the number of elements does
    not change; the dimensions must fit those fixed at compile time. *)
Definition resize (Rows_ Cols_ : option Z) (r c : Z) (g : Matrix D) : option (Matrix D) :=
  if decide (0 <= r /\ 0 <= c /\ (Rows_ = None \/ Rows_ = Some r) /\ (Cols_ = None \/ Cols_ = Some c))
  then Some (MkMatrix r c (if decide (r * c = Z.of_nat (length (data g))) then data g
                           else replicate (Z.to_nat (r * c)) garbage))
  else None.

(* [typekits/kdl_typekit/src/mqueue/kdl_mqueue.cpp:53-63] load *)
Definition load (Rows_ Cols_ : option Z) (g : Matrix D) (ar : Ar) : status * Matrix D * Ar :=
  let '(st, r, ar) := amp_int garbage_int ar in
  match st with
  | Done =>
      let '(st, c, ar) := amp_int garbage_int ar in
      match st with
      | Done =>
          match resize Rows_ Cols_ r c g with
          | Some g =>
              if decide (in_s 32 (r * c)) then
                let '(st, l, ar) := amp_array (data g) ar in (st, MkMatrix r c l, ar)
              else (Undefined, g, ar)
          | None => (Undefined, g, ar)
          end
      | _ => (st, g, ar)
      end
  | _ => (st, g, ar)
  end.

(* [typekits/kdl_typekit/src/mqueue/kdl_mqueue.cpp:72-78] serialize *)
Definition serialize_Matrix (Rows_ Cols_ : option Z) : Serializer (Matrix D) := fun g ar =>
  if is_saving then save g ar else load Rows_ Cols_ g ar.

(* [typekits/kdl_typekit/src/mqueue/kdl_mqueue.cpp:86-92] serialize *)
Definition serialize_Rotation : Serializer (Rotation (D := D)) := on_Rotation_data.
(* [typekits/kdl_typekit/src/mqueue/kdl_mqueue.cpp:93-99] serialize *)
Definition serialize_Vector : Serializer (Vector (D := D)) := on_Vector_data.
(* [typekits/kdl_typekit/src/mqueue/kdl_mqueue.cpp:100-107] serialize *)
Definition serialize_Twist : Serializer (Twist (D := D)) :=
  then_ (on rot (fun r g => MkTwist (vel g) r) on_Vector_data)
        (on vel (fun v g => MkTwist v (rot g)) on_Vector_data).
(* [typekits/kdl_typekit/src/mqueue/kdl_mqueue.cpp:108-115] serialize *)
Definition serialize_Wrench : Serializer (Wrench (D := D)) :=
  then_ (on force (fun f g => MkWrench f (torque g)) on_Vector_data)
        (on torque (fun t g => MkWrench (force g) t) on_Vector_data).
(* [typekits/kdl_typekit/src/mqueue/kdl_mqueue.cpp:116-123] serialize *)
Definition serialize_Frame : Serializer (Frame (D := D)) :=
  then_ (on frame_p (fun p g => MkFrame (frame_M g) p) on_Vector_data)
        (on frame_M (fun M g => MkFrame M (frame_p g)) on_Rotation_data).
(* [typekits/kdl_typekit/src/mqueue/kdl_mqueue.cpp:124-130] serialize *)
Definition serialize_Jacobian : Serializer (Matrix D) := serialize_Matrix (Some 6) None.
(* [typekits/kdl_typekit/src/mqueue/kdl_mqueue.cpp:131-137] serialize *)
Definition serialize_JntArray : Serializer (Matrix D) := serialize_Matrix None (Some 1).

Record JntArrayVel := MkJntArrayVel { q : Matrix D; qdot : Matrix D }.

(* [typekits/kdl_typekit/src/mqueue/kdl_mqueue.cpp:138-145] serialize *)
Definition serialize_JntArrayVel : Serializer JntArrayVel :=
  then_ (on q (fun x g => MkJntArrayVel x (qdot g)) serialize_JntArray)
        (on qdot (fun x g => MkJntArrayVel (q g) x) serialize_JntArray).
End OneArchive.
Arguments Serializer : clear implicits.

(** *** The transport plugin *)

Inductive kdl_type := KVector | KRotation | KFrame | KWrench | KTwist | KJacobian | KJntArray | KJntArrayVel.
Definition kdl_types : list kdl_type :=
  [KVector; KRotation; KFrame; KWrench; KTwist; KJacobian; KJntArray; KJntArrayVel].

Definition std_type (k : kdl_type) : Type :=
  match k with
  | KVector => Vector (D := D) | KRotation => Rotation (D := D) | KFrame => Frame (D := D)
  | KWrench => Wrench (D := D) | KTwist => Twist (D := D)
  | KJacobian | KJntArray => Matrix D
  | KJntArrayVel => JntArrayVel
  end.

(** The overload of [serialize] that a protocol uses. *)
Definition serialize (k : kdl_type) {A : Archive} : Serializer A (std_type k) :=
  match k with
  | KVector => serialize_Vector
  | KRotation => serialize_Rotation
  | KFrame => serialize_Frame
  | KWrench => serialize_Wrench
  | KTwist => serialize_Twist
  | KJacobian => serialize_Jacobian
  | KJntArray => serialize_JntArray
  | KJntArrayVel => serialize_JntArrayVel
  end.

(** [new MQSerializationProtocol<T>()], and a type's [addProtocol]. *)
Inductive protocol := MQSerializationProtocol (k : kdl_type).
Class TypeInfos := {
  TypeInfo : Type;
  ORO_MQUEUE_PROTOCOL_ID : Z;
  addProtocol : Z -> protocol -> TypeInfo -> bool * TypeInfo }.

(* [typekits/kdl_typekit/src/mqueue/kdl_mqueue.cpp:151-171] registerTransport *)
Definition registerTransport `{TypeInfos} (name : string) (ti : TypeInfo) : bool * TypeInfo :=
  let add k := addProtocol ORO_MQUEUE_PROTOCOL_ID (MQSerializationProtocol k) ti in
  if decide (name = "KDL.Vector") then add KVector
  else if decide (name = "KDL.Rotation") then add KRotation
  else if decide (name = "KDL.Frame") then add KFrame
  else if decide (name = "KDL.Wrench") then add KWrench
  else if decide (name = "KDL.Twist") then add KTwist
  else if decide (name = "KDL.Jacobian") then add KJacobian
  else if decide (name = "KDL.JntArray") then add KJntArray
  else if decide (name = "KDL.JntArrayVel") then add KJntArrayVel
  else (false, ti).

(** The name a type is registered under in RTT. *)
Definition type_name_of (k : kdl_type) : string :=
  match k with
  | KVector => "KDL.Vector" | KRotation => "KDL.Rotation" | KFrame => "KDL.Frame"
  | KWrench => "KDL.Wrench" | KTwist => "KDL.Twist" | KJacobian => "KDL.Jacobian"
  | KJntArray => "KDL.JntArray" | KJntArrayVel => "KDL.JntArrayVel"
  end.
End Serialization.
Arguments Archive : clear implicits.
Arguments Serializer {D} A T.

(** *** Sent and received *)

(** An archive to save to and one to load from that understand each other: what the
    first appends to its bytes, the second takes from the front of its own. *)
Class ArchivePair {D} (O I : Archive D) := {
  out : Ar (Archive := O) -> list Byte.byte;
  inp : Ar (Archive := I) -> list Byte.byte;
  enc_int : Z -> list Byte.byte;
  enc_array : list D -> list Byte.byte;
  saving : is_saving (Archive := O) = true;
  loading : is_saving (Archive := I) = false;
  save_int n o : in_s 32 n -> exists o', amp_int n o = (Done, n, o') /\ out o' = out o ++ enc_int n;
  load_int n n0 i rest : in_s 32 n -> inp i = enc_int n ++ rest ->
    exists i', amp_int n0 i = (Done, n, i') /\ inp i' = rest;
  save_array l o : exists o', amp_array l o = (Done, l, o') /\ out o' = out o ++ enc_array l;
  load_array l l0 i rest : length l0 = length l -> inp i = enc_array l ++ rest ->
    exists i', amp_array l0 i = (Done, l, i') /\ inp i' = rest }.

Section RoundTrip.
Context {D : Type} (garbage_int : Z) (garbage : D).
Context {O I : Archive D} {P : ArchivePair O I}.

(** Saving [g] appends bytes and leaves [g] alone; loading these bytes updates what
    the receiver had by [u]. *)
Definition carries {T} (sO : Serializer O T) (sI : Serializer I T) (g : T) (u : T -> T) : Prop :=
  exists bytes,
    (forall o, exists o', sO g o = (Done, g, o') /\ out o' = out o ++ bytes) /\
    (forall g0 i rest, inp i = bytes ++ rest -> exists i', sI g0 i = (Done, u g0, i') /\ inp i' = rest).

(** The whole value arrives. *)
Definition carried {T} (sO : Serializer O T) (sI : Serializer I T) (g : T) : Prop :=
  carries sO sI g (fun _ => g).

Lemma on_carries {T F} (get : T -> F) (set : F -> T -> T) (sO : Serializer O F) (sI : Serializer I F) g :
  set (get g) g = g -> carried sO sI (get g) -> carries (on get set sO) (on get set sI) g (set (get g)).
Proof.
  intros Hg (b & S & L). exists b. unfold on. split.
  - intros o. destruct (S o) as (o' & -> & E). exists o'. by rewrite Hg.
  - intros g0 i rest Hi. destruct (L (get g0) i rest Hi) as (i' & -> & E). by exists i'.
Qed.

Lemma then_carries {T} (sO1 sO2 : Serializer O T) (sI1 sI2 : Serializer I T) g u1 u2 :
  carries sO1 sI1 g u1 -> carries sO2 sI2 g u2 -> (forall g0, u2 (u1 g0) = g) ->
  carried (then_ sO1 sO2) (then_ sI1 sI2) g.
Proof.
  intros (b1 & S1 & L1) (b2 & S2 & L2) Hu. exists (b1 ++ b2). unfold then_. split.
  - intros o. destruct (S1 o) as (o1 & -> & E1). destruct (S2 o1) as (o2 & -> & E2).
    exists o2. by rewrite E2, E1, app_assoc.
  - intros g0 i rest Hi. rewrite <- app_assoc in Hi.
    destruct (L1 g0 i _ Hi) as (i1 & -> & E1). destruct (L2 (u1 g0) i1 rest E1) as (i2 & -> & E2). exists i2. by rewrite Hu.
Qed.

(** An object of two parts. *)
Lemma two_parts {T F1 F2} (get1 : T -> F1) set1 (get2 : T -> F2) set2 sO1 sI1 sO2 sI2 (g : T) :
  carried sO1 sI1 (get1 g) -> carried sO2 sI2 (get2 g) ->
  set1 (get1 g) g = g -> set2 (get2 g) g = g -> (forall g0, set2 (get2 g) (set1 (get1 g) g0) = g) ->
  carried (then_ (on get1 set1 sO1) (on get2 set2 sO2)) (then_ (on get1 set1 sI1) (on get2 set2 sI2)) g.
Proof. intros. eapply then_carries; [by apply on_carries..|done]. Qed.

Lemma Vector_data_carries (v : Vector (D := D)) :
  carried on_Vector_data on_Vector_data v.
Proof.
  exists (enc_array (Vector_data v)). unfold on_Vector_data, on. split.
  - intros o. destruct (save_array (Vector_data v) o) as (o' & -> & E). exists o'. by destruct v.
  - intros g0 i rest Hi. destruct (load_array (Vector_data v) (Vector_data g0) i rest eq_refl Hi)
      as (i' & -> & E). exists i'. by rewrite set_Vector_data_id.
Qed.

Lemma Rotation_data_carries (r : Rotation (D := D)) :
  carried on_Rotation_data on_Rotation_data r.
Proof.
  exists (enc_array (Rotation_data r)). unfold on_Rotation_data, on. split.
  - intros o. destruct (save_array (Rotation_data r) o) as (o' & -> & E). exists o'. by destruct r.
  - intros g0 i rest Hi. destruct (load_array (Rotation_data r) (Rotation_data g0) i rest eq_refl Hi)
      as (i' & -> & E). exists i'. by rewrite set_Rotation_data_id.
Qed.

(** Matrices with less than [2^31] elements, and dimensions below that. *)
Definition small (m : Matrix D) : Prop :=
  rows m < 2 ^ 31 /\ cols m < 2 ^ 31 /\ rows m * cols m < 2 ^ 31.

Lemma Matrix_carries (Rows_ Cols_ : option Z) (m : Matrix D) :
  shaped Rows_ Cols_ m -> small m ->
  carried (serialize_Matrix garbage_int garbage Rows_ Cols_) (serialize_Matrix garbage_int garbage Rows_ Cols_) m.
Proof.
  destruct m as [r c l]. intros (Hr & Hc & Hl & HR & HC) (Br & Bc & Bn). cbn [rows cols data] in *.
  assert (in_s 32 r /\ in_s 32 c /\ in_s 32 (r * c)) as (Ir & Ic & In) by (unfold in_s; nia).
  exists (enc_int r ++ enc_int c ++ enc_array l). unfold serialize_Matrix. split.
  - intros o. rewrite saving. unfold save. cbn [rows cols data].
    rewrite (smod_id 32 r), (smod_id 32 c) by done.
    destruct (save_int r o Ir) as (o1 & -> & E1). destruct (save_int c o1 Ic) as (o2 & -> & E2).
    rewrite decide_True by (split; [done|lia]). rewrite take_ge by lia.
    destruct (save_array l o2) as (o3 & -> & E3). exists o3. split; [done|].
    by rewrite E3, E2, E1, <- !app_assoc.
  - intros g0 i rest Hi. rewrite loading. unfold load. rewrite <- !app_assoc in Hi.
    destruct (load_int r garbage_int i _ Ir Hi) as (i1 & -> & E1).
    destruct (load_int c garbage_int i1 _ Ic E1) as (i2 & -> & E2).
    unfold resize. rewrite decide_True.
    2:{ split_and!; [done..| |]; [destruct Rows_; [right; f_equal; symmetry; by apply HR|by left]|
                                  destruct Cols_; [right; f_equal; symmetry; by apply HC|by left]]. }
    rewrite decide_True by done. cbn [data].
    destruct (load_array l (if decide (r * c = Z.of_nat (length (data g0))) then data g0
                            else replicate (Z.to_nat (r * c)) garbage) i2 rest) as (i3 & -> & E3).
    + case_decide; [lia|]. rewrite length_replicate. lia.
    + done.
    + by exists i3.
Qed.

Lemma Jacobian_bad_header (g0 : Matrix D) i r c rest :
  in_s 32 r -> in_s 32 c -> inp i = enc_int r ++ enc_int c ++ rest ->
  ~ (r = 6 /\ 0 <= c /\ 6 * c < 2 ^ 31) ->
  (serialize_Jacobian garbage_int garbage (A := I) g0 i).1.1 = Undefined.
Proof.
  intros Hr Hc Hi Hbad. unfold serialize_Jacobian, serialize_Matrix. rewrite loading. unfold load.
  destruct (load_int r garbage_int i _ Hr Hi) as (i1 & -> & E1).
  destruct (load_int c garbage_int i1 _ Hc E1) as (i2 & -> & _).
  unfold resize. destruct (decide _) as [(H0 & H1 & [[=]|[= <-]] & _)|]; [|done].
  rewrite decide_False; [done|]. unfold in_s. lia.
Qed.

(** What an object of a type must be like to be sent. *)
Definition transportable (k : kdl_type) : std_type (D := D) k -> Prop :=
  match k with
  | KJacobian => fun m => shaped (Some 6) None m /\ small m
  | KJntArray => fun m => shaped None (Some 1) m /\ small m
  | KJntArrayVel => fun g =>
      (shaped None (Some 1) (q g) /\ small (q g)) /\ (shaped None (Some 1) (qdot g) /\ small (qdot g))
  | _ => fun _ => True
  end.

(** C38 -- The message queue plugin installs, for a type with one of the eight names of KDL types, the protocol of that very type, and nothing for any other name. What this protocol saves of a value in a binary archive, it loads back as exactly the same value in a receiver, whatever the receiver held before (also an array of another size), consuming exactly the bytes that were written; arrays and Jacobians must have less than 2^31 elements. A Jacobian whose received header does not say six rows and less than 2^31 elements makes the load undefined. *)
Theorem mqueue_roundtrip `{TypeInfos} (ti : TypeInfo) :
  (forall k, registerTransport (type_name_of k) ti =
             addProtocol ORO_MQUEUE_PROTOCOL_ID (MQSerializationProtocol k) ti) /\
  (forall name, (forall k, name <> type_name_of k) -> registerTransport name ti = (false, ti)) /\
  (forall k g, transportable k g ->
     carried (serialize garbage_int garbage k) (serialize garbage_int garbage k) g) /\
  (forall g0 i r c rest, in_s 32 r -> in_s 32 c -> inp i = enc_int r ++ enc_int c ++ rest ->
     ~ (r = 6 /\ 0 <= c /\ 6 * c < 2 ^ 31) ->
     (serialize garbage_int garbage KJacobian g0 i).1.1 = Undefined).
Proof.
  split_and!.
  - by intros [].
  - intros name Hn. unfold registerTransport.
    pose proof (Hn KVector). pose proof (Hn KRotation). pose proof (Hn KFrame). pose proof (Hn KWrench).
    pose proof (Hn KTwist). pose proof (Hn KJacobian). pose proof (Hn KJntArray). pose proof (Hn KJntArrayVel).
    cbn in *. by rewrite !decide_False.
  - pose proof Vector_data_carries as HV. pose proof Rotation_data_carries as HR.
    pose proof Matrix_carries as HM. intros [] g Hg; cbn [transportable serialize std_type] in *.
    + apply HV.
    + apply HR.
    + apply two_parts; [apply HV|apply HR|by destruct g..].
    + apply two_parts; [apply HV..|by destruct g|by destruct g|by destruct g].
    + apply two_parts; [apply HV..|by destruct g|by destruct g|by destruct g].
    + destruct Hg. by apply HM.
    + destruct Hg. by apply HM.
    + destruct Hg as [[? ?] [? ?]]. apply two_parts; [by apply HM..|by destruct g|by destruct g|by destruct g].
  - intros g0 i r c rest Hr Hc Hi Hbad. by apply (Jacobian_bad_header g0 i r c rest).
Qed.
End RoundTrip.
End Mqueue.

(** ** The theorems at work *)

Module Witnesses.
Import Corba Mqueue.

Definition ref_any : CorbaAny := {|
  Any := option DoubleSequence;
  new_any := None;
  insert s _ := Some s;
  extract a := a |}.
Lemma ref_any_laws : CorbaAnyLaws ref_any.
Proof. by split. Qed.

Lemma corba_roundtrip_witness :
  corba_carries (CA := ref_any) (MkMatrix 6 1 (replicate 6 (of_int 2))) /\
  corba_carries (CA := ref_any) [of_int 1; of_int (-3)].
Proof.
  pose proof (corba_roundtrip (CAL := ref_any_laws)
    (MkVector (of_int 1) (of_int 2) (of_int 3))
    (MkRotation (of_int 1) (of_int 0) (of_int 0) (of_int 0) (of_int 1) (of_int 0) (of_int 0) (of_int 0) (of_int 1))
    (MkFrame (MkRotation (of_int 1) (of_int 0) (of_int 0) (of_int 0) (of_int 1) (of_int 0) (of_int 0) (of_int 0) (of_int 1))
             (MkVector (of_int 1) (of_int 2) (of_int 3)))
    (MkWrench (MkVector (of_int 1) (of_int 2) (of_int 3)) (MkVector (of_int 1) (of_int 2) (of_int 3)))
    (MkTwist (MkVector (of_int 1) (of_int 2) (of_int 3)) (MkVector (of_int 1) (of_int 2) (of_int 3)))
    (MkMatrix 6 1 (replicate 6 (of_int 2))) [of_int 1; of_int (-3)]) as H.
  split; apply H; cbn; try lia; unfold shaped; cbn; split_and!; lia || (intros ? [=]; lia).
Defined.

Lemma corba_update_cases_witness :
  update (CA := ref_any) (T := Vector (D := double)) (Some [of_int 1; of_int 2]) (MkVector (of_int 0) (of_int 0) (of_int 0)) = None.
Proof.
  destruct (corba_update_cases (CA := ref_any) (Some [of_int 1; of_int 2])) as [_ H].
  destruct (H [of_int 1; of_int 2] eq_refl) as (Hv & _).
  apply (Hv (MkVector (of_int 0) (of_int 0) (of_int 0))). cbn. lia.
Defined.

(** The 64 bits of a [double], in the order of memory, and archives of bytes. *)
Record bits64 := Bits64 { b0 : Byte.byte; b1 : Byte.byte; b2 : Byte.byte; b3 : Byte.byte;
                          b4 : Byte.byte; b5 : Byte.byte; b6 : Byte.byte; b7 : Byte.byte }.
Definition enc_bits (b : bits64) : list Byte.byte := [b0 b; b1 b; b2 b; b3 b; b4 b; b5 b; b6 b; b7 b].
Definition enc_int32 (n : Z) : list Byte.byte := LittleEndianList.le_split 4 n.

Definition oarchive : Archive bits64 := {|
  Ar := list Byte.byte;
  is_saving := true;
  amp_int n o := (Done, n, o ++ enc_int32 n);
  amp_array l o := (Done, l, o ++ concat (enc_bits <$> l)) |}.

Fixpoint read_bits (l : list bits64) (i : list Byte.byte) : status * list bits64 * list Byte.byte :=
  match l with
  | [] => (Done, [], i)
  | b :: l =>
      match i with
      | x0 :: x1 :: x2 :: x3 :: x4 :: x5 :: x6 :: x7 :: i =>
          let '(st, l, i) := read_bits l i in (st, Bits64 x0 x1 x2 x3 x4 x5 x6 x7 :: l, i)
      | _ => (Exception, b :: l, i)
      end
  end.

Definition iarchive : Archive bits64 := {|
  Ar := list Byte.byte;
  is_saving := false;
  amp_int n i :=
    if decide (length i < 4)%nat then (Exception, n, i)
    else (Done, smod 32 (LittleEndianList.le_combine (take 4 i)), drop 4 i);
  amp_array := read_bits |}.

Lemma read_enc_int (n : Z) (rest : list Byte.byte) :
  in_s 32 n ->
  amp_int (Archive := iarchive) 0 (enc_int32 n ++ rest) = (Done, n, rest).
Proof.
  intros Hn. cbn. assert (length (enc_int32 n) = 4%nat) as Hl by apply LittleEndianList.length_le_split.
  rewrite decide_False by (rewrite length_app; lia).
  rewrite take_app_length', drop_app_length' by done. f_equal. f_equal.
  unfold enc_int32. rewrite LittleEndianList.le_combine_split.
  change (2 ^ (Z.of_nat 4 * 8)) with (2 ^ 32). unfold smod. rewrite Zplus_mod_idemp_l.
  by apply smod_id.
Qed.

Lemma read_enc_bits (l l0 : list bits64) (rest : list Byte.byte) :
  length l0 = length l -> read_bits l0 (concat (enc_bits <$> l) ++ rest) = (Done, l, rest).
Proof.
  revert l0. induction l as [|b l IH]; intros [|b' l0] Hl; try done. injection Hl as Hl.
  cbn. rewrite IH by done. by destruct b.
Qed.

Program Definition byte_archives : ArchivePair oarchive iarchive := {|
  out o := o;
  inp i := i;
  enc_int := enc_int32;
  enc_array l := concat (enc_bits <$> l) |}.
Next Obligation. done. Qed.
Next Obligation. done. Qed.
Next Obligation. intros n o _. cbn. by eexists. Qed.
Next Obligation.
  intros n n0 i rest Hn ->. exists rest. split; [|done].
  pose proof (read_enc_int n rest Hn) as E. cbn in *. destruct (decide _); [done|exact E].
Qed.
Next Obligation. intros l o. cbn. by eexists. Qed.
Next Obligation. intros l l0 i rest Hl ->. exists rest. split; [by apply read_enc_bits|done]. Qed.

Definition ref_type_infos : TypeInfos := {|
  TypeInfo := list protocol;
  ORO_MQUEUE_PROTOCOL_ID := 2;
  addProtocol _ p ti := (true, ti ++ [p]) |}.

Definition zero64 : bits64 := Bits64 Byte.x00 Byte.x00 Byte.x00 Byte.x00 Byte.x00 Byte.x00 Byte.x00 Byte.x00.

Lemma mqueue_roundtrip_witness :
  registerTransport (H := ref_type_infos) "KDL.JntArray" [] = (true, [MQSerializationProtocol KJntArray]) /\
  carried (P := byte_archives) (serialize 7 zero64 KJntArray) (serialize 7 zero64 KJntArray)
    (MkMatrix 2 1 [zero64; zero64]).
Proof.
  destruct (mqueue_roundtrip 7 zero64 (P := byte_archives) (H := ref_type_infos) []) as (H1 & _ & H3 & _).
  split; [exact (H1 KJntArray)|]. apply (H3 KJntArray). cbn. unfold shaped, small. cbn.
  split_and!; lia || (intros ? [=]; lia).
Defined.

End Witnesses.
