(* ===== verification/KdlMembers.v ===== *)
(** Package [kdl_typekit], members of KDL values in scripts: elements of vectors,
    twists and wrenches ([kdlTypekit.hpp]) and of joint arrays
    ([kdlTypekitJntArray.cpp]), and the named members by which the structures are
    serialised ([include/orocos/kdl_typekit/typekit/Types.hpp]).

    A member is a data source that refers to its item and to the data source of its
    index; both are looked at each time the member is read or written. The objects
    are the lists of their numbers in a store with the integer variables of scripts
    and the cell that RTT refers to when there is nothing to refer to. RTT's
    conversion of data sources to [int], [boost::lexical_cast] and KDL's [resize] are
    parameters. *)

From S2P Require Import Prelude KdlProperties.
Local Open Scope string_scope.
Local Open Scope list_scope.
Local Open Scope Z_scope.

Section Members.
Context {D : Type}.

(** [double()], and what [NA<double&>::na()] leaves in the cell it refers to. *)
Variable zero : D.
Variable fetch_na : D -> D.

(** ** The store *)

Record Store := MkStore { objects : gmap nat (list D); variables : gmap nat Z; na_cell : D }.
Definition set_objects (o : gmap nat (list D)) (s : Store) : Store := MkStore o (variables s) (na_cell s).
Definition set_na (x : D) (s : Store) : Store := MkStore (objects s) (variables s) x.

(** A [double&]. *)
Inductive reference := Element (object i : nat) | NaCell.
Definition load_ref (r : reference) (s : Store) : option D :=
  match r with Element o i => objects s !! o ≫= (.!! i) | NaCell => Some (na_cell s) end.
Definition store_ref (r : reference) (x : D) (s : Store) : option Store :=
  match r with
  | Element o i =>
      l ← objects s !! o;
      if decide (i < length l)%nat then Some (set_objects (<[o := <[i := x]> l]> (objects s)) s) else None
  | NaCell => Some (set_na x s)
  end.

(** [DataSource<int>]: a constant or a variable. *)
Inductive int_source := Constant (n : Z) | Variable_ (x : nat).
Definition eval_int (e : int_source) (s : Store) : option Z :=
  match e with Constant n => Some n | Variable_ x => variables s !! x end.

(** The data source of a container: one that can be assigned refers to an object. *)
Inductive item_source := Assignable (object : nat) | Value (l : list D) | OtherType.
Definition eval_item (item : item_source) (s : Store) : option (list D) :=
  match item with Assignable o => objects s !! o | Value l => Some l | OtherType => None end.

(** The data source a user names a member with. *)
Inductive id_source := IdInt (e : int_source) | IdString (name : string) | IdOther.
(** [narrow(convert(id))] *)
Variable to_int : id_source -> option int_source.
Definition to_string (id : id_source) : option string :=
  match id with IdString name => Some name | _ => None end.

(** ** Elements of containers of fixed size *)

(* [typekits/kdl_typekit/src/kdlTypekit.hpp:86-91] get_container_item *)
Definition get_container_item (size : Z) (cont : nat) (index : Z) (s : Store) : reference * Store :=
  if bool_decide (index >= size) || bool_decide (index < 0) then (NaCell, set_na (fetch_na (na_cell s)) s)
  else (Element cont (Z.to_nat index), s).

(* [typekits/kdl_typekit/src/kdlTypekit.hpp:101-106] get_container_item_copy *)
Definition get_container_item_copy (size : Z) (cont : list D) (index : Z) : option D :=
  if bool_decide (index >= size) || bool_decide (index < 0) then Some zero
  else cont !! Z.to_nat index.

(** ** Elements of joint arrays *)

(** [(int) v.rows()], an [unsigned int]. *)
Definition int_rows (v : list D) : Z := smod 32 (umod 32 (Z.of_nat (length v))).

(* [typekits/kdl_typekit/src/kdlTypekitJntArray.cpp:20-25] get_item *)
Definition get_item (v : nat) (index : Z) (s : Store) : option (reference * Store) :=
  l ← objects s !! v;
  Some (if bool_decide (index >= int_rows l) || bool_decide (index < 0)
        then (NaCell, set_na (fetch_na (na_cell s)) s)
        else (Element v (Z.to_nat index), s)).

(* [typekits/kdl_typekit/src/kdlTypekitJntArray.cpp:27-32] get_item_copy *)
Definition get_item_copy (v : list D) (index : Z) : option D :=
  if bool_decide (index >= int_rows v) || bool_decide (index < 0) then Some zero
  else v !! Z.to_nat index.

(* [typekits/kdl_typekit/src/kdlTypekitJntArray.cpp:35-38] get_size *)
Definition get_size (v : list D) : Z := int_rows v.

(** ** Members as data sources *)

(** [newFunctorDataSource(&f, {item, index})] for the functions above. *)
Inductive member :=
| ContainerItem (size : Z) (cont : nat) (index : int_source)
| ContainerItemCopy (size : Z) (cont : item_source) (index : int_source)
| ArrayItem (v : nat) (index : int_source)
| ArrayItemCopy (v : item_source) (index : int_source)
| ArraySize (v : item_source).

(** The data source for an item that can be assigned or not; [GenerateDataSource]
    throws for an item of another type, which is caught. *)
Definition item_member (item : item_source) (ref : nat -> member) (copy : item_source -> member)
    : option member :=
  match item with
  | Assignable o => Some (ref o)
  | Value _ => Some (copy item)
  | OtherType => None
  end.

(* [typekits/kdl_typekit/src/kdlTypekit.hpp:140-158] getMember *)
Definition KDLVectorTypeInfo_getMember (size : Z) (item : item_source) (id : id_source) : option member :=
  match to_int id with
  | Some id_indx => item_member item (fun o => ContainerItem size o id_indx)
                                     (fun v => ContainerItemCopy size v id_indx)
  | None => None
  end.

(* [typekits/kdl_typekit/src/kdlTypekitJntArray.cpp:150-180] getMember *)
Definition JntArrayTypeInfo_getMember (item : item_source) (id : id_source) : option member :=
  let by_index :=
    match to_int id with
    | Some id_indx => item_member item (fun o => ArrayItem o id_indx) (fun v => ArrayItemCopy v id_indx)
    | None => None
    end in
  match to_string id with
  | Some name =>
      if bool_decide (name = "size") || bool_decide (name = "capacity") then
        match item with OtherType => by_index | _ => Some (ArraySize item) end
      else by_index
  | None => by_index
  end.

(** [boost::lexical_cast<unsigned>]; [None] is an exception. *)
Variable lexical_cast : string -> option Z.

(* [typekits/kdl_typekit/src/kdlTypekitJntArray.cpp:139-148] getMember *)
Definition JntArrayTypeInfo_getMember_name (item : item_source) (name : string) : option member :=
  match lexical_cast name with
  | Some indx => JntArrayTypeInfo_getMember item (IdInt (Constant (smod 32 indx)))
  | None => JntArrayTypeInfo_getMember item (IdString name)
  end.

(* [typekits/kdl_typekit/src/kdlTypekitJntArray.cpp:131-137] getMemberNames *)
Definition JntArrayTypeInfo_getMemberNames : list string := ["size"; "capacity"].

(** The value of a member: a number or a size. Reading may fetch the cell. *)
Definition member_ref (m : member) (s : Store) : option (reference * Store) :=
  match m with
  | ContainerItem size o e => i ← eval_int e s; Some (get_container_item size o i s)
  | ArrayItem o e => i ← eval_int e s; get_item o i s
  | _ => None
  end.

Definition read_member (m : member) (s : Store) : option (D + Z) :=
  match m with
  | ContainerItem _ _ _ | ArrayItem _ _ => '(r, s) ← member_ref m s; inl <$> load_ref r s
  | ContainerItemCopy size v e =>
      i ← eval_int e s; l ← eval_item v s; inl <$> get_container_item_copy size l i
  | ArrayItemCopy v e => i ← eval_int e s; l ← eval_item v s; inl <$> get_item_copy l i
  | ArraySize v => l ← eval_item v s; Some (inr (get_size l))
  end.

(** Assignment goes through the reference; copies cannot be assigned. *)
Definition assignable (m : member) : bool :=
  match m with ContainerItem _ _ _ | ArrayItem _ _ => true | _ => false end.
Definition assign_member (m : member) (x : D) (s : Store) : option Store :=
  '(r, s) ← member_ref m s; store_ref r x s.

(** ** Resizing *)

(** [JntArray::resize], which takes an [unsigned int]. *)
Variable JntArray_resize : Z -> list D -> list D.

(* [typekits/kdl_typekit/src/kdlTypekitJntArray.cpp:120-129] resize *)
Definition JntArrayTypeInfo_resize (arg : item_source) (size : Z) (s : Store) : option (bool * Store) :=
  match arg with
  | Assignable o =>
      l ← objects s !! o;
      Some (true, set_objects (<[o := JntArray_resize (umod 32 size) l]> (objects s)) s)
  | _ => Some (false, s)
  end.

(** ** The members of serialisation *)

(** [a & make_nvp(name, value)]: a number, or the members of a structure. *)
#[warnings="-register-all"]
Inductive nvp := Number (d : D) | Struct (members : list (string * nvp)).

(* [typekits/kdl_typekit/include/orocos/kdl_typekit/typekit/Types.hpp:182-189] serialize *)
Definition nvp_Vector (b : Vector (D := D)) : list (string * nvp) :=
  [("X", Number (vx b)); ("Y", Number (vy b)); ("Z", Number (vz b))].

(** [data[3 * i + j]] is the element [(i, j)]. *)
(* [typekits/kdl_typekit/include/orocos/kdl_typekit/typekit/Types.hpp:90-106] serialize *)
Definition nvp_Rotation (b : Rotation (D := D)) : list (string * nvp) :=
  [("X_x", Number (r00 b)); ("X_y", Number (r10 b)); ("X_z", Number (r20 b));
   ("Y_x", Number (r01 b)); ("Y_y", Number (r11 b)); ("Y_z", Number (r21 b));
   ("Z_x", Number (r02 b)); ("Z_y", Number (r12 b)); ("Z_z", Number (r22 b))].

(* [typekits/kdl_typekit/include/orocos/kdl_typekit/typekit/Types.hpp:52-58] serialize *)
Definition nvp_Frame (b : Frame (D := D)) : list (string * nvp) :=
  [("p", Struct (nvp_Vector (frame_p b))); ("M", Struct (nvp_Rotation (frame_M b)))].

(* [typekits/kdl_typekit/include/orocos/kdl_typekit/typekit/Types.hpp:140-146] serialize *)
Definition nvp_Twist (b : Twist (D := D)) : list (string * nvp) :=
  [("vel", Struct (nvp_Vector (vel b))); ("rot", Struct (nvp_Vector (rot b)))].

(* [typekits/kdl_typekit/include/orocos/kdl_typekit/typekit/Types.hpp:224-230] serialize *)
Definition nvp_Wrench (b : Wrench (D := D)) : list (string * nvp) :=
  [("force", Struct (nvp_Vector (force b))); ("torque", Struct (nvp_Vector (torque b)))].

(* [typekits/kdl_typekit/include/orocos/kdl_typekit/typekit/Types.hpp:407-415] serialize *)
Definition nvp_JntArray (data : list D) : list (string * nvp) :=
  (fun d => ("data", Number d)) <$> data.

(** The members of a property bag, without the names of types. *)
Fixpoint untyped (p : property D) : option nvp :=
  match p with
  | PDouble d => Some (Number d)
  | PInt _ | PString _ => None
  | PBag _ l => Struct <$> mapM (fun e => pair e.1 <$> untyped e.2) l
  end.

(** ** Elements are reached in bounds only *)

(** The element of an object a member refers to. *)
Definition refers_to (m : member) (o : nat) (e : int_source) (l : list D) : Prop :=
  m = ContainerItem (Z.of_nat (length l)) o e \/ (m = ArrayItem o e /\ Z.of_nat (length l) < 2 ^ 31).

Lemma int_rows_small (l : list D) : Z.of_nat (length l) < 2 ^ 31 -> int_rows l = Z.of_nat (length l).
Proof.
  intros Hl. unfold int_rows.
  rewrite (umod_id 32) by (unfold in_u; lia). apply smod_id; [lia|unfold in_s; lia].
Qed.

Lemma member_ref_bounds (m : member) o e l i s :
  refers_to m o e l -> objects s !! o = Some l -> eval_int e s = Some i ->
  member_ref m s = Some (if decide (0 <= i < Z.of_nat (length l))
                         then (Element o (Z.to_nat i), s)
                         else (NaCell, set_na (fetch_na (na_cell s)) s)).
Proof.
  intros Hm Ho He. destruct Hm as [->|[-> Hl]]; cbn; rewrite He; cbn.
  - unfold get_container_item. f_equal.
    destruct (decide (0 <= i < Z.of_nat (length l))).
    + by rewrite !bool_decide_eq_false_2 by lia.
    + destruct (decide (i < 0)); [by rewrite (bool_decide_eq_true_2 (i < 0)), orb_true_r by lia|].
      by rewrite (bool_decide_eq_true_2 (i >= _)) by lia.
  - unfold get_item. rewrite Ho. cbn. rewrite int_rows_small by done. f_equal.
    destruct (decide (0 <= i < Z.of_nat (length l))).
    + by rewrite !bool_decide_eq_false_2 by lia.
    + destruct (decide (i < 0)); [by rewrite (bool_decide_eq_true_2 (i < 0)), orb_true_r by lia|].
      by rewrite (bool_decide_eq_true_2 (i >= _)) by lia.
Qed.

Lemma read_member_ref (m : member) s :
  assignable m = true -> read_member m s = ('(r, s) ← member_ref m s; inl <$> load_ref r s).
Proof. by destruct m. Qed.

(** A member that refers to an element of a vector, twist, wrench or joint array (of less than 2^31 elements), by an index that may be a variable of a script: while the index is inside, reading gives this element as it is now, and an assignment changes this element and nothing else, so that it is read back. While the index is outside, negative indices included, an assignment changes no object at all: reading and writing go to one cell that all such members share. *)
Theorem element_references (m : member) (o : nat) (e : int_source) (l : list D) (i : Z) (s : Store) :
  refers_to m o e l -> objects s !! o = Some l -> eval_int e s = Some i ->
  (0 <= i < Z.of_nat (length l) ->
     exists d, l !! Z.to_nat i = Some d /\ read_member m s = Some (inl d) /\
     forall x, exists s', assign_member m x s = Some s' /\
       objects s' = <[o := <[Z.to_nat i := x]> l]> (objects s) /\
       variables s' = variables s /\ na_cell s' = na_cell s /\ read_member m s' = Some (inl x)) /\
  (~ 0 <= i < Z.of_nat (length l) ->
     read_member m s = Some (inl (fetch_na (na_cell s))) /\
     forall x, exists s', assign_member m x s = Some s' /\
       objects s' = objects s /\ variables s' = variables s /\ na_cell s' = x).
Proof.
  intros Hm Ho He. pose proof (member_ref_bounds m o e l i s Hm Ho He) as Hr.
  assert (assignable m = true) as Ha by (by destruct Hm as [->|[-> _]]).
  unfold assign_member. rewrite read_member_ref, Hr by done. clear Hr. split; intros Hi.
  - rewrite decide_True by done. cbn. rewrite Ho. cbn.
    destruct (lookup_lt_is_Some_2 l (Z.to_nat i)) as [d Hd]; [lia|].
    exists d. rewrite Hd. split_and!; [done..|]. intros x.
    rewrite decide_True by lia. eexists. split_and!; [done..|].
    set (s' := set_objects _ s).
    assert (objects s' !! o = Some (<[Z.to_nat i := x]> l)) as Ho' by apply lookup_insert_eq.
    rewrite read_member_ref by done.
    erewrite (member_ref_bounds m o e (<[Z.to_nat i := x]> l) i s'); [|..|exact He];
      [|by unfold refers_to; rewrite length_insert|exact Ho'].
    rewrite length_insert, decide_True by done. cbn. rewrite lookup_insert_eq. cbn.
    by rewrite list_lookup_insert_eq by lia.
  - rewrite decide_False by done. cbn. split; [done|]. intros x. by eexists.
Qed.

(** What a joint array offers under a name: RTT's conversion of an index data source
    is that source, a string has none, and "size" and "capacity" are not numbers. *)
Hypothesis to_int_IdInt : forall e, to_int (IdInt e) = Some e.
Hypothesis to_int_IdString : forall name, to_int (IdString name) = None.
Hypothesis lexical_cast_range : forall name n, lexical_cast name = Some n -> in_u 32 n.
Hypothesis lexical_cast_names : lexical_cast "size" = None /\ lexical_cast "capacity" = None.

(** A joint array (of less than 2^31 elements) offers as members its size, under each of the names it lists, and an element for each name that is a number: reading gives the element at that index, or a not-available value when the number is not below the size (numbers from 2^31 on, which become negative indices, included). Every other name is refused, and so is every name for an item of another type. *)
Theorem joint_array_members (o : nat) (l : list D) (s : Store) (name : string) :
  objects s !! o = Some l -> Z.of_nat (length l) < 2 ^ 31 ->
  (name ∈ JntArrayTypeInfo_getMemberNames ->
     forall item, item = Assignable o \/ item = Value l ->
     exists m, JntArrayTypeInfo_getMember_name item name = Some m /\ assignable m = false /\
               read_member m s = Some (inr (Z.of_nat (length l)))) /\
  (forall n, lexical_cast name = Some n ->
     exists m c, JntArrayTypeInfo_getMember_name (Assignable o) name = Some m /\ assignable m = true /\
                 JntArrayTypeInfo_getMember_name (Value l) name = Some c /\ assignable c = false /\
                 (n < Z.of_nat (length l) -> exists d, l !! Z.to_nat n = Some d /\
                    read_member m s = Some (inl d) /\ read_member c s = Some (inl d)) /\
                 (Z.of_nat (length l) <= n ->
                    read_member m s = Some (inl (fetch_na (na_cell s))) /\ read_member c s = Some (inl zero))) /\
  (name ∉ JntArrayTypeInfo_getMemberNames -> lexical_cast name = None ->
     forall item, JntArrayTypeInfo_getMember_name item name = None) /\
  JntArrayTypeInfo_getMember_name OtherType name = None.
Proof.
  intros Ho Hl. unfold JntArrayTypeInfo_getMemberNames, JntArrayTypeInfo_getMember_name.
  pose proof (int_rows_small l Hl) as Hrows. destruct lexical_cast_names as [Hs Hc]. split_and!.
  - intros Hn item Hi. rewrite !elem_of_cons, elem_of_nil in Hn. exists (ArraySize item).
    assert (eval_item item s = Some l) as Hev by (by destruct Hi as [->| ->]).
    cbn [read_member]. rewrite Hev. cbn. unfold get_size. rewrite Hrows.
    destruct Hn as [->|[->|[]]]; [rewrite Hs|rewrite Hc]; by destruct Hi as [->| ->].
  - intros n Hn. pose proof (lexical_cast_range _ _ Hn) as Hr. rewrite Hn.
    unfold JntArrayTypeInfo_getMember. rewrite to_int_IdInt. cbn [to_string item_member].
    eexists _, _. split_and!; [done..| |].
    + intros Hlt. rewrite smod_id by (unfold in_s, in_u in *; lia).
      destruct (lookup_lt_is_Some_2 l (Z.to_nat n)) as [d Hd]; [unfold in_u in *; lia|].
      exists d. split_and!; [done| |].
      * by rewrite read_member_ref by done;
        erewrite (member_ref_bounds _ o _ l n s); [|right; done|done|done];
        rewrite decide_True by (unfold in_u in *; lia); cbn; rewrite Ho; cbn; rewrite Hd.
      * cbn. unfold get_item_copy. rewrite Hrows.
        rewrite !bool_decide_eq_false_2 by (unfold in_u in *; lia). cbn. by rewrite Hd.
    + intros Hge. assert (~ 0 <= smod 32 n < Z.of_nat (length l)) as Hout.
      { intros Hin. assert (smod 32 n = n); [|lia]. apply smod_id; [lia|].
        destruct (decide (n < 2 ^ 31)) as [|Hbig]; [unfold in_s, in_u in *; lia|].
        exfalso. unfold in_u in *. unfold smod in Hin.
        rewrite <- (Z.mod_add _ (-1)) in Hin by lia. rewrite Z.mod_small in Hin; lia. }
      split.
      * by rewrite read_member_ref by done;
        erewrite (member_ref_bounds _ o _ l _ s); [|right; done|done|done];
        rewrite decide_False by done.
      * cbn. unfold get_item_copy. rewrite Hrows. set (k := smod 32 n) in *.
        destruct (decide (k < 0)); [rewrite (bool_decide_eq_true_2 (k < 0)), orb_true_r by lia; done|].
        by rewrite (bool_decide_eq_true_2 (k >= _)) by lia.
  - intros Hn Hl' item. rewrite Hl'. unfold JntArrayTypeInfo_getMember. rewrite to_int_IdString.
    cbn [to_string]. rewrite !elem_of_cons, elem_of_nil in Hn.
    by rewrite !bool_decide_eq_false_2 by naive_solver.
  - destruct (lexical_cast name) as [n|]; unfold JntArrayTypeInfo_getMember;
      rewrite ?to_int_IdInt, ?to_int_IdString; cbn; [done|]. by destruct (_ || _).
Qed.

(** ** Composition from a property bag *)

(** RTT's [composePropertyBag(source, target)], [typeDecomposition] of the array and
    [refreshProperties(decomp, target)], which writes the array [decomp] refers to. *)
Variable composePropertyBag : bag D -> bag D -> bool * bag D.
Variable typeDecomposition : list D -> bool * bag D.
Variable refreshProperties : bag D -> bag D -> list D -> bool * list D.

Definition int_property (p : property D) : option Z :=
  match p with PInt n => Some n | _ => None end.

(** The array is resized for the entry "Size" or "size", or for the number of entries. *)
Definition resize_for (source : bag D) (result : list D) : list D :=
  let sz := match find_prop "Size" source with Some p => Some p | None => find_prop "size" source end in
  match sz with
  | Some p => match int_property p with
              | Some n => JntArray_resize (umod 32 n) result
              | None => result
              end
  | None => JntArray_resize (umod 32 (Z.of_nat (length (items source)))) result
  end.

(** Whether it succeeds and what the array is then; [None]: an assertion fails. *)
(* [typekits/kdl_typekit/src/kdlTypekitJntArray.cpp:66-109] composeType *)
Definition JntArrayTypeInfo_composeType (dssource : option (bag D)) (dsresult : option (list D)) :
    option (bool * option (list D)) :=
  match dssource, dsresult with
  | Some source, Some result =>
      let result := resize_for source result in
      let '(ok, target) := composePropertyBag source (MkBag (getType source) []) in
      if ok : bool then
        let '(ok, decomp) := typeDecomposition result in
        if (ok : bool) && bool_decide (getType decomp = getType target) then
          let '(ok, result) := refreshProperties decomp target result in
          if ok : bool then
            if decide (umod 32 (Z.of_nat (length result)) = Z.of_nat (length (items source)) /\
                       length (items source) = length (items target) /\
                       length (items source) = length (items decomp))
            then Some (true, Some result)
            else None
          else Some (false, Some result)
        else Some (false, Some result)
      else Some (false, Some result)
  | _, _ => Some (false, dsresult)
  end.

Hypothesis length_resize : forall n l, 0 <= n -> Z.of_nat (length (JntArray_resize n l)) = n.
Hypothesis refresh_length : forall decomp target l, length (refreshProperties decomp target l).2 = length l.

Lemma composeType_result (source : bag D) (l : list D) res :
  JntArrayTypeInfo_composeType (Some source) (Some l) = Some res ->
  exists b l', res = (b, Some l') /\ length l' = length (resize_for source l) /\
    (b = true -> umod 32 (Z.of_nat (length l')) = Z.of_nat (length (items source))).
Proof.
  unfold JntArrayTypeInfo_composeType. set (r := resize_for source l).
  destruct (composePropertyBag source _) as [[] target]; [|intros [= <-]; by eexists _, _].
  destruct (typeDecomposition r) as [ok decomp].
  destruct (ok && _); [|intros [= <-]; by eexists _, _].
  pose proof (refresh_length decomp target r) as Hr.
  destruct (refreshProperties decomp target r) as [[] r']; cbn in Hr.
  - destruct (decide _) as [(Hn & _)|]; intros [= <-]. by eexists _, _.
  - intros [= <-]. by eexists _, _.
Qed.

(** Composing a joint array from a property bag with an entry "Size" never succeeds unless the size it gives is the number of all entries of the bag, itself included: for the size and that many elements, which is what the entry is for, an assertion fails or the composition is refused; in each case the array has already been resized. Without entries "Size" and "size" the array gets the number of the entries, and that is its size when the composition succeeds. *)
Theorem compose_sized_bag (source : bag D) (l : list D) :
  (forall n, find_prop "Size" source = Some (PInt n) -> 0 <= n < 2 ^ 32 ->
     n <> Z.of_nat (length (items source)) ->
     JntArrayTypeInfo_composeType (Some source) (Some l) = None \/
     exists l', JntArrayTypeInfo_composeType (Some source) (Some l) = Some (false, Some l') /\
                Z.of_nat (length l') = n) /\
  (forall l', find_prop "Size" source = None -> find_prop "size" source = None ->
     JntArrayTypeInfo_composeType (Some source) (Some l) = Some (true, Some l') ->
     Z.of_nat (length l') = umod 32 (Z.of_nat (length (items source)))).
Proof.
  split.
  - intros n Hf Hn Hne.
    assert (Z.of_nat (length (resize_for source l)) = n) as Hr.
    { unfold resize_for. rewrite Hf. cbn. rewrite umod_id by done. apply length_resize; unfold in_u in *; lia. }
    destruct (JntArrayTypeInfo_composeType _ _) as [res|] eqn:E; [right|by left].
    destruct (composeType_result source l res E) as (b & l' & -> & Hl & Hb).
    exists l'. rewrite Hl. split; [|done]. destruct b; [|done].
    specialize (Hb eq_refl). rewrite Hl, Hr, umod_id in Hb by done. done.
  - intros l' HS Hs E. destruct (composeType_result source l _ E) as (b & l'' & [= <- <-] & Hl & _).
    rewrite Hl. unfold resize_for. rewrite HS, Hs. apply length_resize. apply umod_in_u. lia.
Qed.

(** ** Serialised members and property bags agree *)

(** The members under which a vector, twist or wrench is serialised, and which scripts see, are the entries of its property bag: the same names in the same order, with the same values, down to the numbers of nested structures. Rotations are written to property bags as angles, under names that no member has; the members are the entries of the bag with the nine numbers, which is only read. *)
Theorem members_agree_with_bags {KA : KdlAngles D} (v : Vector (D := D)) (r : Rotation (D := D)) (t : Twist (D := D)) (w : Wrench (D := D)) :
  untyped (PSub (decompose_Vector v empty_bag)) = Some (Struct (nvp_Vector v)) /\
  untyped (PSub (decompose_Twist t empty_bag)) = Some (Struct (nvp_Twist t)) /\
  untyped (PSub (decompose_Wrench w empty_bag)) = Some (Struct (nvp_Wrench w)) /\
  untyped (PSub (RotationDecomposer r)) = Some (Struct (nvp_Rotation r)) /\
  (forall n, n ∈ (items (decompose_Rotation r empty_bag)).*1 -> n ∉ (nvp_Rotation r).*1).
Proof.
  split_and!; [reflexivity..|]. unfold decompose_Rotation, RPYDecomposer. destruct (GetRPY r) as [[a p] y].
  intros n Hn. change (n ∈ ["R"; "P"; "Y"]) in Hn.
  change (n ∉ ["X_x"; "X_y"; "X_z"; "Y_x"; "Y_y"; "Y_z"; "Z_x"; "Z_y"; "Z_z"]).
  revert n Hn. apply Forall_forall. apply (bool_decide_unpack _). vm_compute. exact I.
Qed.
End Members.

(** ** Type info objects and the overloads they call *)

(** The overloads of [decomposeProperty] and [composeProperty] for a type, and what a
    type promises: what comes back of a value that is decomposed and composed. *)
Class PropertyConversion (D T : Type) := {
  decomposeProperty : T -> bag D -> bag D;
  composeProperty : bag D -> T -> bool * T }.
Class PropertyConversionLaw {D T} (P : PropertyConversion D T) (image : T -> T) :=
  composed_back (x y : T) : composeProperty (decomposeProperty x empty_bag) y = (true, image x).

Section TypeInfo.
Context {D T : Type} {P : PropertyConversion D T}.

(* [typekits/kdl_typekit/src/kdlTypekit.hpp:131-134] decomposeTypeImpl *)
Definition KDLVectorTypeInfo_decomposeTypeImpl (source : T) (targetbag : bag D) : bool * bag D :=
  (true, decomposeProperty source targetbag).
(* [typekits/kdl_typekit/src/kdlTypekit.hpp:136-138] composeTypeImpl *)
Definition KDLVectorTypeInfo_composeTypeImpl (source : bag D) (result : T) : bool * T :=
  composeProperty source result.
(* [typekits/kdl_typekit/src/kdlTypekit.hpp:170-173] decomposeTypeImpl *)
Definition KDLTypeInfo_decomposeTypeImpl (source : T) (targetbag : bag D) : bool * bag D :=
  (true, decomposeProperty source targetbag).
(* [typekits/kdl_typekit/src/kdlTypekit.hpp:175-177] composeTypeImpl *)
Definition KDLTypeInfo_composeTypeImpl (source : bag D) (result : T) : bool * T :=
  composeProperty source result.

(** What RTT does to write a property of this type to a file and read it back. *)
Lemma type_info_roundtrip {image} {L : PropertyConversionLaw P image} (x y : T) :
  let '(ok, b) := KDLTypeInfo_decomposeTypeImpl x empty_bag in
  ok = true /\ KDLTypeInfo_composeTypeImpl b y = (true, image x).
Proof. cbn. split; [done|apply composed_back]. Qed.
End TypeInfo.

(** The types of [KdlProperties]; chains have conversions, but keep no promise. *)
Section Overloads.
Context {D : Type} {KA : KdlAngles D}.

#[export] Instance Vector_conversion : PropertyConversion D (Vector (D := D)) :=
  {| decomposeProperty := decompose_Vector; composeProperty := compose_Vector |}.
#[export] Instance Rotation_conversion : PropertyConversion D (Rotation (D := D)) :=
  {| decomposeProperty := decompose_Rotation; composeProperty := compose_Rotation |}.
#[export] Instance Twist_conversion : PropertyConversion D (Twist (D := D)) :=
  {| decomposeProperty := decompose_Twist; composeProperty := compose_Twist |}.
#[export] Instance Wrench_conversion : PropertyConversion D (Wrench (D := D)) :=
  {| decomposeProperty := decompose_Wrench; composeProperty := compose_Wrench |}.
#[export] Instance Frame_conversion : PropertyConversion D (Frame (D := D)) :=
  {| decomposeProperty := decompose_Frame; composeProperty := compose_Frame |}.

#[export] Instance Vector_law : PropertyConversionLaw Vector_conversion id.
Proof. by intros [] y. Qed.
#[export] Instance Rotation_law : PropertyConversionLaw Rotation_conversion rotation_image.
Proof. intros x y. apply compose_Rotation_decomposed. Qed.
#[export] Instance Twist_law : PropertyConversionLaw Twist_conversion id.
Proof. by intros [[] []] y. Qed.
#[export] Instance Wrench_law : PropertyConversionLaw Wrench_conversion id.
Proof. by intros [[] []] y. Qed.
#[export] Instance Frame_law : PropertyConversionLaw Frame_conversion frame_image.
Proof. intros x y. apply compose_Frame_decomposed. Qed.
End Overloads.

(** ** The theorems at work *)

Module Witnesses.

Definition a_store : Store (D := Z) := MkStore {[ 1%nat := [10; 20; 30] ]} {[ 5%nat := 2 ]} 99.

(** RTT's cell keeps what was written to it. *)
Lemma element_references_witness :
  (exists s', assign_member id (ContainerItem 3 1%nat (Variable_ 5%nat)) 7 a_store = Some s' /\
              objects s' = {[ 1%nat := [10; 20; 7] ]}) /\
  read_member 0 id (ArrayItem 1%nat (Constant (-1))) a_store = Some (inl 99).
Proof.
  destruct (element_references 0 id (ContainerItem 3 1%nat (Variable_ 5%nat)) 1%nat (Variable_ 5%nat)
              [10; 20; 30] 2 a_store) as [H _]; [by left|reflexivity..|].
  destruct (element_references 0 id (ArrayItem 1%nat (Constant (-1))) 1%nat (Constant (-1))
              [10; 20; 30] (-1) a_store) as [_ H']; [by right|reflexivity..|].
  destruct H as (d & _ & _ & H); [cbn; lia|]. destruct (H 7) as (s' & E & Ho & _).
  split; [|apply H'; cbn; lia]. exists s'. split; [exact E|]. rewrite Ho. reflexivity.
Defined.

Definition ref_to_int (i : id_source) : option int_source :=
  match i with IdInt e => Some e | _ => None end.
(** One-digit numbers are enough here. *)
Definition ref_lexical_cast (name : string) : option Z :=
  match name with "0" => Some 0 | "1" => Some 1 | "2" => Some 2 | "3" => Some 3 | _ => None end.

Lemma joint_array_members_witness :
  exists m, JntArrayTypeInfo_getMember_name ref_to_int ref_lexical_cast (Assignable (D := Z) 1%nat) "size" = Some m /\
            read_member 0 id m a_store = Some (inr 3).
Proof.
  destruct (joint_array_members 0 id ref_to_int ref_lexical_cast) with (o := 1%nat) (l := [10; 20; 30])
    (s := a_store) (name := "size") as (H & _).
  - reflexivity.
  - reflexivity.
  - unfold ref_lexical_cast, in_u. intros name n Hn. repeat case_match; simplify_eq; lia.
  - split; reflexivity.
  - reflexivity.
  - reflexivity.
  - destruct (H ltac:(by left) (Assignable 1%nat) ltac:(by left)) as (m & E & _ & R). exists m. split; [exact E|exact R].
Defined.

Definition ref_resize (n : Z) (l : list Z) : list Z := take (Z.to_nat n) l ++ replicate (Z.to_nat n - length l) 0.
Definition a_sized_bag : bag Z := MkBag "KDL.JntArray" [("Size", PInt 2); ("0", PDouble 4); ("1", PDouble 5)].

Lemma compose_sized_bag_witness :
  JntArrayTypeInfo_composeType ref_resize (fun source _ => (true, source))
    (fun l => (true, a_sized_bag)) (fun _ _ l => (true, l)) (Some a_sized_bag) (Some [1]) = None.
Proof.
  destruct (compose_sized_bag ref_resize (fun source _ => (true, source)) (fun l => (true, a_sized_bag))
    (fun _ _ l => (true, l))) with (source := a_sized_bag) (l := [1]) as [H _].
  - intros n l Hn. unfold ref_resize. rewrite length_app, length_take, length_replicate. lia.
  - reflexivity.
  - destruct (H 2) as [E|(l' & E & _)]; [reflexivity|lia|discriminate|exact E|].
    vm_compute in E. discriminate E.
Defined.

End Witnesses.
