(* ===== verification/KdlTypekit.v ===== *)
(** Package [kdl_typekit], the plugin: registered types ([kdlTypekit.cpp] and
    [kdlTypekit<Type>.cpp]), constructors and their functions
    ([kdlTypekitConstructors.cpp]), operators and global operations
    ([kdlTypekitOperators.cpp]).

    The type repository is the interface of [RttTypes], with names as keys; the
    operator repository and the global service are classes. The functions of KDL that
    are only registered are named, not defined. *)

From S2P Require Import Prelude RttTypes KdlProperties KdlMembers KdlTransports.
Local Open Scope string_scope.
Local Open Scope list_scope.
Local Open Scope Z_scope.

(** ** The functions scripts construct values with *)

Section Functions.
Context {D : Type}.
(** [Rotation::RPY], [Rotation::Rot], [GetRPY] and the inverses of KDL; [0.0]. *)
Variable RPY : D -> D -> D -> Rotation (D := D).
Variable Rot : Vector (D := D) -> D -> Rotation (D := D).
Variable GetRPY : Rotation (D := D) -> D * D * D.
Variable Rotation_Inverse : Rotation (D := D) -> Rotation (D := D).
Variable Frame_Inverse : Frame (D := D) -> Frame (D := D).
Variable Rotation_GetQuaternion : Rotation (D := D) -> D * D * D * D.
Variable zero : D.

(* [typekits/kdl_typekit/src/kdlTypekitConstructors.cpp:4-7] framevr *)
Definition framevr (v : Vector (D := D)) (r : Rotation (D := D)) : Frame := MkFrame r v.
(* [typekits/kdl_typekit/src/kdlTypekitConstructors.cpp:8-11] framerv *)
Definition framerv (r : Rotation (D := D)) (v : Vector (D := D)) : Frame := MkFrame r v.
(* [typekits/kdl_typekit/src/kdlTypekitConstructors.cpp:14-17] wrenchft *)
Definition wrenchft (f t : Vector (D := D)) : Wrench := MkWrench f t.
(* [typekits/kdl_typekit/src/kdlTypekitConstructors.cpp:19-22] twistvw *)
Definition twistvw (trans r : Vector (D := D)) : Twist := MkTwist trans r.
(* [typekits/kdl_typekit/src/kdlTypekitConstructors.cpp:24-27] vectorxyz *)
Definition vectorxyz (a b c : D) : Vector := MkVector a b c.
(* [typekits/kdl_typekit/src/kdlTypekitConstructors.cpp:172-175] rotationAngleAxis *)
Definition rotationAngleAxis (axis : Vector (D := D)) (angle : D) : Rotation := Rot axis angle.

(** A twist or wrench is its six numbers. *)
(* [typekits/kdl_typekit/src/kdlTypekitConstructors.cpp:31-42] wrenchtwist_index *)
Definition wrenchtwist_index (w : list D) (index : Z) : option D :=
  if bool_decide (index > 5) || bool_decide (index < 0) then Some zero else w !! Z.to_nat index.
(* [typekits/kdl_typekit/src/kdlTypekitConstructors.cpp:44-54] vector_index *)
Definition vector_index (v : list D) (index : Z) : option D :=
  if bool_decide (index > 2) || bool_decide (index < 0) then Some zero else v !! Z.to_nat index.
(* [typekits/kdl_typekit/src/kdlTypekitConstructors.cpp:57-65] vector_dot *)
Definition vector_dot (I : nat) (v : list D) : option D := v !! I.
(* [typekits/kdl_typekit/src/kdlTypekitConstructors.cpp:67-74] twist_rot *)
Definition twist_rot (t : Twist (D := D)) : Vector := rot t.
(* [typekits/kdl_typekit/src/kdlTypekitConstructors.cpp:76-83] twist_vel *)
Definition twist_vel (t : Twist (D := D)) : Vector := vel t.
(* [typekits/kdl_typekit/src/kdlTypekitConstructors.cpp:85-92] wrench_torque *)
Definition wrench_torque (t : Wrench (D := D)) : Vector := torque t.
(* [typekits/kdl_typekit/src/kdlTypekitConstructors.cpp:94-101] wrench_force *)
Definition wrench_force (t : Wrench (D := D)) : Vector := force t.
(* [typekits/kdl_typekit/src/kdlTypekitConstructors.cpp:103-110] frame_pos *)
Definition frame_pos (f : Frame (D := D)) : Vector := frame_p f.
(* [typekits/kdl_typekit/src/kdlTypekitConstructors.cpp:112-119] frame_rot *)
Definition frame_rot (f : Frame (D := D)) : Rotation := frame_M f.
(* [typekits/kdl_typekit/src/kdlTypekitConstructors.cpp:121-128] frame_inv *)
Definition frame_inv (f : Frame (D := D)) : Frame := Frame_Inverse f.
(* [typekits/kdl_typekit/src/kdlTypekitConstructors.cpp:130-139] rotation_roll *)
Definition rotation_roll (r : Rotation (D := D)) : D := let '(roll, p, y) := GetRPY r in roll.
(* [typekits/kdl_typekit/src/kdlTypekitConstructors.cpp:141-150] rotation_pitch *)
Definition rotation_pitch (r : Rotation (D := D)) : D := let '(roll, p, y) := GetRPY r in p.
(* [typekits/kdl_typekit/src/kdlTypekitConstructors.cpp:152-161] rotation_yaw *)
Definition rotation_yaw (r : Rotation (D := D)) : D := let '(roll, p, y) := GetRPY r in y.
(* [typekits/kdl_typekit/src/kdlTypekitConstructors.cpp:163-170] rotation_inv *)
Definition rotation_inv (r : Rotation (D := D)) : Rotation := Rotation_Inverse r.

(* [typekits/kdl_typekit/src/kdlTypekitOperators.cpp:6-8] Inverse *)
Definition Inverse_Rotation (r : Rotation (D := D)) : Rotation := Rotation_Inverse r.
(* [typekits/kdl_typekit/src/kdlTypekitOperators.cpp:10-12] Inverse *)
Definition Inverse_Frame (f : Frame (D := D)) : Frame := Frame_Inverse f.
(** The four numbers are reference arguments. *)
(* [typekits/kdl_typekit/src/kdlTypekitOperators.cpp:14-16] GetQuaternion *)
Definition GetQuaternion (r : Rotation (D := D)) : D * D * D * D := Rotation_GetQuaternion r.

(** ** Values and constructors *)

Inductive kdl_constructor :=
| c_vectorxyz | c_RPY | c_rotationAngleAxis | c_framerv | c_framevr | c_wrenchft | c_twistvw.
#[local] Instance kdl_constructor_eq_dec : EqDecision kdl_constructor.
Proof. solve_decision. Defined.

Inductive kdl_value :=
| VDouble (d : D) | VVector (v : Vector (D := D)) | VRotation (r : Rotation (D := D))
| VFrame (f : Frame (D := D)) | VWrench (w : Wrench (D := D)) | VTwist (t : Twist (D := D)).

(** The name RTT knows the type of a value by. *)
Definition value_type (v : kdl_value) : string :=
  match v with
  | VDouble _ => "double" | VVector _ => "KDL.Vector" | VRotation _ => "KDL.Rotation"
  | VFrame _ => "KDL.Frame" | VWrench _ => "KDL.Wrench" | VTwist _ => "KDL.Twist"
  end.

(** The call of a constructor; [None] for arguments of other types. *)
Definition construct (c : kdl_constructor) (args : list kdl_value) : option kdl_value :=
  match c, args with
  | c_vectorxyz, [VDouble a; VDouble b; VDouble c] => Some (VVector (vectorxyz a b c))
  | c_RPY, [VDouble r; VDouble p; VDouble y] => Some (VRotation (RPY r p y))
  | c_rotationAngleAxis, [VVector axis; VDouble angle] => Some (VRotation (rotationAngleAxis axis angle))
  | c_framerv, [VRotation r; VVector v] => Some (VFrame (framerv r v))
  | c_framevr, [VVector v; VRotation r] => Some (VFrame (framevr v r))
  | c_wrenchft, [VVector f; VVector t] => Some (VWrench (wrenchft f t))
  | c_twistvw, [VVector t; VVector r] => Some (VTwist (twistvw t r))
  | _, _ => None
  end.
End Functions.

(** ** The registrations *)

Definition kdl_newConstructor (c : kdl_constructor) (args : list string) :
  TypeConstructor string kdl_constructor := newConstructor c args false.

Section Plugin.
Context `{TR : TypeRepository string kdl_constructor}.

(* [typekits/kdl_typekit/src/kdlTypekitChain.cpp:18-22] loadChainTypes *)
Definition loadChainTypes : Types -> Types := add_types ["KDL.Chain"; "KDL.Chain[]"; "KDL.cChain[]"].
(* [typekits/kdl_typekit/src/kdlTypekitFrame.cpp:28-32] loadFrameTypes *)
Definition loadFrameTypes : Types -> Types := add_types ["KDL.Frame"; "KDL.Frame[]"; "KDL.cFrame[]"].
(* [typekits/kdl_typekit/src/kdlTypekitJacobian.cpp:18-22] loadJacobianTypes *)
Definition loadJacobianTypes : Types -> Types :=
  add_types ["KDL.Jacobian"; "KDL.Jacobian[]"; "KDL.cJacobian[]"].
(** Its base installs first: [TemplateTypeInfo] is a [PrimitiveTypeInfo] with streams. *)
(* [typekits/kdl_typekit/src/kdlTypekitJntArray.cpp:50-60] installTypeInfoObject *)
Definition JntArrayTypeInfo_installTypeInfoObject (r : Types) : bool * Types :=
  (false, setMemberFactory "KDL.JntArray" (PrimitiveTypeInfo_installTypeInfoObject "KDL.JntArray" r)).
(* [typekits/kdl_typekit/src/kdlTypekitJntArray.cpp:184-188] loadJntArrayTypes *)
Definition loadJntArrayTypes (r : Types) : Types :=
  let '(_, r) := JntArrayTypeInfo_installTypeInfoObject (addType "KDL.JntArray" r) in
  add_types ["KDL.JntArray[]"; "KDL.cJntArray[]"] r.
(* [typekits/kdl_typekit/src/kdlTypekitJoint.cpp:18-22] loadJointTypes *)
Definition loadJointTypes : Types -> Types := add_types ["KDL.Joint"; "KDL.Joint[]"; "KDL.cJoint[]"].
(* [typekits/kdl_typekit/src/kdlTypekitRotation.cpp:28-32] loadRotationTypes *)
Definition loadRotationTypes : Types -> Types :=
  add_types ["KDL.Rotation"; "KDL.Rotation[]"; "KDL.cRotation[]"].
(* [typekits/kdl_typekit/src/kdlTypekitSegment.cpp:18-22] loadSegmentTypes *)
Definition loadSegmentTypes : Types -> Types := add_types ["KDL.Segment"; "KDL.Segment[]"; "KDL.cSegment[]"].
(* [typekits/kdl_typekit/src/kdlTypekitTwist.cpp:28-32] loadTwistTypes *)
Definition loadTwistTypes : Types -> Types := add_types ["KDL.Twist"; "KDL.Twist[]"; "KDL.cTwist[]"].
(* [typekits/kdl_typekit/src/kdlTypekitVector.cpp:28-32] loadVectorTypes *)
Definition loadVectorTypes : Types -> Types := add_types ["KDL.Vector"; "KDL.Vector[]"; "KDL.cVector[]"].
(* [typekits/kdl_typekit/src/kdlTypekitWrench.cpp:28-32] loadWrenchTypes *)
Definition loadWrenchTypes : Types -> Types := add_types ["KDL.Wrench"; "KDL.Wrench[]"; "KDL.cWrench[]"].

(* [typekits/kdl_typekit/src/kdlTypekit.cpp:66-80] loadTypes *)
Definition kdl_loadTypes (r : Types) : bool * Types :=
  let r := loadChainTypes r in
  let r := loadFrameTypes r in
  let r := loadJacobianTypes r in
  let r := loadJntArrayTypes r in
  let r := loadJointTypes r in
  let r := loadRotationTypes r in
  let r := loadSegmentTypes r in
  let r := loadTwistTypes r in
  let r := loadVectorTypes r in
  let r := loadWrenchTypes r in
  (true, r).

(** The constructors that are registered, and the functions added to the global
    service "KDL.Rotation". *)
Definition kdl_constructors : list (string * TypeConstructor string kdl_constructor) :=
  [("KDL.Vector", kdl_newConstructor c_vectorxyz ["double"; "double"; "double"]);
   ("KDL.Rotation", kdl_newConstructor c_RPY ["double"; "double"; "double"]);
   ("KDL.Rotation", kdl_newConstructor c_rotationAngleAxis ["KDL.Vector"; "double"]);
   ("KDL.Frame", kdl_newConstructor c_framerv ["KDL.Rotation"; "KDL.Vector"]);
   ("KDL.Frame", kdl_newConstructor c_framevr ["KDL.Vector"; "KDL.Rotation"]);
   ("KDL.Wrench", kdl_newConstructor c_wrenchft ["KDL.Vector"; "KDL.Vector"]);
   ("KDL.Twist", kdl_newConstructor c_twistvw ["KDL.Vector"; "KDL.Vector"])].

(** The global service: the operations that were added, in order, by the path of their
    service and their name, with the types of their result and arguments. *)
Record operation := MkOperation { op_result : string; op_arguments : list string }.
Definition GlobalService : Type := list (list string * string * operation).
Definition addOperation (path : list string) (name : string) (res : string) (args : list string)
    (gs : GlobalService) : GlobalService := gs ++ [(path, name, MkOperation res args)].

(* [typekits/kdl_typekit/src/kdlTypekitConstructors.cpp:177-220] loadConstructors *)
Definition kdl_loadConstructors (r : Types) (gs : GlobalService) : option (bool * Types * GlobalService) :=
  r ← add_constructors kdl_constructors r;
  let op name args := addOperation ["KDL"; "Rotation"] name "KDL.Rotation" args in
  let gs := op "RotX" ["double"] gs in
  let gs := op "RotY" ["double"] gs in
  let gs := op "RotZ" ["double"] gs in
  let gs := op "RPY" ["double"; "double"; "double"] gs in
  let gs := op "EulerZYX" ["double"; "double"; "double"] gs in
  let gs := op "EulerZYZ" ["double"; "double"; "double"] gs in
  let gs := op "Quaternion" ["double"; "double"; "double"; "double"] gs in
  Some (true, r, gs).

(** [newBinaryOperator(s, std::equal_to<T>())] and the others that work on one type,
    and [multiplies3<R, A, B>], [divides3<R, A, B>]. *)
Definition compare_op (s t : string) : operator string := MkOperator s [t; t] "bool".
Definition same_op (s t : string) : operator string := MkOperator s [t; t] t.
Definition unary_op (s t : string) : operator string := MkOperator s [t] t.
Definition op3 (s r a b : string) : operator string := MkOperator s [a; b] r.

(* [typekits/kdl_typekit/src/kdlTypekitOperators.cpp:18-73] loadOperators *)
Definition kdl_loadOperators (oreg : list (operator string)) (gs : GlobalService) : bool * list (operator string) * GlobalService :=
  let oreg := oreg ++
    [compare_op "==" "KDL.Frame"; compare_op "!=" "KDL.Frame";
     compare_op "==" "KDL.Vector"; compare_op "!=" "KDL.Vector";
     compare_op "==" "KDL.Rotation"; compare_op "!=" "KDL.Rotation";
     compare_op "==" "KDL.Wrench"; compare_op "!=" "KDL.Wrench";
     compare_op "==" "KDL.Twist"; compare_op "!=" "KDL.Twist";
     unary_op "-" "KDL.Vector";
     same_op "*" "KDL.Vector"; same_op "*" "KDL.Frame"; same_op "*" "KDL.Rotation";
     same_op "+" "KDL.Vector"; same_op "-" "KDL.Vector";
     same_op "+" "KDL.Wrench"; same_op "-" "KDL.Wrench";
     same_op "+" "KDL.Twist"; same_op "-" "KDL.Twist";
     op3 "*" "KDL.Vector" "int" "KDL.Vector"; op3 "*" "KDL.Vector" "KDL.Vector" "int";
     op3 "*" "KDL.Vector" "double" "KDL.Vector"; op3 "*" "KDL.Vector" "KDL.Vector" "double";
     op3 "*" "KDL.Wrench" "KDL.Frame" "KDL.Wrench"; op3 "*" "KDL.Twist" "KDL.Frame" "KDL.Twist";
     op3 "*" "KDL.Vector" "KDL.Frame" "KDL.Vector"; op3 "*" "KDL.Vector" "KDL.Rotation" "KDL.Vector";
     op3 "/" "KDL.Vector" "KDL.Vector" "double"; op3 "/" "KDL.Wrench" "KDL.Wrench" "double";
     op3 "/" "KDL.Twist" "KDL.Twist" "double"] in
  let add service := addOperation ["KDL"; service] in
  let gs := add "Vector" "diff" "KDL.Vector" ["KDL.Vector"; "KDL.Vector"; "double"] gs in
  let gs := add "Vector" "addDelta" "KDL.Vector" ["KDL.Vector"; "KDL.Vector"; "double"] gs in
  let gs := add "Rotation" "diff" "KDL.Vector" ["KDL.Rotation"; "KDL.Rotation"; "double"] gs in
  let gs := add "Rotation" "addDelta" "KDL.Rotation" ["KDL.Rotation"; "KDL.Vector"; "double"] gs in
  let gs := add "Rotation" "Inverse" "KDL.Rotation" ["KDL.Rotation"] gs in
  let gs := add "Rotation" "GetQuaternion" "void" ["KDL.Rotation"; "double"; "double"; "double"; "double"] gs in
  let gs := add "Twist" "diff" "KDL.Twist" ["KDL.Twist"; "KDL.Twist"; "double"] gs in
  let gs := add "Wrench" "diff" "KDL.Wrench" ["KDL.Wrench"; "KDL.Wrench"; "double"] gs in
  let gs := add "Frame" "diff" "KDL.Twist" ["KDL.Frame"; "KDL.Frame"; "double"] gs in
  let gs := add "Frame" "addDelta" "KDL.Frame" ["KDL.Frame"; "KDL.Twist"; "double"] gs in
  let gs := add "Frame" "Inverse" "KDL.Frame" ["KDL.Frame"] gs in
  (true, oreg, gs).

(** RTT loads a typekit in this order; [None] is a crash. *)
Definition load_kdl (r : Types) (oreg : list (operator string)) (gs : GlobalService) :
    option (Types * list (operator string) * GlobalService) :=
  let '(_, r) := kdl_loadTypes r in
  '(_, r, gs) ← kdl_loadConstructors r gs;
  let '(_, oreg, gs) := kdl_loadOperators oreg gs in
  Some (r, oreg, gs).
End Plugin.

(** ** Loading *)

(** All names the plugin registers. *)
Definition kdl_names : list string :=
  t ← ["Chain"; "Frame"; "Jacobian"; "JntArray"; "Joint"; "Rotation"; "Segment"; "Twist"; "Vector"; "Wrench"];
  ["KDL." +:+ t; "KDL." +:+ t +:+ "[]"; "KDL.c" +:+ t +:+ "[]"].

Section Loading.
Context {TR : TypeRepository string kdl_constructor} {TRL : TypeRepositoryLaws TR}.
Context {D : Type} (RPY : D -> D -> D -> Rotation (D := D)) (Rot : Vector (D := D) -> D -> Rotation (D := D)).

(** The calls of the loader, in order. *)
Definition kdl_steps : list (step string kdl_constructor) :=
  t ← ["Chain"; "Frame"; "Jacobian"; "JntArray"; "Joint"; "Rotation"; "Segment"; "Twist"; "Vector"; "Wrench"];
  (AddType ("KDL." +:+ t) :: if decide (t = "JntArray") then [Install "KDL.JntArray"; SetMemberFactory "KDL.JntArray"] else [])
  ++ [AddType ("KDL." +:+ t +:+ "[]"); AddType ("KDL.c" +:+ t +:+ "[]")].

Lemma kdl_loadTypes_grows (r : Types) : grows (MkAdditions kdl_names [] ["KDL.JntArray"]) r (kdl_loadTypes r).2.
Proof. exact (run_steps_grows kdl_steps r). Qed.

Lemma kdl_loadTypes_known (r : Types) n :
  getTypeInfo (kdl_loadTypes r).2 n = bool_decide (n ∈ kdl_names) || getTypeInfo r n.
Proof. apply (kdl_loadTypes_grows r n). Qed.
Lemma kdl_loadTypes_constructors (r : Types) n : constructors (kdl_loadTypes r).2 n = constructors r n.
Proof. destruct (kdl_loadTypes_grows r n) as (_ & -> & _). apply app_nil_r. Qed.

(** No two constructors of a type, operators of a symbol or operations of a service
    have the same argument types (or name). *)
Definition constructor_key (e : string * TypeConstructor string kdl_constructor) : string * list string :=
  (e.1, arguments e.2).

(** What the three loaders register in empty repositories. *)
Definition kdl_operators : list (operator string) := (kdl_loadOperators [] []).1.2.

(** The functions added to the global service by [kdl_loadConstructors]. *)
Lemma kdl_loadConstructors_spec (r : Types) (gs : GlobalService) :
  (forall e, e ∈ kdl_constructors -> getTypeInfo r e.1 = true) ->
  exists r' ops, kdl_loadConstructors r gs = Some (true, r', gs ++ ops) /\
    (forall t, getTypeInfo r' t = getTypeInfo r t) /\
    (forall t, constructors r' t = constructors r t ++ registered_for t kdl_constructors) /\
    fst <$> ops = pair ["KDL"; "Rotation"] <$>
      ["RotX"; "RotY"; "RotZ"; "RPY"; "EulerZYX"; "EulerZYZ"; "Quaternion"].
Proof.
  intros Hk. destruct (add_constructors_known kdl_constructors r Hk) as (r' & E & K & C).
  unfold kdl_loadConstructors. rewrite E. cbn [mbind option_bind]. unfold addOperation.
  rewrite <- !app_assoc. eexists _, _. split_and!; [reflexivity|exact K|exact C|reflexivity].
Qed.

Lemma kdl_loadOperators_spec (oreg : list (operator string)) (gs : GlobalService) :
  exists ops, kdl_loadOperators oreg gs = (true, oreg ++ kdl_operators, gs ++ ops) /\
    fst <$> ops =
      [(["KDL"; "Vector"], "diff"); (["KDL"; "Vector"], "addDelta");
       (["KDL"; "Rotation"], "diff"); (["KDL"; "Rotation"], "addDelta"); (["KDL"; "Rotation"], "Inverse");
       (["KDL"; "Rotation"], "GetQuaternion"); (["KDL"; "Twist"], "diff"); (["KDL"; "Wrench"], "diff");
       (["KDL"; "Frame"], "diff"); (["KDL"; "Frame"], "addDelta"); (["KDL"; "Frame"], "Inverse")].
Proof.
  unfold kdl_loadOperators. cbn zeta. unfold addOperation. rewrite <- !app_assoc.
  eexists. split; reflexivity.
Qed.

Lemma kdl_constructor_types (e : string * TypeConstructor string kdl_constructor) :
  e ∈ kdl_constructors -> e.1 ∈ kdl_names.
Proof.
  intros He. assert (forallb (fun n => bool_decide (n ∈ kdl_names)) (fst <$> kdl_constructors) = true) as H
    by (vm_compute; reflexivity).
  rewrite forallb_forall in H. apply (bool_decide_eq_true_1 _), H, list_elem_of_In.
  by apply list_elem_of_fmap_2.
Qed.

(** The types an operator or constructor may mention. *)
Definition known_type (n : string) : bool :=
  bool_decide (n ∈ ["int"; "double"; "bool"] ++ kdl_names).

(** Loading the KDL typekit never fails: afterwards all its thirty type names are known, each type has its constructors (and the types it does not construct none), and the operators and global operations are added to those there were. No two constructors of a type, no two operators of a symbol have the same argument types, no two global operations the same name in a service, and all of them are about types of the typekit and of RTT. Loading the types gives joint arrays their member factory. Loading the constructors before the types dereferences a null pointer. *)
Theorem kdl_typekit_loads (r : Types) (oreg : list (operator string)) (gs : GlobalService) :
  (exists r' ops, load_kdl r oreg gs = Some (r', oreg ++ kdl_operators, gs ++ ops) /\
     (forall n, getTypeInfo r' n = bool_decide (n ∈ kdl_names) || getTypeInfo r n) /\
     (forall n, constructors r' n = constructors r n ++ registered_for n kdl_constructors) /\
     length ops = 18%nat /\ NoDup (fst <$> ops)) /\
  NoDup (constructor_key <$> kdl_constructors) /\ NoDup (operator_key <$> kdl_operators) /\
  length kdl_names = 30%nat /\ length kdl_operators = 31%nat /\
  forallb (fun e => known_type e.1 && forallb known_type (arguments e.2)) kdl_constructors = true /\
  forallb (fun o => known_type (op_type o) && forallb known_type (op_operands o)) kdl_operators = true /\
  (forall n, hasMemberFactory (kdl_loadTypes r).2 n = bool_decide (n = "KDL.JntArray") || hasMemberFactory r n) /\
  (getTypeInfo r "KDL.Vector" = false -> kdl_loadConstructors r gs = None).
Proof.
  split_and!.
  - unfold load_kdl. rewrite (surjective_pairing (kdl_loadTypes r)).
    destruct (kdl_loadConstructors_spec (kdl_loadTypes r).2 gs) as (r' & ops1 & -> & K & C & N1).
    { intros e He. rewrite kdl_loadTypes_known. by rewrite bool_decide_eq_true_2 by by apply kdl_constructor_types. }
    cbn [mbind option_bind].
    destruct (kdl_loadOperators_spec oreg (gs ++ ops1)) as (ops2 & -> & N2).
    exists r', (ops1 ++ ops2). rewrite app_assoc. split_and!.
    + done.
    + intros n. by rewrite K, kdl_loadTypes_known.
    + intros n. by rewrite C, kdl_loadTypes_constructors.
    + rewrite length_app, <- (length_fmap fst ops1), <- (length_fmap fst ops2), N1, N2. reflexivity.
    + rewrite fmap_app, N1, N2. apply (bool_decide_unpack _). vm_compute. exact I.
  - apply (bool_decide_unpack _). vm_compute. exact I.
  - apply (bool_decide_unpack _). vm_compute. exact I.
  - reflexivity.
  - reflexivity.
  - vm_compute. reflexivity.
  - vm_compute. reflexivity.
  - intros n. destruct (kdl_loadTypes_grows r n) as (_ & _ & ->). f_equal. apply bool_decide_ext.
    cbn. by rewrite list_elem_of_singleton.
  - intros Hu. unfold kdl_loadConstructors.
    rewrite (add_constructors_unknown kdl_constructors r "KDL.Vector" _ (list_elem_of_here _ _)); done.
Qed.

(** Every constructor the KDL typekit registers for a type gives, for arguments of the types it is registered with, a value of that type; the two constructors of frames, which take the rotation and the vector in either order, make the same frame. *)
Theorem kdl_constructors_typed (n : string) (c : TypeConstructor string kdl_constructor)
    (args : list (kdl_value (D := D))) (rotation : Rotation) (v : Vector) :
  (c ∈ registered_for n kdl_constructors -> value_type <$> args = arguments c ->
   exists x, construct RPY Rot (function c) args = Some x /\ value_type x = n) /\
  construct RPY Rot c_framerv [VRotation rotation; VVector v] =
    construct RPY Rot c_framevr [VVector v; VRotation rotation].
Proof.
  split; [|reflexivity]. unfold registered_for. rewrite list_elem_of_fmap.
  intros ([n' c'] & -> & Hin) Ha. apply list_elem_of_filter in Hin as [Hn Hin]. cbn in *. subst n'.
  unfold kdl_constructors in Hin. rewrite !elem_of_cons, elem_of_nil in Hin.
  destruct Hin as [[= -> ->]|[[= -> ->]|[[= -> ->]|[[= -> ->]|[[= -> ->]|[[= -> ->]|[[= -> ->]|[]]]]]]]];
    cbn in Ha.
  1-2: destruct args as [|[] [|[] [|[] []]]]; try discriminate Ha; by eexists.
  all: destruct args as [|[] [|[] []]]; try discriminate Ha; by eexists.
Qed.

(** The accessors for indices and the members of [KdlMembers] read the same numbers. *)
Lemma index_accessors (zero : D) (l : list D) (i : Z) :
  wrenchtwist_index zero l i = get_container_item_copy zero 6 l i /\
  vector_index zero l i = get_container_item_copy zero 3 l i.
Proof.
  unfold wrenchtwist_index, vector_index, get_container_item_copy.
  by rewrite (bool_decide_ext (i > 5) (i >= 6)), (bool_decide_ext (i > 2) (i >= 3)) by lia.
Qed.

(** The names for which the message queue plugin has a protocol are types of the
    typekit, with one exception that RTT never asks the plugin for. *)
Lemma transport_names (k : Mqueue.kdl_type) :
  Mqueue.type_name_of k ∈ kdl_names <-> k <> Mqueue.KJntArrayVel.
Proof.
  rewrite <- (bool_decide_eq_true (Mqueue.type_name_of k ∈ kdl_names)). by destruct k.
Qed.
End Loading.

(** ** The theorems at work *)

Module Witnesses.

Definition ref_kdl_types : TypeRepository string kdl_constructor :=
  ref_types (fun n => bool_decide (n = "double")) (fun _ _ => false).

Lemma kdl_typekit_loads_witness :
  exists r' ops gs', load_kdl (TR := ref_kdl_types) (MkRepository [] [] []) [] [] = Some (r', ops, gs') /\
    getTypeInfo (TypeRepository := ref_kdl_types) r' "KDL.cTwist[]" = true /\
    kdl_loadConstructors (TR := ref_kdl_types) (MkRepository [] [] []) [] = None.
Proof.
  destruct (kdl_typekit_loads (TR := ref_kdl_types) (TRL := ref_types_laws _ _) (MkRepository [] [] []) [] [])
    as ((r' & ops & E & K & _) & _ & _ & _ & _ & _ & _ & H).
  eexists r', _, _. split; [exact E|]. split; [|by apply H]. rewrite K. reflexivity.
Defined.

Lemma kdl_constructors_typed_witness :
  exists x, construct (D := Z) (fun r p y => MkRotation r p y r p y r p y) (fun v a => MkRotation a a a a a a a a a)
    c_wrenchft [VVector (MkVector 1 2 3); VVector (MkVector 4 5 6)] = Some x /\ value_type x = "KDL.Wrench".
Proof.
  apply (kdl_constructors_typed (D := Z) (fun r p y => MkRotation r p y r p y r p y)
    (fun v a => MkRotation a a a a a a a a a) "KDL.Wrench"
    (kdl_newConstructor c_wrenchft ["KDL.Vector"; "KDL.Vector"])
    [VVector (MkVector 1 2 3); VVector (MkVector 4 5 6)] (MkRotation 0 0 0 0 0 0 0 0 0) (MkVector 0 0 0)).
  - left.
  - reflexivity.
Defined.

End Witnesses.
