(* ===== verification/Instantiations.v ===== *)
(** Packages [kdl_typekit] and [rtt_ros2_primitives_typekit]: explicit template
    instantiations.

    The headers [Types.hpp] of the typekits keep their clients from instantiating RTT's
    templates for the types of the typekit ([extern template]); the definitions are in
    the source files of the typekit. A client links if each instantiation that a header
    suppresses is defined by the typekit, and exactly once. *)

From S2P Require Import Prelude RttTypes KdlTypekit.
Local Open Scope string_scope.
Local Open Scope list_scope.

(** The class templates of RTT that are instantiated. *)
Inductive rtt_template :=
| DataSource | AssignableDataSource | AssignCommand | ValueDataSource | ConstantDataSource
| ReferenceDataSource | ChannelElement | OutputPort | InputPort | Property | Attribute | Constant
| StdTypeInfo | StdBasicStringTypeInfo | PrimitiveSequenceTypeInfo | CArrayTypeInfo
| RosIntrospectionTypeInfo.
#[export] Instance rtt_template_eq_dec : EqDecision rtt_template.
Proof. solve_decision. Defined.

(** The structures the generators of ROS make of an interface definition. *)
Inductive ros_part := Msg | Request | Response | Goal_ | Feedback | Result.
#[export] Instance ros_part_eq_dec : EqDecision ros_part.
Proof. solve_decision. Defined.

(** Types of C++, by their names, and the containers of RTT and the library.
    [Ros pkg part name] is [pkg::msg::name], [pkg::srv::name::Request] and so on. *)
Inductive cxx_type :=
| Std (name : string)
| Kdl (name : string)
| Ros (pkg : string) (part : ros_part) (name : string)
| vector_of (t : cxx_type)
| carray_of (t : cxx_type)
| std_array_of (t : cxx_type) (size : Z)
| bounded_vector_of (t : cxx_type) (bound : Z).
#[export] Instance cxx_type_eq_dec : EqDecision cxx_type.
Proof. solve_decision. Defined.

Abbreviation instantiation := (rtt_template * cxx_type)%type.

(** ** The typekit of KDL *)

(** The headers of RTT the declarations depend on: each is only made if the header was
    included before. *)
Inductive rtt_header :=
| CORELIB_DATASOURCE_HPP | ORO_CORELIB_DATASOURCES_HPP | ORO_CHANNEL_ELEMENT_HPP | ORO_OUTPUT_PORT_HPP
| ORO_INPUT_PORT_HPP | ORO_PROPERTY_HPP | ORO_CORELIB_ATTRIBUTE_HPP.

Section Kdl.
Variable included : rtt_header -> bool.

(** [#ifdef h ... #endif] *)
Definition ifdef (h : rtt_header) (l : list instantiation) : list instantiation :=
  if included h then l else [].

(** The block that is repeated for every type. *)
Definition extern_block (T : cxx_type) : list instantiation :=
  ifdef CORELIB_DATASOURCE_HPP [(DataSource, T); (AssignableDataSource, T)] ++
  ifdef ORO_CORELIB_DATASOURCES_HPP [(ValueDataSource, T); (ConstantDataSource, T); (ReferenceDataSource, T)] ++
  ifdef ORO_CHANNEL_ELEMENT_HPP [(ChannelElement, T)] ++
  ifdef ORO_OUTPUT_PORT_HPP [(OutputPort, T)] ++
  ifdef ORO_INPUT_PORT_HPP [(InputPort, T)] ++
  ifdef ORO_PROPERTY_HPP [(Property, T)] ++
  ifdef ORO_CORELIB_ATTRIBUTE_HPP [(Attribute, T)].

(* [typekits/kdl_typekit/include/orocos/kdl_typekit/typekit/Types.hpp:22-45] DataSource *)
Definition extern_Frame : list instantiation := extern_block (Kdl "Frame").
(* [typekits/kdl_typekit/include/orocos/kdl_typekit/typekit/Types.hpp:63-86] DataSource *)
Definition extern_Rotation : list instantiation := extern_block (Kdl "Rotation").
(* [typekits/kdl_typekit/include/orocos/kdl_typekit/typekit/Types.hpp:110-133] DataSource *)
Definition extern_Twist : list instantiation := extern_block (Kdl "Twist").
(* [typekits/kdl_typekit/include/orocos/kdl_typekit/typekit/Types.hpp:152-175] DataSource *)
Definition extern_Vector : list instantiation := extern_block (Kdl "Vector").
(* [typekits/kdl_typekit/include/orocos/kdl_typekit/typekit/Types.hpp:194-217] DataSource *)
Definition extern_Wrench : list instantiation := extern_block (Kdl "Wrench").
(* [typekits/kdl_typekit/include/orocos/kdl_typekit/typekit/Types.hpp:234-257] DataSource *)
Definition extern_Chain : list instantiation := extern_block (Kdl "Chain").
(* [typekits/kdl_typekit/include/orocos/kdl_typekit/typekit/Types.hpp:270-293] DataSource *)
Definition extern_Joint : list instantiation := extern_block (Kdl "Joint").
(* [typekits/kdl_typekit/include/orocos/kdl_typekit/typekit/Types.hpp:306-329] DataSource *)
Definition extern_Segment : list instantiation := extern_block (Kdl "Segment").
(* [typekits/kdl_typekit/include/orocos/kdl_typekit/typekit/Types.hpp:341-364] DataSource *)
Definition extern_Jacobian : list instantiation := extern_block (Kdl "Jacobian").
(* [typekits/kdl_typekit/include/orocos/kdl_typekit/typekit/Types.hpp:377-400] DataSource *)
Definition extern_JntArray : list instantiation := extern_block (Kdl "JntArray").
(* [typekits/kdl_typekit/include/orocos/kdl_typekit/typekit/Types.hpp:419-442] DataSource *)
Definition extern_vector_Rotation : list instantiation := extern_block (vector_of (Kdl "Rotation")).
(* [typekits/kdl_typekit/include/orocos/kdl_typekit/typekit/Types.hpp:444-467] DataSource *)
Definition extern_vector_Vector : list instantiation := extern_block (vector_of (Kdl "Vector")).
(* [typekits/kdl_typekit/include/orocos/kdl_typekit/typekit/Types.hpp:469-492] DataSource *)
Definition extern_vector_Frame : list instantiation := extern_block (vector_of (Kdl "Frame")).
(* [typekits/kdl_typekit/include/orocos/kdl_typekit/typekit/Types.hpp:494-517] DataSource *)
Definition extern_vector_Twist : list instantiation := extern_block (vector_of (Kdl "Twist")).
(* [typekits/kdl_typekit/include/orocos/kdl_typekit/typekit/Types.hpp:519-542] DataSource *)
Definition extern_vector_Wrench : list instantiation := extern_block (vector_of (Kdl "Wrench")).

(** Everything [Types.hpp] declares. *)
Definition kdl_extern : list instantiation :=
  extern_Frame ++ extern_Rotation ++ extern_Twist ++ extern_Vector ++ extern_Wrench ++ extern_Chain ++
  extern_Joint ++ extern_Segment ++ extern_Jacobian ++ extern_JntArray ++
  extern_vector_Rotation ++ extern_vector_Vector ++ extern_vector_Frame ++ extern_vector_Twist ++ extern_vector_Wrench.
End Kdl.

(** The instantiations a source file has for a type. *)
Definition instantiate_block (T : cxx_type) : list instantiation :=
  [(DataSource, T); (AssignableDataSource, T); (ValueDataSource, T); (ConstantDataSource, T);
   (ReferenceDataSource, T); (ChannelElement, T); (OutputPort, T); (InputPort, T); (Property, T); (Attribute, T)].

(* [typekits/kdl_typekit/src/kdlTypekitChain.cpp:3-12] DataSource *)
Definition kdlTypekitChain_instantiations : list instantiation :=
  instantiate_block (Kdl "Chain").
(* [typekits/kdl_typekit/src/kdlTypekitFrame.cpp:3-22] DataSource *)
Definition kdlTypekitFrame_instantiations : list instantiation :=
  instantiate_block (Kdl "Frame") ++ instantiate_block (vector_of (Kdl "Frame")).
(* [typekits/kdl_typekit/src/kdlTypekitJacobian.cpp:3-12] DataSource *)
Definition kdlTypekitJacobian_instantiations : list instantiation :=
  instantiate_block (Kdl "Jacobian").
(* [typekits/kdl_typekit/src/kdlTypekitJntArray.cpp:3-12] DataSource *)
Definition kdlTypekitJntArray_instantiations : list instantiation :=
  instantiate_block (Kdl "JntArray").
(* [typekits/kdl_typekit/src/kdlTypekitJoint.cpp:3-12] DataSource *)
Definition kdlTypekitJoint_instantiations : list instantiation :=
  instantiate_block (Kdl "Joint").
(* [typekits/kdl_typekit/src/kdlTypekitRotation.cpp:3-22] DataSource *)
Definition kdlTypekitRotation_instantiations : list instantiation :=
  instantiate_block (Kdl "Rotation") ++ instantiate_block (vector_of (Kdl "Rotation")).
(* [typekits/kdl_typekit/src/kdlTypekitSegment.cpp:3-12] DataSource *)
Definition kdlTypekitSegment_instantiations : list instantiation :=
  instantiate_block (Kdl "Segment").
(* [typekits/kdl_typekit/src/kdlTypekitTwist.cpp:3-22] DataSource *)
Definition kdlTypekitTwist_instantiations : list instantiation :=
  instantiate_block (Kdl "Twist") ++ instantiate_block (vector_of (Kdl "Twist")).
(* [typekits/kdl_typekit/src/kdlTypekitVector.cpp:3-22] DataSource *)
Definition kdlTypekitVector_instantiations : list instantiation :=
  instantiate_block (Kdl "Vector") ++ instantiate_block (vector_of (Kdl "Vector")).
(* [typekits/kdl_typekit/src/kdlTypekitWrench.cpp:3-22] DataSource *)
Definition kdlTypekitWrench_instantiations : list instantiation :=
  instantiate_block (Kdl "Wrench") ++ instantiate_block (vector_of (Kdl "Wrench")).

(** The source files of the library. *)
Definition kdl_instantiations : list instantiation :=
  kdlTypekitChain_instantiations ++ kdlTypekitFrame_instantiations ++ kdlTypekitJacobian_instantiations ++
  kdlTypekitJntArray_instantiations ++ kdlTypekitJoint_instantiations ++ kdlTypekitRotation_instantiations ++
  kdlTypekitSegment_instantiations ++ kdlTypekitTwist_instantiations ++ kdlTypekitVector_instantiations ++
  kdlTypekitWrench_instantiations.

(** ** The typekit of the ROS primitives *)

Definition extern_primitive (T : cxx_type) : list instantiation :=
  [(DataSource, T); (AssignableDataSource, T); (AssignCommand, T); (ValueDataSource, T); (ConstantDataSource, T);
   (ReferenceDataSource, T); (OutputPort, T); (InputPort, T); (Property, T); (Attribute, T); (Constant, T)].

(* [typekits/rtt_ros2_primitives_typekit/include/orocos/rtt_ros2_primitives_typekit/Types.hpp:29-39] DataSource *)
Definition extern_bool : list instantiation := extern_primitive (Std "bool").
(* [typekits/rtt_ros2_primitives_typekit/include/orocos/rtt_ros2_primitives_typekit/Types.hpp:42-52] DataSource *)
Definition extern_float : list instantiation := extern_primitive (Std "float").
(* [typekits/rtt_ros2_primitives_typekit/include/orocos/rtt_ros2_primitives_typekit/Types.hpp:55-65] DataSource *)
Definition extern_double : list instantiation := extern_primitive (Std "double").
(* [typekits/rtt_ros2_primitives_typekit/include/orocos/rtt_ros2_primitives_typekit/Types.hpp:68-78] DataSource *)
Definition extern_int8_t : list instantiation := extern_primitive (Std "int8_t").
(* [typekits/rtt_ros2_primitives_typekit/include/orocos/rtt_ros2_primitives_typekit/Types.hpp:81-91] DataSource *)
Definition extern_uint8_t : list instantiation := extern_primitive (Std "uint8_t").
(* [typekits/rtt_ros2_primitives_typekit/include/orocos/rtt_ros2_primitives_typekit/Types.hpp:94-104] DataSource *)
Definition extern_int16_t : list instantiation := extern_primitive (Std "int16_t").
(* [typekits/rtt_ros2_primitives_typekit/include/orocos/rtt_ros2_primitives_typekit/Types.hpp:107-117] DataSource *)
Definition extern_uint16_t : list instantiation := extern_primitive (Std "uint16_t").
(* [typekits/rtt_ros2_primitives_typekit/include/orocos/rtt_ros2_primitives_typekit/Types.hpp:120-130] DataSource *)
Definition extern_int32_t : list instantiation := extern_primitive (Std "int32_t").
(* [typekits/rtt_ros2_primitives_typekit/include/orocos/rtt_ros2_primitives_typekit/Types.hpp:133-143] DataSource *)
Definition extern_uint32_t : list instantiation := extern_primitive (Std "uint32_t").
(* [typekits/rtt_ros2_primitives_typekit/include/orocos/rtt_ros2_primitives_typekit/Types.hpp:146-156] DataSource *)
Definition extern_int64_t : list instantiation := extern_primitive (Std "int64_t").
(* [typekits/rtt_ros2_primitives_typekit/include/orocos/rtt_ros2_primitives_typekit/Types.hpp:159-169] DataSource *)
Definition extern_uint64_t : list instantiation := extern_primitive (Std "uint64_t").
(* [typekits/rtt_ros2_primitives_typekit/include/orocos/rtt_ros2_primitives_typekit/Types.hpp:172-182] DataSource *)
Definition extern_string : list instantiation := extern_primitive (Std "std::string").
(* [typekits/rtt_ros2_primitives_typekit/include/orocos/rtt_ros2_primitives_typekit/Types.hpp:185-195] DataSource *)
Definition extern_u16string : list instantiation := extern_primitive (Std "std::u16string").

Definition primitives_extern : list instantiation :=
  extern_bool ++ extern_float ++ extern_double ++ extern_int8_t ++ extern_uint8_t ++
  extern_int16_t ++ extern_uint16_t ++ extern_int32_t ++ extern_uint32_t ++ extern_int64_t ++
  extern_uint64_t ++ extern_string ++ extern_u16string.

(* [typekits/rtt_ros2_primitives_typekit/src/typekit/ros2_bool_type.cpp:23-36] DataSource *)
Definition ros2_bool_type_instantiations : list instantiation :=
  extern_primitive (Std "bool") ++
  [(PrimitiveSequenceTypeInfo, (vector_of (Std "bool"))); (CArrayTypeInfo, (carray_of (Std "bool")))].
(* [typekits/rtt_ros2_primitives_typekit/src/typekit/ros2_float32_type.cpp:24-38] DataSource *)
Definition ros2_float32_type_instantiations : list instantiation :=
  extern_primitive (Std "float") ++
  [(StdTypeInfo, (Std "float")); (PrimitiveSequenceTypeInfo, (vector_of (Std "float"))); (CArrayTypeInfo, (carray_of (Std "float")))].
(* [typekits/rtt_ros2_primitives_typekit/src/typekit/ros2_float64_type.cpp:24-38] DataSource *)
Definition ros2_float64_type_instantiations : list instantiation :=
  extern_primitive (Std "double") ++
  [(StdTypeInfo, (Std "double")); (PrimitiveSequenceTypeInfo, (vector_of (Std "double"))); (CArrayTypeInfo, (carray_of (Std "double")))].
(* [typekits/rtt_ros2_primitives_typekit/src/typekit/ros2_int16_type.cpp:24-38] DataSource *)
Definition ros2_int16_type_instantiations : list instantiation :=
  extern_primitive (Std "int16_t") ++
  [(StdTypeInfo, (Std "int16_t")); (PrimitiveSequenceTypeInfo, (vector_of (Std "int16_t"))); (CArrayTypeInfo, (carray_of (Std "int16_t")))].
(* [typekits/rtt_ros2_primitives_typekit/src/typekit/ros2_int32_type.cpp:24-38] DataSource *)
Definition ros2_int32_type_instantiations : list instantiation :=
  extern_primitive (Std "int32_t") ++
  [(StdTypeInfo, (Std "int32_t")); (PrimitiveSequenceTypeInfo, (vector_of (Std "int32_t"))); (CArrayTypeInfo, (carray_of (Std "int32_t")))].
(* [typekits/rtt_ros2_primitives_typekit/src/typekit/ros2_int64_type.cpp:24-38] DataSource *)
Definition ros2_int64_type_instantiations : list instantiation :=
  extern_primitive (Std "int64_t") ++
  [(StdTypeInfo, (Std "int64_t")); (PrimitiveSequenceTypeInfo, (vector_of (Std "int64_t"))); (CArrayTypeInfo, (carray_of (Std "int64_t")))].
(* [typekits/rtt_ros2_primitives_typekit/src/typekit/ros2_int8_type.cpp:24-38] DataSource *)
Definition ros2_int8_type_instantiations : list instantiation :=
  extern_primitive (Std "int8_t") ++
  [(StdTypeInfo, (Std "int8_t")); (PrimitiveSequenceTypeInfo, (vector_of (Std "int8_t"))); (CArrayTypeInfo, (carray_of (Std "int8_t")))].
(* [typekits/rtt_ros2_primitives_typekit/src/typekit/ros2_string_type.cpp:24-37] DataSource *)
Definition ros2_string_type_instantiations : list instantiation :=
  extern_primitive (Std "std::string") ++
  [(PrimitiveSequenceTypeInfo, (vector_of (Std "std::string"))); (CArrayTypeInfo, (carray_of (Std "std::string")))].
(* [typekits/rtt_ros2_primitives_typekit/src/typekit/ros2_uint16_type.cpp:24-38] DataSource *)
Definition ros2_uint16_type_instantiations : list instantiation :=
  extern_primitive (Std "uint16_t") ++
  [(StdTypeInfo, (Std "uint16_t")); (PrimitiveSequenceTypeInfo, (vector_of (Std "uint16_t"))); (CArrayTypeInfo, (carray_of (Std "uint16_t")))].
(* [typekits/rtt_ros2_primitives_typekit/src/typekit/ros2_uint32_type.cpp:24-38] DataSource *)
Definition ros2_uint32_type_instantiations : list instantiation :=
  extern_primitive (Std "uint32_t") ++
  [(StdTypeInfo, (Std "uint32_t")); (PrimitiveSequenceTypeInfo, (vector_of (Std "uint32_t"))); (CArrayTypeInfo, (carray_of (Std "uint32_t")))].
(* [typekits/rtt_ros2_primitives_typekit/src/typekit/ros2_uint64_type.cpp:24-38] DataSource *)
Definition ros2_uint64_type_instantiations : list instantiation :=
  extern_primitive (Std "uint64_t") ++
  [(StdTypeInfo, (Std "uint64_t")); (PrimitiveSequenceTypeInfo, (vector_of (Std "uint64_t"))); (CArrayTypeInfo, (carray_of (Std "uint64_t")))].
(* [typekits/rtt_ros2_primitives_typekit/src/typekit/ros2_uint8_type.cpp:24-38] DataSource *)
Definition ros2_uint8_type_instantiations : list instantiation :=
  extern_primitive (Std "uint8_t") ++
  [(StdTypeInfo, (Std "uint8_t")); (PrimitiveSequenceTypeInfo, (vector_of (Std "uint8_t"))); (CArrayTypeInfo, (carray_of (Std "uint8_t")))].
(* [typekits/rtt_ros2_primitives_typekit/src/typekit/ros2_wstring_type.cpp:24-38] DataSource *)
Definition ros2_wstring_type_instantiations : list instantiation :=
  extern_primitive (Std "std::u16string") ++
  [(StdBasicStringTypeInfo, (Std "std::u16string::value_type")); (PrimitiveSequenceTypeInfo, (vector_of (Std "std::u16string"))); (CArrayTypeInfo, (carray_of (Std "std::u16string")))].

Definition primitives_instantiations : list instantiation :=
  ros2_bool_type_instantiations ++ ros2_float32_type_instantiations ++ ros2_float64_type_instantiations ++
  ros2_int16_type_instantiations ++ ros2_int32_type_instantiations ++ ros2_int64_type_instantiations ++
  ros2_int8_type_instantiations ++ ros2_string_type_instantiations ++ ros2_uint16_type_instantiations ++
  ros2_uint32_type_instantiations ++ ros2_uint64_type_instantiations ++ ros2_uint8_type_instantiations ++
  ros2_wstring_type_instantiations.
(** The type infos that the plugin uses and does not instantiate itself. *)
(* [typekits/rtt_ros2_primitives_typekit/src/typekit/ros2_primitives_typekit.cpp:30-78] StdTypeInfo *)
Definition primitives_plugin_extern : list instantiation :=
  [(StdTypeInfo, Std "float"); (PrimitiveSequenceTypeInfo, vector_of (Std "float")); (CArrayTypeInfo, carray_of (Std "float"));
   (StdTypeInfo, Std "double"); (PrimitiveSequenceTypeInfo, vector_of (Std "double")); (CArrayTypeInfo, carray_of (Std "double"));
   (PrimitiveSequenceTypeInfo, vector_of (Std "bool")); (CArrayTypeInfo, carray_of (Std "bool"));
   (StdTypeInfo, Std "int8_t"); (PrimitiveSequenceTypeInfo, vector_of (Std "int8_t")); (CArrayTypeInfo, carray_of (Std "int8_t"));
   (StdTypeInfo, Std "uint8_t"); (PrimitiveSequenceTypeInfo, vector_of (Std "uint8_t")); (CArrayTypeInfo, carray_of (Std "uint8_t"));
   (StdTypeInfo, Std "int16_t"); (PrimitiveSequenceTypeInfo, vector_of (Std "int16_t")); (CArrayTypeInfo, carray_of (Std "int16_t"));
   (StdTypeInfo, Std "uint16_t"); (PrimitiveSequenceTypeInfo, vector_of (Std "uint16_t")); (CArrayTypeInfo, carray_of (Std "uint16_t"));
   (StdTypeInfo, Std "int32_t"); (PrimitiveSequenceTypeInfo, vector_of (Std "int32_t")); (CArrayTypeInfo, carray_of (Std "int32_t"));
   (StdTypeInfo, Std "uint32_t"); (PrimitiveSequenceTypeInfo, vector_of (Std "uint32_t")); (CArrayTypeInfo, carray_of (Std "uint32_t"));
   (StdTypeInfo, Std "int64_t"); (PrimitiveSequenceTypeInfo, vector_of (Std "int64_t")); (CArrayTypeInfo, carray_of (Std "int64_t"));
   (StdTypeInfo, Std "uint64_t"); (PrimitiveSequenceTypeInfo, vector_of (Std "uint64_t")); (CArrayTypeInfo, carray_of (Std "uint64_t"));
   (PrimitiveSequenceTypeInfo, vector_of (Std "std::string")); (CArrayTypeInfo, carray_of (Std "std::string"));
   (StdBasicStringTypeInfo, Std "std::u16string::value_type"); (PrimitiveSequenceTypeInfo, vector_of (Std "std::u16string")); (CArrayTypeInfo, carray_of (Std "std::u16string"))].

(** ** What the headers suppress is defined *)

(** Fewer included headers suppress fewer instantiations. *)
Lemma ifdef_all included h l : ifdef included h l ⊆ ifdef (fun _ => true) h l.
Proof. unfold ifdef. destruct (included h); [done|]. intros i Hi. by apply elem_of_nil in Hi. Qed.

Lemma app_subset {A} (l l' k k' : list A) : l ⊆ k -> l' ⊆ k' -> l ++ l' ⊆ k ++ k'.
Proof. intros H H' i. rewrite !elem_of_app. intros [?|?]; [left; by apply H|right; by apply H']. Qed.

Lemma extern_block_all included T : extern_block included T ⊆ extern_block (fun _ => true) T.
Proof. unfold extern_block. repeat apply app_subset; apply ifdef_all. Qed.

Lemma kdl_extern_all included : kdl_extern included ⊆ kdl_extern (fun _ => true).
Proof. unfold kdl_extern. repeat first [apply extern_block_all | apply app_subset]. Qed.

Definition subset (l k : list instantiation) : bool := forallb (fun i => bool_decide (i ∈ k)) l.

Lemma subset_spec l k : subset l k = true -> l ⊆ k.
Proof.
  unfold subset. rewrite forallb_forall. intros H i Hi. apply list_elem_of_In in Hi.
  apply (bool_decide_eq_true (i ∈ k)), H, Hi.
Qed.

(** The instantiation [i] is defined in exactly one place of [l]. *)
Definition defined_once (i : instantiation) (l : list instantiation) : Prop :=
  exists l1 l2, l = l1 ++ i :: l2 /\ i ∉ l1 ++ l2.

Lemma NoDup_defined_once i l : NoDup l -> i ∈ l -> defined_once i l.
Proof.
  intros Hn (l1 & l2 & ->)%list_elem_of_split. exists l1, l2. split; [done|].
  apply NoDup_app in Hn as (_ & H1 & Hn). apply NoDup_cons in Hn as [H2 _].
  intros [Hi|Hi]%elem_of_app; [|done]. apply (H1 i Hi). by left.
Qed.

Lemma kdl_once : NoDup kdl_instantiations.
Proof. apply (bool_decide_unpack _). vm_compute. exact I. Qed.
Lemma primitives_once : NoDup primitives_instantiations.
Proof. apply (bool_decide_unpack _). vm_compute. exact I. Qed.

(** The name RTT knows a type of KDL by. *)
Definition kdl_name (T : cxx_type) : string :=
  match T with
  | Kdl n => "KDL." +:+ n
  | vector_of (Kdl n) => "KDL." +:+ n +:+ "[]"
  | _ => ""
  end.

Section Linking.
Context {TR : TypeRepository string kdl_constructor} {TRL : TypeRepositoryLaws TR}.

(** The types whose sequences the header does not mention. *)
Definition without_sequence : list string := ["Chain"; "Joint"; "Segment"; "Jacobian"; "JntArray"].

Lemma unannounced_sequences :
  Forall (fun i : instantiation => i.2 ∉ (fun n => vector_of (Kdl n)) <$> without_sequence) (kdl_extern (fun _ => true)).
Proof. apply (bool_decide_unpack _). vm_compute. exact I. Qed.

Lemma kdl_loaded_name n r : n ∈ kdl_names -> getTypeInfo (kdl_loadTypes r).2 n = true.
Proof. intros Hn. by rewrite kdl_loadTypes_known, bool_decide_eq_true_2. Qed.

(** C39 -- The two typekits with explicit template instantiations link, and so do their clients: whatever headers of RTT a client has included before, each instantiation that Types.hpp keeps it from making is defined in exactly one place of the source files of the typekit; the same holds for the primitive types and for the type infos that the plugin of the primitives uses, and that typekit defines nothing else. The typekit of KDL defines none that the header does not announce, and none for a type the plugin does not register. The announcement is not complete for sequences: those of chains, joints, segments, Jacobians and joint arrays are registered, but every client instantiates the templates for them itself. *)
Theorem suppressed_instantiations_are_defined (included : rtt_header -> bool) (r : Types) :
  (forall i, i ∈ kdl_extern included -> defined_once i kdl_instantiations) /\
  (forall i, i ∈ primitives_extern ++ primitives_plugin_extern -> defined_once i primitives_instantiations) /\
  (forall i, i ∈ primitives_instantiations -> i ∈ primitives_extern ++ primitives_plugin_extern) /\
  (forall i, i ∈ kdl_instantiations ->
     i ∈ kdl_extern (fun _ => true) /\ getTypeInfo (kdl_loadTypes r).2 (kdl_name i.2) = true) /\
  (forall n t, n ∈ without_sequence ->
     getTypeInfo (kdl_loadTypes r).2 (kdl_name (vector_of (Kdl n))) = true /\
     (t, vector_of (Kdl n)) ∉ kdl_extern included).
Proof.
  split_and!.
  - intros i Hi%kdl_extern_all. apply NoDup_defined_once; [apply kdl_once|].
    revert i Hi. apply subset_spec. vm_compute. reflexivity.
  - intros i Hi. apply NoDup_defined_once; [apply primitives_once|].
    revert i Hi. apply subset_spec. vm_compute. reflexivity.
  - apply subset_spec. vm_compute. reflexivity.
  - intros i Hi. split; [revert i Hi; apply subset_spec; vm_compute; reflexivity|].
    apply kdl_loaded_name. revert i Hi. apply Forall_forall.
    apply (bool_decide_unpack _). vm_compute. exact I.
  - intros n t Hn. split.
    + apply kdl_loaded_name. revert n Hn. apply Forall_forall. apply (bool_decide_unpack _). vm_compute. exact I.
    + intros Hi%kdl_extern_all. pose proof unannounced_sequences as H. rewrite Forall_forall in H.
      apply (H _ Hi). by apply (list_elem_of_fmap_2 (fun n => vector_of (Kdl n))).
Qed.
End Linking.

Module Witnesses.
Import KdlTypekit.Witnesses.

Lemma suppressed_instantiations_are_defined_witness :
  defined_once (Property, Kdl "Frame") kdl_instantiations /\
  (forall t, (t, vector_of (Kdl "Chain")) ∉ kdl_extern (fun h => match h with ORO_PROPERTY_HPP => true | _ => false end)).
Proof.
  destruct (suppressed_instantiations_are_defined (TR := ref_kdl_types) (TRL := ref_types_laws _ _)
              (fun h => match h with ORO_PROPERTY_HPP => true | _ => false end) (MkRepository [] [] []))
    as (H & _ & _ & _ & Hs).
  split.
  - apply H. apply (bool_decide_unpack _). vm_compute. exact I.
  - intros t. apply Hs. apply (bool_decide_unpack _). vm_compute. exact I.
Defined.
End Witnesses.
