(* ===== verification/GeneratedPlugins.v ===== *)
(** Packages [rtt_ros2_idl], [rtt_ros2_topics], [rtt_ros2_services]: the plugins that are
    generated for a package of ROS interfaces.

    A generator expands a template for the messages, services and actions of a package.
    What is modelled is the expansion: [interfaces] are the arguments of the generator,
    and a function of them is what the expanded C++ does ([generated_loadTypes],
    [generated_registerTransport], [generated_loadRTTPlugin]) or contains (the explicit
    template instantiations of the files that [generate_typekit] writes). The theorems
    follow a message type through the plugins: from the member of another message to its
    type, from the type to its transport, and from a service type to its factory. *)

From Stdlib Require Import Ascii.
From S2P Require Import Prelude RclcppAction RttServices Services Introspection Instantiations Topics.
Local Open Scope string_scope.
Local Open Scope list_scope.

(** The arguments of the generators. *)
(* [rtt_ros2_idl/src/rtt_ros2_idl/__init__.py:25-25] generate_typekit *)
Record interfaces := MkInterfaces {
  pkg_name : string;
  messages : list string;
  services : list string;
  actions : list string }.
#[export] Instance interfaces_eq_dec : EqDecision interfaces.
Proof. solve_decision. Defined.

Abbreviation msg_type p := (Ros (pkg_name p) Msg).

(** ** The typekit plugin *)

(** [new G<T>(name)] for a class template [G] of type infos. *)
Record type_generator := MkGenerator {
  gen_template : rtt_template;
  gen_type : cxx_type;
  gen_name : string }.
#[export] Instance type_generator_eq_dec : EqDecision type_generator.
Proof. solve_decision. Defined.

(** [RTT::types::Types()] and the types in it. Adding a type under a name that is not in
    use makes a new type, with the type id of the generator and no protocol. *)
Class TypeInfoRepository := {
  TypeInfos : Type;
  TypeInfo : Type;
  Protocol : Type;
  RosTypeTransporter : cxx_type -> Protocol;
  add_generator : type_generator -> TypeInfos -> TypeInfos;
  type_named : TypeInfos -> string -> option TypeInfo;
  getTypeId : TypeInfo -> option cxx_type;
  addProtocol : Z -> Protocol -> TypeInfo -> bool * TypeInfo;
  getProtocol : TypeInfo -> Z -> option Protocol }.

Class TypeInfoRepositoryLaws (TI : TypeInfoRepository) := {
  add_generator_new g r : type_named r (gen_name g) = None ->
    exists ti, type_named (add_generator g r) (gen_name g) = Some ti /\ getTypeId ti = Some (gen_type g) /\
      forall protocol_id, getProtocol ti protocol_id = None;
  add_generator_other g r n : n <> gen_name g -> type_named (add_generator g r) n = type_named r n;
  addProtocol_new protocol_id p ti : getProtocol ti protocol_id = None ->
    (addProtocol protocol_id p ti).1 = true /\
    getProtocol (addProtocol protocol_id p ti).2 protocol_id = Some p;
  addProtocol_typeid protocol_id p ti : getTypeId (addProtocol protocol_id p ti).2 = getTypeId ti }.

Section Plugins.
Context {TI : TypeInfoRepository}.

(* [rtt_ros2_idl/src/rtt_ros2_idl/resource/typekit_plugin.cpp.em:36-40] msg_name *)
Definition message_generators (p : interfaces) (msg_name : string) : list type_generator :=
  let T := msg_type p msg_name in
  let name := "/" +:+ pkg_name p +:+ "/msg/" +:+ msg_name in
  [MkGenerator RosIntrospectionTypeInfo T name;
   MkGenerator PrimitiveSequenceTypeInfo (vector_of T) (name +:+ "[]");
   MkGenerator CArrayTypeInfo (carray_of T) (name +:+ "[c]")].
(* [rtt_ros2_idl/src/rtt_ros2_idl/resource/typekit_plugin.cpp.em:41-44] srv_name *)
Definition service_generators (p : interfaces) (srv_name : string) : list type_generator :=
  let name := "/" +:+ pkg_name p +:+ "/srv/" +:+ srv_name in
  [MkGenerator RosIntrospectionTypeInfo (Ros (pkg_name p) Request srv_name) (name +:+ "_Request");
   MkGenerator RosIntrospectionTypeInfo (Ros (pkg_name p) Response srv_name) (name +:+ "_Response")].
(* [rtt_ros2_idl/src/rtt_ros2_idl/resource/typekit_plugin.cpp.em:45-49] action_name *)
Definition action_generators (p : interfaces) (action_name : string) : list type_generator :=
  let name := "/" +:+ pkg_name p +:+ "/action/" +:+ action_name in
  [MkGenerator RosIntrospectionTypeInfo (Ros (pkg_name p) Goal_ action_name) (name +:+ "_Goal");
   MkGenerator RosIntrospectionTypeInfo (Ros (pkg_name p) Feedback action_name) (name +:+ "_Feedback");
   MkGenerator RosIntrospectionTypeInfo (Ros (pkg_name p) Result action_name) (name +:+ "_Result")].

(** The three loops of the template. *)
Definition generated_types (p : interfaces) : list type_generator :=
  (messages p ≫= message_generators p) ++
  (services p ≫= service_generators p) ++
  (actions p ≫= action_generators p).

(* [rtt_ros2_idl/src/rtt_ros2_idl/resource/typekit_plugin.cpp.em:33-51] loadTypes *)
Definition generated_loadTypes (p : interfaces) (r : TypeInfos) : bool * TypeInfos :=
  (true, fold_left (fun r g => add_generator g r) (generated_types p) r).

(** ** The transport plugin *)

(** The chain of comparisons, one for each message. *)
(* [rtt_ros2_topics/src/rtt_ros2_topics/resource/ros_transport_plugin.cpp.em:28-35] msg_name *)
Fixpoint add_transport (p : interfaces) (names : list string) (type_info : cxx_type) (ti : TypeInfo)
    : bool * TypeInfo :=
  match names with
  | [] => (false, ti)
  | msg_name :: names =>
      if decide (type_info = msg_type p msg_name)
      then addProtocol ORO_ROS2_PROTOCOL_ID (RosTypeTransporter (msg_type p msg_name)) ti
      else add_transport p names type_info ti
  end.

(** [ti] is a pointer; null is [None]. *)
(* [rtt_ros2_topics/src/rtt_ros2_topics/resource/ros_transport_plugin.cpp.em:23-36] registerTransport *)
Definition generated_registerTransport (p : interfaces) (name : string) (ti : option TypeInfo)
    : bool * option TypeInfo :=
  match ti with
  | None => (false, None)
  | Some ti =>
      match getTypeId ti with
      | None => (false, Some ti)
      | Some type_info => let '(b, ti) := add_transport p (messages p) type_info ti in (b, Some ti)
      end
  end.

(** ** The service plugin *)

Section ServicePlugin.
Context {RC : RclcppOps} {RO : RTTOps RC} {SL : ServiceLib RC}.
(** The C++ type [pkg::srv::name]. *)
Variable srv_type : string -> string -> SrvType.

(* [rtt_ros2_services/src/rtt_ros2_services/resource/ros_service_plugin.cpp.em:34-43] service *)
Fixpoint register_services (p : interfaces) (names : list string) (rosservice_registry : RosServiceRegistry)
    : bool * RosServiceRegistry :=
  match names with
  | [] => (true, rosservice_registry)
  | service :: names =>
      let factory := MkFactory (pkg_name p +:+ "/srv/" +:+ service) (srv_type (pkg_name p) service) in
      let '(b, rosservice_registry) := registerServiceFactory (Some factory) rosservice_registry in
      if negb b then (false, rosservice_registry)
      else register_services p names rosservice_registry
  end.

(** [Instance] never returns null, so the plugin does not fail on it. *)
(* [rtt_ros2_services/src/rtt_ros2_services/resource/ros_service_plugin.cpp.em:23-44] registerRosServiceProxies *)
Definition registerRosServiceProxies (p : interfaces) (s_instance : option RosServiceRegistry)
    : bool * option RosServiceRegistry :=
  let rosservice_registry := registry_Instance s_instance in
  let '(b, rosservice_registry) := register_services p (services p) rosservice_registry in
  (b, Some rosservice_registry).

(* [rtt_ros2_services/src/rtt_ros2_services/resource/ros_service_plugin.cpp.em:49-53] loadRTTPlugin *)
Definition generated_loadRTTPlugin (p : interfaces) (c : option TaskContext) (s_instance : option RosServiceRegistry)
    : bool * option RosServiceRegistry :=
  match c with
  | Some _ => (false, s_instance)
  | None => registerRosServiceProxies p s_instance
  end.
End ServicePlugin.
End Plugins.

(** ** The files of a typekit *)

(** A path below the output directory. *)
Abbreviation path := (list string).

Section Files.
(** [rosidl_cmake]'s function; the CMake function of the same name is used for the list of sources. *)
Variable convert_camel_case : string -> string.

(* [rtt_ros2_idl/src/rtt_ros2_idl/resource/msg_Types.hpp.em:16-26] DataSource *)
Definition msg_Types (p : interfaces) (msg_name : string) : list instantiation :=
  extern_primitive (Ros (pkg_name p) Msg msg_name).
(* [rtt_ros2_idl/src/rtt_ros2_idl/resource/srv_Types.hpp.em:16-38] DataSource *)
Definition srv_Types (p : interfaces) (srv_name : string) : list instantiation :=
  extern_primitive (Ros (pkg_name p) Request srv_name) ++ extern_primitive (Ros (pkg_name p) Response srv_name).
(* [rtt_ros2_idl/src/rtt_ros2_idl/resource/action_Types.hpp.em:16-50] DataSource *)
Definition action_Types (p : interfaces) (action_name : string) : list instantiation :=
  extern_primitive (Ros (pkg_name p) Goal_ action_name) ++
  extern_primitive (Ros (pkg_name p) Feedback action_name) ++
  extern_primitive (Ros (pkg_name p) Result action_name).

(* [rtt_ros2_idl/src/rtt_ros2_idl/resource/msg_typekit.cpp.em:12-26] DataSource *)
Definition msg_typekit (p : interfaces) (msg_name : string) : list instantiation :=
  let T := msg_type p msg_name in
  extern_primitive T ++
  [(RosIntrospectionTypeInfo, T); (PrimitiveSequenceTypeInfo, vector_of T); (CArrayTypeInfo, carray_of T)].
(* [rtt_ros2_idl/src/rtt_ros2_idl/resource/srv_typekit.cpp.em:8-33] DataSource *)
Definition srv_typekit (p : interfaces) (srv_name : string) : list instantiation :=
  extern_primitive (Ros (pkg_name p) Request srv_name) ++ extern_primitive (Ros (pkg_name p) Response srv_name) ++
  [(RosIntrospectionTypeInfo, Ros (pkg_name p) Request srv_name);
   (RosIntrospectionTypeInfo, Ros (pkg_name p) Response srv_name)].
(* [rtt_ros2_idl/src/rtt_ros2_idl/resource/action_typekit.cpp.em:8-46] DataSource *)
Definition action_typekit (p : interfaces) (action_name : string) : list instantiation :=
  extern_primitive (Ros (pkg_name p) Goal_ action_name) ++
  extern_primitive (Ros (pkg_name p) Feedback action_name) ++
  extern_primitive (Ros (pkg_name p) Result action_name) ++
  [(RosIntrospectionTypeInfo, Ros (pkg_name p) Goal_ action_name);
   (RosIntrospectionTypeInfo, Ros (pkg_name p) Feedback action_name);
   (RosIntrospectionTypeInfo, Ros (pkg_name p) Result action_name)].

(** The declarations at the top of the plugin. *)
(* [rtt_ros2_idl/src/rtt_ros2_idl/resource/typekit_plugin.cpp.em:13-26] RosIntrospectionTypeInfo *)
Definition plugin_extern (p : interfaces) : list instantiation :=
  (messages p ≫= fun m => [(RosIntrospectionTypeInfo, msg_type p m);
     (PrimitiveSequenceTypeInfo, vector_of (msg_type p m)); (CArrayTypeInfo, carray_of (msg_type p m))]) ++
  (services p ≫= fun s => [(RosIntrospectionTypeInfo, Ros (pkg_name p) Request s);
     (RosIntrospectionTypeInfo, Ros (pkg_name p) Response s)]) ++
  (actions p ≫= fun a => [(RosIntrospectionTypeInfo, Ros (pkg_name p) Goal_ a);
     (RosIntrospectionTypeInfo, Ros (pkg_name p) Feedback a);
     (RosIntrospectionTypeInfo, Ros (pkg_name p) Result a)]).

(* [rtt_ros2_idl/src/rtt_ros2_idl/__init__.py:29-39] header_name *)
Definition types_hpp (dir name : string) : path := [dir; convert_camel_case name +:+ "_Types.hpp"].
(* [rtt_ros2_idl/src/rtt_ros2_idl/__init__.py:41-45] header_name *)
Definition typekit_cpp (dir name : string) : path := [dir; convert_camel_case name +:+ "_typekit.cpp"].

(** What a generated file consists of: declarations, definitions, included headers. *)
Inductive file :=
| Declarations (l : list instantiation)
| Definitions (l : list instantiation)
| Includes (l : list path)
| Plugin (p : interfaces).

(** A call of [expand_template] for each element of a list: a file that exists is replaced. *)
(* [rtt_ros2_idl/src/rtt_ros2_idl/__init__.py:28-45] message *)
Definition expand (dir : string) (declared defined : string -> list instantiation) (names : list string)
    (output : gmap path file) : gmap path file :=
  fold_left (fun output name =>
    <[typekit_cpp dir name := Definitions (defined name)]> (<[types_hpp dir name := Declarations (declared name)]> output))
    names output.

(* [rtt_ros2_idl/src/rtt_ros2_idl/resource/Types.hpp.em:10-20] messages *)
Definition Types_hpp (p : interfaces) : list path :=
  (types_hpp "msg" <$> messages p) ++ (types_hpp "srv" <$> services p) ++ (types_hpp "action" <$> actions p).

(* [rtt_ros2_idl/src/rtt_ros2_idl/__init__.py:25-100] generate_typekit *)
Definition generate_typekit (p : interfaces) (output : gmap path file) : gmap path file :=
  let output := expand "msg" (msg_Types p) (msg_typekit p) (messages p) output in
  let output := expand "srv" (srv_Types p) (srv_typekit p) (services p) output in
  let output := expand "action" (action_Types p) (action_typekit p) (actions p) output in
  let output := <[["Types.hpp"] := Includes (Types_hpp p)]> output in
  <[["typekit_plugin.cpp"] := Plugin p]> output.

(** The sources of the library, up to their order; CMake compiles a source that is listed
    twice once. *)
(* [rtt_ros2_idl/cmake/rtt_ros2_idl-generate_typekit.cmake:82-117] _generated_source_files *)
Definition generated_source_files (p : interfaces) : list path :=
  remove_dups ((typekit_cpp "msg" <$> messages p) ++ (typekit_cpp "srv" <$> services p) ++
    (typekit_cpp "action" <$> actions p) ++ [["typekit_plugin.cpp"]]).

(** What the compiled sources define, and what the headers and the plugin suppress. *)
Definition defined_in (output : gmap path file) (f : path) : list instantiation :=
  match output !! f with Some (Definitions l) => l | _ => [] end.
Definition declared_in (output : gmap path file) (f : path) : list instantiation :=
  match output !! f with Some (Declarations l) => l | _ => [] end.
Definition typekit_definitions (p : interfaces) (output : gmap path file) : list instantiation :=
  generated_source_files p ≫= defined_in output.
Definition typekit_declarations (p : interfaces) (output : gmap path file) : list instantiation :=
  (Types_hpp p ≫= declared_in output) ++ plugin_extern p.
End Files.

(** ** Names are unambiguous *)

Definition ident_char (c : ascii) : bool :=
  let n := nat_of_ascii c in
  bool_decide (48 <= n <= 57) || bool_decide (65 <= n <= 90) || bool_decide (97 <= n <= 122) || bool_decide (n = 95).
(** What ROS allows in the name of a package or an interface: letters, digits, underscores. *)
Definition identifier (s : string) : Prop := Forall (fun c => ident_char c = true) (String.list_ascii_of_string s).
(** A string that ends an identifier: it does not begin with one of its characters. *)
Definition stops (s : string) : Prop :=
  match s with EmptyString => True | String c _ => ident_char c = false end.

Lemma identifier_split a a' s s' :
  identifier a -> identifier a' -> stops s -> stops s' -> a +:+ s = a' +:+ s' -> a = a' /\ s = s'.
Proof.
  unfold identifier. revert a'. induction a as [|c a IH]; intros [|c' a'] Ha Ha' Hs Hs' E; cbn in Ha, Ha'.
  - done.
  - change (s = String c' (a' +:+ s')) in E. subst s. cbn in Hs. apply Forall_cons in Ha' as [Hc _]. congruence.
  - change (String c (a +:+ s) = s') in E. subst s'. cbn in Hs'. apply Forall_cons in Ha as [Hc _]. congruence.
  - injection E as <- E. apply Forall_cons in Ha as [_ Ha]. apply Forall_cons in Ha' as [_ Ha'].
    by destruct (IH a' Ha Ha' Hs Hs' E) as [-> ->].
Qed.

Lemma list_ascii_app a b :
  String.list_ascii_of_string (a +:+ b) = String.list_ascii_of_string a ++ String.list_ascii_of_string b.
Proof. induction a as [|c a IH]; [done|]. cbn. by rewrite <- IH. Qed.

Lemma list_ascii_inj a b : String.list_ascii_of_string a = String.list_ascii_of_string b -> a = b.
Proof.
  intros H. by rewrite <- (String.string_of_list_ascii_of_string a), H, String.string_of_list_ascii_of_string.
Qed.

(** Equal endings can be dropped, different last characters cannot be equal. *)
Lemma append_inj_r a b s : a +:+ s = b +:+ s -> a = b.
Proof.
  intros H%(f_equal String.list_ascii_of_string). rewrite !list_ascii_app in H.
  by apply app_inv_tail, list_ascii_inj in H.
Qed.

Lemma append_last a b s t c d :
  a +:+ s = b +:+ t ->
  last (String.list_ascii_of_string s) = Some c -> last (String.list_ascii_of_string t) = Some d -> c = d.
Proof.
  intros H Hs Ht. apply (f_equal (fun x => last (String.list_ascii_of_string x))) in H.
  rewrite !list_ascii_app, !last_app, Hs, Ht in H. congruence.
Qed.

(** The name of a type in RTT. *)
Definition part_dir (x : ros_part) : string :=
  match x with Msg => "msg" | Request | Response => "srv" | _ => "action" end.
Definition part_suffix (x : ros_part) : string :=
  match x with
  | Msg => "" | Request => "_Request" | Response => "_Response"
  | Goal_ => "_Goal" | Feedback => "_Feedback" | Result => "_Result"
  end.
Definition rtt_name (pkg : string) (x : ros_part) (name ext : string) : string :=
  "/" +:+ pkg +:+ "/" +:+ part_dir x +:+ "/" +:+ (name +:+ part_suffix x) +:+ ext.
Definition type_name (T : cxx_type) : string :=
  match T with
  | Ros pkg x name => rtt_name pkg x name ""
  | vector_of (Ros pkg x name) => rtt_name pkg x name "[]"
  | carray_of (Ros pkg x name) => rtt_name pkg x name "[c]"
  | _ => ""
  end.
(** The types the plugins know: structures, and vectors and C arrays of messages. *)
Definition plugin_type (T : cxx_type) : Prop :=
  match T with
  | Ros pkg x name => identifier pkg /\ identifier name
  | vector_of (Ros pkg x name) | carray_of (Ros pkg x name) => identifier pkg /\ identifier name
  | _ => False
  end.

Lemma identifier_suffix name x : identifier name -> identifier (name +:+ part_suffix x).
Proof.
  unfold identifier. rewrite list_ascii_app, Forall_app. intros H. split; [done|].
  destruct x; apply (bool_decide_unpack _); vm_compute; exact I.
Qed.

Lemma suffix_inj n n' x x' :
  part_dir x = part_dir x' -> n +:+ part_suffix x = n' +:+ part_suffix x' -> x = x' /\ n = n'.
Proof.
  intros Hd H. destruct x, x'; try discriminate Hd;
    try (split; [done|]; by apply append_inj_r in H);
    discriminate (append_last _ _ _ _ _ _ H eq_refl eq_refl).
Qed.

Lemma slash_inj a b : "/" +:+ a = "/" +:+ b -> a = b.
Proof. intros H. by injection H. Qed.

Lemma rtt_name_inj p p' x x' n n' e e' :
  identifier p -> identifier p' -> identifier n -> identifier n' -> stops e -> stops e' ->
  rtt_name p x n e = rtt_name p' x' n' e' -> p = p' /\ x = x' /\ n = n' /\ e = e'.
Proof.
  unfold rtt_name. intros Hp Hp' Hn Hn' He He' H%slash_inj.
  apply identifier_split in H as [-> H%slash_inj]; [|done..].
  apply identifier_split in H as [Hd H%slash_inj];
    [|destruct x; apply (bool_decide_unpack _); vm_compute; exact I
     |destruct x'; apply (bool_decide_unpack _); vm_compute; exact I|done..].
  apply identifier_split in H as [H ->]; [|by apply identifier_suffix..|done|done].
  by apply suffix_inj in H as [-> ->].
Qed.

Lemma type_name_inj T T' : plugin_type T -> plugin_type T' -> type_name T = type_name T' -> T = T'.
Proof.
  intros HT HT' H.
  destruct T as [| |p x n|[]|[]| |]; try done; destruct T' as [| |p' x' n'|[]|[]| |]; try done;
    destruct HT, HT'; apply rtt_name_inj in H as (-> & -> & -> & ?); done.
Qed.

(** ** What the typekits register *)

Definition well_formed (p : interfaces) : Prop :=
  identifier (pkg_name p) /\ Forall identifier (messages p ++ services p ++ actions p) /\
  NoDup (messages p) /\ NoDup (services p) /\ NoDup (actions p).

Definition template_of (T : cxx_type) : rtt_template :=
  match T with
  | vector_of _ => PrimitiveSequenceTypeInfo
  | carray_of _ => CArrayTypeInfo
  | _ => RosIntrospectionTypeInfo
  end.
Fixpoint package_of (T : cxx_type) : string :=
  match T with
  | Ros pkg _ _ => pkg
  | vector_of T | carray_of T => package_of T
  | _ => ""
  end.

Ltac string_eq :=
  apply list_ascii_inj; unfold rtt_name, part_dir, part_suffix;
  rewrite ?list_ascii_app; cbn [String.list_ascii_of_string];
  rewrite <- ?app_assoc, ?app_nil_r; reflexivity.

(** Case analysis on the loop that a generator comes from. *)
Ltac by_loop H :=
  unfold generated_types in H; rewrite !elem_of_app in H;
  destruct H as [H|[H|H]]; apply list_elem_of_bind in H; destruct H as (?name & H & ?Hname);
  repeat (apply elem_of_cons in H; destruct H as [->|H]; [|try (by apply elem_of_nil in H)]).

Lemma generated_types_spec p g : well_formed p -> g ∈ generated_types p ->
  g = MkGenerator (template_of (gen_type g)) (gen_type g) (type_name (gen_type g)) /\
  plugin_type (gen_type g) /\ package_of (gen_type g) = pkg_name p.
Proof.
  intros (Hp & Hn & _) Hg. rewrite !Forall_app, !Forall_forall in Hn. destruct Hn as (Hm & Hs & Ha).
  by_loop Hg; (split; [f_equal; cbn [type_name gen_type]; string_eq | cbn; auto]).
Qed.

Lemma generated_types_nodup p : well_formed p -> NoDup (generated_types p).
Proof.
  intros (_ & _ & Hm & Hs & Ha). unfold generated_types. rewrite !NoDup_app. split_and!.
  1,3,5: apply NoDup_bind; try done.
  - intros x y g _ _ Hx Hy. unfold message_generators in *. set_solver.
  - intros x _. unfold message_generators. apply NoDup_ListNoDup. repeat constructor; cbn; naive_solver.
  - intros x y g _ _ Hx Hy. unfold service_generators in *. set_solver.
  - intros x _. repeat constructor; set_solver.
  - intros x y g _ _ Hx Hy. unfold action_generators in *. set_solver.
  - intros x _. repeat constructor; set_solver.
  - intros g. rewrite list_elem_of_bind. intros (m & Hg & _) H. unfold message_generators in Hg.
    rewrite elem_of_app, !list_elem_of_bind in H. unfold service_generators, action_generators in H. set_solver.
  - intros g. rewrite !list_elem_of_bind. unfold service_generators, action_generators. set_solver.
Qed.

(** All packages together. *)
Section Packages.
Variable ps : list interfaces.
Hypothesis packages_ok : Forall well_formed ps.
Hypothesis packages_distinct : NoDup (pkg_name <$> ps).

Lemma package_by_name p q : p ∈ ps -> q ∈ ps -> pkg_name p = pkg_name q -> p = q.
Proof.
  intros (i & Hi)%list_elem_of_lookup (j & Hj)%list_elem_of_lookup E.
  assert (i = j) as ->; [|congruence].
  eapply (NoDup_lookup _ _ _ (pkg_name p) packages_distinct); rewrite list_lookup_fmap.
  - by rewrite Hi.
  - by rewrite Hj, E.
Qed.

Lemma generated_in g : g ∈ ps ≫= generated_types ->
  exists p, p ∈ ps /\ g ∈ generated_types p /\
    g = MkGenerator (template_of (gen_type g)) (gen_type g) (type_name (gen_type g)) /\
    plugin_type (gen_type g) /\ package_of (gen_type g) = pkg_name p.
Proof.
  intros (p & Hg & Hp)%list_elem_of_bind. exists p. split; [done|]. split; [done|].
  apply generated_types_spec; [|done]. rewrite Forall_forall in packages_ok. by apply packages_ok.
Qed.

(** No two types are registered under one name. *)
Lemma generated_names_nodup : NoDup (gen_name <$> (ps ≫= generated_types)).
Proof.
  apply NoDup_fmap_2_strong.
  - intros g g' (p & _ & _ & Eg & Hg & _)%generated_in (p' & _ & _ & Eg' & Hg' & _)%generated_in H.
    rewrite Eg, Eg' in H. apply type_name_inj in H; [|done..]. by rewrite Eg, Eg', H.
  - rewrite Forall_forall in packages_ok. apply NoDup_bind.
    + intros p q g Hp Hq Hgp Hgq. apply package_by_name; [done..|].
      apply generated_types_spec in Hgp as (_ & _ & <-); [|by apply packages_ok].
      by apply generated_types_spec in Hgq as (_ & _ & <-); [|by apply packages_ok].
    + intros p Hp. by apply generated_types_nodup, packages_ok.
    + by eapply NoDup_fmap_1.
Qed.
End Packages.

Section Loading.
Context {TI : TypeInfoRepository} {TIL : TypeInfoRepositoryLaws TI}.

Definition load_typekits (ps : list interfaces) (r : TypeInfos) : TypeInfos :=
  fold_left (fun r p => (generated_loadTypes p r).2) ps r.

Lemma load_typekits_bind ps r :
  load_typekits ps r = fold_left (fun r g => add_generator g r) (ps ≫= generated_types) r.
Proof.
  unfold load_typekits. revert r. induction ps as [|p ps IH]; intros r; [done|].
  cbn [fold_left mbind list_bind]. rewrite fold_left_app. apply IH.
Qed.

Lemma add_generators_other l r n :
  n ∉ gen_name <$> l -> type_named (fold_left (fun r g => add_generator g r) l r) n = type_named r n.
Proof.
  revert r. induction l as [|g l IH]; intros r Hn; [done|]. cbn in *.
  apply not_elem_of_cons in Hn as [Hne Hn]. rewrite IH by done. by apply add_generator_other.
Qed.

(** The type infos that a list of generators leaves. *)
Definition fresh_type (r : TypeInfos) (g : type_generator) : Prop :=
  exists ti, type_named r (gen_name g) = Some ti /\ getTypeId ti = Some (gen_type g) /\
    forall protocol_id, getProtocol ti protocol_id = None.

Lemma add_generators_new l r :
  NoDup (gen_name <$> l) -> (forall g, g ∈ l -> type_named r (gen_name g) = None) ->
  forall g, g ∈ l -> fresh_type (fold_left (fun r g => add_generator g r) l r) g.
Proof.
  unfold fresh_type. revert r. induction l as [|g l IH]; intros r Hn Hr h Hh; [by apply elem_of_nil in Hh|].
  cbn in Hn |- *. apply NoDup_cons in Hn as [Hg Hn]. apply elem_of_cons in Hh as [->|Hh].
  - rewrite add_generators_other by done. by apply add_generator_new, Hr; left.
  - apply IH; [done| |done]. intros k Hk. rewrite add_generator_other; [by apply Hr; right|].
    intros E. apply Hg. rewrite <- E. by apply list_elem_of_fmap_2.
Qed.

Lemma load_typekits_types ps r :
  Forall well_formed ps -> NoDup (pkg_name <$> ps) ->
  (forall g, g ∈ ps ≫= generated_types -> type_named r (gen_name g) = None) ->
  forall g, g ∈ ps ≫= generated_types -> fresh_type (load_typekits ps r) g.
Proof.
  intros Hps Hd Hr. rewrite load_typekits_bind. apply add_generators_new; [|done]. by apply generated_names_nodup.
Qed.

(** ** Transports *)

Lemma add_transport_spec p names T ti :
  add_transport p names T ti =
    if decide (T ∈ msg_type p <$> names) then addProtocol ORO_ROS2_PROTOCOL_ID (RosTypeTransporter T) ti else (false, ti).
Proof.
  induction names as [|n names IH]; cbn.
  - destruct (decide _) as [H|H]; [by apply elem_of_nil in H|done].
  - destruct (decide (T = msg_type p n)) as [->|Hne].
    + rewrite decide_True by (by left). done.
    + rewrite IH. apply decide_ext. rewrite elem_of_cons. tauto.
Qed.

(** The C++ type of a member whose elements are of a message type: the message,
    [std::vector<T>] for a dynamic array, [BoundedVector<T, N>] for a bounded one,
    [std::array<T, N>] for one of fixed size. *)
Definition member_type (m : MessageMember) (T : cxx_type) : cxx_type :=
  if is_array_ m then
    if decide (array_size_ m = 0%Z) then vector_of T
    else if is_upper_bound_ m then bounded_vector_of T (array_size_ m)
    else std_array_of T (array_size_ m)
  else T.

(** The type RTT has for a C++ type: the elements of an array of fixed size are accessed
    as a [carray]. *)
Definition rtt_type (T : cxx_type) : cxx_type :=
  match T with std_array_of T _ => carray_of T | T => T end.

(** A bounded array. *)
Definition is_bounded (m : MessageMember) : bool :=
  is_array_ m && bool_decide (array_size_ m <> 0%Z) && is_upper_bound_ m.

(** The type RTT accesses a member by. *)
Definition access_type (m : MessageMember) (T : cxx_type) : cxx_type :=
  if is_bounded m then vector_of T else rtt_type (member_type m T).

Lemma replace_separator_other c s : c <> ":"%char -> replace_separator (String c s) = String c (replace_separator s).
Proof. destruct c as [[] [] [] [] [] [] [] []]; done. Qed.

Lemma replace_separator_package pkg : identifier pkg -> replace_separator (pkg +:+ "::msg") = pkg +:+ "/msg".
Proof.
  unfold identifier. induction pkg as [|c pkg IH]; intros H; [done|].
  cbn in H. apply Forall_cons in H as [Hc H].
  change (replace_separator (String c (pkg +:+ "::msg")) = String c (pkg +:+ "/msg")).
  rewrite replace_separator_other, IH; [done..|]. intros ->. discriminate Hc.
Qed.

(** The names under which members are looked up are those of the generators. *)
Lemma message_generator_named p msg (m : MessageMember) :
  exists g, g ∈ message_generators p msg /\ gen_type g = access_type m (msg_type p msg) /\
    let n := "/" +:+ (pkg_name p +:+ "/msg") +:+ "/" +:+ msg in
    array_key (KeyName n) (KeyName (n +:+ "[]")) (KeyName (n +:+ "[c]")) m = KeyName (gen_name g).
Proof.
  unfold message_generators, access_type, is_bounded, member_type, array_key.
  destruct (is_array_ m); [|eexists; split; [left|]; split; [done|]; cbn; f_equal; string_eq].
  destruct (decide (array_size_ m = 0%Z)) as [Hz|Hz]; [|destruct (is_upper_bound_ m)].
  - rewrite !bool_decide_eq_false_2 by tauto.
    eexists. split; [right; left|]. split; [done|]. cbn. f_equal. string_eq.
  - rewrite bool_decide_eq_true_2 by done. rewrite bool_decide_eq_false_2 by (by intros [_ ?]).
    eexists. split; [right; left|]. split; [done|]. cbn. f_equal. string_eq.
  - rewrite !bool_decide_eq_true_2 by done.
    eexists. split; [right; right; left|]. split; [done|]. cbn. f_equal. string_eq.
Qed.

(** A bounded array has a type of its own, which is not registered. *)
Lemma bounded_unregistered m T : is_bounded m = true ->
  member_type m T = bounded_vector_of T (array_size_ m) /\
  access_type m T = vector_of T.
Proof.
  unfold access_type, member_type, is_bounded. intros Hb. rewrite Hb.
  apply andb_true_iff in Hb as [[-> Hz%bool_decide_eq_true]%andb_true_iff ->]. by rewrite decide_False.
Qed.

Lemma generated_not_bounded ps g T n :
  Forall well_formed ps -> NoDup (pkg_name <$> ps) -> g ∈ ps ≫= generated_types ->
  gen_type g <> bounded_vector_of T n.
Proof.
  intros Hps Hd Hg E. destruct (generated_in ps Hps g Hg) as (p & _ & _ & _ & Ht & _). by rewrite E in Ht.
Qed.

Lemma message_generator_in ps p msg g :
  p ∈ ps -> msg ∈ messages p -> g ∈ message_generators p msg -> g ∈ ps ≫= generated_types.
Proof.
  intros Hp Hm Hg. apply list_elem_of_bind. exists p. split; [|done].
  unfold generated_types. apply elem_of_app. left. apply list_elem_of_bind. by exists msg.
Qed.

Lemma registerTransport_spec q name ti T :
  getTypeId ti = Some T -> getProtocol ti ORO_ROS2_PROTOCOL_ID = None ->
  if decide (T ∈ msg_type q <$> messages q)
  then exists ti', generated_registerTransport q name (Some ti) = (true, Some ti') /\
         getTypeId ti' = Some T /\ getProtocol ti' ORO_ROS2_PROTOCOL_ID = Some (RosTypeTransporter T)
  else generated_registerTransport q name (Some ti) = (false, Some ti).
Proof.
  intros HT Hp. unfold generated_registerTransport. rewrite HT, add_transport_spec.
  destruct (decide _); [|done]. rewrite <- HT.
  rewrite <- (addProtocol_typeid ORO_ROS2_PROTOCOL_ID (RosTypeTransporter T) ti).
  destruct (addProtocol_new ORO_ROS2_PROTOCOL_ID (RosTypeTransporter T) ti Hp) as [Hb Hti].
  destruct (addProtocol _ _ ti) as [b ti']. cbn in *. subst b. by exists ti'.
Qed.

(** RTT's look-up of types in a repository, by name or by C++ type. *)
Definition lookup_in (r : TypeInfos) (by_value : type_key -> option TypeInfo) (k : type_key) : option TypeInfo :=
  match k with KeyName n => type_named r n | _ => by_value k end.

(** C22 -- The plugins that are generated for packages of interfaces fit together. Whatever the order in which the typekits of several packages are loaded, no two types share a name, and a member of a message whose type is a message of one of the packages resolves to the type the generated typekit registered for exactly its C++ type, the message or a vector of it for a dynamic array, or for its elements if it is an array of fixed size, which RTT accesses as a C array of that size. A bounded array, which the source says is not yet supported, does not get its type: it is a BoundedVector, which no generated typekit registers, and resolves to the type of an unbounded vector. Of all these types precisely the messages get a transport, from the transport plugin of their own package and the one for their type; for containers, requests, responses, goals, feedback and results, for messages of other packages and for a null pointer, registerTransport reports false and changes nothing. *)
Theorem generated_plugins_fit (ps : list interfaces) (r : TypeInfos) (q : interfaces) (name : string) :
  Forall well_formed ps -> NoDup (pkg_name <$> ps) ->
  (forall g, g ∈ ps ≫= generated_types -> type_named r (gen_name g) = None) ->
  q ∈ ps ->
  let r' := load_typekits ps r in
  (forall p msg m by_value, p ∈ ps -> msg ∈ messages p ->
     type_id_ m = ROS_TYPE_MESSAGE -> nested_ m = Some (pkg_name p +:+ "::msg", msg) ->
     exists ti, findTypeInfo (lookup_in r' by_value) m = Some ti /\
       getTypeId ti = Some (if is_bounded m then vector_of (msg_type p msg)
                            else rtt_type (member_type m (msg_type p msg)))) /\
  (forall m T, is_bounded m = true ->
     member_type m T = bounded_vector_of T (array_size_ m) /\
     forall g, g ∈ ps ≫= generated_types -> gen_type g <> member_type m T) /\
  (forall g, g ∈ ps ≫= generated_types -> exists ti, type_named r' (gen_name g) = Some ti /\
     getTypeId ti = Some (gen_type g) /\
     if decide (gen_type g ∈ msg_type q <$> messages q)
     then exists ti', generated_registerTransport q name (Some ti) = (true, Some ti') /\
            getTypeId ti' = Some (gen_type g) /\
            getProtocol ti' ORO_ROS2_PROTOCOL_ID = Some (RosTypeTransporter (gen_type g))
     else generated_registerTransport q name (Some ti) = (false, Some ti)) /\
  generated_registerTransport q name None = (false, None).
Proof.
  intros Hps Hd Hr Hq r'. pose proof (load_typekits_types ps r Hps Hd Hr) as Hload. split_and!; [| | |done].
  - intros p msg m by_value Hp Hm Ht Hn.
    rewrite (proj1 (member_type_lookup (lookup_in r' by_value) m _ _) Ht Hn).
    rewrite Forall_forall in Hps. rewrite replace_separator_package by apply (Hps p Hp).
    fold (access_type m (msg_type p msg)).
    destruct (message_generator_named p msg m) as (g & Hg & <- & ->).
    destruct (Hload g) as (ti & Hti & HT & _); [by eapply message_generator_in|]. by exists ti.
  - intros m T Hb. destruct (bounded_unregistered m T Hb) as [-> _]. split; [done|].
    intros g Hg. by eapply generated_not_bounded.
  - intros g Hg. destruct (Hload g Hg) as (ti & Hti & HT & Hpr). exists ti. split_and!; [done..|].
    by apply registerTransport_spec.
Qed.
End Loading.

(** ** The files of a typekit define what its headers declare *)

Section Linking.
Variable conv : string -> string.

(** A generated pair of files: its directory and interface, and its contents. *)
Abbreviation entry := (((string * string) * (list instantiation * list instantiation))%type).
Definition entries (p : interfaces) : list entry :=
  ((fun m => (("msg", m), (msg_Types p m, msg_typekit p m))) <$> messages p) ++
  ((fun s => (("srv", s), (srv_Types p s, srv_typekit p s))) <$> services p) ++
  ((fun a => (("action", a), (action_Types p a, action_typekit p a))) <$> actions p).
Definition header_of (e : entry) : string * string := (e.1.1, conv e.1.2).
Definition hpp (e : entry) : path := types_hpp conv e.1.1 e.1.2.
Definition cpp (e : entry) : path := typekit_cpp conv e.1.1 e.1.2.
Definition write_entry (output : gmap path file) (e : entry) : gmap path file :=
  <[cpp e := Definitions e.2.2]> (<[hpp e := Declarations e.2.1]> output).

Lemma hpp_header e e' : hpp e = hpp e' <-> header_of e = header_of e'.
Proof.
  unfold hpp, header_of, types_hpp. split; [intros [= -> H%append_inj_r]|intros [= -> ->]]; congruence.
Qed.
Lemma cpp_header e e' : cpp e = cpp e' <-> header_of e = header_of e'.
Proof.
  unfold cpp, header_of, typekit_cpp. split; [intros [= -> H%append_inj_r]|intros [= -> ->]]; congruence.
Qed.
Lemma append_assoc a b c : (a +:+ b) +:+ c = a +:+ (b +:+ c).
Proof. string_eq. Qed.
Lemma hpp_cpp e e' : hpp e <> cpp e'.
Proof.
  unfold hpp, cpp, types_hpp, typekit_cpp. intros [= _ H].
  change "_Types.hpp" with ("_Types.h" +:+ "pp") in H. change "_typekit.cpp" with ("_typekit.c" +:+ "pp") in H.
  rewrite <- !append_assoc in H. apply append_inj_r in H.
  discriminate (append_last _ _ _ _ _ _ H eq_refl eq_refl).
Qed.

(** The last entry with a header decides about its files. *)
Lemma last_entry_wins l output e : e ∈ l ->
  exists l1 e' l2, l = l1 ++ e' :: l2 /\ header_of e' = header_of e /\ (header_of e ∉ (header_of <$> l2)) /\
    fold_left write_entry l output !! hpp e = Some (Declarations e'.2.1) /\
    fold_left write_entry l output !! cpp e = Some (Definitions e'.2.2).
Proof.
  revert output. induction l as [|x l IH] using rev_ind; intros output He; [by apply elem_of_nil in He|].
  rewrite fold_left_app. cbn [fold_left]. unfold write_entry at 1 3.
  destruct (decide (header_of x = header_of e)) as [E|E].
  - exists l, x, []. split; [done|]. split; [done|]. split; [apply not_elem_of_nil|].
    pose proof (proj2 (hpp_header x e) E) as Hh. pose proof (proj2 (cpp_header x e) E) as Hc.
    rewrite Hh, Hc, lookup_insert_eq. split; [|done].
    rewrite lookup_insert_ne by (by intros ?; apply (hpp_cpp e e)). by rewrite lookup_insert_eq.
  - assert (e ∈ l) as He'.
    { apply elem_of_app in He as [He|He]; [done|]. apply list_elem_of_singleton in He as ->. done. }
    destruct (IH output He') as (l1 & e' & l2 & -> & Hh & Hn & Hd & Hf).
    exists l1, e', (l2 ++ [x]). split; [by rewrite <- app_assoc|]. split; [done|]. split.
    + rewrite fmap_app, elem_of_app. intros [?|H]; [done|]. apply list_elem_of_singleton in H. congruence.
    + assert (hpp x <> hpp e) by (by intros Hx%hpp_header).
      assert (cpp x <> cpp e) by (by intros Hx%cpp_header).
      pose proof (hpp_cpp x e). pose proof (not_eq_sym (hpp_cpp e x)). rewrite !lookup_insert_ne by done. done.
Qed.

Lemma generate_typekit_entries p output :
  generate_typekit conv p output =
    <[["typekit_plugin.cpp"] := Plugin p]> (<[["Types.hpp"] := Includes (Types_hpp conv p)]>
      (fold_left write_entry (entries p) output)).
Proof.
  unfold generate_typekit, entries. rewrite !fold_left_app. do 2 f_equal. unfold expand.
  assert (forall {A} (f : A -> entry) l o,
            fold_left write_entry (f <$> l) o = fold_left (fun o a => write_entry o (f a)) l o) as H.
  { intros A f l. induction l as [|a l IH]; intros o; [done|]. apply IH. }
  by rewrite !H.
Qed.

Lemma Types_hpp_entries p : Types_hpp conv p = hpp <$> entries p.
Proof. unfold Types_hpp, entries. by rewrite !fmap_app, <- !list_fmap_compose. Qed.
Lemma source_files_entries p :
  generated_source_files conv p = remove_dups ((cpp <$> entries p) ++ [["typekit_plugin.cpp"]]).
Proof. unfold generated_source_files, entries. by rewrite !fmap_app, <- !list_fmap_compose, <- !app_assoc. Qed.

(** The interface an instantiation is for. *)
Definition interface_of (T : cxx_type) : string * string :=
  match T with
  | Ros _ x n | vector_of (Ros _ x n) | carray_of (Ros _ x n) => (part_dir x, n)
  | _ => ("", "")
  end.

Lemma entries_cases p e : e ∈ entries p ->
  (exists m, m ∈ messages p /\ e = (("msg", m), (msg_Types p m, msg_typekit p m))) \/
  (exists s, s ∈ services p /\ e = (("srv", s), (srv_Types p s, srv_typekit p s))) \/
  (exists a, a ∈ actions p /\ e = (("action", a), (action_Types p a, action_typekit p a))).
Proof. unfold entries. rewrite !elem_of_app, !list_elem_of_fmap. naive_solver. Qed.

(** The template and the part: what remains of an instantiation without the names. *)
Definition shape (i : instantiation) : rtt_template * option ros_part :=
  (i.1, match i.2 with Ros _ x _ | vector_of (Ros _ x _) | carray_of (Ros _ x _) => Some x | _ => None end).

Lemma NoDup_by_shape l : bool_decide (NoDup (shape <$> l)) = true -> NoDup l.
Proof. rewrite bool_decide_eq_true. apply NoDup_fmap_1. Qed.

Lemma entry_interface p e : e ∈ entries p ->
  Forall (fun i : instantiation => interface_of i.2 = e.1) e.2.2 /\ NoDup e.2.2 /\ e.2.1 ⊆ e.2.2.
Proof.
  intros [(m & Hm & ->)|[(s & Hs & ->)|(a & Ha & ->)]]%entries_cases; cbn [fst snd].
  all: split_and!; [by repeat constructor|by apply NoDup_by_shape|].
  - intros i Hi. apply elem_of_app. by left.
  - intros i Hi. unfold srv_typekit. rewrite app_assoc. apply elem_of_app. by left.
  - intros i Hi. unfold action_typekit. rewrite !app_assoc. apply elem_of_app. left.
    unfold action_Types in Hi. by rewrite app_assoc in Hi.
Qed.

(** The plugin declares the type infos of all interfaces, and nothing else. *)
Lemma plugin_extern_entry p i : i ∈ plugin_extern p -> exists e, e ∈ entries p /\ i ∈ e.2.2.
Proof.
  unfold plugin_extern, entries. rewrite !elem_of_app, !list_elem_of_bind.
  intros [(m & Hi & Hm)|[(s & Hi & Hs)|(a & Hi & Ha)]].
  - eexists. split; [rewrite elem_of_app; left; by apply list_elem_of_fmap_2|].
    apply elem_of_app. by right.
  - eexists. split; [rewrite !elem_of_app; right; left; by apply list_elem_of_fmap_2|].
    apply elem_of_app. right. apply elem_of_app. by right.
  - eexists. split; [rewrite !elem_of_app; right; right; by apply list_elem_of_fmap_2|].
    do 3 (apply elem_of_app; right). done.
Qed.

Lemma entry_plugin_extern p e : e ∈ entries p -> exists i, i ∈ plugin_extern p /\ interface_of i.2 = e.1.
Proof.
  unfold plugin_extern.
  intros [(m & Hm & ->)|[(s & Hs & ->)|(a & Ha & ->)]]%entries_cases; eexists;
    rewrite !elem_of_app, !list_elem_of_bind; split.
  - left. exists m. split; [by left|done].
  - done.
  - right; left. exists s. split; [by left|done].
  - done.
  - right; right. exists a. split; [by left|done].
  - done.
Qed.

Lemma entries_by_interface p e e' : e ∈ entries p -> e' ∈ entries p -> e.1 = e'.1 -> e = e'.
Proof. intros He%entries_cases He'%entries_cases. naive_solver. Qed.

Lemma entries_nodup p : well_formed p -> NoDup (entries p).
Proof.
  intros (_ & _ & Hm & Hs & Ha). apply (NoDup_fmap_1 fst). unfold entries.
  rewrite !fmap_app, <- !list_fmap_compose, !NoDup_app. split_and!.
  1,3,5: apply NoDup_fmap_2; [|done]; by intros x y [= ->].
  all: intros [d n]; rewrite ?elem_of_app, !list_elem_of_fmap; naive_solver.
Qed.

(** ** The sources after the generator has run *)

Lemma generated_lookup p output e : e ∈ entries p ->
  exists l1 e' l2, entries p = l1 ++ e' :: l2 /\ header_of e' = header_of e /\ (header_of e ∉ (header_of <$> l2)) /\
    declared_in (generate_typekit conv p output) (hpp e) = e'.2.1 /\
    defined_in (generate_typekit conv p output) (cpp e) = e'.2.2.
Proof.
  intros He. destruct (last_entry_wins (entries p) output e He) as (l1 & e' & l2 & E & Hh & Hn & Hd & Hf).
  exists l1, e', l2. split_and!; [done..| |]; unfold declared_in, defined_in;
    rewrite generate_typekit_entries, !lookup_insert_ne by done; [by rewrite Hd|by rewrite Hf].
Qed.

(** A definition comes from the last interface with its header. *)
Lemma definition_from_last p output f i :
  f ∈ generated_source_files conv p -> i ∈ defined_in (generate_typekit conv p output) f ->
  exists l1 e l2, entries p = l1 ++ e :: l2 /\ (header_of e ∉ (header_of <$> l2)) /\ f = cpp e /\
    defined_in (generate_typekit conv p output) f = e.2.2 /\ interface_of i.2 = e.1.
Proof.
  rewrite source_files_entries, elem_of_remove_dups, elem_of_app, list_elem_of_fmap.
  intros [(e & -> & He)|Hf] Hi.
  - destruct (generated_lookup p output e He) as (l1 & e' & l2 & E & Hh & Hn & _ & Hd).
    exists l1, e', l2. rewrite Hd in *. split_and!; [done|by rewrite Hh|by apply cpp_header|done|].
    assert (e' ∈ entries p) as He' by (rewrite E, elem_of_app; right; left).
    apply entry_interface in He' as [HF _]. rewrite Forall_forall in HF. by apply HF.
  - apply list_elem_of_singleton in Hf as ->. unfold defined_in in Hi.
    rewrite generate_typekit_entries, lookup_insert_eq in Hi. by apply elem_of_nil in Hi.
Qed.

Lemma definitions_nodup p output :
  NoDup (typekit_definitions conv p (generate_typekit conv p output)).
Proof.
  unfold typekit_definitions. apply NoDup_bind.
  - intros f f' i Hf Hf' Hi Hi'.
    apply definition_from_last in Hi as (l1 & e & l2 & E & _ & -> & _ & H); [|done].
    apply definition_from_last in Hi' as (l1' & e' & l2' & E' & _ & -> & _ & H'); [|done].
    rewrite (entries_by_interface p e e'); [done|rewrite E|rewrite E'|congruence];
      rewrite elem_of_app; right; left.
  - intros f Hf. destruct (defined_in _ f) as [|i l] eqn:D; [constructor|].
    destruct (definition_from_last p output f i Hf) as (l1 & e & l2 & E & _ & _ & Hd & _); [rewrite D; left|].
    rewrite <- D, Hd. apply (entry_interface p). rewrite E, elem_of_app. right. left.
  - unfold generated_source_files. apply NoDup_remove_dups.
Qed.

Lemma definitions_in p output e :
  e ∈ entries p -> NoDup (header_of <$> entries p) ->
  e.2.2 ⊆ typekit_definitions conv p (generate_typekit conv p output).
Proof.
  intros He Hn i Hi. unfold typekit_definitions. apply list_elem_of_bind. exists (cpp e). split.
  - destruct (generated_lookup p output e He) as (l1 & e' & l2 & E & Hh & Hl & _ & ->).
    enough (e' = e) as -> by done.
    apply list_elem_of_lookup in He as [j Hj].
    assert (entries p !! length l1 = Some e') as Hj' by (by rewrite E, list_lookup_middle).
    assert (j = length l1) as ->; [|congruence].
    eapply (NoDup_lookup _ _ _ (header_of e) Hn); rewrite list_lookup_fmap; [by rewrite Hj|by rewrite Hj', <- Hh].
  - rewrite source_files_entries, elem_of_remove_dups, elem_of_app. left. by apply list_elem_of_fmap_2.
Qed.

Lemma declaration_entry p output i :
  i ∈ typekit_declarations conv p (generate_typekit conv p output) -> exists e, e ∈ entries p /\ i ∈ e.2.2.
Proof.
  unfold typekit_declarations. rewrite elem_of_app, list_elem_of_bind.
  intros [(f & Hi & Hf)|Hi]; [|by apply plugin_extern_entry].
  rewrite Types_hpp_entries in Hf. apply list_elem_of_fmap in Hf as (e & -> & He).
  destruct (generated_lookup p output e He) as (l1 & e' & l2 & E & _ & _ & Hd & _).
  rewrite Hd in Hi. assert (e' ∈ entries p) as He' by (rewrite E, elem_of_app; right; left).
  exists e'. split; [done|]. by apply entry_interface in He' as (_ & _ & Hsub); apply Hsub.
Qed.

Lemma NoDup_last {A B} (f : A -> B) (l : list A) :
  (forall l1 x l2, l = l1 ++ x :: l2 -> f x ∉ (f <$> l2)) -> NoDup (f <$> l).
Proof.
  induction l as [|x l IH]; intros H; [constructor|]. cbn. apply NoDup_cons. split.
  - by apply (H [] x l).
  - apply IH. intros l1 y l2 ->. by apply (H (x :: l1) y l2).
Qed.

Lemma NoDup_split_unique {A} (l1 l2 l1' l2' : list A) x :
  NoDup (l1 ++ x :: l2) -> l1 ++ x :: l2 = l1' ++ x :: l2' -> l2 = l2'.
Proof.
  intros Hn E. assert (length l1 = length l1') as Hl.
  { apply (NoDup_lookup _ _ _ x Hn); [|rewrite E]; by rewrite list_lookup_middle. }
  by apply app_inj_1 in E as [_ [= ->]].
Qed.

Lemma header_names p :
  NoDup (header_of <$> entries p) <->
  NoDup (conv <$> messages p) /\ NoDup (conv <$> services p) /\ NoDup (conv <$> actions p).
Proof.
  unfold entries. rewrite !fmap_app, <- !list_fmap_compose, !NoDup_app.
  assert (forall d (l : list string), NoDup ((fun n => (d : string, conv n)) <$> l) <-> NoDup (conv <$> l)) as H.
  { intros d l. rewrite <- (NoDup_fmap (pair d) (conv <$> l)), <- list_fmap_compose. done. }
  unfold compose, header_of. cbn [fst snd].
  rewrite !H. split; [tauto|]. intros (? & ? & ?). split_and!; try done.
  all: intros [d n]; rewrite ?elem_of_app, !list_elem_of_fmap; naive_solver.
Qed.

(** C23 -- When a generated typekit links. Whatever the output directory held before, each explicit instantiation that the headers and the plugin of a generated typekit keep from being made is defined exactly once in its sources if and only if the conversion to lower case with underscores, which names the files, keeps the messages apart, and the services and the actions; the instantiations are never defined twice. Otherwise the files of an interface are replaced by those of a later one with the same file name: the generator reports nothing, but the plugin still refers to the type info of the replaced one, which is defined nowhere. *)
Theorem generated_typekit_links (p : interfaces) (output : gmap path file) : well_formed p ->
  NoDup (typekit_definitions conv p (generate_typekit conv p output)) /\
  ((forall i, i ∈ typekit_declarations conv p (generate_typekit conv p output) ->
      defined_once i (typekit_definitions conv p (generate_typekit conv p output))) <->
   NoDup (conv <$> messages p) /\ NoDup (conv <$> services p) /\ NoDup (conv <$> actions p)).
Proof.
  intros Hp. split; [apply definitions_nodup|]. rewrite <- header_names. split.
  - intros Hall. apply NoDup_last. intros l1 e l2 E.
    assert (e ∈ entries p) as He by (rewrite E, elem_of_app; right; left).
    destruct (entry_plugin_extern p e He) as (i & Hi & Hk).
    destruct (Hall i) as (d1 & d2 & Hd & _); [apply elem_of_app; by right|].
    assert (i ∈ typekit_definitions conv p (generate_typekit conv p output)) as Hin
      by (rewrite Hd, elem_of_app; right; left).
    apply list_elem_of_bind in Hin as (f & Hif & Hf).
    destruct (definition_from_last p output f i Hf Hif) as (l1' & e' & l2' & E' & Hn & _ & _ & Hk').
    assert (e' = e) as ->.
    { apply (entries_by_interface p); [rewrite E', elem_of_app; right; left|done|congruence]. }
    rewrite (NoDup_split_unique l1 l2 l1' l2' e); [done| |congruence]. rewrite <- E. by apply entries_nodup.
  - intros Hn i (e & He & Hi)%declaration_entry.
    apply NoDup_defined_once; [apply definitions_nodup|]. by apply (definitions_in p output e).
Qed.
End Linking.

(** ** Service types *)

Section ServiceTypes.
Context {RC : RclcppOps} {RO : RTTOps RC} {SL : ServiceLib RC}.
Variable srv_type : string -> string -> SrvType.

Definition service_type_of (p : interfaces) (service : string) : string := pkg_name p +:+ "/srv/" +:+ service.

(** The services of a list of packages, in the order in which they are registered. *)
Definition all_services (ps : list interfaces) : list (interfaces * string) :=
  ps ≫= fun p => pair p <$> services p.

Definition register (r : RosServiceRegistry) (s : interfaces * string) : RosServiceRegistry :=
  <[service_type_of s.1 s.2 := MkFactory (service_type_of s.1 s.2) (srv_type (pkg_name s.1) s.2)]> r.

Lemma register_services_spec p names r :
  register_services srv_type p names r = (true, fold_left register (pair p <$> names) r).
Proof. revert r. induction names as [|n names IH]; intros r; [done|]. apply IH. Qed.

(** Loading the service plugins of several packages into the process. *)
Definition load_service_plugins (ps : list interfaces) (s_instance : option RosServiceRegistry) : option RosServiceRegistry :=
  fold_left (fun s p => (generated_loadRTTPlugin srv_type p None s).2) ps s_instance.

Lemma load_service_plugins_spec ps r :
  load_service_plugins ps (Some r) = Some (fold_left register (all_services ps) r).
Proof.
  unfold load_service_plugins, all_services. revert r. induction ps as [|p ps IH]; intros r; [done|].
  cbn [fold_left mbind list_bind]. rewrite fold_left_app. rewrite <- IH. f_equal.
  unfold generated_loadRTTPlugin, registerRosServiceProxies, registry_Instance.
  by rewrite register_services_spec.
Qed.

Lemma register_same r s : register r s !! service_type_of s.1 s.2 =
  Some (MkFactory (service_type_of s.1 s.2) (srv_type (pkg_name s.1) s.2)).
Proof. unfold register, RosServiceRegistry. by rewrite lookup_insert_eq. Qed.
Lemma register_other r s ty : ty <> service_type_of s.1 s.2 -> register r s !! ty = r !! ty.
Proof. intros H. unfold register, RosServiceRegistry. by rewrite lookup_insert_ne. Qed.

Lemma register_all_lookup l r ty :
  (forall s s', s ∈ l -> s' ∈ l -> service_type_of s.1 s.2 = service_type_of s'.1 s'.2 -> s = s') ->
  (forall s, s ∈ l -> fold_left register l r !! service_type_of s.1 s.2 =
     Some (MkFactory (service_type_of s.1 s.2) (srv_type (pkg_name s.1) s.2))) /\
  ((forall s, s ∈ l -> ty <> service_type_of s.1 s.2) -> fold_left register l r !! ty = r !! ty).
Proof.
  induction l as [|x l IH] using rev_ind; intros Hinj.
  - split; [intros s Hs; by apply elem_of_nil in Hs|done].
  - rewrite fold_left_app. cbn [fold_left].
    destruct IH as [IHin IHout]; [intros s s' Hs Hs'; apply Hinj; apply elem_of_app; by left|].
    split.
    + intros s Hs. destruct (decide (service_type_of s.1 s.2 = service_type_of x.1 x.2)) as [E|E].
      * rewrite (Hinj s x) by (done || (apply elem_of_app; right; by left)). apply register_same.
      * rewrite register_other by done. apply IHin. apply elem_of_app in Hs as [Hs|Hs]; [done|].
        apply list_elem_of_singleton in Hs as ->. done.
    + intros Hty. rewrite register_other.
      * apply IHout. intros s Hs. apply Hty, elem_of_app. by left.
      * apply Hty, elem_of_app. right. by left.
Qed.

Lemma service_type_inj ps s s' :
  Forall well_formed ps -> NoDup (pkg_name <$> ps) -> s ∈ all_services ps -> s' ∈ all_services ps ->
  service_type_of s.1 s.2 = service_type_of s'.1 s'.2 -> s = s'.
Proof.
  intros Hps Hd (p & (n & -> & Hn)%list_elem_of_fmap & Hp)%list_elem_of_bind
    (p' & (n' & -> & Hn')%list_elem_of_fmap & Hp')%list_elem_of_bind H.
  rewrite Forall_forall in Hps. destruct (Hps p Hp) as (Ip & _), (Hps p' Hp') as (Ip' & _).
  apply identifier_split in H as [E H]; [|done..].
  rewrite (package_by_name ps Hd p p') by done. f_equal. by injection H.
Qed.

(** The registry of service types and the plugins that fill it. After the service plugins of several packages have been loaded, in any order and whatever was registered before, each service of the packages is known under the name package/srv/Service with the factory for its own C++ type, and every other name has the factory it had. Loading a plugin succeeds. Loaded into a component, a service plugin refuses and registers nothing. *)
Theorem service_plugins_register_types (ps : list interfaces) (r : RosServiceRegistry) :
  Forall well_formed ps -> NoDup (pkg_name <$> ps) ->
  exists r', load_service_plugins ps (Some r) = Some r' /\
    (forall p service, p ∈ ps -> service ∈ services p ->
       getServiceFactory (service_type_of p service) r' =
         Some (MkFactory (service_type_of p service) (srv_type (pkg_name p) service))) /\
    (forall ty, (forall p service, p ∈ ps -> service ∈ services p -> ty <> service_type_of p service) ->
       getServiceFactory ty r' = getServiceFactory ty r) /\
    (forall p s_instance, (generated_loadRTTPlugin srv_type p None s_instance).1 = true) /\
    (forall p c s_instance, generated_loadRTTPlugin srv_type p (Some c) s_instance = (false, s_instance)).
Proof.
  intros Hps Hd. rewrite load_service_plugins_spec. eexists. split; [done|].
  destruct (register_all_lookup (all_services ps) r "") as [Hin _].
  { intros s s'. by apply (service_type_inj ps). }
  assert (forall p service, p ∈ ps -> service ∈ services p -> (p, service) ∈ all_services ps) as Hall.
  { intros p service Hp Hs. apply list_elem_of_bind. exists p. split; [by apply list_elem_of_fmap_2|done]. }
  split_and!.
  - intros p service Hp Hs. by apply (Hin (p, service)), Hall.
  - intros ty Hty. destruct (register_all_lookup (all_services ps) r ty) as [_ Hout].
    { intros s s'. by apply (service_type_inj ps). }
    apply Hout. intros s (p & (n & -> & Hn)%list_elem_of_fmap & Hp)%list_elem_of_bind. by apply Hty.
  - intros p s_instance. unfold generated_loadRTTPlugin, registerRosServiceProxies.
    by rewrite register_services_spec.
  - done.
Qed.
End ServiceTypes.

(** ** Witnesses *)

(** A reference repository: types by name, with their protocols. *)
Definition ref_type_infos : TypeInfoRepository := {|
  TypeInfos := gmap string (cxx_type * gmap Z cxx_type);
  TypeInfo := cxx_type * gmap Z cxx_type;
  Protocol := cxx_type;
  RosTypeTransporter T := T;
  add_generator g r :=
    match (r !! gen_name g : option (cxx_type * gmap Z cxx_type)) with
    | Some _ => r
    | None => <[gen_name g := (gen_type g, ∅)]> r
    end;
  type_named r n := r !! n;
  getTypeId ti := Some ti.1;
  addProtocol protocol_id p ti := (true, (ti.1, <[protocol_id := p]> ti.2));
  getProtocol ti protocol_id := ti.2 !! protocol_id |}.

Lemma ref_type_infos_laws : TypeInfoRepositoryLaws ref_type_infos.
Proof.
  split; cbn.
  - intros g r ->. exists (gen_type g, ∅). by rewrite lookup_insert_eq.
  - intros g r n Hn. destruct (r !! gen_name g); [done|]. by rewrite lookup_insert_ne.
  - intros protocol_id p ti _. by rewrite lookup_insert_eq.
  - done.
Qed.

Module Witnesses.
Definition std_msgs := MkInterfaces "std_msgs" ["Header"; "String"] [] [].
Definition example_interfaces := MkInterfaces "example_interfaces" ["String"] ["AddTwoInts"] ["Fibonacci"].
Abbreviation packages := [std_msgs; example_interfaces].

Lemma packages_well_formed : Forall well_formed packages.
Proof. repeat constructor; cbn; set_solver. Qed.
Lemma packages_named : NoDup (pkg_name <$> packages).
Proof. apply (bool_decide_unpack _). vm_compute. exact I. Qed.

Abbreviation loaded := (load_typekits (TI := ref_type_infos) packages ∅).

Lemma generated_plugins_fit_witness :
  (exists ti, findTypeInfo (lookup_in (TI := ref_type_infos) loaded (fun _ => None))
     (MkMember "names" ROS_TYPE_MESSAGE (Some ("std_msgs::msg", "String")) true 0 false 8) = Some ti /\
     getTypeId (TypeInfoRepository := ref_type_infos) ti = Some (vector_of (Ros "std_msgs" Msg "String"))) /\
  (exists ti, findTypeInfo (lookup_in (TI := ref_type_infos) loaded (fun _ => None))
     (MkMember "names" ROS_TYPE_MESSAGE (Some ("std_msgs::msg", "String")) true 3 true 8) = Some ti /\
     getTypeId (TypeInfoRepository := ref_type_infos) ti = Some (vector_of (Ros "std_msgs" Msg "String")) /\
     member_type (MkMember "names" ROS_TYPE_MESSAGE (Some ("std_msgs::msg", "String")) true 3 true 8)
       (Ros "std_msgs" Msg "String") = bounded_vector_of (Ros "std_msgs" Msg "String") 3) /\
  (exists ti, type_named (TypeInfoRepository := ref_type_infos) loaded "/example_interfaces/msg/String" = Some ti /\
     (generated_registerTransport (TI := ref_type_infos) std_msgs "" (Some ti)).1 = false).
Proof.
  destruct (generated_plugins_fit (TI := ref_type_infos) (TIL := ref_type_infos_laws) packages ∅ std_msgs "")
    as (Hm & Hb & Ht & _).
  - exact packages_well_formed.
  - exact packages_named.
  - intros g _. reflexivity.
  - left.
  - split_and!.
    + destruct (Hm std_msgs "String" (MkMember "names" ROS_TYPE_MESSAGE (Some ("std_msgs::msg", "String")) true 0 false 8)
                  (fun _ => None)) as (ti & Hti & HT); [left|right; left|reflexivity|reflexivity|].
      exists ti. split; [exact Hti|exact HT].
    + destruct (Hm std_msgs "String" (MkMember "names" ROS_TYPE_MESSAGE (Some ("std_msgs::msg", "String")) true 3 true 8)
                  (fun _ => None)) as (ti & Hti & HT); [left|right; left|reflexivity|reflexivity|].
      exists ti. split; [exact Hti|]. split; [exact HT|]. apply Hb. reflexivity.
    + destruct (Ht (MkGenerator RosIntrospectionTypeInfo (Ros "example_interfaces" Msg "String")
                      "/example_interfaces/msg/String")) as (ti & Hn & Hi & H).
      { apply (bool_decide_unpack _). vm_compute. exact I. }
      exists ti. split; [exact Hn|]. cbn [gen_type] in H. rewrite decide_False in H.
      * rewrite H. reflexivity.
      * apply (bool_decide_unpack _). vm_compute. exact I.
Defined.

Abbreviation conv := convert_camel_case_to_lower_case_underscore.
(** A conversion that keeps capitals together, as that of ROS does, gives these two messages one file name. *)
Definition lower (s : string) : string := String.string_of_list_ascii (tolower <$> String.list_ascii_of_string s).
Definition acronyms := MkInterfaces "p" ["AB"; "Ab"] [] [].

Lemma generated_typekit_links_witness :
  (forall i, i ∈ typekit_declarations conv example_interfaces (generate_typekit conv example_interfaces ∅) ->
     defined_once i (typekit_definitions conv example_interfaces (generate_typekit conv example_interfaces ∅))) /\
  ~ (forall i, i ∈ typekit_declarations lower acronyms (generate_typekit lower acronyms ∅) ->
       defined_once i (typekit_definitions lower acronyms (generate_typekit lower acronyms ∅))).
Proof.
  split.
  - apply (generated_typekit_links conv example_interfaces ∅).
    + repeat constructor; cbn; set_solver.
    + split_and!; apply (bool_decide_unpack _); vm_compute; exact I.
  - rewrite (proj2 (generated_typekit_links lower acronyms ∅ ltac:(repeat constructor; cbn; set_solver))).
    intros [H _]. revert H. apply (bool_decide_unpack _). vm_compute. exact I.
Defined.

Import RttReference Services.Witnesses.
Lemma service_plugins_register_types_witness :
  exists r', load_service_plugins (RO := ref_rtt_ops) (SL := ref_service_lib) (fun _ s => s) packages (Some types) = Some r' /\
    getServiceFactory "example_interfaces/srv/AddTwoInts" r' =
      Some (MkFactory (SL := ref_service_lib) "example_interfaces/srv/AddTwoInts" "AddTwoInts") /\
    hasServiceFactory "std_srvs/srv/Empty" r' = true.
Proof.
  destruct (service_plugins_register_types (RO := ref_rtt_ops) (SL := ref_service_lib) (fun _ s => s) packages types
              packages_well_formed packages_named) as (r' & Hl & Hin & Hout & _).
  exists r'. split; [exact Hl|]. split.
  - apply (Hin example_interfaces "AddTwoInts"); [right; left|left].
  - unfold hasServiceFactory. fold (getServiceFactory "std_srvs/srv/Empty" r'). rewrite Hout.
    + reflexivity.
    + intros p service Hp Hs E.
      repeat (apply elem_of_cons in Hp as [->|Hp]; [|try by apply elem_of_nil in Hp]); cbn in Hs;
        repeat (apply elem_of_cons in Hs as [->|Hs]; [discriminate E|]); by apply elem_of_nil in Hs.
Defined.
End Witnesses.
