(* ===== verification/MessagePackages.v ===== *)
(** Packages [rtt_ros2_idl], [rtt_ros2_topics], [rtt_ros2_services], [rtt_ros2_interfaces]
    (build functions) and [rtt_ros2] at run time: importing a package of messages.

    The build functions that generate the plugins for a package of ROS interfaces export
    the plugin dependencies of the result to the ament index; [import] reads them back
    and hands the packages to RTT's loader, which loads their typekits; the typekits
    register the types that members of messages are looked up by. The theorem follows
    this path from one end to the other. *)

From Stdlib Require Import Ascii.
From S2P Require Import Prelude RosImport RclcppAction RttServices Services Introspection Instantiations GeneratedPlugins.
Local Open Scope string_scope.
Local Open Scope list_scope.

(** The project with the plugins for a package of interfaces. *)
Definition project (pkg : string) : string := "rtt_ros2_" +:+ pkg.

Lemma project_inj p q : project p = project q -> p = q.
Proof. intros H. by injection H. Qed.

(** ** Plugin dependencies of generated plugins *)
Section Build.
(** [ament]'s list function; the run-time dependencies of a package, and the packages
    with interfaces, both as the ament index has them. *)
Variable list_append_unique : list string -> string -> list string.
Variable run_dependencies : string -> list string.
Variable interface_packages : list string.

(* [rtt_ros2/cmake/rtt_ros2_export_plugin_depend.cmake:15-31] rtt_ros2_export_plugin_depend *)
Definition rtt_ros2_export_plugin_depend (depend : string) (depends : list string) : list string :=
  list_append_unique depends depend.

(* [rtt_ros2_idl/cmake/rtt_ros2_idl-generate_typekit.cmake:59-71] rtt_ros2_export_plugin_depend *)
Definition generate_typekit_depends (pkg : string) (depends : list string) : list string :=
  let depends := rtt_ros2_export_plugin_depend "rtt_ros2_primitives_typekit" depends in
  fold_left (fun depends dep =>
    if decide (dep ∈ interface_packages) then rtt_ros2_export_plugin_depend (project dep) depends else depends)
    (run_dependencies pkg) depends.

(* [rtt_ros2_topics/cmake/rtt_ros2_topics-generate_ros_transport.cmake:49-53] rtt_ros2_export_plugin_depend *)
Definition generate_ros_transport_depends (depends : list string) : list string :=
  let depends := rtt_ros2_export_plugin_depend "rtt_ros2_node" depends in
  rtt_ros2_export_plugin_depend "rtt_ros2_topics" depends.

(* [rtt_ros2_services/cmake/rtt_ros2_services-generate_ros_service_plugin.cmake:54-58] rtt_ros2_export_plugin_depend *)
Definition generate_ros_service_plugin_depends (depends : list string) : list string :=
  let depends := rtt_ros2_export_plugin_depend "rtt_ros2_node" depends in
  rtt_ros2_export_plugin_depend "rtt_ros2_services" depends.

(* [rtt_ros2_interfaces/cmake/rtt_ros2_interfaces-generate_interfaces_plugins.cmake:19-23] rtt_ros2_generate_interfaces_plugins *)
Definition generate_interfaces_plugins_depends (pkg : string) : list string :=
  generate_ros_service_plugin_depends (generate_ros_transport_depends (generate_typekit_depends pkg [])).

Hypothesis list_append_unique_spec : forall l x y, x ∈ list_append_unique l y <-> x ∈ l \/ x = y.

Lemma generate_typekit_depends_spec pkg l x :
  x ∈ generate_typekit_depends pkg l <->
    x ∈ l \/ x = "rtt_ros2_primitives_typekit" \/
    exists d, d ∈ run_dependencies pkg /\ d ∈ interface_packages /\ x = project d.
Proof.
  unfold generate_typekit_depends, rtt_ros2_export_plugin_depend.
  assert (forall ds l, x ∈ fold_left (fun depends dep =>
      if decide (dep ∈ interface_packages) then list_append_unique depends (project dep) else depends) ds l <->
    x ∈ l \/ exists d, d ∈ ds /\ d ∈ interface_packages /\ x = project d) as H.
  { induction ds as [|d ds IH]; intros l'; cbn [fold_left].
    - split; [by left|]. intros [?|(d & Hd%elem_of_nil & _)]; done.
    - rewrite IH. destruct (decide (d ∈ interface_packages)) as [Hd|Hd];
        rewrite ?list_append_unique_spec; set_solver. }
  rewrite H, list_append_unique_spec. tauto.
Qed.

Lemma plugin_depends_spec pkg x :
  x ∈ generate_interfaces_plugins_depends pkg <->
    x ∈ ["rtt_ros2_primitives_typekit"; "rtt_ros2_node"; "rtt_ros2_topics"; "rtt_ros2_services"] \/
    exists d, d ∈ run_dependencies pkg /\ d ∈ interface_packages /\ x = project d.
Proof.
  unfold generate_interfaces_plugins_depends, generate_ros_service_plugin_depends, generate_ros_transport_depends,
    rtt_ros2_export_plugin_depend.
  rewrite !list_append_unique_spec, generate_typekit_depends_spec. set_solver.
Qed.
End Build.

(** ** Loading *)

(** RTT's loader, with the types that are known to RTT. *)
Class TypekitLoader (LO : LoaderOps) (TI : TypeInfoRepository) := { loader_types : LoaderWorld -> TypeInfos }.

(** The C++ type that is registered under a name. *)
Definition typeid_named {TI : TypeInfoRepository} (r : TypeInfos) (n : string) : option (option cxx_type) :=
  getTypeId <$> type_named r n.

(** Importing a project marks it as imported. Importing the plugins for a package of [ps]
    loads its typekit (and its transport, which adds no types); importing anything else
    registers no type under one of their names. *)
Class TypekitLoaderLaws {LO TI} (TL : TypekitLoader LO TI) (ps : list interfaces) := {
  import_marks n path w n' : (loader_import n path w).1 = true ->
    isImported (loader_import n path w).2 n' = bool_decide (n' = n) || isImported w n';
  import_typekit p path w : p ∈ ps -> (loader_import (project (pkg_name p)) path w).1 = true ->
    forall n, typeid_named (loader_types (loader_import (project (pkg_name p)) path w).2) n =
              typeid_named (generated_loadTypes p (loader_types w)).2 n;
  import_other n path w : n ∉ project <$> (pkg_name <$> ps) -> (loader_import n path w).1 = true ->
    forall g, g ∈ ps ≫= generated_types ->
      typeid_named (loader_types (loader_import n path w).2) (gen_name g) = typeid_named (loader_types w) (gen_name g) }.

Section Importing.
Context {AI : AmentIndex} {LO : LoaderOps} {TI : TypeInfoRepository} {TL : TypekitLoader LO TI}.
Variable ps : list interfaces.
Context {TIL : TypeInfoRepositoryLaws TI} {TLL : TypekitLoaderLaws TL ps}.
Hypothesis packages_ok : Forall well_formed ps.
Hypothesis packages_distinct : NoDup (pkg_name <$> ps).

(** Of every package either all types are registered, if its project is imported, or none. *)
Definition typekits_loaded (w : LoaderWorld) : Prop :=
  forall p g, p ∈ ps -> g ∈ generated_types p ->
    typeid_named (loader_types w) (gen_name g) =
      if isImported w (project (pkg_name p)) then Some (Some (gen_type g)) else None.

Lemma generated_of p g : p ∈ ps -> g ∈ generated_types p -> g ∈ ps ≫= generated_types.
Proof. intros Hp Hg. apply list_elem_of_bind. by exists p. Qed.

Lemma names_of_one p : p ∈ ps -> NoDup (gen_name <$> generated_types p).
Proof.
  intros Hp. pose proof (generated_names_nodup [p]) as H. cbn in H. rewrite app_nil_r in H. apply H.
  - constructor; [|constructor]. rewrite Forall_forall in packages_ok. by apply packages_ok.
  - apply NoDup_singleton.
Qed.

Lemma name_of_one p q g h :
  p ∈ ps -> q ∈ ps -> g ∈ generated_types p -> h ∈ generated_types q -> gen_name g = gen_name h -> p = q.
Proof.
  intros Hp Hq Hg Hh E.
  pose proof (proj1 (Forall_forall _ _) packages_ok) as Hok.
  destruct (generated_types_spec p g (Hok p Hp) Hg) as (Eg & Tg & Pg).
  destruct (generated_types_spec q h (Hok q Hq) Hh) as (Eh & Th & Ph).
  rewrite Eg, Eh in E. cbn [gen_name] in E. apply type_name_inj in E; [|done..].
  apply (package_by_name ps packages_distinct); [done..|congruence].
Qed.

(** One import of something that is not imported yet. *)
Lemma import_keeps_loaded n path w :
  typekits_loaded w -> isImported w n = false -> (loader_import n path w).1 = true ->
  typekits_loaded (loader_import n path w).2.
Proof.
  intros I Hn Hok p g Hp Hg. rewrite import_marks by done.
  destruct (decide (n ∈ project <$> (pkg_name <$> ps))) as [Hin|Hout].
  - apply list_elem_of_fmap in Hin as (pkg & -> & (q & -> & Hq)%list_elem_of_fmap).
    rewrite import_typekit by done. unfold generated_loadTypes. cbn [snd].
    assert (forall h, h ∈ generated_types q -> type_named (loader_types w) (gen_name h) = None) as Hnone.
    { intros h Hh. specialize (I q h Hq Hh). rewrite Hn in I. unfold typeid_named in I.
      by destruct (type_named _ _). }
    destruct (decide (p = q)) as [->|Hne].
    + rewrite bool_decide_eq_true_2 by done.
      destruct (add_generators_new _ (loader_types w) (names_of_one q Hq) Hnone g Hg) as (ti & Hti & HT & _).
      unfold typeid_named. rewrite Hti. cbn. by rewrite HT.
    + rewrite bool_decide_eq_false_2.
      * cbn [orb]. rewrite <- (I p g Hp Hg). unfold typeid_named. rewrite add_generators_other; [done|].
        intros (h & E & Hh)%list_elem_of_fmap. apply Hne. by apply (name_of_one p q g h).
      * intros E%project_inj. apply Hne. by apply (package_by_name ps).
  - rewrite (import_other n path w Hout Hok g (generated_of p g Hp Hg)), (I p g Hp Hg).
    rewrite bool_decide_eq_false_2; [done|]. intros <-. apply Hout. by do 2 apply list_elem_of_fmap_2.
Qed.

(** The loop over the packages to import, when the loader never fails. *)
Lemma import_all_succeeds path l m w :
  (forall n w', n ∈ l -> (loader_import n path w').1 = true) -> typekits_loaded w ->
  (import_all l path m w).1 = m /\ typekits_loaded (import_all l path m w).2 /\
  forall n, isImported (import_all l path m w).2 n =
    (bool_decide (n ∈ l) && bool_decide (n <> "rtt_ros2")) || isImported w n.
Proof.
  revert w. induction l as [|it l IH]; intros w Hok I; [split_and!; [done..|]; intros n; by rewrite bool_decide_eq_false_2 by apply not_elem_of_nil|].
  cbn [import_all].
  assert (forall n w', n ∈ l -> (loader_import n path w').1 = true) as Hok' by (intros n w' Hn; apply Hok; by right).
  destruct (bool_decide (it = "rtt_ros2") || isImported w it) eqn:Eit.
  - destruct (IH w Hok' I) as (-> & Hl & Hi). split_and!; [done..|]. intros n. rewrite Hi.
    destruct (decide (n = it)) as [->|Hne].
    + apply orb_true_iff in Eit as [->%bool_decide_eq_true|Eit]; [|by rewrite Eit, !orb_true_r].
      by rewrite (bool_decide_eq_false_2 ("rtt_ros2" <> "rtt_ros2")), !andb_false_r by tauto.
    + do 2 f_equal. apply bool_decide_ext. rewrite elem_of_cons. tauto.
  - apply orb_false_iff in Eit as [Hr Hw]. apply bool_decide_eq_false in Hr.
    pose proof (Hok it w ltac:(by left)) as Hit. pose proof (import_keeps_loaded it path w I Hw Hit) as I'.
    pose proof (import_marks it path w) as Hm.
    destruct (loader_import it path w) as [ok w']; cbn [fst snd] in *. subst ok.
    destruct (IH w' Hok' I') as (-> & Hl & Hi). split_and!; [done..|]. intros n.
    rewrite Hi, Hm by done. destruct (decide (n = it)) as [->|Hne].
    + rewrite !(bool_decide_eq_true_2 (it = it)), (bool_decide_eq_true_2 (it ∈ it :: l)),
        (bool_decide_eq_true_2 (it <> "rtt_ros2")) by (done || by left). by rewrite !orb_true_r.
    + rewrite (bool_decide_eq_false_2 (n = it)) by done. cbn [orb]. do 2 f_equal.
      apply bool_decide_ext. rewrite elem_of_cons. tauto.
Qed.

(** *** The whole import *)

Lemma collect_found f l c r :
  (forall x n, x ∈ l -> reaches x n -> found n) -> collect f l c = Some r -> exists c', r = Some c'.
Proof.
  revert l c. induction f as [|f IH]; intros l c Hl H.
  - destruct l; [|done]. injection H as <-. by eexists.
  - destruct l as [|n l]; [injection H as <-; by eexists|]. cbn in H.
    pose proof (Hl n n ltac:(by left) (rtc_refl _ _)) as Hf. unfold found in Hf.
    destruct (find_dep n) as [path deps| |] eqn:En; [|done..]. apply IH in H; [done|].
    intros x k [Hx|Hx]%elem_of_app Hk; [apply (Hl x); [by right|done]|].
    apply (Hl n); [by left|]. apply (rtc_l _ _ x); [|done]. unfold depends, deps_of. by rewrite En.
Qed.

Lemma import_collected_succeeds c w :
  missing_packages c = ∅ -> (forall n path w', n ∈ deps_to_import c -> (loader_import n path w').1 = true) ->
  typekits_loaded w ->
  exists w', import_collected c w = (true, w') /\ typekits_loaded w' /\
    forall n, n ∈ deps_to_import c -> n <> "rtt_ros2" -> isImported w' n = true.
Proof.
  intros Hm Hok I. unfold import_collected. rewrite Hm.
  destruct (deps_to_import c) as [|d ds] eqn:E.
  { exists w. split; [done|]. split; [done|]. intros n Hn. by apply not_elem_of_nil in Hn. }
  rewrite <- E in *.
  edestruct (import_all_succeeds (prepend_paths (reverse (search_paths c)) ∅ (getComponentPath w))
               (reverse (deps_to_import c)) ∅ w) as (Hmiss & Hl & Hi); [|done|].
  { intros n w' Hn. apply Hok. by rewrite elem_of_reverse in Hn. }
  destruct (import_all _ _ _ _) as [m w']. cbn [fst snd] in *. subst m. exists w'. split; [done|]. split; [done|].
  intros n Hn Hne. rewrite Hi, !bool_decide_eq_true_2; [done..|by apply elem_of_reverse].
Qed.

(** When the loader never fails and nothing is missing, import comes to a good end. *)
Lemma import_succeeds rank package w :
  (forall n d, depends n d -> rank d < rank n) -> (forall n, reaches package n -> found n) ->
  (forall n path w', reaches package n -> (loader_import n path w').1 = true) -> typekits_loaded w ->
  exists w', (forall fuel, turns rank package <= fuel -> import fuel package w = Some (Some (true, w'))) /\
    typekits_loaded w' /\ forall n, reaches package n -> n <> "rtt_ros2" -> isImported w' n = true.
Proof.
  intros Hrank Hf Hok I.
  destruct (collect_turns rank Hrank (turns rank package) [package] collect_start) as [r Hr]; [cbn; lia|].
  assert (exists c, r = Some c) as [c ->].
  { eapply collect_found; [|done]. intros x n ->%list_elem_of_singleton. apply Hf. }
  destruct (collect_members _ _ _ Hr) as [Hd Hm].
  assert (missing_packages c = ∅) as Hnone.
  { apply set_eq. intros n. rewrite Hm. split; [|by intros ?%not_elem_of_empty].
    intros [Hn Hmiss]. specialize (Hf n Hn). unfold found in Hf. by rewrite Hmiss in Hf. }
  destruct (import_collected_succeeds c w Hnone) as (w' & Hi & Hl & Himp); [|done|].
  { intros n path v Hn. apply Hok. by apply Hd. }
  exists w'. split; [|split; [done|]].
  - intros fuel Hle. unfold import. by rewrite (collect_more _ _ _ _ _ Hr Hle), Hi.
  - intros n Hn. apply Himp. apply Hd. auto.
Qed.

(** *** Dependencies from the build to the run *)
Section FromBuildToRun.
Variable list_append_unique : list string -> string -> list string.
Variable run_dependencies : string -> list string.
Hypothesis list_append_unique_spec : forall l x y, x ∈ list_append_unique l y <-> x ∈ l \/ x = y.
Abbreviation exported := (generate_interfaces_plugins_depends list_append_unique run_dependencies (pkg_name <$> ps)).

(** Every package with interfaces has its project in the ament index, with the exported
    list, whose elements are separated by semicolons: what the hook that registers the
    list relies on in ament. *)
Hypothesis projects_registered : forall p, p ∈ ps ->
  exists prefix, get_resource "rtt_ros2_plugin_depends" (project (pkg_name p)) =
    Ok (Some (join_with ";"%char (exported (pkg_name p)), prefix)).

Lemma identifier_no_semicolon s : identifier s -> has_char ";"%char s = false.
Proof.
  unfold identifier. induction s as [|c s IH]; intros H; [done|]. cbn in H |- *.
  apply Forall_cons in H as [Hc H]. rewrite (IH H), orb_false_r.
  apply bool_decide_eq_false. intros ->. discriminate Hc.
Qed.

Lemma exported_names p : p ∈ ps ->
  Forall (fun x => has_char ";"%char x = false) (exported (pkg_name p)) /\ last (exported (pkg_name p)) <> Some "".
Proof.
  intros Hp.
  assert (forall x, x ∈ exported (pkg_name p) -> has_char ";"%char x = false /\ x <> "") as H.
  { intros x [Hx|(d & _ & (q & -> & Hq)%list_elem_of_fmap & ->)]%plugin_depends_spec; [..|done].
    - revert x Hx. apply Forall_forall. apply (bool_decide_unpack _). vm_compute. exact I.
    - split; [|done].
      exact (identifier_no_semicolon _ (proj1 (proj1 (Forall_forall _ _) packages_ok q Hq))). }
  split; [apply Forall_forall; intros x Hx; by apply H|].
  intros E. apply last_Some_elem_of in E. by destruct (H "" E).
Qed.

Lemma project_depends p : p ∈ ps -> deps_of (project (pkg_name p)) = exported (pkg_name p).
Proof.
  intros Hp. destruct (projects_registered p Hp) as [prefix E]. destruct (exported_names p Hp) as [H1 H2].
  unfold deps_of, find_dep. rewrite E. by apply dependency_list_roundtrip.
Qed.

(** A package of interfaces uses another one. *)
Definition uses (p q : interfaces) : Prop := p ∈ ps /\ q ∈ ps /\ pkg_name q ∈ run_dependencies (pkg_name p).

Lemma uses_reaches p q : rtc uses p q -> reaches (project (pkg_name p)) (project (pkg_name q)).
Proof.
  induction 1 as [p|p x q (Hp & Hx & Hd) _ IH]; [apply rtc_refl|].
  apply (rtc_l _ _ (project (pkg_name x))); [|done]. unfold depends. rewrite project_depends by done.
  apply plugin_depends_spec; [done|]. right. exists (pkg_name x). split_and!; [done| |done].
  by apply list_elem_of_fmap_2.
Qed.

Lemma uses_in p q : p ∈ ps -> rtc uses p q -> q ∈ ps.
Proof. intros Hp. induction 1 as [|p x q (_ & Hx & _) _ IH]; [done|]. by apply IH. Qed.

(** C21 -- Importing the project of a message package makes its messages usable, if ament has registered the project of every package of interfaces with the dependencies the build functions exported, and importing a project has RTT load its typekit. If the dependencies have no cycle, all packages they lead to are in the index and RTT's loader can load them, import reports success, whatever was imported before, and afterwards, in the package and in all it uses directly or through others, every message type is registered: a member of such a type resolves to the type info of exactly its C++ type if it is no array or a dynamic one, to that of a C array if its size is fixed, and to that of an unbounded vector if it is a bounded array (a BoundedVector, not supported yet). Of every package of interfaces either all types are registered or none. *)
Theorem import_makes_messages_usable (rank : string -> nat) (p : interfaces) (w : LoaderWorld) :
  typekits_loaded w -> p ∈ ps ->
  (forall n d, depends n d -> rank d < rank n) ->
  (forall n, reaches (project (pkg_name p)) n -> found n) ->
  (forall n path w', reaches (project (pkg_name p)) n -> (loader_import n path w').1 = true) ->
  exists w',
    (forall fuel, turns rank (project (pkg_name p)) <= fuel ->
       import fuel (project (pkg_name p)) w = Some (Some (true, w'))) /\
    typekits_loaded w' /\
    forall q msg m by_value, rtc uses p q -> msg ∈ messages q ->
      type_id_ m = ROS_TYPE_MESSAGE -> nested_ m = Some (pkg_name q +:+ "::msg", msg) ->
      exists ti, findTypeInfo (lookup_in (loader_types w') by_value) m = Some ti /\
        getTypeId ti = Some (if is_bounded m then vector_of (msg_type q msg)
                             else rtt_type (member_type m (msg_type q msg))).
Proof.
  intros Hw Hp Hrank Hf Hok.
  destruct (import_succeeds rank _ w Hrank Hf Hok Hw) as (w' & Himp & Hl & Hi).
  exists w'. split; [done|]. split; [done|]. intros q msg m by_value Hu Hm Ht Hn.
  assert (q ∈ ps) as Hq by (by eapply uses_in).
  rewrite (proj1 (member_type_lookup (lookup_in (loader_types w') by_value) m _ _) Ht Hn).
  rewrite replace_separator_package by apply (proj1 (Forall_forall _ _) packages_ok q Hq).
  fold (access_type m (msg_type q msg)).
  destruct (message_generator_named q msg m) as (g & Hg & <- & ->).
  assert (g ∈ generated_types q) as Hgq.
  { unfold generated_types. apply elem_of_app. left. apply list_elem_of_bind. by exists msg. }
  specialize (Hl q g Hq Hgq). rewrite Hi in Hl; [|by apply uses_reaches|done].
  unfold typeid_named in Hl. cbn. destruct (type_named _ _) as [ti|]; [|done].
  injection Hl as Hl. by exists ti.
Qed.
End FromBuildToRun.
End Importing.

(** ** Witnesses *)
Module Witnesses.
Import GeneratedPlugins.Witnesses RosImport.Witnesses.

(** A loader that loads the typekits of the two packages. *)
#[export] Instance typekit_loader : LoaderOps := {|
  LoaderWorld := list string * TypeInfos (TypeInfoRepository := ref_type_infos);
  getComponentPath _ := "/usr/lib/orocos";
  isImported w n := bool_decide (n ∈ w.1);
  loader_import n path w :=
    (true, (n :: w.1, match list_find (fun p => project (pkg_name p) = n) packages with
                      | Some (_, p) => (generated_loadTypes p w.2).2
                      | None => w.2
                      end)) |}.
#[export] Instance typekit_loader_types : TypekitLoader typekit_loader ref_type_infos := {| loader_types w := w.2 |}.

Lemma typekit_loader_laws : TypekitLoaderLaws typekit_loader_types packages.
Proof.
  split.
  - intros n path w n' _. cbn. rewrite <- bool_decide_or. apply bool_decide_ext. by rewrite elem_of_cons.
  - intros p path w Hp _ n. cbn [loader_import typekit_loader snd loader_types typekit_loader_types].
    destruct (list_find _ packages) as [[i q]|] eqn:E.
    + apply list_find_Some in E as (Hi & Hq & _). apply project_inj in Hq.
      rewrite (package_by_name packages packages_named q p); [done| |done|done]. by eapply list_elem_of_lookup_2.
    + apply list_find_None in E. rewrite Forall_forall in E. by destruct (E p Hp).
  - intros n path w Hn _ g _. cbn [loader_import typekit_loader snd loader_types typekit_loader_types].
    destruct (list_find _ packages) as [[i q]|] eqn:E; [|done].
    apply list_find_Some in E as (Hi & <- & _). destruct Hn. do 2 apply list_elem_of_fmap_2.
    by eapply list_elem_of_lookup_2.
Qed.

Definition append_unique (l : list string) (x : string) : list string := if decide (x ∈ l) then l else l ++ [x].
Definition run_depends (pkg : string) : list string :=
  if decide (pkg = "example_interfaces") then ["rosidl_default_runtime"; "std_msgs"] else ["rosidl_default_runtime"].

Definition index_table : list (string * string) :=
  [("rtt_ros2_std_msgs", "rtt_ros2_primitives_typekit;rtt_ros2_node;rtt_ros2_topics;rtt_ros2_services");
   ("rtt_ros2_example_interfaces",
     "rtt_ros2_primitives_typekit;rtt_ros2_std_msgs;rtt_ros2_node;rtt_ros2_topics;rtt_ros2_services");
   ("rtt_ros2_primitives_typekit", ""); ("rtt_ros2_node", ""); ("rtt_ros2_topics", ""); ("rtt_ros2_services", "")].
Definition index : AmentIndex := ref_index index_table.

Definition index_rank (n : string) : nat :=
  if decide (n = "rtt_ros2_example_interfaces") then 2 else if decide (n = "rtt_ros2_std_msgs") then 1 else 0.

(** Dependencies lead from names in the table to names in the table of lower rank. *)
Lemma index_depends n d : depends (AI := index) n d -> d ∈ index_table.*1 /\ index_rank d < index_rank n.
Proof.
  unfold depends, deps_of, find_dep. cbn [get_resource index ref_index].
  destruct (bool_decide (n = "")); [by intros ?%not_elem_of_nil|].
  destruct (list_find _ _) as [[i [k v]]|] eqn:E; [|cbn; by intros ?%not_elem_of_nil].
  apply list_find_Some in E as (Hi & Hk & _). cbn in Hk. subst k. apply list_elem_of_lookup_2 in Hi.
  revert d. apply Forall_forall. revert n v Hi.
  assert (Forall (fun e : string * string => Forall (fun d => d ∈ index_table.*1 /\ index_rank d < index_rank e.1)
            (getline_all ";"%char e.2 "")) index_table) as H.
  { apply (bool_decide_unpack _). vm_compute. exact I. }
  intros n v Hi. rewrite Forall_forall in H. exact (H (n, v) Hi).
Qed.

Lemma index_reaches n m : n ∈ index_table.*1 -> reaches (AI := index) n m -> m ∈ index_table.*1.
Proof. intros Hn. induction 1 as [|n d m Hd _ IH]; [done|]. by apply IH, (index_depends n d). Qed.

Lemma index_found n : n ∈ index_table.*1 -> found (AI := index) n.
Proof.
  revert n. apply Forall_forall. unfold found. cbn. repeat constructor.
Qed.

Lemma import_makes_messages_usable_witness :
  exists w', import (AI := index) (LO := typekit_loader) 20 "rtt_ros2_example_interfaces" ([], ∅) = Some (Some (true, w')) /\
    exists ti, findTypeInfo (lookup_in (TI := ref_type_infos) w'.2 (fun _ => None))
      (MkMember "names" ROS_TYPE_MESSAGE (Some ("std_msgs::msg", "String")) true 0 false 8) = Some ti /\
      getTypeId (TypeInfoRepository := ref_type_infos) ti = Some (vector_of (Ros "std_msgs" Msg "String")).
Proof.
  destruct (import_makes_messages_usable (AI := index) packages (TIL := ref_type_infos_laws) (TLL := typekit_loader_laws)
              packages_well_formed packages_named append_unique run_depends) with (rank := index_rank)
    (p := example_interfaces) (w := ([], ∅) : LoaderWorld (LoaderOps := typekit_loader)) as (w' & Himp & _ & Hres).
  - intros l x y. unfold append_unique. destruct (decide (y ∈ l)); set_solver.
  - intros p Hp. exists "/opt/ros". apply elem_of_cons in Hp as [->|Hp]; [vm_compute; reflexivity|].
    apply list_elem_of_singleton in Hp as ->. vm_compute. reflexivity.
  - intros p g _ _. reflexivity.
  - right. left.
  - intros n d H. apply (index_depends n d H).
  - intros n H. apply index_found, (index_reaches "rtt_ros2_example_interfaces" n); [|exact H].
    apply (bool_decide_unpack _). vm_compute. exact I.
  - intros n path v _. reflexivity.
  - exists w'. split.
    + apply Himp. apply Nat.leb_le. vm_compute. reflexivity.
    + apply (Hres std_msgs "String"); [|right; left|reflexivity|reflexivity].
      apply rtc_once. split; [right; left|]. split; [left|]. apply (bool_decide_unpack _). vm_compute. exact I.
Defined.
End Witnesses.
